(* ===== verification/_CoqProject ===== *)
-Q . S2P
Prelude.v
Memory.v
Iomem.v
Irq.v
Virtio.v
VirtioRing.v
VirtioQueue.v
VirtioBlk.v
VirtioType.v
PosixHost.v
JsDisk.v
VirtioMmio.v
GuestRing.v
GuestInv.v
GuestDriver.v
BlkGuest.v
BlkDriver.v
BlkBatch.v
BlkProbe.v
Cpu.v
CpuInv.v
CpuIrq.v
CpuSafe.v
Js.v
Dirent.v
Stat.v
Readdir.v
FsOps.v
FsFile.v
DiskDev.v
Mount.v
Sysfs.v
MountSpec.v
Addon.v
Cmdline.v
Boot.v
