(* ===== verification/Prelude.v ===== *)
(** * node-lkl: a verification of the Linux kernel library and its node addon

    node-lkl runs the Linux kernel inside a node process to read and write the
    file systems of disk images.  The kernel is compiled as a library (LKL); the
    node addon starts it, gives it disks whose contents come from JavaScript, and
    offers the kernel's files through an interface like node's [fs].

    ** The program and the files of this development

    Paths are relative to src/; [linux] is src/linux.

    - The host library, linux/tools/lkl/lib.
      Iomem.v is iomem.c: the table of emulated I/O memory.  Virtio.v is
      virtio.c: registers and virtqueues of a device, seen from the device;
      VirtioRing.v and VirtioQueue.v prove what one request and one pass over a
      queue do, VirtioType.v that the fields keep their C types.  VirtioBlk.v is
      the block class of virtio_blk.c, PosixHost.v the disk on a host file of
      posix-host.c.  DiskDev.v is the life of a disk:
      virtio_dev_setup and virtio_dev_cleanup, lkl_disk_add and lkl_disk_remove.
      Mount.v is fs.c: directory streams, the search of a device number under
      sysfs, mount and umount; Sysfs.v and MountSpec.v prove what they do.
    - The kernel's port, linux/arch/lkl/kernel.
      Irq.v is irq.c: pending interrupts, their delivery and their numbers.
      Cpu.v is cpu.c with the parts of threads.c, irq.c and setup.c that use it:
      the lock that lets one host thread at a time run kernel code; CpuInv.v and
      CpuSafe.v prove its invariant and what follows.
    - The kernel's drivers of the disks.
      VirtioMmio.v is linux/drivers/virtio/virtio_mmio.c and virtio.c: register
      accesses, negotiation, queue set-up.  GuestRing.v is virtio_ring.c, the
      driver's side of a virtqueue; GuestInv.v is its invariant, GuestDriver.v
      runs driver and device on the same rings.  BlkGuest.v and BlkProbe.v are
      linux/drivers/block/virtio_blk.c; BlkDriver.v composes the whole path of a
      block request.  Cmdline.v is the parsing of the kernel's command line
      (lib/kstrtox.c, lib/vsprintf.c, lib/cmdline.c, kernel/params.c and
      vm_cmdline_set), Boot.v its agreement with what DiskDev.v writes there.
    - The kernel's files as the addon sees them.
      Dirent.v is getdents64 of fs/readdir.c with the directories of fs/libfs.c,
      and the parser of the addon; Stat.v is cp_new_stat of fs/stat.c, the parser
      of the addon and the Stats objects.
    - The node addon, src and lib.
      Addon.v is async.cc, worker.cc and queue.js: the threads and their
      hand-overs.  Js.v is the native system call of node_lkl.cc with the
      operation queue and the memory behind Buffers.  JsDisk.v is disk.js and the
      request path of disk.cc.  Readdir.v is readdir.js; FsOps.v is binding.js
      and the operations of fs.js that make one system call, with the flags of
      internal/fs.js; FsFile.v is readFile, writeFile and appendFile of fs.js.
      Mount.v holds mount and umount of disk.cc and lkl.js.

    This file has what all of them share: outcomes, the state monad, machine
    integers, error numbers, tactics and hint databases.  Memory.v is the byte
    memory that kernel, device and addon share.

    ** How the code is modelled

    A C function is a function in the monad [M S A]: it takes the state of its
    component, a Record, and returns a value and the new state, or faults
    ([Segv], [Panicked], [NoFuel]).  Integers are Z, cut to their width where the
    source cuts them ([u32], [s32], ...).  Memory is a finite map of bytes:
    rings, headers and buffers are read and written with loads and stores, so
    aliasing and out-of-range accesses are part of the model.  Code that runs on
    several threads (Cpu.v, Irq.v, Addon.v) is a step relation whose steps are
    the atomic actions of the source; theorems about it hold for every
    interleaving.  JavaScript callbacks are trees of effects (Js.v).

    What is not part of the repository is a parameter: the system calls of the
    kernel (DiskDev.v, Mount.v, FsOps.v, FsFile.v), interrupt handlers (Irq.v), the
    scheduler's choice of a task (Cpu.v), the transfers of pread and pwrite
    (PosixHost.v), the user's disk object (JsDisk.v).  Where a theorem needs more
    of them than that they return, it says so in a class ([BlkBackend],
    [FileBackend], [JsFile], [Sysfs]) or a hypothesis; each such theorem has a
    witness with a concrete instance.

    ** What the theorems show

    - Disk requests.  A batch of reads and writes of the block layer goes through
      the driver, the rings, the device, the block class and the disk, and acts
      as reads and writes of a file in that order ([BlkDriver.block_batch]); the
      layers below have theorems of their own ([GuestDriver.batch_roundtrip],
      [VirtioQueue.process_queue_drains], [PosixHost.disk_queue_write_read]).
    - Ownership of the CPU: mutual exclusion, no use after free at shutdown, no
      lost wake-up, no forgotten interrupt (CpuSafe.v); interrupts are neither
      lost nor invented (Irq.v).
    - The addon: one operation at a time, callbacks in order, no deadlock
      (Addon.v); readdir, readFile and writeFile do what they say (Readdir.v,
      FsFile.v); the other operations of fs.js make the one system call they
      stand for, with a NUL-terminated path and a range inside the Buffer
      (FsOps.v); struct stat and directory entries survive their encodings.
    - Types: whatever the guest writes to the registers, the fields of a device
      stay in the ranges of their C types and its identity does not change
      (VirtioType.v).
    - Disks and mounts: adding and removing restores every table and never
      faults (DiskDev.v); host and kernel agree on the devices of the command
      line (Boot.v); the device number search is a walk in sysfs (Sysfs.v);
      mounting changes what it should, unmounting undoes it, and the table of
      lkl.js is the list of mounts (MountSpec.v); probing a disk holds and gives
      back its resources (BlkProbe.v).
    - Error paths and limits: refused devices, bad used entries, chains that are
      too long, sector numbers past 2^32, errors of disk objects.

    ** Fuel

    Loops that the source does not bound take fuel and return [NoFuel] without
    it; the theorems prove that a stated amount is enough, so none of them is
    about runs that give up.  A queue pass needs more than the number of pending
    requests, a completion loop more than the batch (BlkDriver.v), a listing more
    than the names of the directory (Readdir.v, Sysfs.v), the unmount loop the
    timeout in milliseconds, which it consumes by tens (MountSpec.v), the parsers
    the length of their input (Cmdline.v).  Bounds of the source are kept:
    20 buffers per request, 4096 interrupts, 256 I/O memory regions, paths of
    4096 bytes, 1024-byte directory buffers, 4096-byte command lines.

    ** Not modelled

    The kernel proper (file systems, block layer, scheduler, memory management,
    network) is upstream Linux and appears as parameters with contracts.  Network
    devices (virtio_net*.c, net.c) are not used by the addon.  nt-host.c is
    posix-host.c for another system.  Thread creation, timers, consoles and the
    boot memory allocator of arch/lkl are thin wrappers of host operations.  The
    streams, watchers and path resolution of fs.js are node's own code, its
    synchronous functions all end in an exception (binding.js asks for a
    callback), and so do the ones binding.js does not implement.  Promises,
    libuv and async.queue are third-party and modelled from their documentation
    where the addon depends on them.  Legacy (version 1) virtio devices, the DMA
    API and suspend/resume are not used on this platform. *)

From Stdlib Require Export ZArith Lia Bool List Btauto.
From stdpp Require Export base option list gmap numbers.

#[global] Open Scope Z_scope.

Ltac Zify.zify_post_hook ::= Z.div_mod_to_equations.

(** ** Outcomes

    A C call either returns or takes the process down.  [Segv] stands for an
    access outside an object (the undefined behaviour the C standard leaves
    open), [Panicked] for [lkl_host_ops.panic()] / [lkl_bug], [NoFuel] for a
    loop cut by the model's fuel.  An error code returned to the caller is an
    ordinary value, never a [Fail]. *)
Inductive fault := Segv | Panicked | NoFuel.

Inductive res (A : Type) :=
| Ok (a : A)
| Fail (e : fault).
Arguments Ok {A} _.
Arguments Fail {A} _.

#[export] Instance fault_eq_dec : EqDecision fault.
Proof. solve_decision. Defined.

(** State-passing computations that can fault. *)
Definition M (S A : Type) := S -> res (A * S).

Definition retM {S A} (a : A) : M S A := fun s => Ok (a, s).

Definition failM {S A} (e : fault) : M S A := fun _ => Fail e.

Definition bindM {S A B} (c : M S A) (k : A -> M S B) : M S B :=
  fun s => match c s with
           | Ok (a, s') => k a s'
           | Fail e => Fail e
           end.

Definition getM {S} : M S S := fun s => Ok (s, s).

Definition putM {S} (s : S) : M S unit := fun _ => Ok (tt, s).

Definition modifyM {S} (f : S -> S) : M S unit := fun s => Ok (tt, f s).

(** Lift a partial value: [None] is an access outside the object. *)
Definition someM {S A} (o : option A) : M S A :=
  fun s => match o with Some a => Ok (a, s) | None => Fail Segv end.

Declare Scope lkl_scope.
Delimit Scope lkl_scope with lkl.
#[global] Open Scope lkl_scope.

Notation "'let*' x ':=' c 'in' k" := (bindM c (fun x => k))
  (at level 10, x name, c at level 100, k at level 200) : lkl_scope.
Notation "'let*' ' p ':=' c 'in' k" := (bindM c (fun p => k))
  (at level 10, p strict pattern, c at level 100, k at level 200) : lkl_scope.
Notation "c ';;;' k" := (bindM c (fun _ => k))
  (at level 199, right associativity) : lkl_scope.

Lemma bindM_ok {S A B} (c : M S A) (k : A -> M S B) s a s' :
  c s = Ok (a, s') -> bindM c k s = k a s'.
Proof. unfold bindM. by intros ->. Qed.

Lemma bindM_fail {S A B} (c : M S A) (k : A -> M S B) s e :
  c s = Fail e -> bindM c k s = Fail e.
Proof. unfold bindM. by intros ->. Qed.

Lemma bindM_inv {S A B} (c : M S A) (k : A -> M S B) s b s'' :
  bindM c k s = Ok (b, s'') ->
  exists a s', c s = Ok (a, s') /\ k a s' = Ok (b, s'').
Proof. unfold bindM. destruct (c s) as [[a s']|e]; [eauto|done]. Qed.

Lemma bindM_assoc {S A B C} (c : M S A) (k : A -> M S B) (h : B -> M S C) s :
  bindM (bindM c k) h s = bindM c (fun a => bindM (k a) h) s.
Proof. unfold bindM. by destruct (c s) as [[a s']|e]. Qed.

(** Run the leading computation of a goal [bindM c k s = _] with a known
    outcome of [c]; [mstep] looks for that outcome in the context and in the
    hint database [lkl]. *)
Create HintDb lkl.

Ltac mstep :=
  first
    [ erewrite bindM_ok; [|solve [eassumption | reflexivity | eauto with lkl]]
    | erewrite bindM_fail; [|solve [eassumption | reflexivity | eauto with lkl]] ];
  cbv beta iota.

Ltac minv H :=
  let a := fresh "a" in let s := fresh "s" in let E := fresh "E" in
  apply bindM_inv in H; destruct H as (a & s & E & H).

(** ** Machine integers

    Unsigned C integers of width [w] are kept in [0, 2^w); every operation
    that can leave the range is followed by its wrap. *)
Definition wrap (w z : Z) : Z := z mod 2 ^ w.

Definition u8 (z : Z) : Z := z mod 256.
Definition u16 (z : Z) : Z := z mod 65536.
Definition u32 (z : Z) : Z := z mod 4294967296.
Definition u64 (z : Z) : Z := z mod 18446744073709551616.

(** Conversion to a signed 32-bit [int] (two's complement, as gcc defines it). *)
Definition s32 (z : Z) : Z :=
  let r := u32 z in if r <? 2147483648 then r else r - 4294967296.

Definition s64 (z : Z) : Z :=
  let r := u64 z in
  if r <? 9223372036854775808 then r else r - 18446744073709551616.

Lemma u16_range z : 0 <= u16 z < 65536.
Proof. unfold u16. lia. Qed.
Lemma u32_range z : 0 <= u32 z < 4294967296.
Proof. unfold u32. lia. Qed.
Lemma u64_range z : 0 <= u64 z < 18446744073709551616.
Proof. unfold u64. lia. Qed.
Lemma u8_range z : 0 <= u8 z < 256.
Proof. unfold u8. lia. Qed.

Lemma u16_id z : 0 <= z < 65536 -> u16 z = z.
Proof. unfold u16. lia. Qed.
Lemma u32_id z : 0 <= z < 4294967296 -> u32 z = z.
Proof. unfold u32. lia. Qed.
Lemma u64_id z : 0 <= z < 18446744073709551616 -> u64 z = z.
Proof. unfold u64. lia. Qed.
Lemma u8_id z : 0 <= z < 256 -> u8 z = z.
Proof. unfold u8. lia. Qed.
Lemma s64_id z : -9223372036854775808 <= z < 9223372036854775808 -> s64 z = z.
Proof. unfold s64, u64. intros. destruct (_ <? _) eqn:E; lia. Qed.
Lemma s32_range z : -2147483648 <= s32 z < 2147483648.
Proof. unfold s32. pose proof (u32_range z). case_match; lia. Qed.

Lemma s32_id z : -2147483648 <= z < 2147483648 -> s32 z = z.
Proof. unfold s32, u32. intros. case_match; lia. Qed.

#[export] Hint Resolve u8_range u16_range u32_range u64_range : lkl.

(** Bitwise identities, bit by bit. *)
Ltac bits :=
  apply Z.bits_inj'; intros ? ?;
  repeat first
    [ rewrite Z.land_spec | rewrite Z.lor_spec | rewrite Z.lxor_spec
    | rewrite Z.ldiff_spec | rewrite Z.bits_0 ].

(** Masking with [2^k - 1] keeps the low [k] bits. *)
Lemma land_pow2_mask a k :
  0 <= k -> Z.land a (2 ^ k - 1) = a mod 2 ^ k.
Proof. intros. rewrite <- Z.land_ones by lia. by rewrite Z.ones_equiv, Z.sub_1_r. Qed.

Lemma lor_shiftl_low h l k :
  0 <= k -> 0 <= l < 2 ^ k -> Z.lor (Z.shiftl h k) l = h * 2 ^ k + l.
Proof.
  intros Hk Hl. rewrite <- Z.shiftl_mul_pow2 by lia.
  assert (Z.land (Z.shiftl h k) l = 0) as Hd.
  { apply Z.bits_inj'. intros n Hn. rewrite Z.land_spec, Z.bits_0, Z.shiftl_spec by done.
    destruct (Z.ltb_spec n k); [by rewrite Z.testbit_neg_r by lia|].
    rewrite <- (Z.mod_small l (2 ^ k)) by lia. rewrite Z.mod_pow2_bits_high by lia. btauto. }
  rewrite Z.add_nocarry_lxor by done. symmetry. by apply Z.lxor_lor.
Qed.

Lemma lor_lt_pow2 a b k : 0 <= k -> 0 <= a < 2 ^ k -> 0 <= b < 2 ^ k -> Z.lor a b < 2 ^ k.
Proof.
  intros Hk Ha Hb.
  assert (Z.lor a b = Z.lor a b mod 2 ^ k) as ->; [|apply Z.mod_pos_bound, Z.pow_pos_nonneg; lia].
  rewrite <- (Z.mod_small a (2 ^ k)), <- (Z.mod_small b (2 ^ k)) by lia.
  apply Z.bits_inj'. intros n Hn. destruct (Z.ltb_spec n k).
  - by rewrite Z.mod_pow2_bits_low by lia.
  - rewrite Z.lor_spec, !Z.mod_pow2_bits_high by lia. done.
Qed.

Lemma land_mask_range a n :
  0 <= n -> 0 <= Z.land a n <= n.
Proof.
  intros Hn. split; [by apply Z.land_nonneg; right|].
  assert (n = Z.land a n + Z.ldiff n a) as Hsum.
  { rewrite Z.add_nocarry_lxor by (bits; btauto).
    bits; btauto. }
  assert (0 <= Z.ldiff n a) by (apply Z.ldiff_nonneg; auto). lia.
Qed.

Lemma ldiff_range a n : 0 <= n -> 0 <= Z.ldiff n a <= n.
Proof.
  intros Hn. assert (n = Z.land a n + Z.ldiff n a) as Hsum.
  { rewrite Z.add_nocarry_lxor by (bits; btauto). bits; btauto. }
  assert (0 <= Z.ldiff n a) by (apply Z.ldiff_nonneg; auto).
  assert (0 <= Z.land a n) by (apply Z.land_nonneg; auto). lia.
Qed.

(** ** Error numbers (asm-generic/errno-base.h, errno.h) *)
Definition ENOENT : Z := 2.
Definition ENOMEM : Z := 12.
Definition EBUSY : Z := 16.
Definition EEXIST : Z := 17.
Definition EINVAL : Z := 22.
Definition ENOSYS : Z := 38.
Definition ENOBUFS : Z := 105.
