(* ===== verification/Memory.v ===== *)
(** * Memory

    The address space the LKL process and its in-process kernel share: the
    virtqueues, the request buffers and the device structures all live in it.
    A byte that is not mapped makes the access fault.  Multi-byte values are
    little-endian (an x86-64 host: [le16toh] and friends are the identity). *)

From S2P Require Import Prelude.

Abbreviation mem := (gmap Z Z).

(** [load n a m]: the [n]-byte little-endian value at address [a]. *)
Fixpoint load (n : nat) (a : Z) (m : mem) : option Z :=
  match n with
  | O => Some 0
  | S n' =>
      match m !! a, load n' (a + 1) m with
      | Some b, Some r => Some (u8 b + 256 * r)
      | _, _ => None
      end
  end.

Fixpoint store (n : nat) (a v : Z) (m : mem) : option mem :=
  match n with
  | O => Some m
  | S n' =>
      match m !! a with
      | Some _ => store n' (a + 1) (v / 256) (<[a := u8 v]> m)
      | None => None
      end
  end.

(** [memcpy] from and to a byte list. *)
Fixpoint load_bytes (n : nat) (a : Z) (m : mem) : option (list Z) :=
  match n with
  | O => Some []
  | S n' =>
      match m !! a, load_bytes n' (a + 1) m with
      | Some b, Some r => Some (u8 b :: r)
      | _, _ => None
      end
  end.

Fixpoint store_bytes (a : Z) (bs : list Z) (m : mem) : option mem :=
  match bs with
  | [] => Some m
  | b :: bs' =>
      match m !! a with
      | Some _ => store_bytes (a + 1) bs' (<[a := u8 b]> m)
      | None => None
      end
  end.

(** The [n] little-endian bytes of a value, and back. *)
Fixpoint le_bytes (n : nat) (v : Z) : list Z :=
  match n with
  | O => []
  | S n' => u8 v :: le_bytes n' (v / 256)
  end.

Fixpoint le_value (bs : list Z) : Z :=
  match bs with
  | [] => 0
  | b :: bs' => u8 b + 256 * le_value bs'
  end.

(** Regions are predicates on addresses. *)
Definition range (a n i : Z) : Prop := a <= i < a + n.

Definition mapped (m : mem) (a n : Z) : Prop :=
  forall i, range a n i -> is_Some (m !! i).

(** [m'] differs from [m] only inside region [P], and maps the same bytes. *)
Definition frame (P : Z -> Prop) (m m' : mem) : Prop :=
  (forall i, ~ P i -> m' !! i = m !! i) /\
  (forall i, is_Some (m' !! i) <-> is_Some (m !! i)).

Definition disjoint_ranges (a n b k : Z) : Prop := a + n <= b \/ b + k <= a.

#[export] Instance frame_refl P : Reflexive (frame P).
Proof. split; [done|done]. Qed.

Lemma frame_trans P m1 m2 m3 : frame P m1 m2 -> frame P m2 m3 -> frame P m1 m3.
Proof.
  intros [H1 D1] [H2 D2]. split; intros i.
  - intros HP. by rewrite H2, H1.
  - by rewrite D2, D1.
Qed.

#[export] Instance frame_transitive P : Transitive (frame P).
Proof. intros ???. apply frame_trans. Qed.

Lemma frame_weaken (P Q : Z -> Prop) m m' :
  (forall i, P i -> Q i) -> frame P m m' -> frame Q m m'.
Proof. intros HPQ [H D]. split; [|done]. intros i HQ. apply H. eauto. Qed.

Lemma frame_insert (P : Z -> Prop) m a b :
  P a -> is_Some (m !! a) -> frame P m (<[a := b]> m).
Proof.
  intros HP Ha. split; intros i.
  - intros Hi. rewrite lookup_insert_ne; [done|]. by intros ->.
  - destruct (decide (a = i)) as [->|Hne].
    + rewrite lookup_insert_eq. split; eauto.
    + by rewrite lookup_insert_ne.
Qed.

Lemma mapped_frame P m m' a n : frame P m m' -> mapped m a n -> mapped m' a n.
Proof. intros [_ D] Hm i Hi. apply D. by apply Hm. Qed.

Lemma mapped_frame_iff P m m' a n : frame P m m' -> mapped m' a n <-> mapped m a n.
Proof. intros [_ D]. split; intros Hm i Hi; apply D; by apply Hm. Qed.

Lemma mapped_sub m a n b k :
  mapped m a n -> a <= b -> b + k <= a + n -> mapped m b k.
Proof. unfold mapped, range. intros Hm ?? i ?. apply Hm. lia. Qed.

Lemma mapped_cons m a n :
  mapped m a (Z.of_nat (S n)) <-> is_Some (m !! a) /\ mapped m (a + 1) (Z.of_nat n).
Proof.
  unfold mapped, range. split.
  - intros H. split; [apply H; lia|]. intros i ?. apply H. lia.
  - intros [H0 H] i ?. destruct (decide (i = a)) as [->|]; [done|]. apply H. lia.
Qed.

(** ** Scalars *)

Lemma load_range n a m v : load n a m = Some v -> 0 <= v < 256 ^ Z.of_nat n.
Proof.
  revert a v. induction n as [|n IH]; simpl load; intros a v H.
  { simplify_eq. lia. }
  destruct (m !! a) as [b|]; [|done]. destruct (load n _ m) as [r|] eqn:E; [|done].
  simplify_eq. apply IH in E. pose proof (u8_range b).
  rewrite Nat2Z.inj_succ, Z.pow_succ_r by lia. lia.
Qed.

Lemma load_some n a m : mapped m a (Z.of_nat n) -> exists v, load n a m = Some v.
Proof.
  revert a. induction n as [|n IH]; intros a; [simpl; eauto|].
  rewrite mapped_cons. intros [[b Hb] H]. simpl. rewrite Hb.
  destruct (IH _ H) as [v ->]. eauto.
Qed.

Lemma load_mapped n a m v : load n a m = Some v -> mapped m a (Z.of_nat n).
Proof.
  revert a v. induction n as [|n IH]; intros a v; [intros _ i; unfold range; lia|].
  simpl load. intros H. rewrite mapped_cons.
  destruct (m !! a); [|done]. destruct (load n _ m) eqn:E; [|done]. eauto.
Qed.

Lemma load_ext n a m m' :
  (forall i, range a (Z.of_nat n) i -> m' !! i = m !! i) -> load n a m' = load n a m.
Proof.
  revert a. induction n as [|n IH]; intros a H; [done|]. simpl.
  rewrite H by (unfold range; lia). rewrite IH; [done|].
  intros i ?. apply H. unfold range in *. lia.
Qed.

Lemma load_frame n a P m m' :
  frame P m m' -> (forall i, range a (Z.of_nat n) i -> ~ P i) -> load n a m' = load n a m.
Proof. intros [H _] HP. apply load_ext. eauto. Qed.

Lemma store_frame n a v m m' :
  store n a v m = Some m' -> frame (range a (Z.of_nat n)) m m'.
Proof.
  revert a v m. induction n as [|n IH]; intros a v m; simpl store; [intros [= <-]; done|].
  destruct (m !! a) eqn:E; [|done]. intros H%IH.
  eapply frame_trans; [apply (frame_insert _ m a (u8 v)); [unfold range; lia|eauto]|].
  eapply frame_weaken; [|done]. unfold range. lia.
Qed.

Lemma store_some n a v m : mapped m a (Z.of_nat n) -> exists m', store n a v m = Some m'.
Proof.
  revert a v m. induction n as [|n IH]; intros a v m; [simpl; eauto|].
  rewrite mapped_cons. intros [[b Hb] H]. simpl. rewrite Hb. apply IH.
  eapply mapped_frame; [|done]. apply (frame_insert (fun i => i = a)); eauto.
Qed.

Lemma load_store_eq n a v m m' :
  store n a v m = Some m' -> load n a m' = Some (v mod 256 ^ Z.of_nat n).
Proof.
  revert a v m. induction n as [|n IH]; intros a v m; simpl store.
  { intros _. simpl load. by rewrite Z.mod_1_r. }
  destruct (m !! a) eqn:E; [|done]. intros H. simpl load.
  rewrite (IH _ _ _ H). destruct (store_frame _ _ _ _ _ H) as [Hf _].
  rewrite Hf by (unfold range; lia). rewrite lookup_insert_eq.
  f_equal. unfold u8. rewrite Z.mod_mod by lia.
  rewrite Nat2Z.inj_succ, Z.pow_succ_r, (Z.rem_mul_r v 256) by lia. done.
Qed.

Lemma load_store_ne n a k b v m m' :
  store k b v m = Some m' ->
  disjoint_ranges a (Z.of_nat n) b (Z.of_nat k) ->
  load n a m' = load n a m.
Proof.
  intros H Hd. eapply load_frame; [by eapply store_frame|].
  unfold range, disjoint_ranges in *. lia.
Qed.

Lemma store_mapped n a v m m' b k :
  store n a v m = Some m' -> mapped m b k -> mapped m' b k.
Proof. intros Hf%store_frame Hm. by eapply mapped_frame. Qed.

(** ** Byte strings *)

Lemma length_le_bytes n v : length (le_bytes n v) = n.
Proof. revert v. induction n; intros; simpl; auto. Qed.

Lemma le_value_bytes n v : le_value (le_bytes n v) = v mod 256 ^ Z.of_nat n.
Proof.
  revert v. induction n as [|n IH]; intros v; simpl le_bytes; simpl le_value.
  { by rewrite Z.mod_1_r. }
  rewrite IH. unfold u8. rewrite Z.mod_mod by lia.
  by rewrite Nat2Z.inj_succ, Z.pow_succ_r, (Z.rem_mul_r v 256) by lia.
Qed.

Definition is_byte (b : Z) : Prop := 0 <= b < 256.

Lemma le_bytes_value bs : Forall is_byte bs -> le_bytes (length bs) (le_value bs) = bs.
Proof.
  induction 1 as [|b bs Hb Hbs IH]; [done|]. simpl. rewrite (u8_id b) by exact Hb.
  unfold is_byte in Hb.
  assert ((b + 256 * le_value bs) / 256 = le_value bs) as -> by lia. rewrite IH.
  f_equal. unfold u8. lia.
Qed.

Lemma load_bytes_length n a m bs : load_bytes n a m = Some bs -> length bs = n.
Proof.
  revert a bs. induction n as [|n IH]; intros a bs; simpl; [by intros [= <-]|].
  destruct (m !! a); [|done]. destruct (load_bytes n _ m) eqn:E; [|done].
  intros [= <-]. simpl. f_equal. eauto.
Qed.

Lemma load_bytes_some n a m :
  mapped m a (Z.of_nat n) -> exists bs, load_bytes n a m = Some bs.
Proof.
  revert a. induction n as [|n IH]; intros a; [simpl; eauto|].
  rewrite mapped_cons. intros [[b Hb] H]. simpl. rewrite Hb.
  destruct (IH _ H) as [v ->]. eauto.
Qed.

Lemma load_bytes_ext n a m m' :
  (forall i, range a (Z.of_nat n) i -> m' !! i = m !! i) ->
  load_bytes n a m' = load_bytes n a m.
Proof.
  revert a. induction n as [|n IH]; intros a H; [done|]. simpl.
  rewrite H by (unfold range; lia). rewrite IH; [done|].
  intros i ?. apply H. unfold range in *. lia.
Qed.

Lemma load_bytes_frame n a P m m' :
  frame P m m' -> (forall i, range a (Z.of_nat n) i -> ~ P i) ->
  load_bytes n a m' = load_bytes n a m.
Proof. intros [H _] HP. apply load_bytes_ext. eauto. Qed.

Lemma store_bytes_frame a bs m m' :
  store_bytes a bs m = Some m' -> frame (range a (Z.of_nat (length bs))) m m'.
Proof.
  revert a m. induction bs as [|b bs IH]; intros a m; simpl store_bytes; [intros [= <-]; done|].
  destruct (m !! a) eqn:E; [|done]. intros H%IH.
  eapply frame_trans; [apply (frame_insert _ m a (u8 b)); [unfold range; simpl; lia|eauto]|].
  eapply frame_weaken; [|done]. unfold range. simpl. lia.
Qed.

Lemma store_bytes_some a bs m :
  mapped m a (Z.of_nat (length bs)) -> exists m', store_bytes a bs m = Some m'.
Proof.
  revert a m. induction bs as [|b bs IH]; intros a m; [simpl; eauto|].
  simpl length. rewrite mapped_cons. intros [[c Hc] H]. simpl. rewrite Hc. apply IH.
  eapply mapped_frame; [|done]. apply (frame_insert (fun i => i = a)); eauto.
Qed.

(** What is copied in can be copied out. *)
Lemma load_store_bytes a bs m m' :
  store_bytes a bs m = Some m' ->
  load_bytes (length bs) a m' = Some (map u8 bs).
Proof.
  revert a m. induction bs as [|b bs IH]; intros a m; simpl; [done|].
  destruct (m !! a) eqn:E; [|done]. intros H.
  rewrite (IH _ _ H). destruct (store_bytes_frame _ _ _ _ H) as [Hf _].
  rewrite Hf by (unfold range; lia). rewrite lookup_insert_eq.
  do 2 f_equal. unfold u8. by rewrite Z.mod_mod by lia.
Qed.

Lemma store_bytes_app a bs1 bs2 m :
  store_bytes a (bs1 ++ bs2) m =
  m' ← store_bytes a bs1 m; store_bytes (a + Z.of_nat (length bs1)) bs2 m'.
Proof.
  revert a m. induction bs1 as [|b bs1 IH]; intros a m; simpl.
  { by rewrite Z.add_0_r. }
  case_match; [|done]. rewrite IH. do 2 f_equal. lia.
Qed.

Lemma load_bytes_app n1 n2 a m :
  load_bytes (n1 + n2) a m =
  bs1 ← load_bytes n1 a m; bs2 ← load_bytes n2 (a + Z.of_nat n1) m; Some (bs1 ++ bs2).
Proof.
  revert a. induction n1 as [|n1 IH]; intros a.
  { simpl. rewrite Z.add_0_r. by destruct (load_bytes n2 a m). }
  simpl. rewrite IH.
  replace (a + 1 + Z.of_nat n1) with (a + Z.of_nat (S n1)) by lia.
  destruct (m !! a), (load_bytes n1 (a + 1) m); simpl; try done.
  by destruct (load_bytes n2 _ m).
Qed.

Lemma load_bytes_u8 n a m bs : load_bytes n a m = Some bs -> map u8 bs = bs.
Proof.
  revert a bs. induction n as [|n IH]; intros a bs; simpl; [by intros [= <-]|].
  destruct (m !! a); [|done]. destruct (load_bytes n (a + 1) m) eqn:E; [|done].
  intros [= <-]. simpl. rewrite (IH _ _ E). f_equal. apply u8_id, u8_range.
Qed.

(** ** Locality: a write into two memories that differ only in [P] *)

Lemma frame_insert_both P m1 m2 a v : frame P m1 m2 -> frame P (<[a := v]> m1) (<[a := v]> m2).
Proof.
  intros [H1 H2]. split; intros i.
  - intros HP. destruct (decide (i = a)) as [->|Hne]; [by rewrite !lookup_insert_eq|].
    rewrite !lookup_insert_ne by done. auto.
  - destruct (decide (i = a)) as [->|Hne]; [by rewrite !lookup_insert_eq|].
    by rewrite !lookup_insert_ne.
Qed.

Lemma store_local P n a v m1 m2 m1' :
  store n a v m1 = Some m1' -> frame P m1 m2 ->
  exists m2', store n a v m2 = Some m2' /\ frame P m1' m2'.
Proof.
  revert a v m1 m2. induction n as [|n IH]; intros a v m1 m2; simpl.
  { intros [= <-]. eauto. }
  intros Hs Hf. destruct (m1 !! a) eqn:Ha; [|done].
  destruct (proj2 (proj2 Hf a)) as [b ->]; [by rewrite Ha|].
  eapply IH; [exact Hs|]. by apply frame_insert_both.
Qed.

Lemma store_bytes_local P a bs m1 m2 m1' :
  store_bytes a bs m1 = Some m1' -> frame P m1 m2 ->
  exists m2', store_bytes a bs m2 = Some m2' /\ frame P m1' m2'.
Proof.
  revert a m1 m2. induction bs as [|v bs IH]; intros a m1 m2; simpl.
  { intros [= <-]. eauto. }
  intros Hs Hf. destruct (m1 !! a) eqn:Ha; [|done].
  destruct (proj2 (proj2 Hf a)) as [b ->]; [by rewrite Ha|].
  eapply IH; [exact Hs|]. by apply frame_insert_both.
Qed.

(** ** Concrete memories *)

Definition mapped_b (m : mem) (a n : Z) : bool :=
  forallb (fun k => bool_decide (is_Some (m !! (a + Z.of_nat k)))) (seq 0 (Z.to_nat n)).

Lemma mapped_b_ok m a n : mapped_b m a n = true -> mapped m a n.
Proof.
  unfold mapped_b. rewrite forallb_forall. intros H i Hi.
  specialize (H (Z.to_nat (i - a))). rewrite in_seq in H. unfold range in Hi.
  specialize (H ltac:(lia)). apply bool_decide_eq_true in H.
  by replace (a + Z.of_nat (Z.to_nat (i - a))) with i in H by lia.
Qed.

(** The bytes [bs] at address [a], added to [m]. *)
Fixpoint put_bytes (a : Z) (bs : list Z) (m : mem) : mem :=
  match bs with
  | [] => m
  | b :: bs' => <[a := b]> (put_bytes (a + 1) bs' m)
  end.

#[export] Hint Resolve mapped_frame store_mapped store_frame store_bytes_frame : lkl.

#[global] Arguments load : simpl never.
#[global] Arguments store : simpl never.
#[global] Arguments load_bytes : simpl never.
#[global] Arguments store_bytes : simpl never.

Lemma put_bytes_frame a bs m :
  mapped m a (Z.of_nat (length bs)) -> frame (range a (Z.of_nat (length bs))) m (put_bytes a bs m).
Proof.
  revert a. induction bs as [|b bs IH]; intros a Hm; [done|]. cbn [put_bytes length] in *.
  rewrite Nat2Z.inj_succ in *.
  eapply frame_trans; [eapply frame_weaken; [|apply (IH (a + 1))]|].
  - unfold range. lia.
  - eapply mapped_sub; [exact Hm|lia|lia].
  - split; intros i.
    + intros Hi. apply lookup_insert_ne. intros ->. apply Hi. unfold range. lia.
    + destruct (decide (i = a)) as [->|Hne]; [|by rewrite lookup_insert_ne].
      rewrite lookup_insert_eq. split; [|eauto]. intros _.
      destruct (IH (a + 1)) as [_ Hd]; [eapply mapped_sub; [exact Hm|lia|lia]|].
      apply Hd, Hm. unfold range. lia.
Qed.

(** ** C strings *)

(** The bytes [s] at [p], followed by a NUL. *)
Fixpoint cstr_at (m : mem) (p : Z) (s : list Z) : Prop :=
  match s with
  | [] => m !! p = Some 0
  | b :: s' => m !! p = Some b /\ cstr_at m (p + 1) s'
  end.

Definition char_ok (b : Z) : Prop := 0 < b < 256.

Lemma cstr_at_frame (P : Z -> Prop) m m' p s :
  frame P m m' -> (forall i, range p (Z.of_nat (length s) + 1) i -> ~ P i) ->
  cstr_at m p s -> cstr_at m' p s.
Proof.
  intros [Hf _]. revert p. induction s as [|b s IH]; intros p HP; cbn [cstr_at length] in *.
  - intros H. rewrite Hf; [done|]. apply HP. unfold range. lia.
  - intros [H Hs]. split; [rewrite Hf; [done|]; apply HP; unfold range; lia|].
    apply IH; [|done]. intros i Hi. apply HP. unfold range in *. lia.
Qed.

Lemma store_1 a v m m' : store 1 a v m = Some m' -> m' = <[a := u8 v]> m.
Proof. unfold store. destruct (m !! a); [by intros [= <-]|done]. Qed.

Lemma store_bytes_lookup a bs m m' k :
  store_bytes a bs m = Some m' -> (k < length bs)%nat ->
  m' !! (a + Z.of_nat k) = u8 <$> bs !! k.
Proof.
  revert a m k. induction bs as [|b bs IH]; intros a m k; cbn [length]; [lia|].
  unfold store_bytes; fold store_bytes. destruct (m !! a); [|done]. intros H Hk.
  destruct k as [|k].
  - destruct (store_bytes_frame _ _ _ _ H) as [Hf _].
    rewrite Z.add_0_r, Hf by (unfold range; lia). by rewrite lookup_insert_eq.
  - replace (a + Z.of_nat (S k)) with (a + 1 + Z.of_nat k) by lia. rewrite (IH _ _ _ H) by lia. done.
Qed.

Lemma cstr_at_lookup m p s :
  (forall k b, s !! k = Some b -> m !! (p + Z.of_nat k) = Some b) ->
  m !! (p + Z.of_nat (length s)) = Some 0 -> cstr_at m p s.
Proof.
  revert p. induction s as [|b s IH]; intros p Hs H0; cbn [cstr_at length] in *.
  - by rewrite Z.add_0_r in H0.
  - split; [rewrite <- (Hs O b) by done; f_equal; lia|].
    apply IH; [|by rewrite <- H0; f_equal; lia].
    intros k b' Hk. rewrite <- (Hs (S k) b') by done. f_equal. lia.
Qed.

(** A string written byte by byte. *)
Lemma store_cstr p s m m1 m2 :
  Forall char_ok s -> store_bytes p s m = Some m1 ->
  store 1 (p + Z.of_nat (length s)) 0 m1 = Some m2 -> cstr_at m2 p s.
Proof.
  intros Hs H1 ->%store_1. apply cstr_at_lookup; [|by rewrite lookup_insert_eq].
  intros k b Hk. pose proof (lookup_lt_Some _ _ _ Hk).
  rewrite lookup_insert_ne by lia. rewrite (store_bytes_lookup _ _ _ _ _ H1), Hk by done. simpl. f_equal.
  rewrite Forall_lookup in Hs. specialize (Hs _ _ Hk). apply u8_id. unfold char_ok in Hs. lia.
Qed.

Lemma cstr_at_load m p s : Forall char_ok s -> cstr_at m p s -> load_bytes (length s) p m = Some s.
Proof.
  revert p. induction s as [|b s IH]; intros p Hs; [done|]. inversion Hs; subst.
  cbn [cstr_at length]. intros [Hb H]. unfold load_bytes; fold load_bytes. rewrite Hb, IH by done.
  do 2 f_equal. apply u8_id. unfold char_ok in *. lia.
Qed.

Lemma map_u8_id bs : Forall is_byte bs -> map u8 bs = bs.
Proof.
  induction 1 as [|b bs Hb _ IH]; cbn [map]; [done|]. rewrite IH. f_equal. apply u8_id. exact Hb.
Qed.

(** strnlen(p, n). *)
Fixpoint strnlen (n : nat) (p : Z) (m : mem) : option Z :=
  match n with
  | O => Some 0
  | S n' =>
      match m !! p with
      | None => None
      | Some b => if u8 b =? 0 then Some 0 else k ← strnlen n' (p + 1) m; Some (1 + k)
      end
  end.

Lemma strnlen_spec m p s n :
  Forall char_ok s -> cstr_at m p s -> (length s <= n)%nat ->
  strnlen n p m = Some (Z.of_nat (length s)).
Proof.
  intros Hs. revert p n. induction s as [|b s IH]; intros p n; cbn [cstr_at length].
  - intros Hp _. destruct n as [|n]; cbn [strnlen]; [done|]. by rewrite Hp.
  - inversion Hs; subst. intros [Hb H] Hn. destruct n as [|n]; [lia|]. cbn [strnlen]. rewrite Hb.
    rewrite u8_id by (unfold char_ok in *; lia).
    destruct (Z.eqb_spec b 0); [unfold char_ok in *; lia|]. rewrite (IH ltac:(done) (p + 1) n H) by lia.
    cbn [mbind option_bind]. f_equal. lia.
Qed.
