(* ===== verification/Iomem.v ===== *)
(** * Iomem

    tools/lkl/lib/iomem.c: the table of emulated I/O memory regions.  The
    in-process kernel reaches a device by an address whose upper bits are an
    index into the table and whose low 24 bits are the offset in the region.
    A region's operations act on the rest of the process, a state [S]. *)

From S2P Require Import Prelude.

Definition IOMEM_OFFSET_BITS : Z := 24.
Definition MAX_IOMEM_REGIONS : Z := 256.

(** struct lkl_iomem_ops: the byte list is what the call leaves in (or takes
    from) the buffer [res]. *)
Record lkl_iomem_ops (S : Type) := {
  io_read : Z -> Z -> Z -> M S (Z * list Z);   (* data, offset, size *)
  io_write : Z -> Z -> list Z -> Z -> M S Z;   (* data, offset, res, size *)
}.
Arguments io_read {S} _ _ _ _.
Arguments io_write {S} _ _ _ _ _.

Record iomem_region (S : Type) := {
  r_data : Z;
  r_size : Z;
  r_ops : option (lkl_iomem_ops S);
}.
Arguments r_data {S} _.
Arguments r_size {S} _.
Arguments r_ops {S} _.
Arguments Build_iomem_region {S} _ _ _.

(** [IOMEM_ADDR_TO_INDEX], [IOMEM_ADDR_TO_OFFSET]: [addr] is a [uintptr_t]. *)
Definition IOMEM_ADDR_TO_INDEX (addr : Z) : Z := Z.shiftr addr IOMEM_OFFSET_BITS.

Definition IOMEM_ADDR_TO_OFFSET (addr : Z) : Z :=
  Z.land addr (Z.shiftl 1 IOMEM_OFFSET_BITS - 1).

(** [(void * )(uintptr_t)(i << IOMEM_OFFSET_BITS)]: the shift is done on an [int],
    the conversion to [uintptr_t] sign-extends. *)
Definition IOMEM_INDEX_TO_ADDR (i : Z) : Z :=
  u64 (s32 (Z.shiftl i IOMEM_OFFSET_BITS)).

Section Iomem.
Context {S : Type}.
Abbreviation regions := (list (iomem_region S)).

Definition empty_region : iomem_region S := Build_iomem_region 0 0 None.

(** The static array, zero-initialised. *)
Definition iomem_regions_init : regions :=
  replicate (Z.to_nat MAX_IOMEM_REGIONS) empty_region.

(** [iomem_regions[index]]; [None] is outside the array. *)
Definition region_at (rs : regions) (index : Z) : option (iomem_region S) :=
  if index <? 0 then None else rs !! Z.to_nat index.

(** The search loop of [register_iomem]: index of the first slot without
    ops, or one past the end. *)
Fixpoint first_free (i : Z) (rs : regions) : Z :=
  match rs with
  | [] => i
  | r :: rs' => if r_ops r is Some _ then first_free (i + 1) rs' else i
  end.

Definition register_iomem (data size : Z) (ops : lkl_iomem_ops S) (rs : regions)
  : Z * regions :=
  if Z.shiftl 1 IOMEM_OFFSET_BITS - 1 <? size then (0, rs)
  else
    let i := first_free 1 (drop 1 rs) in
    if MAX_IOMEM_REGIONS <=? i then (0, rs)
    else (IOMEM_INDEX_TO_ADDR i,
          <[Z.to_nat i := Build_iomem_region data size (Some ops)]> rs).

Definition unregister_iomem (base : Z) (rs : regions) : regions :=
  let index := u32 (IOMEM_ADDR_TO_INDEX base) in
  if MAX_IOMEM_REGIONS <=? index then rs
  else match rs !! Z.to_nat index with
       | Some r => <[Z.to_nat index := Build_iomem_region (r_data r) 0 None]> rs
       | None => rs
       end.

(** [lkl_ioremap]: the address, 0 for NULL. *)
Definition lkl_ioremap (rs : regions) (addr size : Z) : res Z :=
  let index := s32 (IOMEM_ADDR_TO_INDEX (u64 addr)) in
  if MAX_IOMEM_REGIONS <=? index then Ok 0
  else match region_at rs index with
       | None => Fail Segv
       | Some r =>
           Ok (if r_ops r is Some _ then
                 if size <=? r_size r then IOMEM_INDEX_TO_ADDR index else 0
               else 0)
       end.

(** [lkl_iomem_access]: return value and the bytes left in [res].  [offset] and
    [size] are [int]s, and so is their sum. *)
Definition lkl_iomem_access (rs : regions) (addr : Z) (res : list Z)
  (size : Z) (write : bool) : M S (Z * list Z) :=
  let index := s32 (IOMEM_ADDR_TO_INDEX addr) in
  let offset := IOMEM_ADDR_TO_OFFSET addr in
  if MAX_IOMEM_REGIONS <? index then retM (-1, res)
  else
    let* r := someM (region_at rs index) in
    match r_ops r with
    | None => retM (-1, res)
    | Some ops =>
        if r_size r <? s32 (offset + size) then retM (-1, res)
        else if write then
          let* ret := io_write ops (r_data r) offset res size in
          retM (ret, res)
        else io_read ops (r_data r) offset size
    end.

(** ** Well-formed tables *)

Definition region_ok (r : iomem_region S) : Prop :=
  r_size r < 2 ^ IOMEM_OFFSET_BITS.

(** The array has its 256 slots, slot 0 (the NULL address) is never in
    use, and no region is larger than the offset field. *)
Record table_ok (rs : regions) : Prop := {
  table_length : length rs = Z.to_nat MAX_IOMEM_REGIONS;
  table_slot0 : option_map r_ops (rs !! 0%nat) = Some None;
  table_sizes : Forall region_ok rs;
}.

Lemma table_ok_init : table_ok iomem_regions_init.
Proof.
  split; [done|done|].
  apply Forall_replicate. done.
Qed.

Lemma first_free_spec i rs :
  exists n, (n <= length rs)%nat /\ first_free i rs = i + Z.of_nat n /\
    (forall k r, (k < n)%nat -> rs !! k = Some r -> is_Some (r_ops r)) /\
    (forall r, rs !! n = Some r -> r_ops r = None).
Proof.
  revert i. induction rs as [|r rs IH]; intros i; simpl.
  { exists 0%nat. split_and!; [lia|lia|intros; lia|done]. }
  destruct (r_ops r) eqn:E.
  - destruct (IH (i + 1)) as (n & ? & -> & Hlt & Hn).
    exists (Datatypes.S n). split_and!; [lia|lia| |done].
    intros [|k] r' ?; simpl; [intros [= <-]; by rewrite E|].
    apply Hlt. lia.
  - exists 0%nat. split_and!; [lia|lia|intros; lia|by intros ? [= <-]].
Qed.

(** Index and offset of an address in the low half of the table. *)
Lemma index_to_addr_small i :
  0 <= i < 128 -> IOMEM_INDEX_TO_ADDR i = i * 2 ^ 24.
Proof.
  intros. unfold IOMEM_INDEX_TO_ADDR, IOMEM_OFFSET_BITS.
  rewrite Z.shiftl_mul_pow2 by lia.
  rewrite s32_id by lia. apply u64_id. lia.
Qed.

Lemma addr_to_index_offset i off :
  0 <= off < 2 ^ 24 ->
  IOMEM_ADDR_TO_INDEX (i * 2 ^ 24 + off) = i /\
  IOMEM_ADDR_TO_OFFSET (i * 2 ^ 24 + off) = off.
Proof.
  intros. unfold IOMEM_ADDR_TO_INDEX, IOMEM_ADDR_TO_OFFSET, IOMEM_OFFSET_BITS.
  rewrite Z.shiftr_div_pow2, Z.shiftl_1_l, land_pow2_mask by lia. lia.
Qed.
Lemma table_ok_insert rs i r :
  table_ok rs -> (0 < i)%nat -> region_ok r -> table_ok (<[i := r]> rs).
Proof.
  intros [Hl H0 Hs] Hi Hr. split.
  - by rewrite length_insert.
  - rewrite list_lookup_insert_ne by lia. done.
  - by apply Forall_insert.
Qed.

(** The two outcomes of a registration. *)
Lemma register_iomem_cases data size ops rs :
  table_ok rs ->
  (exists i, (1 <= i < 256)%nat /\ size < 2 ^ 24 /\
     (exists r, rs !! i = Some r /\ r_ops r = None) /\
     (forall k r, (1 <= k < i)%nat -> rs !! k = Some r -> is_Some (r_ops r)) /\
     register_iomem data size ops rs =
       (IOMEM_INDEX_TO_ADDR (Z.of_nat i),
        <[i := Build_iomem_region data size (Some ops)]> rs)) \/
  ((2 ^ 24 <= size \/
    forall k r, (1 <= k)%nat -> rs !! k = Some r -> is_Some (r_ops r)) /\
   register_iomem data size ops rs = (0, rs)).
Proof.
  intros Hok. pose proof (table_length _ Hok) as Hl.
  unfold register_iomem, IOMEM_OFFSET_BITS. change (Z.shiftl 1 24) with (2 ^ 24).
  destruct (Z.ltb_spec (2 ^ 24 - 1) size); [right; split; [left; lia|done]|].
  destruct (first_free_spec 1 (drop 1 rs)) as (n & Hn & -> & Hlt & Hfree).
  rewrite length_drop, Hl in Hn. unfold MAX_IOMEM_REGIONS in *.
  assert (forall k r, (1 <= k < 1 + n)%nat -> rs !! k = Some r -> is_Some (r_ops r)) as Hused.
  { intros k r Hk Hr. apply (Hlt (k - 1)%nat); [lia|].
    rewrite lookup_drop. by replace (1 + (k - 1))%nat with k by lia. }
  destruct (Z.leb_spec 256 (1 + Z.of_nat n)).
  - right. split; [right|done]. intros k r Hk Hr. apply (Hused k); [|done].
    apply lookup_lt_Some in Hr. lia.
  - left. exists (1 + n)%nat. replace (1 + Z.of_nat n) with (Z.of_nat (1 + n)) by lia.
    rewrite Nat2Z.id. split_and!; try done; try lia.
    destruct (lookup_lt_is_Some_2 rs (1 + n)) as [r Hr]; [lia|].
    exists r. split; [done|]. apply Hfree. by rewrite lookup_drop.
Qed.

Lemma register_table_ok data size ops rs :
  table_ok rs -> table_ok (snd (register_iomem data size ops rs)).
Proof.
  intros Hok. destruct (register_iomem_cases data size ops rs Hok)
    as [(i & Hi & Hs & _ & _ & ->)|[_ ->]]; [|done].
  apply table_ok_insert; [done|lia|done].
Qed.

Lemma index_to_addr_nonzero i : 1 <= i < 256 -> IOMEM_INDEX_TO_ADDR i <> 0.
Proof.
  intros. unfold IOMEM_INDEX_TO_ADDR, IOMEM_OFFSET_BITS, s32, u32, u64.
  rewrite Z.shiftl_mul_pow2 by lia. case_match; lia.
Qed.

Lemma unregister_table_ok base rs :
  table_ok rs -> table_ok (unregister_iomem base rs).
Proof.
  intros Hok. unfold unregister_iomem. case_match; [done|].
  destruct (rs !! _) as [r|] eqn:E; [|done].
  destruct (Z.to_nat (u32 (IOMEM_ADDR_TO_INDEX base))) as [|i] eqn:Ei.
  - destruct Hok as [Hl H0 Hs]. split.
    + by rewrite length_insert.
    + rewrite list_lookup_insert_eq; [done|]. rewrite Hl. unfold MAX_IOMEM_REGIONS. lia.
    + apply Forall_insert; [done|]. done.
  - apply table_ok_insert; [done|lia|done].
Qed.

(** [lkl_iomem_access] on an address of the low half of the table, decoded. *)
Lemma iomem_access_decode rs i off res size write s :
  0 <= i < 128 -> 0 <= off < 2 ^ 24 ->
  lkl_iomem_access rs (i * 2 ^ 24 + off) res size write s =
  match rs !! Z.to_nat i with
  | None => Fail Segv
  | Some r =>
      match r_ops r with
      | None => Ok ((-1, res), s)
      | Some ops =>
          if r_size r <? s32 (off + size) then Ok ((-1, res), s)
          else if write then
            bindM (io_write ops (r_data r) off res size) (fun ret => retM (ret, res)) s
          else io_read ops (r_data r) off size s
      end
  end.
Proof.
  intros Hi Hoff. unfold lkl_iomem_access.
  destruct (addr_to_index_offset i off Hoff) as [-> ->].
  rewrite s32_id by lia. unfold MAX_IOMEM_REGIONS.
  rewrite (proj2 (Z.ltb_ge _ _)) by lia. unfold region_at.
  rewrite (proj2 (Z.ltb_ge _ _)) by lia.
  destruct (rs !! Z.to_nat i) as [r|]; [|done].
  unfold bindM at 1, someM. destruct (r_ops r); [|done].
  by destruct (_ <? _), write.
Qed.

Lemma iomem_ioremap_decode rs i size :
  0 <= i < 128 ->
  lkl_ioremap rs (i * 2 ^ 24) size =
  match rs !! Z.to_nat i with
  | None => Fail Segv
  | Some r => Ok (if r_ops r is Some _ then
                    if size <=? r_size r then i * 2 ^ 24 else 0
                  else 0)
  end.
Proof.
  intros Hi. unfold lkl_ioremap. rewrite u64_id by lia.
  destruct (addr_to_index_offset i 0) as [Hx _]; [lia|].
  rewrite Z.add_0_r in Hx. rewrite Hx, s32_id by lia.
  unfold MAX_IOMEM_REGIONS. rewrite (proj2 (Z.leb_gt _ _)) by lia.
  unfold region_at. rewrite (proj2 (Z.ltb_ge _ _)) by lia.
  rewrite index_to_addr_small by lia. done.
Qed.

Lemma unregister_at rs i r :
  0 <= i < 128 -> rs !! Z.to_nat i = Some r ->
  unregister_iomem (IOMEM_INDEX_TO_ADDR i) rs =
    <[Z.to_nat i := Build_iomem_region (r_data r) 0 None]> rs.
Proof.
  intros Hi Hr. unfold unregister_iomem. rewrite index_to_addr_small by lia.
  destruct (addr_to_index_offset i 0) as [Hx _]; [lia|]. rewrite Z.add_0_r in Hx.
  rewrite Hx, u32_id by lia. unfold MAX_IOMEM_REGIONS.
  by rewrite (proj2 (Z.leb_gt _ _)), Hr by lia.
Qed.

(** ** Properties *)

(** C31: [register_iomem] either hands out the lowest free slot (never slot 0, so
    never a NULL base), recording the region there and touching no other slot; or it
    returns NULL with the table unchanged, exactly when the region is too large for the
    offset field or every slot is taken.  The table stays well-formed. *)
Theorem register_iomem_correct data size ops rs :
  table_ok rs ->
  let (base, rs') := register_iomem data size ops rs in
  table_ok rs' /\
  ((base <> 0 /\ exists i, (1 <= i < 256)%nat /\
      base = IOMEM_INDEX_TO_ADDR (Z.of_nat i) /\
      option_map r_ops (rs !! i) = Some None /\
      (forall k r, (1 <= k < i)%nat -> rs !! k = Some r -> is_Some (r_ops r)) /\
      rs' = <[i := Build_iomem_region data size (Some ops)]> rs) \/
   (base = 0 /\ rs' = rs /\
      (2 ^ 24 <= size \/
       forall k r, (1 <= k)%nat -> rs !! k = Some r -> is_Some (r_ops r)))).
Proof.
  intros Hok. pose proof (register_table_ok data size ops rs Hok) as Hok'.
  destruct (register_iomem_cases data size ops rs Hok)
    as [(i & Hi & Hs & (r & Hr & Ho) & Hk & E)|[Hfull E]]; rewrite E in *.
  - split; [done|]. left.
    split; [apply index_to_addr_nonzero; lia|]. exists i.
    split_and!; try done; try lia. by rewrite Hr; simpl; rewrite Ho.
  - split; [done|]. right. done.
Qed.

(** C32: After a registration that got one of the slots 1..127, [lkl_ioremap] of the base
    returns the base, every access inside the region reaches that region's own
    operations with the region-relative offset, and every access that runs past the
    region is refused with -1 and no effect.  The size of the access is an [int]
    whose sum with the offset does not overflow one.  The bases of the slots
    128..255 are sign-extended and cannot be used
    ([iomem_index_checks_unsound]). *)
Theorem iomem_access_routes data size ops rs base rs' :
  table_ok rs -> register_iomem data size ops rs = (base, rs') ->
  0 < base < 128 * 2 ^ 24 -> 0 <= size ->
  lkl_ioremap rs' base size = Ok base /\
  forall off n buf s, 0 <= off < 2 ^ 24 -> - 2 ^ 31 <= n -> off + n < 2 ^ 31 ->
    (off + n <= size ->
       lkl_iomem_access rs' (base + off) buf n false s = io_read ops data off n s /\
       lkl_iomem_access rs' (base + off) buf n true s =
         bindM (io_write ops data off buf n) (fun ret => retM (ret, buf)) s) /\
    (size < off + n -> forall w,
       lkl_iomem_access rs' (base + off) buf n w s = Ok ((-1, buf), s)).
Proof.
  intros Hok Hreg Hbase Hsize.
  destruct (register_iomem_cases data size ops rs Hok)
    as [(i & Hi & Hs & _ & _ & Hreg')|[_ Hreg']];
    rewrite Hreg' in Hreg; simplify_eq; [|lia].
  assert (Z.of_nat i < 128) as Hi128.
  { destruct (Z.lt_ge_cases (Z.of_nat i) 128); [done|]. exfalso. revert Hbase.
    unfold IOMEM_INDEX_TO_ADDR, IOMEM_OFFSET_BITS, s32, u32, u64.
    rewrite Z.shiftl_mul_pow2 by lia. case_match; lia. }
  rewrite index_to_addr_small by lia.
  assert (<[i := Build_iomem_region data size (Some ops)]> rs !! Z.to_nat (Z.of_nat i)
          = Some (Build_iomem_region data size (Some ops))) as Hlk.
  { rewrite Nat2Z.id. apply list_lookup_insert_eq. rewrite (table_length _ Hok).
    unfold MAX_IOMEM_REGIONS. lia. }
  rewrite iomem_ioremap_decode, Hlk by lia. simpl. rewrite Z.leb_refl. split; [done|].
  intros off n buf s Hoff Hn1 Hn2. split; [intros Hn; split|intros Hn w];
    (rewrite iomem_access_decode, Hlk by lia; simpl; rewrite s32_id by lia;
     (rewrite (proj2 (Z.ltb_ge _ _)) by lia) || (rewrite (proj2 (Z.ltb_lt _ _)) by lia); done).
Qed.

(** Unregistering a region makes every later access to it fail with -1, frees its
    slot for the next registration, and leaves the accesses to every other region as
    they were. *)
Theorem unregister_iomem_correct rs i :
  table_ok rs -> 1 <= i < 128 ->
  let rs' := unregister_iomem (IOMEM_INDEX_TO_ADDR i) rs in
  table_ok rs' /\
  (forall off n buf w s, 0 <= off < 2 ^ 24 ->
     lkl_iomem_access rs' (i * 2 ^ 24 + off) buf n w s = Ok ((-1, buf), s)) /\
  (forall j off n buf w s, 0 <= j < 128 -> j <> i -> 0 <= off < 2 ^ 24 ->
     lkl_iomem_access rs' (j * 2 ^ 24 + off) buf n w s =
     lkl_iomem_access rs (j * 2 ^ 24 + off) buf n w s).
Proof.
  intros Hok Hi rs'. split; [by apply unregister_table_ok|].
  destruct (lookup_lt_is_Some_2 rs (Z.to_nat i)) as [r Hr].
  { rewrite (table_length _ Hok). unfold MAX_IOMEM_REGIONS. lia. }
  assert (rs' = <[Z.to_nat i := Build_iomem_region (r_data r) 0 None]> rs) as ->.
  { apply unregister_at; [lia|done]. }
  split.
  - intros off n buf w s Hoff. rewrite iomem_access_decode by lia.
    rewrite list_lookup_insert_eq; [done|]. by apply lookup_lt_Some in Hr.
  - intros j off n buf w s Hj Hne Hoff. rewrite !iomem_access_decode by lia.
    rewrite list_lookup_insert_ne by lia. done.
Qed.

(** The two index checks are off by one slot and by the sign of the index:
    an access whose index is exactly 256 passes [index > MAX_IOMEM_REGIONS] and reads
    past the array, and a base handed out for one of the slots 128..255 is
    sign-extended, so that remapping it reads before the array. *)
Theorem iomem_index_checks_unsound rs i size buf n w s :
  table_ok rs -> 128 <= i < 256 ->
  lkl_iomem_access rs (256 * 2 ^ 24) buf n w s = Fail Segv /\
  lkl_ioremap rs (IOMEM_INDEX_TO_ADDR i) size = Fail Segv.
Proof.
  intros Hok Hi. split.
  - unfold lkl_iomem_access.
    replace (s32 (IOMEM_ADDR_TO_INDEX (256 * 2 ^ 24))) with MAX_IOMEM_REGIONS by reflexivity.
    rewrite Z.ltb_irrefl. unfold region_at. rewrite (proj2 (Z.ltb_ge _ _)) by done.
    rewrite (proj2 (lookup_ge_None rs _)); [done|]. by rewrite (table_length _ Hok).
  - unfold lkl_ioremap.
    replace (s32 (IOMEM_ADDR_TO_INDEX (u64 (IOMEM_INDEX_TO_ADDR i)))) with (i - 256).
    { unfold MAX_IOMEM_REGIONS. rewrite (proj2 (Z.leb_gt _ _)) by lia.
      unfold region_at. by rewrite (proj2 (Z.ltb_lt _ _)) by lia. }
    unfold IOMEM_ADDR_TO_INDEX, IOMEM_INDEX_TO_ADDR, IOMEM_OFFSET_BITS.
    rewrite Z.shiftr_div_pow2, Z.shiftl_mul_pow2 by lia.
    unfold s32 at 2. unfold u32 at 1. case_match; [lia|].
    unfold s32, u32, u64. case_match; lia.
Qed.

End Iomem.

(** *** Witnesses *)

(** A device with one 32-bit register, to run the table with. *)
Definition reg_ops : lkl_iomem_ops Z :=
  {| io_read := fun _ _ _ s => Ok ((0, [u8 s]), s);
     io_write := fun _ _ buf _ s => Ok (0, hd 0 buf) |}.

Lemma register_iomem_correct_witness :
  let (base, rs') := register_iomem 7 256 reg_ops iomem_regions_init in
  base = 2 ^ 24 /\ table_ok rs'.
Proof.
  pose proof (register_iomem_correct 7 256 reg_ops iomem_regions_init table_ok_init) as H.
  destruct (register_iomem 7 256 reg_ops iomem_regions_init) as [base rs'] eqn:E.
  vm_compute in E. injection E as <- _. split; [reflexivity|apply H].
Defined.

Lemma iomem_access_routes_witness :
  lkl_iomem_access (snd (register_iomem 7 256 reg_ops iomem_regions_init))
    (2 ^ 24 + 4) [] 4 false 42 = Ok ((0, [42]), 42).
Proof.
  refine (proj1 (proj1 (proj2 (iomem_access_routes 7 256 reg_ops iomem_regions_init
    (2 ^ 24) _ table_ok_init _ _ _) 4 4 [] 42 _ _ _) _)); [reflexivity|lia..].
Defined.

Lemma unregister_iomem_correct_witness :
  lkl_iomem_access
    (unregister_iomem (IOMEM_INDEX_TO_ADDR 1)
       (snd (register_iomem 7 256 reg_ops iomem_regions_init)))
    (1 * 2 ^ 24 + 4) [] 4 false 42 = Ok ((-1, []), 42).
Proof.
  assert (table_ok (snd (register_iomem 7 256 reg_ops iomem_regions_init))) as Hok.
  { apply register_table_ok, table_ok_init. }
  apply (unregister_iomem_correct _ 1 Hok); lia.
Defined.

Lemma iomem_index_checks_unsound_witness :
  lkl_ioremap (@iomem_regions_init Z) (IOMEM_INDEX_TO_ADDR 128) 0 = Fail Segv.
Proof.
  refine (proj2 (iomem_index_checks_unsound iomem_regions_init 128 0 [] 0 false 0
    table_ok_init _)); lia.
Defined.
