(* ===== verification/Irq.v ===== *)
(** * Irq

    arch/lkl/kernel/irq.c: pending interrupts as a two-level bitmap, their
    delivery, the allocation of interrupt numbers, and the interrupt-enable
    flag.  What a Linux interrupt handler does ([generic_handle_irq]) is a
    parameter of the model. *)

From S2P Require Import Prelude.
From stdpp Require Import strings sorting.
#[local] Open Scope Z_scope.

(** asm/irq.h, 64-bit host. *)
Definition IRQ_STATUS_BITS : Z := 64.
Definition NR_IRQS : Z := IRQ_STATUS_BITS * IRQ_STATUS_BITS.

(** The static variables of irq.c, with the nesting count behind
    [irq_enter]/[irq_exit]/[in_interrupt] and, as ghost data, the interrupts
    handed to the kernel so far, oldest first. *)
Record irq_state := IrqState {
  irq_status : list Z;
  irq_index_status : Z;
  irqs : list (option string);
  irqs_enabled : bool;
  hardirq_count : Z;
  delivered : list Z;
}.

Definition set_status_word (i : nat) (w : Z) (st : irq_state) : irq_state :=
  IrqState (<[i := w]> (irq_status st)) (irq_index_status st) (irqs st)
    (irqs_enabled st) (hardirq_count st) (delivered st).

Definition set_index_word (w : Z) (st : irq_state) : irq_state :=
  IrqState (irq_status st) w (irqs st) (irqs_enabled st) (hardirq_count st) (delivered st).

Definition set_irqs (l : list (option string)) (st : irq_state) : irq_state :=
  IrqState (irq_status st) (irq_index_status st) l (irqs_enabled st)
    (hardirq_count st) (delivered st).

Definition set_enabled (b : bool) (st : irq_state) : irq_state :=
  IrqState (irq_status st) (irq_index_status st) (irqs st) b
    (hardirq_count st) (delivered st).

Definition set_hardirq (n : Z) (st : irq_state) : irq_state :=
  IrqState (irq_status st) (irq_index_status st) (irqs st) (irqs_enabled st)
    n (delivered st).

Definition log_delivery (irq : Z) (st : irq_state) : irq_state :=
  IrqState (irq_status st) (irq_index_status st) (irqs st) (irqs_enabled st)
    (hardirq_count st) (delivered st ++ [irq]).

Definition irq_init : irq_state :=
  IrqState (replicate (Z.to_nat IRQ_STATUS_BITS) 0) 0
    (replicate (Z.to_nat NR_IRQS) None) false 0 [].

(** ** The pending bitmap *)

(** [__sync_fetch_and_and(&irq_index_status, 0)], after the test. *)
Definition test_and_clear_irq_index_status (st : irq_state) : Z * irq_state :=
  if irq_index_status st =? 0 then (0, st)
  else (irq_index_status st, set_index_word 0 st).

(** The address test in the source is never true. *)
Definition test_and_clear_irq_status (index : Z) (st : irq_state) : res (Z * irq_state) :=
  match irq_status st !! Z.to_nat index with
  | Some w => Ok (w, set_status_word (Z.to_nat index) 0 st)
  | None => Fail Segv
  end.

(** The two atomic ORs of [set_irq_pending]. *)
Definition or_irq_status (irq : Z) (st : irq_state) : res irq_state :=
  let index := irq / IRQ_STATUS_BITS in
  let bit := irq mod IRQ_STATUS_BITS in
  match irq_status st !! Z.to_nat index with
  | Some w => Ok (set_status_word (Z.to_nat index) (Z.lor w (Z.shiftl 1 bit)) st)
  | None => Fail Segv
  end.

Definition or_irq_index_status (irq : Z) (st : irq_state) : irq_state :=
  let index := irq / IRQ_STATUS_BITS in
  set_index_word (Z.lor (irq_index_status st) (Z.shiftl 1 index)) st.

Definition set_irq_pending (irq : Z) (st : irq_state) : res irq_state :=
  match or_irq_status irq st with
  | Ok st1 => Ok (or_irq_index_status irq st1)
  | Fail e => Fail e
  end.

(** [for_each_bit]: shift the word right until it is zero, calling [f] on the
    positions of the ones. *)
Fixpoint for_each_bit_pos {A} (word : positive) (f : Z -> A -> res A) (i : Z) (a : A) : res A :=
  match word with
  | xH => f i a
  | xO w => for_each_bit_pos w f (i + 1) a
  | xI w =>
      match f i a with
      | Ok a' => for_each_bit_pos w f (i + 1) a'
      | Fail e => Fail e
      end
  end.

Definition for_each_bit {A} (word : Z) (f : Z -> A -> res A) (a : A) : res A :=
  match word with
  | Zpos p => for_each_bit_pos p f 0 a
  | _ => Ok a
  end.

Section Delivery.
Context (generic_handle_irq : Z -> irq_state -> irq_state).

(** [run_irqs] re-enters itself through [local_irq_restore]; [rec] is that
    inner call. *)
Definition arch_local_irq_restore_with (rec : irq_state -> res irq_state)
  (flags : bool) (st : irq_state) : res irq_state :=
  if flags && negb (irqs_enabled st) && (hardirq_count st =? 0) then
    match rec st with
    | Ok st' => Ok (set_enabled flags st')
    | Fail e => Fail e
    end
  else Ok (set_enabled flags st).

Definition run_irq_with (rec : irq_state -> res irq_state) (irq : Z) (st : irq_state)
  : res irq_state :=
  let flags := irqs_enabled st in
  let st1 := set_enabled false st in                               (* local_irq_save *)
  let st2 := set_hardirq (hardirq_count st1 + 1) st1 in            (* irq_enter *)
  let st3 := generic_handle_irq irq (log_delivery irq st2) in
  let st4 := set_hardirq (hardirq_count st3 - 1) st3 in            (* irq_exit *)
  arch_local_irq_restore_with rec flags st4.

Definition deliver_irq_with rec (index bit : Z) (st : irq_state) : res irq_state :=
  run_irq_with rec (index * IRQ_STATUS_BITS + bit) st.

Definition check_irq_status_with rec (i : Z) (st : irq_state) : res irq_state :=
  match test_and_clear_irq_status i st with
  | Ok (w, st') => for_each_bit w (deliver_irq_with rec i) st'
  | Fail e => Fail e
  end.

(** [fuel] bounds the depth of the re-entrance, not the loops. *)
Fixpoint run_irqs (fuel : nat) (st : irq_state) : res irq_state :=
  match fuel with
  | O => Fail NoFuel
  | S fuel' =>
      let (w, st') := test_and_clear_irq_index_status st in
      for_each_bit w (check_irq_status_with (run_irqs fuel')) st'
  end.

Definition run_irq (fuel : nat) := run_irq_with (run_irqs fuel).
Definition arch_local_irq_restore (fuel : nat) := arch_local_irq_restore_with (run_irqs fuel).

End Delivery.

(** ** Interrupt numbers *)

(** Positions of a list scanned from [i]: the first unused one. *)
Fixpoint first_unused (i : Z) (l : list (option string)) : option Z :=
  match l with
  | [] => None
  | None :: _ => Some i
  | Some _ :: l' => first_unused (i + 1) l'
  end.

Definition lkl_get_free_irq (user : string) (st : irq_state) : Z * irq_state :=
  match first_unused 1 (drop 1 (irqs st)) with
  | Some i => (i, set_irqs (<[Z.to_nat i := Some user]> (irqs st)) st)
  | None => (- EBUSY, st)
  end.

(** [irqs[i]] for the number being released; releasing somebody else's
    interrupt only warns. *)
Definition lkl_put_irq (i : Z) (user : string) (st : irq_state) : res irq_state :=
  if i <? 0 then Fail Segv else
  match irqs st !! Z.to_nat i with
  | None => Fail Segv
  | Some None => Ok st
  | Some (Some u) =>
      if String.eqb u user then Ok (set_irqs (<[Z.to_nat i := None]> (irqs st)) st)
      else Ok st
  end.

(** ** Lists of bit positions *)

Fixpoint ones_pos (p : positive) (i : Z) : list Z :=
  match p with
  | xH => [i]
  | xO w => ones_pos w (i + 1)
  | xI w => i :: ones_pos w (i + 1)
  end.

Definition ones (w : Z) : list Z :=
  match w with Zpos p => ones_pos p 0 | _ => [] end.

Fixpoint foldR {A} (f : Z -> A -> res A) (l : list Z) (a : A) : res A :=
  match l with
  | [] => Ok a
  | i :: l' => match f i a with Ok a' => foldR f l' a' | Fail e => Fail e end
  end.

Lemma for_each_bit_fold {A} w (f : Z -> A -> res A) a :
  for_each_bit w f a = foldR f (ones w) a.
Proof.
  destruct w as [|p|p]; [done| |done]. simpl.
  generalize 0 as i. revert a. induction p as [p IH|p IH|]; intros a i; simpl.
  - destruct (f i a); [apply IH|done].
  - apply IH.
  - by destruct (f i a).
Qed.

Lemma elem_of_ones_pos p i k :
  k ∈ ones_pos p i <-> i <= k /\ Z.testbit (Zpos p) (k - i) = true.
Proof.
  revert i. induction p as [p IH|p IH|]; intros i; simpl ones_pos.
  - rewrite elem_of_cons, IH. split.
    + intros [->|[Hk Ht]]; [split; [lia|by rewrite Z.sub_diag]|].
      split; [lia|]. replace (k - i) with (Z.succ (k - (i + 1))) by lia.
      by rewrite Pos2Z.inj_xI, Z.testbit_odd_succ by lia.
    + intros [Hk Ht]. destruct (decide (k = i)) as [->|]; [by left|right].
      split; [lia|]. revert Ht. replace (k - i) with (Z.succ (k - (i + 1))) by lia.
      by rewrite Pos2Z.inj_xI, Z.testbit_odd_succ by lia.
  - rewrite IH. split.
    + intros [Hk Ht]. split; [lia|]. replace (k - i) with (Z.succ (k - (i + 1))) by lia.
      by rewrite Pos2Z.inj_xO, Z.testbit_even_succ by lia.
    + intros [Hk Ht]. destruct (decide (k = i)) as [->|].
      { rewrite Z.sub_diag in Ht. done. }
      split; [lia|]. revert Ht. replace (k - i) with (Z.succ (k - (i + 1))) by lia.
      by rewrite Pos2Z.inj_xO, Z.testbit_even_succ by lia.
  - rewrite list_elem_of_singleton. split.
    + intros ->. split; [lia|by rewrite Z.sub_diag].
    + intros [Hk Ht]. destruct (decide (k = i)); [done|].
      rewrite Z.bits_above_log2 in Ht; simpl; lia || done.
Qed.

Lemma ones_pos_sorted p i : StronglySorted Z.lt (ones_pos p i).
Proof.
  revert i. induction p as [p IH|p IH|]; intros i; simpl; [|done|].
  - constructor; [done|]. apply Forall_forall. intros k [Hk _]%elem_of_ones_pos. lia.
  - repeat constructor.
Qed.

Lemma elem_of_ones w k : 0 <= w -> k ∈ ones w <-> 0 <= k /\ Z.testbit w k = true.
Proof.
  intros Hw. destruct w as [|p|p]; simpl; [|rewrite elem_of_ones_pos, Z.sub_0_r; done|lia].
  rewrite elem_of_nil, Z.bits_0. naive_solver.
Qed.

Lemma ones_sorted w : StronglySorted Z.lt (ones w).
Proof. destruct w; [constructor|apply ones_pos_sorted|constructor]. Qed.

Lemma sorted_NoDup (l : list Z) : StronglySorted Z.lt l -> NoDup l.
Proof.
  induction 1 as [|x l Hl IH Hx]; constructor; [|done].
  intros Hin. rewrite Forall_forall in Hx. apply Hx in Hin. lia.
Qed.

Lemma testbit_range w n k : 0 <= w < 2 ^ n -> 0 <= k -> Z.testbit w k = true -> k < n.
Proof.
  intros Hw Hk Ht. destruct (Z.lt_ge_cases k n) as [|Hge]; [done|].
  destruct (decide (w = 0)) as [->|]; [by rewrite Z.bits_0 in Ht|].
  rewrite Z.bits_above_log2 in Ht; [done|lia|].
  apply Z.log2_lt_pow2; [lia|]. destruct Hw as [_ Hw]. eapply Z.lt_le_trans; [done|].
  apply Z.pow_le_mono_r; lia.
Qed.

Lemma lor_bit_range w n k : 0 <= w < 2 ^ n -> 0 <= k < n -> 0 <= Z.lor w (Z.shiftl 1 k) < 2 ^ n.
Proof.
  intros Hw Hk. rewrite Z.shiftl_1_l.
  assert (0 < 2 ^ k) by (apply Z.pow_pos_nonneg; lia).
  assert (0 <= Z.lor w (2 ^ k)) by (apply Z.lor_nonneg; lia).
  split; [done|].
  assert (2 ^ k < 2 ^ n) by (apply Z.pow_lt_mono_r; lia).
  apply Z.log2_lt_cancel. rewrite Z.log2_lor, Z.log2_pow2, Z.log2_pow2 by lia.
  apply Z.max_lub_lt; [|lia].
  destruct (decide (w = 0)) as [->|]; [simpl; lia|]. apply Z.log2_lt_pow2; lia.
Qed.

Lemma lor_bit_test w k j : 0 <= k -> 0 <= j ->
  Z.testbit (Z.lor w (Z.shiftl 1 k)) j = Z.testbit w j || (j =? k).
Proof.
  intros. rewrite Z.lor_spec, Z.shiftl_1_l, Z.pow2_bits_eqb by lia.
  by rewrite Z.eqb_sym.
Qed.

(** ** Pending interrupts and the table invariant *)

(** Interrupt [j] is marked in the bitmap. *)
Definition pending (st : irq_state) (j : Z) : bool :=
  (0 <=? j) &&
  match irq_status st !! Z.to_nat (j / IRQ_STATUS_BITS) with
  | Some w => Z.testbit w (j mod IRQ_STATUS_BITS)
  | None => false
  end.

Definition word_ok (w : Z) : Prop := 0 <= w < 2 ^ 64.

(** Shapes and ranges of the static arrays. *)
Record irq_wf (st : irq_state) : Prop := {
  wf_len : length (irq_status st) = 64%nat;
  wf_words : Forall word_ok (irq_status st);
  wf_index : word_ok (irq_index_status st);
  wf_users : length (irqs st) = 4096%nat;
}.

(** Every word with a pending bit is announced in the index word. *)
Definition index_covers (st : irq_state) : Prop :=
  forall (i : nat) w, irq_status st !! i = Some w -> w <> 0 ->
    Z.testbit (irq_index_status st) (Z.of_nat i) = true.

Lemma irq_wf_init : irq_wf irq_init.
Proof. split; [done| |done|done]. apply Forall_replicate. done. Qed.

Lemma index_covers_init : index_covers irq_init.
Proof. intros i w Hi. apply lookup_replicate in Hi as [-> _]. done. Qed.

Lemma irq_split j : 0 <= j < 4096 -> (Z.to_nat (j / 64) < 64)%nat /\ 0 <= j mod 64 < 64.
Proof. lia. Qed.

Lemma wf_word st i : irq_wf st -> (i < 64)%nat ->
  exists w, irq_status st !! i = Some w /\ word_ok w.
Proof.
  intros Hwf Hi. destruct (lookup_lt_is_Some_2 (irq_status st) i) as [w Hw].
  { by rewrite (wf_len _ Hwf). }
  exists w. split; [done|]. by eapply Forall_lookup_1; [apply (wf_words _ Hwf)|].
Qed.

Lemma set_status_word_wf i w st : irq_wf st -> word_ok w -> irq_wf (set_status_word i w st).
Proof.
  intros [????] Hw. split; simpl; [by rewrite length_insert|by apply Forall_insert|done|done].
Qed.

Lemma set_index_word_wf w st : irq_wf st -> word_ok w -> irq_wf (set_index_word w st).
Proof. intros [????] Hw. by split. Qed.

(** What the first OR of [set_irq_pending] does. *)
Lemma or_irq_status_spec irq st :
  irq_wf st -> 0 <= irq < NR_IRQS ->
  exists st1, or_irq_status irq st = Ok st1 /\ irq_wf st1 /\
    irq_index_status st1 = irq_index_status st /\
    irqs st1 = irqs st /\ irqs_enabled st1 = irqs_enabled st /\
    hardirq_count st1 = hardirq_count st /\ delivered st1 = delivered st /\
    (forall j, pending st1 j = pending st j || (j =? irq)) /\
    (forall i : nat, i <> Z.to_nat (irq / 64) -> irq_status st1 !! i = irq_status st !! i).
Proof.
  unfold NR_IRQS. change (IRQ_STATUS_BITS * IRQ_STATUS_BITS) with 4096. intros Hwf Hi.
  destruct (irq_split irq Hi) as [Hidx Hbit].
  destruct (wf_word st _ Hwf Hidx) as (w & Hw & Hwr).
  unfold or_irq_status. change IRQ_STATUS_BITS with 64. rewrite Hw. eexists. split; [done|].
  split. { apply set_status_word_wf; [done|]. apply lor_bit_range; [done|lia]. }
  split_and!; try done.
  - intros j. unfold pending. simpl. change IRQ_STATUS_BITS with 64.
    destruct (Z.leb_spec 0 j); simpl; [|lia].
    destruct (decide (Z.to_nat (irq / 64) = Z.to_nat (j / 64))) as [He|Hne].
    + rewrite He, list_lookup_insert_eq by (rewrite (wf_len _ Hwf); lia).
      rewrite He in Hw. rewrite Hw, lor_bit_test by lia. f_equal.
      destruct (Z.eqb_spec (j mod 64) (irq mod 64)), (Z.eqb_spec j irq); try done; exfalso; lia.
    + rewrite list_lookup_insert_ne by done.
      destruct (Z.eqb_spec j irq) as [->|]; [done|]. by rewrite orb_false_r.
  - intros i Hne. simpl. by rewrite list_lookup_insert_ne.
Qed.

Lemma set_irq_pending_spec irq st :
  irq_wf st -> index_covers st -> 0 <= irq < NR_IRQS ->
  exists st', set_irq_pending irq st = Ok st' /\ irq_wf st' /\ index_covers st' /\
    (forall j, pending st' j = pending st j || (j =? irq)) /\
    irqs st' = irqs st /\ irqs_enabled st' = irqs_enabled st /\
    hardirq_count st' = hardirq_count st /\ delivered st' = delivered st.
Proof.
  intros Hwf Hcov Hi.
  destruct (or_irq_status_spec irq st Hwf Hi) as (st1 & He & Hwf1 & Hix & Hus & Hen & Hhc & Hdel & Hp & Ho).
  unfold set_irq_pending. rewrite He. eexists. split; [done|].
  unfold NR_IRQS in Hi. change (IRQ_STATUS_BITS * IRQ_STATUS_BITS) with 4096 in Hi.
  split_and!; try done.
  - apply set_index_word_wf; [done|]. apply lor_bit_range; [apply (wf_index _ Hwf1)|].
    change IRQ_STATUS_BITS with 64. lia.
  - intros i w Hw Hnz. simpl in *. change IRQ_STATUS_BITS with 64.
    rewrite lor_bit_test by lia. rewrite Hix. apply orb_true_iff.
    destruct (decide (i = Z.to_nat (irq / 64))) as [->|Hne]; [right; apply Z.eqb_eq; lia|left].
    apply (Hcov i w); [|done]. by rewrite <- Ho.
Qed.

(** ** Delivery with handlers that raise no interrupt themselves *)

Definition quiet (h : Z -> irq_state -> irq_state) : Prop := forall irq st, h irq st = st.

Definition word_irqs (ws : list Z) (i : Z) : list Z :=
  map (fun b => i * 64 + b) (ones (default 0 (ws !! Z.to_nat i))).

Definition log_all (l : list Z) (st : irq_state) : irq_state :=
  IrqState (irq_status st) (irq_index_status st) (irqs st) (irqs_enabled st)
    (hardirq_count st) (delivered st ++ l).

Definition clear_words (l : list Z) (ws : list Z) : list Z :=
  foldl (fun ws i => <[Z.to_nat i := 0]> ws) ws l.

Section Quiet.
Context (h : Z -> irq_state -> irq_state) (Hq : quiet h) (fuel : nat).

Lemma run_irqs_nothing st : irq_index_status st = 0 -> run_irqs h (S fuel) st = Ok st.
Proof. intros H. simpl. unfold test_and_clear_irq_index_status. by rewrite H. Qed.

Lemma run_irq_quiet irq st :
  irq_index_status st = 0 ->
  run_irq_with h (run_irqs h (S fuel)) irq st = Ok (log_delivery irq st).
Proof.
  intros Hx. unfold run_irq_with, arch_local_irq_restore_with. rewrite Hq.
  destruct st as [ws ix us en hc dl]; simpl in *. subst ix.
  replace (hc + 1 - 1) with hc by lia. rewrite andb_true_r.
  destruct (en && (hc =? 0)) eqn:E; [|done].
  unfold test_and_clear_irq_index_status. simpl. done.
Qed.

Lemma deliver_word i bs st :
  irq_index_status st = 0 ->
  foldR (deliver_irq_with h (run_irqs h (S fuel)) i) bs st =
  Ok (log_all (map (fun b => i * 64 + b) bs) st).
Proof.
  revert st. induction bs as [|b bs IH]; intros st Hx; simpl.
  { unfold log_all. rewrite app_nil_r. by destruct st. }
  unfold deliver_irq_with at 1. rewrite run_irq_quiet by done.
  rewrite IH by done. unfold log_all, log_delivery. simpl.
  by rewrite <- app_assoc.
Qed.

Lemma check_word i st :
  irq_index_status st = 0 -> (Z.to_nat i < length (irq_status st))%nat ->
  check_irq_status_with h (run_irqs h (S fuel)) i st =
  Ok (set_status_word (Z.to_nat i) 0 (log_all (word_irqs (irq_status st) i) st)).
Proof.
  intros Hx Hi. unfold check_irq_status_with, test_and_clear_irq_status, word_irqs.
  destruct (lookup_lt_is_Some_2 _ _ Hi) as [w ->].
  rewrite for_each_bit_fold, deliver_word by done. done.
Qed.

Lemma check_words l st :
  irq_index_status st = 0 -> NoDup l ->
  Forall (fun i => 0 <= i /\ (Z.to_nat i < length (irq_status st))%nat) l ->
  foldR (check_irq_status_with h (run_irqs h (S fuel))) l st =
  Ok (IrqState (clear_words l (irq_status st)) 0 (irqs st) (irqs_enabled st)
        (hardirq_count st) (delivered st ++ concat (map (word_irqs (irq_status st)) l))).
Proof.
  revert st. induction l as [|i l IH]; intros st Hx Hnd Hr; simpl.
  { rewrite app_nil_r. destruct st; simpl in *. by subst. }
  inversion Hnd as [|?? Hni Hnd']; inversion Hr as [|?? [Hi0 Hi] Hr']; subst.
  rewrite check_word by done. rewrite IH; simpl; [|done|done|].
  - rewrite <- app_assoc.
    replace (map (word_irqs (<[Z.to_nat i := 0]> (irq_status st))) l)
      with (map (word_irqs (irq_status st)) l); [done|].
    apply map_ext_in. intros k Hk.
    unfold word_irqs. rewrite list_lookup_insert_ne; [done|].
    intros He. apply list_elem_of_In in Hk. rewrite Forall_forall in Hr'.
    destruct (Hr' k Hk). apply Hni. by replace i with k by lia.
  - by rewrite length_insert.
Qed.

End Quiet.

Lemma clear_words_lookup l ws (i : nat) :
  Forall (fun k => 0 <= k) l ->
  clear_words l ws !! i =
  if decide (Z.of_nat i ∈ l) then (fun _ => 0) <$> ws !! i else ws !! i.
Proof.
  revert ws. induction l as [|k l IH]; intros ws Hl.
  { rewrite decide_False; [done|]. apply not_elem_of_nil. }
  change (clear_words (k :: l) ws) with (clear_words l (<[Z.to_nat k := 0]> ws)).
  inversion Hl as [|?? Hk Hl']; subst.
  rewrite IH by done. destruct (decide (Z.of_nat i = k)) as [He|Hne].
  - assert (Z.to_nat k = i) as -> by lia.
    rewrite (decide_True _ _ (P := Z.of_nat i ∈ k :: l)) by (rewrite He; left).
    destruct (lt_dec i (length ws)).
    + rewrite list_lookup_insert_eq by done.
      destruct (lookup_lt_is_Some_2 ws i) as [w Hw]; [done|]. rewrite Hw.
      by case_decide.
    + rewrite list_insert_ge by lia. rewrite (proj2 (lookup_ge_None ws i)) by lia.
      by case_decide.
  - rewrite list_lookup_insert_ne by lia.
    destruct (decide (Z.of_nat i ∈ l)) as [Hin|Hni].
    + rewrite decide_True; [done|]. by right.
    + rewrite decide_False; [done|]. rewrite elem_of_cons. naive_solver.
Qed.

Lemma word_irqs_elem st i j :
  irq_wf st -> 0 <= i < 64 ->
  j ∈ word_irqs (irq_status st) i <-> pending st j = true /\ j / 64 = i.
Proof.
  intros Hwf Hi. destruct (wf_word st (Z.to_nat i) Hwf) as (w & Hw & Hwr); [lia|].
  unfold word_irqs. rewrite Hw. simpl. rewrite list_elem_of_In, in_map_iff.
  unfold pending. change IRQ_STATUS_BITS with 64. split.
  - intros (b & <- & Hb%list_elem_of_In). apply elem_of_ones in Hb as [Hb0 Hb]; [|apply Hwr].
    assert (b < 64) by (eapply testbit_range; eauto).
    assert ((i * 64 + b) / 64 = i) as Hd by lia. split; [|done].
    rewrite Hd, Hw. replace ((i * 64 + b) mod 64) with b by lia.
    rewrite Hb, andb_true_r. lia.
  - intros [Hp <-]. apply andb_true_iff in Hp as [Hj Hp].
    rewrite Hw in Hp. exists (j mod 64). split; [lia|].
    apply list_elem_of_In, elem_of_ones; [apply Hwr|]. split; [lia|done].
Qed.

Lemma StronglySorted_app_lt (l1 l2 : list Z) :
  StronglySorted Z.lt l1 -> StronglySorted Z.lt l2 ->
  (forall x y, x ∈ l1 -> y ∈ l2 -> x < y) -> StronglySorted Z.lt (l1 ++ l2).
Proof.
  induction 1 as [|x l1 Hl IH Hx]; intros H2 Hlt; simpl; [done|].
  constructor.
  - apply IH; [done|]. intros a b Ha. apply Hlt. by right.
  - apply Forall_app. split; [done|]. apply Forall_forall. intros y. apply Hlt. by left.
Qed.

Lemma word_irqs_sorted st i : StronglySorted Z.lt (word_irqs (irq_status st) i).
Proof.
  unfold word_irqs. generalize (ones_sorted (default 0 (irq_status st !! Z.to_nat i))).
  generalize (ones (default 0 (irq_status st !! Z.to_nat i))). intros l.
  induction 1 as [|b l Hl IH Hb]; simpl; constructor; [done|].
  apply Forall_forall. intros y Hy. apply list_elem_of_In, in_map_iff in Hy as (b' & <- & Hy).
  rewrite Forall_forall in Hb. apply list_elem_of_In, Hb in Hy. lia.
Qed.

Lemma all_words_sorted st l :
  irq_wf st -> StronglySorted Z.lt l -> Forall (fun i => 0 <= i < 64) l ->
  StronglySorted Z.lt (concat (map (word_irqs (irq_status st)) l)).
Proof.
  intros Hwf. induction 1 as [|i l Hl IH Hi]; intros Hr; simpl; [constructor|].
  inversion Hr as [|?? Hir Hr']; subst.
  apply StronglySorted_app_lt; [apply word_irqs_sorted|by apply IH|].
  intros x y Hx Hy. apply word_irqs_elem in Hx as [_ Hx]; [|done|done].
  apply list_elem_of_In, in_concat in Hy as (l' & Hl' & Hy).
  apply in_map_iff in Hl' as (k & <- & Hk). apply list_elem_of_In in Hk, Hy.
  rewrite Forall_forall in Hi, Hr'. apply word_irqs_elem in Hy as [_ Hy]; [|done|by apply Hr'].
  apply Hi in Hk. lia.
Qed.

(** Looking for a free number. *)
Lemma first_unused_spec i l :
  match first_unused i l with
  | Some k => exists n, k = i + Z.of_nat n /\ l !! n = Some None /\
                forall m, (m < n)%nat -> exists u, l !! m = Some (Some u)
  | None => forall m, (m < length l)%nat -> exists u, l !! m = Some (Some u)
  end.
Proof.
  revert i. induction l as [|[u|] l IH]; intros i; simpl.
  - intros m Hm. lia.
  - specialize (IH (i + 1)). destruct (first_unused (i + 1) l) as [k|].
    + destruct IH as (n & -> & Hn & Hlt). exists (S n). split_and!; [lia|done|].
      intros [|m] Hm; simpl; [eauto|]. apply Hlt. lia.
    + intros [|m] Hm; simpl; [eauto|]. apply IH. lia.
  - exists 0%nat. split_and!; [lia|done|]. intros m Hm. lia.
Qed.

Lemma get_free_irq_spec user st :
  irq_wf st ->
  let (i, st') := lkl_get_free_irq user st in
  irq_wf st' /\
  ((1 <= i < NR_IRQS /\ irqs st !! Z.to_nat i = Some None /\
    (forall k, 1 <= k < i -> exists u, irqs st !! Z.to_nat k = Some (Some u)) /\
    st' = set_irqs (<[Z.to_nat i := Some user]> (irqs st)) st) \/
   (i = - EBUSY /\ st' = st /\
    forall k, 1 <= k < NR_IRQS -> exists u, irqs st !! Z.to_nat k = Some (Some u))).
Proof.
  intros Hwf. pose proof (wf_users _ Hwf) as Hl. unfold lkl_get_free_irq.
  pose proof (first_unused_spec 1 (drop 1 (irqs st))) as Hf.
  destruct (first_unused 1 _) as [k|].
  - destruct Hf as (n & -> & Hn & Hlt). rewrite lookup_drop in Hn.
    replace (Z.to_nat (1 + Z.of_nat n)) with (1 + n)%nat by lia. split.
    { destruct Hwf. split; simpl; try done. by rewrite length_insert. }
    left. apply lookup_lt_Some in Hn as Hlen. unfold NR_IRQS, IRQ_STATUS_BITS.
    split_and!; [lia|lia|done| |done]. intros k Hk.
    destruct (Hlt (Z.to_nat k - 1)%nat) as [u Hu]; [lia|]. exists u.
    rewrite lookup_drop in Hu. by replace (1 + (Z.to_nat k - 1))%nat with (Z.to_nat k) in Hu by lia.
  - split; [done|]. right. split_and!; [done|done|].
    unfold NR_IRQS, IRQ_STATUS_BITS. intros k Hk.
    destruct (Hf (Z.to_nat k - 1)%nat) as [u Hu]; [rewrite length_drop; lia|]. exists u.
    rewrite lookup_drop in Hu. by replace (1 + (Z.to_nat k - 1))%nat with (Z.to_nat k) in Hu by lia.
Qed.

(** ** Interleavings

    Producers run [set_irq_pending] on arbitrary host threads, as two atomic
    ORs.  A consumer is an activation of [run_irqs] (activations nest): it
    takes the index word, then word after word, then delivers bit after bit.
    The local words of an activation are kept with the handled bits cleared.
    [c_out] is ghost: the interrupts requested since they were last delivered;
    [c_req] is every interrupt ever requested. *)
Record cstate := CState {
  c_irq : irq_state;
  c_prod : list Z;
  c_cons : list (Z * option (Z * Z));
  c_out : gset Z;
  c_req : gset Z;
}.

Definition cstate_init : cstate := CState irq_init [] [] ∅ ∅.

Inductive cstep : cstate -> cstate -> Prop :=
| cstep_set_status irq st st1 pr co out rq :
    0 <= irq < NR_IRQS ->
    or_irq_status irq st = Ok st1 ->
    cstep (CState st pr co out rq)
          (CState st1 (irq :: pr) co ({[irq]} ∪ out) ({[irq]} ∪ rq))
| cstep_set_index irq st p1 p2 co out rq :
    cstep (CState st (p1 ++ irq :: p2) co out rq)
          (CState (or_irq_index_status irq st) (p1 ++ p2) co out rq)
| cstep_take_index st pr co out rq w st' :
    test_and_clear_irq_index_status st = (w, st') ->
    cstep (CState st pr co out rq) (CState st' pr ((w, None) :: co) out rq)
| cstep_take_word st pr c1 c2 out rq w i rest v st' :
    ones w = i :: rest ->
    test_and_clear_irq_status i st = Ok (v, st') ->
    cstep (CState st pr (c1 ++ (w, None) :: c2) out rq)
          (CState st' pr (c1 ++ (Z.clearbit w i, Some (i, v)) :: c2) out rq)
| cstep_deliver st pr c1 c2 out rq w i v b rest :
    ones v = b :: rest ->
    cstep (CState st pr (c1 ++ (w, Some (i, v)) :: c2) out rq)
          (CState (log_delivery (i * IRQ_STATUS_BITS + b) st) pr
             (c1 ++ (w, Some (i, Z.clearbit v b)) :: c2)
             (out ∖ {[i * IRQ_STATUS_BITS + b]}) rq)
| cstep_word_done st pr c1 c2 out rq w i :
    cstep (CState st pr (c1 ++ (w, Some (i, 0)) :: c2) out rq)
          (CState st pr (c1 ++ (w, None) :: c2) out rq)
| cstep_done st pr c1 c2 out rq :
    cstep (CState st pr (c1 ++ (0, None) :: c2) out rq)
          (CState st pr (c1 ++ c2) out rq).

(** [j] sits in the word an activation is delivering. *)
Definition held (co : list (Z * option (Z * Z))) (j : Z) : Prop :=
  exists w i v, (w, Some (i, v)) ∈ co /\ j / 64 = i /\ Z.testbit v (j mod 64) = true.

(** Some activation is going to look at word [i]. *)
Definition scheduled (co : list (Z * option (Z * Z))) (i : Z) : Prop :=
  exists w o, (w, o) ∈ co /\ Z.testbit w i = true.

Definition local_ok (c : Z * option (Z * Z)) : Prop :=
  word_ok (fst c) /\
  match snd c with Some (i, v) => 0 <= i < 64 /\ word_ok v | None => True end.

Record cinv (s : cstate) : Prop := {
  ci_wf : irq_wf (c_irq s);
  ci_prod : Forall (fun p => 0 <= p < 4096) (c_prod s);
  ci_local : Forall local_ok (c_cons s);
  ci_track : forall j, j ∈ c_out s -> pending (c_irq s) j = true \/ held (c_cons s) j;
  ci_cover : forall (i : nat) w, irq_status (c_irq s) !! i = Some w -> w <> 0 ->
    Z.testbit (irq_index_status (c_irq s)) (Z.of_nat i) = true \/
    (exists p, p ∈ c_prod s /\ p / 64 = Z.of_nat i) \/
    scheduled (c_cons s) (Z.of_nat i);
  ci_req : forall j, pending (c_irq s) j = true \/ held (c_cons s) j -> j ∈ c_req s;
  ci_delivered : forall j, j ∈ delivered (c_irq s) -> j ∈ c_req s;
}.

Definition held_one (c : Z * option (Z * Z)) (j : Z) : Prop :=
  match snd c with
  | Some (i, v) => j / 64 = i /\ Z.testbit v (j mod 64) = true
  | None => False
  end.

Lemma held_mid c1 c c2 j :
  held (c1 ++ c :: c2) j <-> held_one c j \/ held (c1 ++ c2) j.
Proof.
  unfold held, held_one. split.
  - intros (w & i & v & Hin & Hj & Ht).
    rewrite elem_of_app, elem_of_cons in Hin.
    destruct Hin as [Hin|[<-|Hin]]; [right|left; done|right];
      exists w, i, v; rewrite elem_of_app; auto.
  - intros [H|(w & i & v & Hin & Hj & Ht)].
    + destruct c as [w [[i v]|]]; simpl in H; [|done]. exists w, i, v.
      rewrite elem_of_app, elem_of_cons. naive_solver.
    + exists w, i, v. rewrite elem_of_app, elem_of_cons. rewrite elem_of_app in Hin.
      naive_solver.
Qed.

Lemma scheduled_mid c1 c c2 i :
  scheduled (c1 ++ c :: c2) i <-> Z.testbit (fst c) i = true \/ scheduled (c1 ++ c2) i.
Proof.
  unfold scheduled. split.
  - intros (w & o & Hin & Ht). rewrite elem_of_app, elem_of_cons in Hin.
    destruct Hin as [Hin|[<-|Hin]]; [right|left; done|right];
      exists w, o; rewrite elem_of_app; auto.
  - intros [H|(w & o & Hin & Ht)].
    + destruct c as [w o]. exists w, o. rewrite elem_of_app, elem_of_cons. naive_solver.
    + exists w, o. rewrite elem_of_app, elem_of_cons. rewrite elem_of_app in Hin.
      naive_solver.
Qed.

Lemma local_mid c1 c c2 :
  Forall local_ok (c1 ++ c :: c2) <-> local_ok c /\ Forall local_ok (c1 ++ c2).
Proof. rewrite !Forall_app, Forall_cons. tauto. Qed.

Lemma clearbit_ok w b : word_ok w -> word_ok (Z.clearbit w b).
Proof.
  unfold word_ok, Z.clearbit. intros Hw.
  pose proof (ldiff_range (Z.shiftl 1 b) w). lia.
Qed.

Lemma clearbit_test w b k :
  0 <= b -> Z.testbit (Z.clearbit w b) k = Z.testbit w k && negb (b =? k).
Proof. intros. by rewrite Z.clearbit_eqb. Qed.

Lemma ones_head w i rest :
  word_ok w -> ones w = i :: rest -> 0 <= i < 64 /\ Z.testbit w i = true.
Proof.
  intros Hw Ho. assert (i ∈ ones w) as Hi by (rewrite Ho; left).
  apply elem_of_ones in Hi as [Hi0 Hi]; [|apply Hw]. split; [|done].
  split; [done|]. by eapply testbit_range.
Qed.

(** Clearing word [i] removes exactly its bits. *)
Lemma pending_clear_word st i j :
  irq_wf st -> 0 <= i < 64 ->
  pending (set_status_word (Z.to_nat i) 0 st) j = pending st j && negb (j / 64 =? i).
Proof.
  intros Hwf Hi. unfold pending. change IRQ_STATUS_BITS with 64. simpl.
  destruct (Z.leb_spec 0 j); simpl; [|done].
  destruct (Z.eqb_spec (j / 64) i) as [->|Hne]; simpl.
  - rewrite list_lookup_insert_eq by (rewrite (wf_len _ Hwf); lia).
    by rewrite Z.bits_0, andb_false_r.
  - rewrite list_lookup_insert_ne by lia. by rewrite andb_true_r.
Qed.

Lemma cstep_inv_set_status irq st st1 pr co out rq :
  0 <= irq < NR_IRQS -> or_irq_status irq st = Ok st1 ->
  cinv (CState st pr co out rq) ->
  cinv (CState st1 (irq :: pr) co ({[irq]} ∪ out) ({[irq]} ∪ rq)).
Proof.
  intros Hirq Hor [Hwf Hpr Hlo Htr Hco Hrq Hde]; simpl in *.
  destruct (or_irq_status_spec irq st Hwf Hirq)
    as (st1' & He & Hwf1 & Hix & _ & _ & _ & Hdel & Hp & Ho). rewrite He in Hor. injection Hor as <-.
  change NR_IRQS with 4096 in Hirq. split; simpl; try done.
  - constructor; [exact Hirq|done].
  - intros j [->%elem_of_singleton|Hj]%elem_of_union.
    + left. rewrite Hp, Z.eqb_refl. apply orb_true_r.
    + destruct (Htr j Hj) as [Hj'|]; [left|by right]. by rewrite Hp, Hj'.
  - intros i w Hw Hnz. rewrite Hix.
    destruct (decide (i = Z.to_nat (irq / 64))) as [->|Hne].
    + right; left. exists irq. split; [left|lia].
    + rewrite Ho in Hw by done. destruct (Hco i w Hw Hnz) as [|[(p & ? & ?)|]]; [by left| |by do 2 right].
      right; left. exists p. split; [by right|done].
  - intros j [Hj|Hj]; [|set_solver]. rewrite Hp in Hj.
    apply orb_true_iff in Hj as [Hj|Hj]; [set_solver|]. apply Z.eqb_eq in Hj. set_solver.
  - rewrite Hdel. set_solver.
Qed.

Lemma cstep_inv_set_index irq st p1 p2 co out rq :
  cinv (CState st (p1 ++ irq :: p2) co out rq) ->
  cinv (CState (or_irq_index_status irq st) (p1 ++ p2) co out rq).
Proof.
  intros [Hwf Hpr Hlo Htr Hco Hrq Hde]; simpl in *.
  rewrite Forall_app, Forall_cons in Hpr. destruct Hpr as (Hp1 & Hirq & Hp2).
  split; simpl; try done.
  - apply set_index_word_wf; [done|]. apply lor_bit_range; [apply (wf_index _ Hwf)|].
    change IRQ_STATUS_BITS with 64. lia.
  - by apply Forall_app.
  - intros i w Hw Hnz. change IRQ_STATUS_BITS with 64. rewrite lor_bit_test by lia.
    destruct (Hco i w Hw Hnz) as [->|[(p & Hp & Hpi)|Hs]]; [by left| |by do 2 right].
    rewrite elem_of_app, elem_of_cons in Hp. destruct Hp as [Hp|[->|Hp]].
    + right; left. exists p. rewrite elem_of_app. auto.
    + left. rewrite orb_true_iff, Z.eqb_eq. auto.
    + right; left. exists p. rewrite elem_of_app. auto.
Qed.

Lemma cstep_inv_take_index st pr co out rq w st' :
  test_and_clear_irq_index_status st = (w, st') ->
  cinv (CState st pr co out rq) -> cinv (CState st' pr ((w, None) :: co) out rq).
Proof.
  intros Htc [Hwf Hpr Hlo Htr Hco Hrq Hde]; simpl in *.
  assert (irq_status st' = irq_status st /\ delivered st' = delivered st /\ irq_wf st' /\
          word_ok w /\ forall i, Z.testbit (irq_index_status st) i = true ->
            Z.testbit w i = true) as (Hst & Hdl & Hwf' & Hw & Hb).
  { unfold test_and_clear_irq_index_status in Htc.
    destruct (Z.eqb_spec (irq_index_status st) 0) as [Hz|]; simplify_eq; split_and!; try done.
    - intros i. by rewrite Hz.
    - apply set_index_word_wf; [done|done].
    - apply Hwf. }
  assert (forall j, pending st' j = pending st j) as Hp by (intros; unfold pending; by rewrite Hst).
  assert (forall j, held ((w, None) :: co) j <-> held co j) as Hh.
  { intros j. rewrite (held_mid [] (w, None) co). unfold held_one. simpl. tauto. }
  split; simpl; try done.
  - by constructor.
  - intros j Hj. rewrite Hp, Hh. auto.
  - intros i w' Hi Hnz. rewrite Hst in Hi. rewrite (scheduled_mid [] (w, None) co). simpl.
    destruct (Hco i w' Hi Hnz) as [Hx|[Hx|Hx]]; auto.
  - intros j. rewrite Hp, Hh. auto.
  - by rewrite Hdl.
Qed.

Lemma cstep_inv_take_word st pr c1 c2 out rq w i rest v st' :
  ones w = i :: rest -> test_and_clear_irq_status i st = Ok (v, st') ->
  cinv (CState st pr (c1 ++ (w, None) :: c2) out rq) ->
  cinv (CState st' pr (c1 ++ (Z.clearbit w i, Some (i, v)) :: c2) out rq).
Proof.
  intros Ho Htc [Hwf Hpr Hlo Htr Hco Hrq Hde]; simpl in *.
  rewrite local_mid in Hlo. destruct Hlo as [[Hw _] Hlo]. simpl in Hw.
  destruct (ones_head w i rest Hw Ho) as [Hi Hwi].
  unfold test_and_clear_irq_status in Htc.
  destruct (irq_status st !! Z.to_nat i) as [v'|] eqn:Hv; [|done]. simplify_eq.
  assert (word_ok v) as Hvw by (eapply Forall_lookup_1; [apply (wf_words _ Hwf)|done]).
  assert (forall j, j / 64 = i -> pending st j = Z.testbit v (j mod 64)) as Hpi.
  { intros j Hj. unfold pending. change IRQ_STATUS_BITS with 64. rewrite Hj, Hv.
    by rewrite (proj2 (Z.leb_le 0 j)) by lia. }
  split; simpl; try done.
  - by apply set_status_word_wf.
  - rewrite local_mid. split; [|done]. split; simpl; [by apply clearbit_ok|done].
  - intros j Hj. rewrite held_mid, pending_clear_word by done.
    unfold held_one; simpl. destruct (Htr j Hj) as [Hp|Hh].
    + destruct (Z.eqb_spec (j / 64) i) as [He|]; [right; left|left]; [|by rewrite Hp].
      split; [done|]. by rewrite <- Hpi.
    + rewrite held_mid in Hh. destruct Hh as [[]|Hh]. auto.
  - intros k w' Hk Hnz. rewrite scheduled_mid. simpl.
    destruct (decide (k = Z.to_nat i)) as [->|Hne].
    { rewrite list_lookup_insert_eq in Hk; [by simplify_eq|].
      by apply lookup_lt_Some in Hv. }
    rewrite list_lookup_insert_ne in Hk by done.
    rewrite clearbit_test by lia.
    destruct (Hco k w' Hk Hnz) as [Hx|[Hx|Hx]]; auto.
    rewrite scheduled_mid in Hx. destruct Hx as [Hx|Hx]; [|auto]. simpl in Hx.
    right; right; left. rewrite Hx. simpl. apply negb_true_iff, Z.eqb_neq. lia.
  - intros j [Hj|Hj].
    + rewrite pending_clear_word in Hj by done. apply andb_true_iff in Hj as [Hj _]. auto.
    + rewrite held_mid in Hj. destruct Hj as [[Hj1 Hj2]|Hj].
      * apply Hrq. left. by rewrite Hpi.
      * apply Hrq. right. rewrite held_mid. auto.
Qed.

Lemma cstep_inv_deliver st pr c1 c2 out rq w i v b rest :
  ones v = b :: rest ->
  cinv (CState st pr (c1 ++ (w, Some (i, v)) :: c2) out rq) ->
  cinv (CState (log_delivery (i * IRQ_STATUS_BITS + b) st) pr
          (c1 ++ (w, Some (i, Z.clearbit v b)) :: c2)
          (out ∖ {[i * IRQ_STATUS_BITS + b]}) rq).
Proof.
  change IRQ_STATUS_BITS with 64.
  intros Ho [Hwf Hpr Hlo Htr Hco Hrq Hde]; simpl in *.
  rewrite local_mid in Hlo. destruct Hlo as [[Hw [Hi Hv]] Hlo]. simpl in *.
  destruct (ones_head v b rest Hv Ho) as [Hb Hvb].
  split; simpl.
  - by destruct Hwf.
  - done.
  - rewrite local_mid. split; [|done]. split; simpl; [done|]. split; [done|by apply clearbit_ok].
  - intros j [Hj Hne]%elem_of_difference. rewrite not_elem_of_singleton in Hne.
    destruct (Htr j Hj) as [Hp|Hh]; [by left|right].
    rewrite held_mid in *. unfold held_one in *. simpl in *.
    destruct Hh as [[H1 H2]|Hh]; [left|by right]. split; [done|].
    rewrite clearbit_test, H2 by lia. simpl. apply negb_true_iff, Z.eqb_neq. lia.
  - intros k w' Hk Hnz. rewrite scheduled_mid. specialize (Hco k w' Hk Hnz).
    rewrite scheduled_mid in Hco. done.
  - intros j [Hj|Hj]; apply Hrq; [by left|right].
    rewrite held_mid in *. unfold held_one in *. simpl in *.
    destruct Hj as [[H1 H2]|Hj]; [left|by right]. split; [done|].
    rewrite clearbit_test in H2 by lia. by apply andb_true_iff in H2 as [H2 _].
  - intros j [Hj|Hj%list_elem_of_singleton]%elem_of_app; [auto|]. subst j.
    apply Hrq. right. rewrite held_mid. left. unfold held_one. simpl.
    replace ((i * 64 + b) mod 64) with b by lia. split; [lia|done].
Qed.

Lemma cstep_inv s s' : cinv s -> cstep s s' -> cinv s'.
Proof.
  intros Hinv Hs. destruct Hs.
  - by eapply cstep_inv_set_status.
  - by apply cstep_inv_set_index.
  - by eapply cstep_inv_take_index.
  - by eapply cstep_inv_take_word.
  - by eapply cstep_inv_deliver.
  - destruct Hinv as [Hwf Hpr Hlo Htr Hco Hrq Hde]; simpl in *.
    assert (forall j, held (c1 ++ (w, None) :: c2) j <-> held (c1 ++ (w, Some (i, 0)) :: c2) j) as Hh.
    { intros j. rewrite !held_mid. unfold held_one. simpl. rewrite Z.bits_0. naive_solver. }
    split; simpl; try done.
    + rewrite local_mid in *. destruct Hlo as [[Hw _] Hlo]. split; [|done]. by split.
    + intros j Hj. rewrite Hh. auto.
    + intros k w' Hk Hnz. specialize (Hco k w' Hk Hnz). by rewrite scheduled_mid in *.
    + intros j. rewrite Hh. auto.
  - destruct Hinv as [Hwf Hpr Hlo Htr Hco Hrq Hde]; simpl in *.
    assert (forall j, held (c1 ++ (0, None) :: c2) j <-> held (c1 ++ c2) j) as Hh.
    { intros j. rewrite !held_mid. unfold held_one. simpl. naive_solver. }
    split; simpl; try done.
    + rewrite local_mid in *. tauto.
    + intros j Hj. rewrite <- Hh. auto.
    + intros k w' Hk Hnz. specialize (Hco k w' Hk Hnz). rewrite scheduled_mid in Hco.
      simpl in Hco. rewrite Z.bits_0 in Hco. naive_solver.
    + intros j. rewrite <- Hh. auto.
Qed.

Lemma cinv_init : cinv cstate_init.
Proof.
  split; cbn [cstate_init c_irq c_prod c_cons c_out c_req irq_init irq_status irq_index_status delivered].
  - apply irq_wf_init.
  - constructor.
  - constructor.
  - set_solver.
  - intros i w Hi. apply lookup_replicate in Hi as [-> _]. done.
  - intros j [Hj|(w & i & v & Hin & _)]; [|by apply not_elem_of_nil in Hin].
    unfold pending in Hj. cbn [irq_status] in Hj.
    destruct (_ !! _) eqn:E; [|by rewrite andb_false_r in Hj].
    apply lookup_replicate in E as [-> _]. by rewrite Z.bits_0, andb_false_r in Hj.
  - intros j Hj. by apply not_elem_of_nil in Hj.
Qed.

Lemma cinv_reachable s : rtc cstep cstate_init s -> cinv s.
Proof. apply rtc_ind_r; [apply cinv_init|]. intros y z _ Hs Hy. by eapply cstep_inv. Qed.

Lemma pending_word st j :
  pending st j = true ->
  0 <= j /\ exists w, irq_status st !! Z.to_nat (j / 64) = Some w /\ w <> 0.
Proof.
  unfold pending. change IRQ_STATUS_BITS with 64. intros [Hj Hp]%andb_true_iff.
  split; [lia|]. destruct (_ !! _) as [w|]; [|done]. exists w. split; [done|].
  intros ->. by rewrite Z.bits_0 in Hp.
Qed.

Lemma length_clear_words l ws : length (clear_words l ws) = length ws.
Proof.
  unfold clear_words. revert ws. induction l as [|i l IH]; intros ws; simpl; [done|].
  by rewrite IH, length_insert.
Qed.

Lemma clear_words_ok l ws : Forall word_ok ws -> Forall word_ok (clear_words l ws).
Proof.
  unfold clear_words. revert ws. induction l as [|i l IH]; intros ws Hw; simpl; [done|].
  apply IH, Forall_insert; [done|]. by unfold word_ok.
Qed.

Lemma nothing_pending_covers st : irq_wf st -> (forall j, pending st j = false) -> index_covers st.
Proof.
  intros Hwf Hp i w Hw Hnz. exfalso.
  assert (i < 64)%nat as Hi by (rewrite <- (wf_len _ Hwf); by eapply lookup_lt_Some).
  pose proof (Forall_lookup_1 _ _ _ _ (wf_words _ Hwf) Hw) as Hok. unfold word_ok in Hok.
  pose proof (Z.log2_nonneg w).
  assert (Z.log2 w < 64) by (apply Z.log2_lt_pow2; lia).
  specialize (Hp (64 * Z.of_nat i + Z.log2 w)). unfold pending in Hp. change IRQ_STATUS_BITS with 64 in Hp.
  rewrite (proj2 (Z.leb_le _ _)) in Hp by lia.
  replace (Z.to_nat ((64 * Z.of_nat i + Z.log2 w) / 64)) with i in Hp by lia.
  replace ((64 * Z.of_nat i + Z.log2 w) mod 64) with (Z.log2 w) in Hp by lia.
  rewrite Hw, Z.bit_log2 in Hp by lia. done.
Qed.

(** [run_irqs] on a well-formed state. *)
Lemma run_irqs_quiet h st fuel :
  quiet h -> irq_wf st -> index_covers st -> (2 <= fuel)%nat ->
  exists st' l, run_irqs h fuel st = Ok st' /\
    delivered st' = delivered st ++ l /\
    StronglySorted Z.lt l /\
    (forall j, j ∈ l <-> pending st j = true) /\
    (forall j, pending st' j = false) /\
    irq_index_status st' = 0 /\ irqs_enabled st' = irqs_enabled st /\
    hardirq_count st' = hardirq_count st /\ irq_wf st'.
Proof.
  intros Hq Hwf Hcov Hf. destruct fuel as [|[|fuel]]; [lia..|].
  set (ix := irq_index_status st). pose proof (wf_index _ Hwf) as Hix. fold ix in Hix.
  assert (Forall (fun i => 0 <= i < 64) (ones ix)) as Hr.
  { apply Forall_forall. intros i [Hi Ht]%elem_of_ones; [|apply Hix].
    split; [done|]. by eapply testbit_range. }
  set (st0 := set_index_word 0 st).
  assert (run_irqs h (S (S fuel)) st =
          foldR (check_irq_status_with h (run_irqs h (S fuel))) (ones ix) st0) as ->.
  { cbn [run_irqs]. unfold test_and_clear_irq_index_status. fold ix.
    destruct (Z.eqb_spec ix 0) as [Hz|Hz].
    - rewrite Hz. simpl. f_equal. subst st0. unfold set_index_word.
      rewrite <- Hz at 1. subst ix. by destruct st.
    - apply for_each_bit_fold. }
  rewrite (check_words h Hq); [|done|apply sorted_NoDup, ones_sorted|].
  2:{ eapply Forall_impl; [exact Hr|]. intros i Hi. simpl in *.
      rewrite (wf_len _ Hwf). lia. }
  eexists _, _. split; [done|]. simpl.
  assert (forall j, pending st j = true -> j / 64 ∈ ones ix) as Hann.
  { intros j Hp. destruct (pending_word _ _ Hp) as (Hj & w & Hw & Hnz).
    specialize (Hcov _ _ Hw Hnz). rewrite Z2Nat.id in Hcov by lia.
    apply elem_of_ones; [apply Hix|]. split; [lia|done]. }
  split_and!; try done.
  - by apply all_words_sorted; [|apply ones_sorted|].
  - intros j. rewrite list_elem_of_In, in_concat. split.
    + intros (l' & Hl' & Hj). apply in_map_iff in Hl' as (i & <- & Hi).
      apply list_elem_of_In in Hi, Hj. rewrite Forall_forall in Hr.
      apply word_irqs_elem in Hj as [Hj _]; auto.
    + intros Hp. specialize (Hann j Hp). exists (word_irqs (irq_status st) (j / 64)).
      split; [by apply in_map, list_elem_of_In|]. apply list_elem_of_In.
      rewrite Forall_forall in Hr. apply word_irqs_elem; auto.
  - intros j. unfold pending. cbn [irq_status]. change IRQ_STATUS_BITS with 64.
    destruct (Z.leb_spec 0 j) as [Hj|]; simpl; [|done].
    rewrite clear_words_lookup.
    2:{ eapply Forall_impl; [exact Hr|]. simpl. lia. }
    rewrite Z2Nat.id by lia. destruct (pending st j) eqn:Hp.
    + rewrite decide_True by auto. destruct (_ !! _); simpl; [apply Z.bits_0|done].
    + unfold pending in Hp. change IRQ_STATUS_BITS with 64 in Hp.
      rewrite (proj2 (Z.leb_le 0 j) Hj) in Hp. simpl in Hp.
      case_decide; [|done]. destruct (_ !! _); simpl; [apply Z.bits_0|done].
  - destruct Hwf as [Hl Hw _ Hu]. split; simpl; [by rewrite length_clear_words| |done|done].
    by apply clear_words_ok.
Qed.

(** ** Delivery with handlers that raise interrupts *)

(** The handlers raise interrupts [l] one after the other. *)
Definition raise_all (l : list Z) (st : irq_state) : res irq_state := foldR set_irq_pending l st.

(** Every nonzero word is announced in the index, or in [W]. *)
Definition covers (W : Z -> Prop) (st : irq_state) : Prop :=
  forall (i : nat) w, irq_status st !! i = Some w -> w <> 0 ->
    Z.testbit (irq_index_status st) (Z.of_nat i) = true \/ W (Z.of_nat i).

Lemma raise_all_spec W l st :
  irq_wf st -> covers W st -> Forall (fun irq => 0 <= irq < NR_IRQS) l ->
  exists st', raise_all l st = Ok st' /\ irq_wf st' /\ covers W st' /\
    (forall j, pending st' j = true <-> pending st j = true \/ j ∈ l) /\
    irqs_enabled st' = irqs_enabled st /\ hardirq_count st' = hardirq_count st /\
    delivered st' = delivered st /\ (l = [] -> st' = st).
Proof.
  intros Hwf Hcov Hl. revert st Hwf Hcov. induction Hl as [|irq l Hi _ IH]; intros st Hwf Hcov.
  { exists st. split_and!; try done. intros j. rewrite elem_of_nil. naive_solver. }
  destruct (or_irq_status_spec irq st Hwf Hi) as (st1 & He & Hwf1 & Hix & Hus & Hen & Hhc & Hdel & Hp & Ho).
  assert (set_irq_pending irq st = Ok (or_irq_index_status irq st1)) as E by (unfold set_irq_pending; by rewrite He).
  change NR_IRQS with 4096 in Hi.
  destruct (IH (or_irq_index_status irq st1)) as (st' & E' & Hwf' & Hcov' & Hp' & Hen' & Hhc' & Hdel' & _).
  { apply set_index_word_wf; [done|]. apply lor_bit_range; [apply (wf_index _ Hwf1)|].
    change IRQ_STATUS_BITS with 64. lia. }
  { intros i w Hw Hnz. simpl in *. change IRQ_STATUS_BITS with 64. rewrite lor_bit_test by lia. rewrite Hix.
    destruct (decide (i = Z.to_nat (irq / 64))) as [->|Hne].
    { left. apply orb_true_iff. right. apply Z.eqb_eq. lia. }
    rewrite Ho in Hw by done. destruct (Hcov i w Hw Hnz) as [->|]; [by left|by right]. }
  exists st'. cbn [raise_all foldR]. rewrite E. split_and!; [done..| |by rewrite Hen'|by rewrite Hhc'|by rewrite Hdel'|done].
  intros j. rewrite Hp', elem_of_cons.
  change (pending (or_irq_index_status irq st1) j) with (pending st1 j). rewrite Hp, orb_true_iff, Z.eqb_eq. tauto.
Qed.

Section Noisy.
(** What the handler of an interrupt raises: any valid numbers. *)
Context (noise : Z -> irq_state -> list Z).
Context (Hrange : forall irq st, Forall (fun j => 0 <= j < NR_IRQS) (noise irq st)).

Definition noisy (irq : Z) (st : irq_state) : irq_state :=
  match raise_all (noise irq st) st with Ok st' => st' | Fail _ => st end.

Definition raised (j : Z) : Prop := exists irq st, j ∈ noise irq st.

(** What every part of the delivery does: it delivers [l], and otherwise only adds
    interrupts that handlers raise. *)
Record progress (W : Z -> Prop) (st st' : irq_state) (l : list Z) : Prop := {
  pg_delivered : delivered st' = delivered st ++ l;
  pg_wf : irq_wf st';
  pg_covers : covers W st';
  pg_enabled : irqs_enabled st' = irqs_enabled st;
  pg_hardirq : hardirq_count st' = hardirq_count st;
  pg_keeps : forall j, pending st j = true -> j ∈ l \/ pending st' j = true;
  pg_new : forall j, pending st' j = true -> pending st j = true \/ raised j;
}.

Lemma progress_refl W st : irq_wf st -> covers W st -> progress W st st [].
Proof. intros. split; try done; [by rewrite app_nil_r|auto|auto]. Qed.

Lemma progress_trans W W' st1 st2 st3 l1 l2 :
  progress W st1 st2 l1 -> progress W' st2 st3 l2 -> progress W' st1 st3 (l1 ++ l2).
Proof.
  intros [D1 _ _ E1 H1 K1 N1] [D2 W2 C2 E2 H2 K2 N2]. split; try done; try congruence.
  - by rewrite D2, D1, app_assoc.
  - intros j [?|[?|?]%K2]%K1; rewrite elem_of_app; auto.
  - intros j [[?|?]%N1|?]%N2; auto.
Qed.

Definition from (st : irq_state) (l : list Z) : Prop :=
  forall j, j ∈ l -> pending st j = true \/ raised j.

Lemma from_app W st st' l l' : progress W st st' l -> from st l -> from st' l' -> from st (l ++ l').
Proof.
  intros P H1 H2 j [?|Hj]%elem_of_app; [auto|]. destruct (H2 j Hj) as [?|?]; [|by right].
  by eapply pg_new.
Qed.

(** What a call of [run_irqs] achieves: all that the index announces is delivered. *)
Definition runs_well (rec : irq_state -> res irq_state) (W : Z -> Prop) (st : irq_state) : Prop :=
  exists st' l, rec st = Ok st' /\ progress W st st' l /\ from st l /\
    (forall j, pending st j = true -> j ∈ l \/ W (j / 64)) /\
    (forall j, pending st' j = true -> W (j / 64) \/ raised j).

(** The inner call of [run_irqs] is made with interrupts disabled, so that it does
    not call itself again. *)
Definition inner_ok (rec : irq_state -> res irq_state) (st : irq_state) : Prop :=
  irqs_enabled st && (hardirq_count st =? 0) = true ->
  forall W st', irq_wf st' -> covers W st' -> irqs_enabled st' = false -> runs_well rec W st'.

Lemma inner_ok_progress rec W st st' l : progress W st st' l -> inner_ok rec st -> inner_ok rec st'.
Proof. intros P H. unfold inner_ok. by rewrite (pg_enabled _ _ _ _ P), (pg_hardirq _ _ _ _ P). Qed.

Section Turn.
Context (rec : irq_state -> res irq_state).

Lemma run_irq_noisy W irq st :
  irq_wf st -> covers W st -> inner_ok rec st ->
  exists st' l, run_irq_with noisy rec irq st = Ok st' /\ progress W st st' (irq :: l) /\ from st l.
Proof.
  intros Hwf Hcov Hrec. unfold run_irq_with. cbv zeta.
  set (st2 := log_delivery irq (set_hardirq (hardirq_count (set_enabled false st) + 1) (set_enabled false st))).
  destruct (raise_all_spec W (noise irq st2) st2) as (st3 & E3 & Hwf3 & Hcov3 & Hp3 & Hen3 & Hhc3 & Hdel3 & _);
    [by destruct Hwf|done|apply Hrange|].
  assert (noisy irq st2 = st3) as -> by (unfold noisy; by rewrite E3).
  set (st4 := set_hardirq (hardirq_count st3 - 1) st3).
  assert (irq_wf st4) as Hwf4 by (by destruct Hwf3).
  assert (hardirq_count st4 = hardirq_count st) as Hh4
    by (unfold st4; cbn [hardirq_count set_hardirq]; rewrite Hhc3; cbn; lia).
  assert (irqs_enabled st4 = false) as Hen4 by (by unfold st4; cbn [irqs_enabled set_hardirq]; rewrite Hen3).
  assert (forall j, pending st4 j = true <-> pending st j = true \/ j ∈ noise irq st2) as Hp4 by exact Hp3.
  assert (forall j, j ∈ noise irq st2 -> raised j) as Hraise by (intros j Hj; by exists irq, st2).
  assert (delivered st4 = delivered st ++ [irq]) as Hd4 by exact Hdel3.
  assert (forall st5 l, progress W st4 st5 l ->
    progress W st (set_enabled (irqs_enabled st) st5) (irq :: l)) as Hback.
  { intros st5 l [D5 W5 C5 E5 H5 K5 N5]. split; try done; [|by destruct W5|by etransitivity| |].
    - cbn [delivered set_enabled]. by rewrite D5, Hd4, <- app_assoc.
    - intros j Hj. destruct (K5 j) as [?|?]; [apply Hp4; by left|left; by right|by right].
    - intros j Hj. destruct (N5 j Hj) as [[?|?]%Hp4|?]; auto. }
  unfold arch_local_irq_restore_with. rewrite Hen4, Hh4. cbn [negb]. rewrite andb_true_r.
  destruct (irqs_enabled st && (hardirq_count st =? 0)) eqn:Hrun.
  - destruct (Hrec Hrun W st4) as (st5 & l & E5 & P5 & F5 & _); [done|exact Hcov3|done|].
    rewrite E5. eexists _, l. split_and!; [done|by apply Hback|].
    intros j Hj. destruct (F5 j Hj) as [[?|?]%Hp4|?]; auto.
  - eexists _, []. split_and!; [done|apply Hback; by apply progress_refl|].
    intros j Hj. by apply elem_of_nil in Hj.
Qed.

Lemma deliver_noisy W i bs st :
  irq_wf st -> covers W st -> inner_ok rec st ->
  exists st' l, foldR (deliver_irq_with noisy rec i) bs st = Ok st' /\ progress W st st' l /\
    (forall b, b ∈ bs -> i * 64 + b ∈ l) /\
    (forall j, j ∈ l -> (exists b, b ∈ bs /\ j = i * 64 + b) \/ pending st j = true \/ raised j).
Proof.
  revert st. induction bs as [|b bs IH]; intros st Hwf Hcov Hrec; cbn [foldR].
  { exists st, []. split_and!; [done|by apply progress_refl|..]; intros ? []%elem_of_nil. }
  unfold deliver_irq_with at 1. change IRQ_STATUS_BITS with 64.
  destruct (run_irq_noisy W (i * 64 + b) st Hwf Hcov Hrec) as (st1 & l1 & -> & P1 & F1).
  destruct (IH st1) as (st2 & l2 & -> & P2 & B2 & F2);
    [apply P1|apply P1|by eapply inner_ok_progress|].
  exists st2, ((i * 64 + b :: l1) ++ l2). split_and!; [done|by eapply progress_trans| |].
  - intros b' [->|Hb]%elem_of_cons; rewrite elem_of_app; [left; left|right; auto].
  - intros j [[->|Hj]%elem_of_cons|Hj]%elem_of_app.
    + left. exists b. split; [left|done].
    + right. by apply F1.
    + destruct (F2 j Hj) as [(b' & ? & ?)|[?|?]]; [|right|by auto].
      * left. exists b'. split; [by right|done].
      * by eapply pg_new.
Qed.

Lemma check_noisy W i st :
  irq_wf st -> 0 <= i < 64 -> covers (fun k => k = i \/ W k) st -> inner_ok rec st ->
  exists st' l, check_irq_status_with noisy rec i st = Ok st' /\ progress W st st' l /\ from st l /\
    (forall j, pending st j = true -> j / 64 = i -> j ∈ l) /\
    (forall j, pending st' j = true -> j / 64 = i -> raised j).
Proof.
  intros Hwf Hi Hcov Hrec. unfold check_irq_status_with, test_and_clear_irq_status.
  destruct (wf_word st (Z.to_nat i) Hwf) as (v & Hv & Hvw); [lia|]. rewrite Hv, for_each_bit_fold.
  set (st0 := set_status_word (Z.to_nat i) 0 st).
  assert (forall j, pending st j = true -> j / 64 = i -> exists b, b ∈ ones v /\ j = i * 64 + b) as Hbit.
  { intros j Hp Hj. exists (j mod 64). split; [|lia]. apply elem_of_ones; [apply Hvw|]. split; [lia|].
    unfold pending in Hp. change IRQ_STATUS_BITS with 64 in Hp. rewrite Hj, Hv in Hp.
    by apply andb_true_iff in Hp as [_ Hp]. }
  destruct (deliver_noisy W i (ones v) st0) as (st' & l & E & [D1 W1 C1 E1 H1 K1 N1] & B & F).
  { by apply set_status_word_wf. }
  { intros k w Hk Hnz. cbn in Hk. destruct (decide (k = Z.to_nat i)) as [->|Hne].
    - rewrite list_lookup_insert_eq in Hk; [congruence|]. by apply lookup_lt_Some in Hv.
    - rewrite list_lookup_insert_ne in Hk by done.
      destruct (Hcov k w Hk Hnz) as [?|[?|?]]; [by left|lia|by right]. }
  { exact Hrec. }
  assert (forall j, pending st0 j = true -> pending st j = true) as Hsub.
  { intros j. unfold st0. rewrite pending_clear_word by done. by intros [? _]%andb_true_iff. }
  exists st', l. rewrite E. split_and!; [done|..].
  - split; try done.
    + intros j Hj. destruct (Z.eqb_spec (j / 64) i) as [Hji|Hji].
      * left. destruct (Hbit j Hj Hji) as (b & Hb & ->). by apply B.
      * apply K1. unfold st0. rewrite pending_clear_word, Hj by done. by apply negb_true_iff, Z.eqb_neq.
    + intros j [?|?]%N1; auto.
  - intros j Hj. destruct (F j Hj) as [(b & Hb & ->)|[?|?]]; auto.
    left. apply elem_of_ones in Hb as [Hb0 Hb]; [|apply Hvw].
    assert (b < 64) by (eapply testbit_range; eauto).
    unfold pending. change IRQ_STATUS_BITS with 64. replace ((i * 64 + b) / 64) with i by lia.
    replace ((i * 64 + b) mod 64) with b by lia. rewrite Hv, Hb, andb_true_r. lia.
  - intros j Hj Hji. destruct (Hbit j Hj Hji) as (b & Hb & ->). by apply B.
  - intros j [Hj|?]%N1 Hji; [|done]. unfold st0 in Hj. rewrite pending_clear_word in Hj by done.
    by rewrite Hji, Z.eqb_refl, andb_false_r in Hj.
Qed.

Lemma words_noisy W ws st :
  irq_wf st -> Forall (fun i => 0 <= i < 64) ws -> covers (fun k => k ∈ ws \/ W k) st -> inner_ok rec st ->
  exists st' l, foldR (check_irq_status_with noisy rec) ws st = Ok st' /\ progress W st st' l /\ from st l /\
    (forall j, pending st j = true -> j / 64 ∈ ws -> j ∈ l) /\
    (forall j, pending st' j = true -> j / 64 ∈ ws -> raised j).
Proof.
  revert st. induction ws as [|i ws IH]; intros st Hwf Hws Hcov Hrec; cbn [foldR].
  { exists st, []. split_and!; [done|apply progress_refl; [done|]|..].
    - intros k w Hk Hnz. destruct (Hcov k w Hk Hnz) as [?|[[]%elem_of_nil|?]]; auto.
    - intros j []%elem_of_nil.
    - intros j _ []%elem_of_nil.
    - intros j _ []%elem_of_nil. }
  apply Forall_cons in Hws as [Hi Hws].
  destruct (check_noisy (fun k => k ∈ ws \/ W k) i st) as (st1 & l1 & -> & P1 & F1 & T1 & U1); try done.
  { intros k w Hk Hnz. destruct (Hcov k w Hk Hnz) as [?|[[?|?]%elem_of_cons|?]]; auto. }
  destruct (IH st1) as (st2 & l2 & -> & P2 & F2 & T2 & U2);
    [apply P1|done|apply P1|by eapply inner_ok_progress|].
  exists st2, (l1 ++ l2). split_and!; [done|by eapply progress_trans|by eapply from_app|..].
  - intros j Hj. rewrite elem_of_cons, elem_of_app. intros [Hji|Hji]; [left; by apply T1|].
    destruct (pg_keeps _ _ _ _ P1 j Hj) as [?|?]; [by left|right; by apply T2].
  - intros j Hj [Hji|Hji]%elem_of_cons; [|by apply U2].
    destruct (pg_new _ _ _ _ P2 j Hj) as [?|?]; [by apply U1|done].
Qed.

(** [run_irqs] once its inner calls are known to be fine. *)
Lemma turn_noisy W st :
  irq_wf st -> covers W st -> inner_ok rec st ->
  runs_well (fun st => let (w, st') := test_and_clear_irq_index_status st in
               for_each_bit w (check_irq_status_with noisy rec) st') W st.
Proof.
  intros Hwf Hcov Hrec. unfold runs_well. pose proof (wf_index _ Hwf) as Hix.
  set (ix := irq_index_status st) in *. set (st0 := set_index_word 0 st).
  destruct (words_noisy W (ones ix) st0) as (st' & l & E & [D1 W1 C1 E1 H1 K1 N1] & F & T & U).
  { by apply set_index_word_wf. }
  { apply Forall_forall. intros i [Hi Ht]%elem_of_ones; [|apply Hix]. split; [done|]. by eapply testbit_range. }
  { intros i w Hi Hnz. right. destruct (Hcov i w Hi Hnz) as [Hx|?]; [left|by right].
    apply elem_of_ones; [apply Hix|]. split; [lia|done]. }
  { exact Hrec. }
  assert (forall j, pending st j = true -> j / 64 ∈ ones ix \/ W (j / 64)) as Hann.
  { intros j Hj. destruct (pending_word _ _ Hj) as (Hj0 & w & Hw & Hnz).
    destruct (Hcov _ _ Hw Hnz) as [Hx|Hx]; rewrite Z2Nat.id in Hx by lia; [left|by right].
    apply elem_of_ones; [apply Hix|]. split; [lia|done]. }
  exists st', l. split_and!.
  - unfold test_and_clear_irq_index_status. fold ix. destruct (Z.eqb_spec ix 0) as [Hz|Hz].
    + rewrite Hz in E. cbn in E |- *. rewrite <- E. f_equal. subst st0 ix. destruct st. cbn in *. by subst.
    + by rewrite for_each_bit_fold.
  - by split.
  - exact F.
  - intros j Hj. destruct (Hann j Hj); [left; by apply T|by right].
  - intros j Hj. destruct (N1 j Hj) as [Hp|?]; [|by right].
    destruct (Hann j Hp); [right; by apply U|by left].
Qed.

End Turn.

Lemma run_irqs_noisy W st fuel :
  irq_wf st -> covers W st -> (2 <= fuel)%nat -> runs_well (run_irqs noisy fuel) W st.
Proof.
  intros Hwf Hcov Hf. destruct fuel as [|[|fuel]]; [lia..|].
  apply turn_noisy; [done|done|]. intros _ W' st' Hwf' Hcov' Hen.
  apply turn_noisy; [done|done|]. intros H. by rewrite Hen in H.
Qed.

End Noisy.

(** ** Properties *)

(** C27: No interrupt is ever lost, whatever the interleaving of host threads raising
    interrupts (two separate atomic ORs, word before index) with the possibly nested
    [run_irqs] activations of the CPU owner (index before word).  In every reachable
    state an interrupt requested and not delivered since is either in the word an
    activation is delivering, or marked in a word that the index announces, that a
    producer is about to announce, or that an activation is going to scan; so when
    nobody is active and the index is zero, nothing is outstanding.  Only requested
    interrupts are ever delivered. *)
Theorem irq_no_lost_interrupt s :
  rtc cstep cstate_init s ->
  (forall j, j ∈ c_out s ->
     held (c_cons s) j \/
     (pending (c_irq s) j = true /\
      (Z.testbit (irq_index_status (c_irq s)) (j / 64) = true \/
       (exists p, p ∈ c_prod s /\ p / 64 = j / 64) \/ scheduled (c_cons s) (j / 64)))) /\
  (c_prod s = [] -> c_cons s = [] -> irq_index_status (c_irq s) = 0 -> c_out s = ∅) /\
  (forall j, j ∈ delivered (c_irq s) -> j ∈ c_req s).
Proof.
  intros Hr. destruct (cinv_reachable s Hr) as [Hwf Hpr Hlo Htr Hco Hrq Hde].
  assert (forall j, j ∈ c_out s ->
     held (c_cons s) j \/
     (pending (c_irq s) j = true /\
      (Z.testbit (irq_index_status (c_irq s)) (j / 64) = true \/
       (exists p, p ∈ c_prod s /\ p / 64 = j / 64) \/ scheduled (c_cons s) (j / 64)))) as Hout.
  { intros j Hj. destruct (Htr j Hj) as [Hp|]; [right|by left]. split; [done|].
    destruct (pending_word _ _ Hp) as (Hj0 & w & Hw & Hnz).
    specialize (Hco _ _ Hw Hnz). by rewrite Z2Nat.id in Hco by lia. }
  split_and!; [done| |done].
  intros Hp0 Hc0 Hx0. apply set_eq. intros j. split; [|set_solver].
  intros Hj. destruct (Hout j Hj) as [(? & ? & ? & Hin & _)|[_ [Ht|[(p & Hin & _)|(? & ? & Hin & _)]]]].
  - rewrite Hc0 in Hin. by apply not_elem_of_nil in Hin.
  - by rewrite Hx0, Z.bits_0 in Ht.
  - rewrite Hp0 in Hin. by apply not_elem_of_nil in Hin.
  - rewrite Hc0 in Hin. by apply not_elem_of_nil in Hin.
Qed.

(** C28: [run_irqs] always returns, two levels deep at most, whatever interrupts the
    handlers raise themselves.  On a consistent bitmap (as [set_irq_pending] keeps
    it) it delivers every interrupt that is pending at entry, it delivers nothing
    that was not pending or raised by a handler, only what handlers raised can be
    pending afterwards, and the bitmap is consistent and the interrupt-enable flag
    as before.  When the handlers raise nothing, it delivers exactly the
    interrupts pending at entry, each once and in increasing order. *)
Theorem run_irqs_delivers_pending noise st fuel :
  (forall irq st, Forall (fun j => 0 <= j < NR_IRQS) (noise irq st)) ->
  irq_wf st -> index_covers st -> (2 <= fuel)%nat ->
  exists st' l, run_irqs (noisy noise) fuel st = Ok st' /\
    delivered st' = delivered st ++ l /\
    (forall j, pending st j = true -> j ∈ l) /\
    (forall j, j ∈ l -> pending st j = true \/ exists irq s, j ∈ noise irq s) /\
    (forall j, pending st' j = true -> exists irq s, j ∈ noise irq s) /\
    irq_wf st' /\ index_covers st' /\ irqs_enabled st' = irqs_enabled st /\
    ((forall irq s, noise irq s = []) ->
       StronglySorted Z.lt l /\ forall j, j ∈ l <-> pending st j = true).
Proof.
  intros Hrange Hwf Hcov Hf.
  destruct (run_irqs_noisy noise Hrange (fun _ => False) st fuel) as
    (st' & l & E & [D1 W1 C1 E1 H1 K1 N1] & F & T & U); [done| |done|].
  { intros i w Hi Hnz. left. by apply (Hcov i w). }
  assert (forall j, pending st j = true -> j ∈ l) as Hall by (intros j Hj; by destruct (T j Hj)).
  exists st', l. split_and!; try done.
  - intros j Hj. by destruct (U j Hj).
  - intros i w Hi Hnz. by destruct (C1 i w Hi Hnz).
  - intros Hq. assert (quiet (noisy noise)) as Hquiet by (intros irq s; unfold noisy; by rewrite Hq).
    destruct (run_irqs_quiet (noisy noise) st fuel Hquiet Hwf Hcov Hf) as (st2 & l2 & E2 & D2 & S2 & P2 & _).
    assert (st2 = st') as -> by congruence. assert (l2 = l) as -> by (apply (app_inv_head (delivered st)); congruence).
    done.
Qed.

(** [lkl_get_free_irq] reserves the lowest unused interrupt number, never 0, and
    fails with -EBUSY only when all of 1..4095 are taken; releasing the number under the
    same user name gives the allocation table back, and a release under another name
    leaves it untouched. *)
Theorem irq_alloc_release user other st :
  irq_wf st ->
  let (i, st') := lkl_get_free_irq user st in
  irq_wf st' /\
  ((1 <= i < NR_IRQS /\ irqs st !! Z.to_nat i = Some None /\
    (forall k, 1 <= k < i -> exists u, irqs st !! Z.to_nat k = Some (Some u)) /\
    irqs st' !! Z.to_nat i = Some (Some user) /\
    lkl_put_irq i user st' = Ok st /\
    (other <> user -> lkl_put_irq i other st' = Ok st')) \/
   (i = - EBUSY /\ st' = st /\
    forall k, 1 <= k < NR_IRQS -> exists u, irqs st !! Z.to_nat k = Some (Some u))).
Proof.
  intros Hwf. pose proof (get_free_irq_spec user st Hwf) as H.
  destruct (lkl_get_free_irq user st) as [i st']. destruct H as [Hwf' [(Hi & Hn & Hk & ->)|H]];
    split; [done| |done|by right].
  left. assert (<[Z.to_nat i := Some user]> (irqs st) !! Z.to_nat i = Some (Some user)) as Hlk.
  { apply list_lookup_insert_eq. by apply lookup_lt_Some in Hn. }
  split_and!; [lia|lia|done|done|done| |];
    (unfold lkl_put_irq; rewrite (proj2 (Z.ltb_ge _ _)) by lia;
     cbn [irqs set_irqs]; rewrite Hlk).
  - rewrite String.eqb_refl. f_equal. rewrite list_insert_insert_eq.
    rewrite list_insert_id by done. by destruct st.
  - intros Hne. by rewrite (proj2 (String.eqb_neq _ _)) by congruence.
Qed.

(** *** Witnesses *)

(** A table with interrupts 5 and 130 pending. *)
Definition irq_demo : irq_state :=
  match set_irq_pending 130 irq_init with
  | Ok st => match set_irq_pending 5 st with Ok st' => st' | Fail _ => st end
  | Fail _ => irq_init
  end.

(** One producer raising interrupt 5 and one activation delivering it. *)
Definition irq_demo_step1 : irq_state := set_status_word 0 32 irq_init.
Definition irq_demo_step2 : irq_state := or_irq_index_status 5 irq_demo_step1.
Definition irq_demo_step3 : irq_state := set_index_word 0 irq_demo_step2.
Definition irq_demo_step4 : irq_state := set_status_word 0 0 irq_demo_step3.
Definition irq_demo_step5 : irq_state := log_delivery 5 irq_demo_step4.

Lemma irq_no_lost_interrupt_witness :
  exists s, rtc cstep cstate_init s /\ delivered (c_irq s) = [5] /\ c_out s = ∅.
Proof.
  set (out := {[5]} ∪ ∅ : gset Z).
  assert (rtc cstep cstate_init (CState irq_demo_step5 [] [] (out ∖ {[0 * 64 + 5]}) out)) as Hr.
  { eapply rtc_l; [apply (cstep_set_status 5 irq_init irq_demo_step1)|].
    { split; [discriminate|reflexivity]. }
    { vm_compute; reflexivity. }
    eapply rtc_l; [apply (cstep_set_index 5 irq_demo_step1 [] [])|].
    eapply rtc_l; [apply (cstep_take_index irq_demo_step2 _ _ _ _ 1 irq_demo_step3)|].
    { vm_compute; reflexivity. }
    eapply rtc_l; [apply (cstep_take_word irq_demo_step3 _ [] [] _ _ 1 0 [] 32 irq_demo_step4)|].
    { reflexivity. }
    { vm_compute; reflexivity. }
    eapply rtc_l; [apply (cstep_deliver irq_demo_step4 _ [] [] _ _ _ 0 32 5 [])|].
    { reflexivity. }
    eapply rtc_l; [apply (cstep_word_done irq_demo_step5 _ [] [] _ _ 0 0)|].
    eapply rtc_l; [apply (cstep_done irq_demo_step5 _ [] [])|].
    apply rtc_refl. }
  eexists. split; [exact Hr|]. split; [reflexivity|].
  apply (irq_no_lost_interrupt _ Hr); reflexivity.
Defined.

Lemma irq_demo_ok : irq_wf irq_demo /\ index_covers irq_demo.
Proof.
  destruct (set_irq_pending_spec 130 irq_init irq_wf_init index_covers_init)
    as (st & E & Hwf & Hc & _); [split; [discriminate|reflexivity]|].
  destruct (set_irq_pending_spec 5 st Hwf Hc) as (st' & E' & Hwf' & Hc' & _);
    [split; [discriminate|reflexivity]|].
  unfold irq_demo. by rewrite E, E'.
Qed.

Definition demo_noise (irq : Z) (st : irq_state) : list Z := if irq =? 5 then [6] else [].

(** Interrupts 5 and 130 are pending and the handler of 5 raises 6. *)
Lemma run_irqs_delivers_pending_witness :
  exists st', run_irqs (noisy demo_noise) 2 (set_enabled true irq_demo) = Ok st' /\ delivered st' = [5; 6; 130] /\
    index_covers st'.
Proof.
  assert (match run_irqs (noisy demo_noise) 2 (set_enabled true irq_demo) with
          | Ok st => delivered st | Fail _ => [] end = [5; 6; 130]) as Hd
    by (vm_compute; reflexivity).
  destruct (run_irqs_delivers_pending demo_noise (set_enabled true irq_demo) 2)
    as (st' & l & H & _ & _ & _ & _ & _ & Hc & _).
  - intros irq st. unfold demo_noise. destruct (irq =? 5); [|constructor].
    constructor; [split; [discriminate|reflexivity]|constructor].
  - destruct irq_demo_ok as [[Hl Hw Hi Hu] _]. split; assumption.
  - apply irq_demo_ok.
  - lia.
  - exists st'. rewrite H in Hd. split; [exact H|]. split; [exact Hd|exact Hc].
Defined.

Lemma irq_alloc_release_witness :
  irq_wf (snd (lkl_get_free_irq "virtio" irq_init)) /\
  fst (lkl_get_free_irq "virtio" irq_init) = 1.
Proof.
  pose proof (irq_alloc_release "virtio" "timer" irq_init irq_wf_init) as H.
  assert (fst (lkl_get_free_irq "virtio" irq_init) = 1) as E by (vm_compute; reflexivity).
  destruct (lkl_get_free_irq "virtio" irq_init) as [i st'].
  split; [exact (proj1 H)|exact E].
Defined.
