(* ===== verification/Virtio.v ===== *)
(** * Virtio

    tools/lkl/lib/virtio.c: the device side of the virtio-mmio transport.
    The register file and the virtqueues of one device, request gathering from
    the descriptor ring, completion into the used ring with interrupt
    suppression, the queue processing loop, and the MMIO read and write
    handlers.  The rings live in [Memory]; the device class (block, net) comes
    in through [virtio_dev_ops], as in the source. *)

From S2P Require Import Prelude Memory.

(** ** Constants (virtio.c, virtio.h, uapi virtio headers) *)

Definition VIRTIO_DEV_MAGIC : Z := 0x74726976.
Definition VIRTIO_DEV_VERSION : Z := 2.

Definition VIRTIO_MMIO_MAGIC_VALUE : Z := 0x000.
Definition VIRTIO_MMIO_VERSION : Z := 0x004.
Definition VIRTIO_MMIO_DEVICE_ID : Z := 0x008.
Definition VIRTIO_MMIO_VENDOR_ID : Z := 0x00c.
Definition VIRTIO_MMIO_DEVICE_FEATURES : Z := 0x010.
Definition VIRTIO_MMIO_DEVICE_FEATURES_SEL : Z := 0x014.
Definition VIRTIO_MMIO_DRIVER_FEATURES : Z := 0x020.
Definition VIRTIO_MMIO_DRIVER_FEATURES_SEL : Z := 0x024.
Definition VIRTIO_MMIO_QUEUE_SEL : Z := 0x030.
Definition VIRTIO_MMIO_QUEUE_NUM_MAX : Z := 0x034.
Definition VIRTIO_MMIO_QUEUE_NUM : Z := 0x038.
Definition VIRTIO_MMIO_QUEUE_READY : Z := 0x044.
Definition VIRTIO_MMIO_QUEUE_NOTIFY : Z := 0x050.
Definition VIRTIO_MMIO_INTERRUPT_STATUS : Z := 0x060.
Definition VIRTIO_MMIO_INTERRUPT_ACK : Z := 0x064.
Definition VIRTIO_MMIO_STATUS : Z := 0x070.
Definition VIRTIO_MMIO_QUEUE_DESC_LOW : Z := 0x080.
Definition VIRTIO_MMIO_QUEUE_DESC_HIGH : Z := 0x084.
Definition VIRTIO_MMIO_QUEUE_AVAIL_LOW : Z := 0x090.
Definition VIRTIO_MMIO_QUEUE_AVAIL_HIGH : Z := 0x094.
Definition VIRTIO_MMIO_QUEUE_USED_LOW : Z := 0x0a0.
Definition VIRTIO_MMIO_QUEUE_USED_HIGH : Z := 0x0a4.
Definition VIRTIO_MMIO_CONFIG_GENERATION : Z := 0x0fc.
Definition VIRTIO_MMIO_CONFIG : Z := 0x100.
Definition VIRTIO_MMIO_INT_VRING : Z := 0x01.

Definition VRING_DESC_F_NEXT : Z := 1.
Definition VIRTIO_F_VERSION_1 : Z := 32.
Definition VIRTIO_RING_F_EVENT_IDX : Z := 29.
Definition VIRTIO_CONFIG_S_FEATURES_OK : Z := 8.

Definition PAGE_SIZE : Z := 4096.
Definition MAX_SKB_FRAGS : Z :=
  if 65536 / PAGE_SIZE + 1 <? 16 then 16 else 65536 / PAGE_SIZE + 1.
Definition VIRTIO_REQ_MAX_BUFS : Z := MAX_SKB_FRAGS + 2.

Definition BIT (x : Z) : Z := u64 (Z.shiftl 1 x).

(** ** Data *)

(** struct virtio_queue; [q_desc], [q_avail], [q_used] are addresses. *)
Record virtio_queue := VirtioQueue {
  q_num_max : Z;
  q_num : Z;
  q_ready : Z;
  q_max_merge_len : Z;
  q_desc : Z;
  q_avail : Z;
  q_used : Z;
  q_last_avail_idx : Z;
  q_last_used_idx_signaled : Z;
}.

(** struct virtio_dev, without the ops pointer; [d_config_data] is the content
    of the configuration structure the pointer names. *)
Record virtio_dev := VirtioDev {
  d_device_id : Z;
  d_vendor_id : Z;
  d_device_features : Z;
  d_device_features_sel : Z;
  d_driver_features : Z;
  d_driver_features_sel : Z;
  d_queue_sel : Z;
  d_queue : list virtio_queue;
  d_int_status : Z;
  d_status : Z;
  d_config_gen : Z;
  d_irq : Z;
  d_config_data : list Z;
  d_config_len : Z;
  d_base : Z;
  d_virtio_mmio_id : Z;
}.

Record iovec := Iovec { iov_base : Z; iov_len : Z }.

(** struct _virtio_req with its struct virtio_req; the queue pointer is the
    queue's index in the device, [buf_count] is the length of [rq_buf]. *)
Record virtio_req := VirtioReq {
  rq_buf : list iovec;
  rq_total_len : Z;
  rq_qidx : Z;
  rq_idx : Z;
}.

(** What one device's code can see and change: the shared memory, the device,
    the interrupts it raised (oldest first) and the backend's own state. *)
Record vstate (D : Type) := VState {
  v_mem : mem;
  v_dev : virtio_dev;
  v_irqs : list Z;
  v_ext : D;
}.
Arguments VState {D} _ _ _ _.
Arguments v_mem {D} _.
Arguments v_dev {D} _.
Arguments v_irqs {D} _.
Arguments v_ext {D} _.

(** struct virtio_dev_ops.  [acquire_queue] and [release_queue] are NULL for
    every device but the network one. *)
Record virtio_dev_ops (D : Type) := VirtioDevOps {
  check_features : virtio_dev -> Z;
  enqueue : Z -> virtio_req -> M (vstate D) Z;
  acquire_queue : option (Z -> M (vstate D) unit);
  release_queue : option (Z -> M (vstate D) unit);
}.
Arguments VirtioDevOps {D} _ _ _ _.
Arguments check_features {D} _ _.
Arguments enqueue {D} _ _ _.
Arguments acquire_queue {D} _.
Arguments release_queue {D} _.

(** What [lkl_trigger_irq] does when the device's code calls it: it depends on
    who runs that code.  A thread that does not own the kernel's CPU only
    records the interrupt; the owner, with interrupts enabled, runs the handler
    before the call returns. *)
Class Trigger (D : Type) := trigger_irq : Z -> M (vstate D) unit.

(** *** Field updates *)

Definition with_queue_num v q := VirtioQueue (q_num_max q) v (q_ready q) (q_max_merge_len q)
  (q_desc q) (q_avail q) (q_used q) (q_last_avail_idx q) (q_last_used_idx_signaled q).
Definition with_queue_ready v q := VirtioQueue (q_num_max q) (q_num q) v (q_max_merge_len q)
  (q_desc q) (q_avail q) (q_used q) (q_last_avail_idx q) (q_last_used_idx_signaled q).
Definition with_max_merge_len v q := VirtioQueue (q_num_max q) (q_num q) (q_ready q) v
  (q_desc q) (q_avail q) (q_used q) (q_last_avail_idx q) (q_last_used_idx_signaled q).
Definition with_desc v q := VirtioQueue (q_num_max q) (q_num q) (q_ready q) (q_max_merge_len q)
  v (q_avail q) (q_used q) (q_last_avail_idx q) (q_last_used_idx_signaled q).
Definition with_avail v q := VirtioQueue (q_num_max q) (q_num q) (q_ready q) (q_max_merge_len q)
  (q_desc q) v (q_used q) (q_last_avail_idx q) (q_last_used_idx_signaled q).
Definition with_used v q := VirtioQueue (q_num_max q) (q_num q) (q_ready q) (q_max_merge_len q)
  (q_desc q) (q_avail q) v (q_last_avail_idx q) (q_last_used_idx_signaled q).
Definition with_last_avail_idx v q := VirtioQueue (q_num_max q) (q_num q) (q_ready q)
  (q_max_merge_len q) (q_desc q) (q_avail q) (q_used q) v (q_last_used_idx_signaled q).
Definition with_last_used_idx_signaled v q := VirtioQueue (q_num_max q) (q_num q) (q_ready q)
  (q_max_merge_len q) (q_desc q) (q_avail q) (q_used q) (q_last_avail_idx q) v.

Definition with_queues qs d := VirtioDev (d_device_id d) (d_vendor_id d) (d_device_features d)
  (d_device_features_sel d) (d_driver_features d) (d_driver_features_sel d) (d_queue_sel d)
  qs (d_int_status d) (d_status d) (d_config_gen d) (d_irq d) (d_config_data d)
  (d_config_len d) (d_base d) (d_virtio_mmio_id d).
Definition with_device_features v d := VirtioDev (d_device_id d) (d_vendor_id d) v
  (d_device_features_sel d) (d_driver_features d) (d_driver_features_sel d) (d_queue_sel d)
  (d_queue d) (d_int_status d) (d_status d) (d_config_gen d) (d_irq d) (d_config_data d)
  (d_config_len d) (d_base d) (d_virtio_mmio_id d).
Definition with_device_features_sel v d := VirtioDev (d_device_id d) (d_vendor_id d)
  (d_device_features d) v (d_driver_features d) (d_driver_features_sel d) (d_queue_sel d)
  (d_queue d) (d_int_status d) (d_status d) (d_config_gen d) (d_irq d) (d_config_data d)
  (d_config_len d) (d_base d) (d_virtio_mmio_id d).
Definition with_driver_features v d := VirtioDev (d_device_id d) (d_vendor_id d)
  (d_device_features d) (d_device_features_sel d) v (d_driver_features_sel d) (d_queue_sel d)
  (d_queue d) (d_int_status d) (d_status d) (d_config_gen d) (d_irq d) (d_config_data d)
  (d_config_len d) (d_base d) (d_virtio_mmio_id d).
Definition with_driver_features_sel v d := VirtioDev (d_device_id d) (d_vendor_id d)
  (d_device_features d) (d_device_features_sel d) (d_driver_features d) v (d_queue_sel d)
  (d_queue d) (d_int_status d) (d_status d) (d_config_gen d) (d_irq d) (d_config_data d)
  (d_config_len d) (d_base d) (d_virtio_mmio_id d).
Definition with_queue_sel v d := VirtioDev (d_device_id d) (d_vendor_id d)
  (d_device_features d) (d_device_features_sel d) (d_driver_features d)
  (d_driver_features_sel d) v (d_queue d) (d_int_status d) (d_status d) (d_config_gen d)
  (d_irq d) (d_config_data d) (d_config_len d) (d_base d) (d_virtio_mmio_id d).
Definition with_int_status v d := VirtioDev (d_device_id d) (d_vendor_id d)
  (d_device_features d) (d_device_features_sel d) (d_driver_features d)
  (d_driver_features_sel d) (d_queue_sel d) (d_queue d) v (d_status d) (d_config_gen d)
  (d_irq d) (d_config_data d) (d_config_len d) (d_base d) (d_virtio_mmio_id d).
Definition with_status v d := VirtioDev (d_device_id d) (d_vendor_id d)
  (d_device_features d) (d_device_features_sel d) (d_driver_features d)
  (d_driver_features_sel d) (d_queue_sel d) (d_queue d) (d_int_status d) v (d_config_gen d)
  (d_irq d) (d_config_data d) (d_config_len d) (d_base d) (d_virtio_mmio_id d).
Definition with_irq v d := VirtioDev (d_device_id d) (d_vendor_id d)
  (d_device_features d) (d_device_features_sel d) (d_driver_features d)
  (d_driver_features_sel d) (d_queue_sel d) (d_queue d) (d_int_status d) (d_status d)
  (d_config_gen d) v (d_config_data d) (d_config_len d) (d_base d) (d_virtio_mmio_id d).
Definition with_config_data v d := VirtioDev (d_device_id d) (d_vendor_id d)
  (d_device_features d) (d_device_features_sel d) (d_driver_features d)
  (d_driver_features_sel d) (d_queue_sel d) (d_queue d) (d_int_status d) (d_status d)
  (d_config_gen d) (d_irq d) v (d_config_len d) (d_base d) (d_virtio_mmio_id d).
Definition with_base v d := VirtioDev (d_device_id d) (d_vendor_id d)
  (d_device_features d) (d_device_features_sel d) (d_driver_features d)
  (d_driver_features_sel d) (d_queue_sel d) (d_queue d) (d_int_status d) (d_status d)
  (d_config_gen d) (d_irq d) (d_config_data d) (d_config_len d) v (d_virtio_mmio_id d).
Definition with_virtio_mmio_id v d := VirtioDev (d_device_id d) (d_vendor_id d)
  (d_device_features d) (d_device_features_sel d) (d_driver_features d)
  (d_driver_features_sel d) (d_queue_sel d) (d_queue d) (d_int_status d) (d_status d)
  (d_config_gen d) (d_irq d) (d_config_data d) (d_config_len d) (d_base d) v.

(** ** Operations *)

Section Virtio.
Context {D : Type}.
Abbreviation VM := (M (vstate D)).

(** *** Access to the state *)

(** A load or store of the C program; unmapped bytes fault. *)
Definition ld (n : nat) (a : Z) : VM Z :=
  fun s => match load n a (v_mem s) with Some v => Ok (v, s) | None => Fail Segv end.

Definition st (n : nat) (a v : Z) : VM unit :=
  fun s => match store n a v (v_mem s) with
           | Some m => Ok (tt, VState m (v_dev s) (v_irqs s) (v_ext s))
           | None => Fail Segv
           end.

Definition get_dev : VM virtio_dev := fun s => Ok (v_dev s, s).

Definition mod_dev (f : virtio_dev -> virtio_dev) : VM unit :=
  fun s => Ok (tt, VState (v_mem s) (f (v_dev s)) (v_irqs s) (v_ext s)).

(** [dev->queue[i]], read and updated in place. *)
Definition queue_at (i : Z) (d : virtio_dev) : option virtio_queue :=
  if i <? 0 then None else d_queue d !! Z.to_nat i.

Definition get_queue (i : Z) : VM virtio_queue :=
  fun s => match queue_at i (v_dev s) with Some q => Ok (q, s) | None => Fail Segv end.

Definition upd_queue (i : Z) (f : virtio_queue -> virtio_queue) (d : virtio_dev) : virtio_dev :=
  with_queues (alter f (Z.to_nat i) (d_queue d)) d.

Definition mod_queue (i : Z) (f : virtio_queue -> virtio_queue) : VM unit :=
  let* _ := get_queue i in mod_dev (upd_queue i f).

(** *** Ring accessors *)

Definition ring_mask (q : virtio_queue) (i : Z) : Z := Z.land i (u32 (q_num q - 1)).

Definition avail_ring_at (q : virtio_queue) (i : Z) : Z := q_avail q + 4 + 2 * i.
Definition used_ring_at (q : virtio_queue) (i : Z) : Z := q_used q + 4 + 8 * i.

Definition get_avail_idx (q : virtio_queue) : VM Z := ld 2 (q_avail q + 2).

Definition virtio_get_used_event (q : virtio_queue) : VM Z := ld 2 (avail_ring_at q (q_num q)).

Definition virtio_set_avail_event (q : virtio_queue) (val : Z) : VM unit :=
  st 2 (used_ring_at q (q_num q)) val.

Context {T : Trigger D}.

Definition virtio_deliver_irq : VM unit :=
  mod_dev (fun d => with_int_status (Z.lor (d_int_status d) VIRTIO_MMIO_INT_VRING) d) ;;;
  let* d := get_dev in
  trigger_irq (d_irq d).

Definition virtio_get_used_idx (q : virtio_queue) : VM Z := ld 2 (q_used q + 2).

Definition virtio_add_used (q : virtio_queue) (used_idx avail_idx len : Z) : VM unit :=
  let* desc_idx := ld 2 (avail_ring_at q (ring_mask q avail_idx)) in
  let used_idx := ring_mask q used_idx in
  st 4 (used_ring_at q used_idx) desc_idx ;;;
  st 4 (used_ring_at q used_idx + 4) len.

Definition virtio_sync_used_idx (q : virtio_queue) (idx : Z) : VM unit :=
  st 2 (q_used q + 2) idx.

(** uapi/linux/virtio_ring.h *)
Definition vring_need_event (event_idx new_idx old : Z) : bool :=
  u16 (new_idx - event_idx - 1) <? u16 (new_idx - old).

(** *** Completion *)

(** The loop of [virtio_req_complete]; the result is (used_idx, avail_idx). *)
Fixpoint complete_loop (q : virtio_queue) (bufs : list iovec) (used_idx avail_idx len : Z)
  : VM (Z * Z) :=
  match bufs with
  | [] => retM (used_idx, avail_idx)
  | b :: bufs' =>
      let used_len :=
        if q_max_merge_len q =? 0 then u16 len
        else u16 (if len <? iov_len b then len else iov_len b) in
      virtio_add_used q used_idx avail_idx used_len ;;;
      let used_idx := u16 (used_idx + 1) in
      let avail_idx := u16 (avail_idx + 1) in
      let len := u32 (len - used_len) in
      if len =? 0 then retM (used_idx, avail_idx)
      else complete_loop q bufs' used_idx avail_idx len
  end.

Definition virtio_req_complete (req : virtio_req) (len : Z) : VM unit :=
  let* q := get_queue (rq_qidx req) in
  let* used_idx := virtio_get_used_idx q in
  let* '(used_idx, avail_idx) := complete_loop q (rq_buf req) used_idx (rq_idx req) len in
  virtio_sync_used_idx q used_idx ;;;
  mod_queue (rq_qidx req) (with_last_avail_idx avail_idx) ;;;
  let* aidx := get_avail_idx q in
  let send_irq := avail_idx =? aidx in
  let* need :=
    (if send_irq then retM true
     else
       let* ev := virtio_get_used_event q in
       let* new := virtio_get_used_idx q in
       retM (vring_need_event ev new (q_last_used_idx_signaled q))) in
  if need : bool then
    let* new := virtio_get_used_idx q in
    mod_queue (rq_qidx req) (with_last_used_idx_signaled new) ;;;
    virtio_deliver_irq
  else retM tt.

(** *** Gathering a request *)

Definition vring_desc_at_le_idx (q : virtio_queue) (le_idx : Z) : Z :=
  q_desc q + 16 * ring_mask q le_idx.

Definition vring_desc_at_avail_idx (q : virtio_queue) (idx : Z) : VM Z :=
  let* desc_idx := ld 2 (avail_ring_at q (ring_mask q idx)) in
  retM (vring_desc_at_le_idx q desc_idx).

(** struct vring_desc: addr at 0, len at 8, flags at 12, next at 14. *)
Definition add_dev_buf_from_vring_desc (req : virtio_req) (desc : Z) : VM virtio_req :=
  let* base := ld 8 desc in
  let* len := ld 4 (desc + 8) in
  if (base =? 0) || (len =? 0) then failM Panicked
  else retM (VirtioReq (rq_buf req ++ [Iovec base len]) (u32 (rq_total_len req + len))
               (rq_qidx req) (rq_idx req)).

(** The next descriptor ([None] for NULL) and the updated [idx]. *)
Definition get_next_desc (q : virtio_queue) (desc idx : Z) : VM (option Z * Z) :=
  if negb (q_max_merge_len q =? 0) then
    let idx := u16 (idx + 1) in
    let* aidx := get_avail_idx q in
    if idx =? aidx then retM (None, idx)
    else
      let* desc_idx := ld 2 (avail_ring_at q (ring_mask q idx)) in
      retM (Some (vring_desc_at_le_idx q desc_idx), idx)
  else
    let* flags := ld 2 (desc + 12) in
    if Z.land flags VRING_DESC_F_NEXT =? 0 then retM (None, idx)
    else
      let* next := ld 2 (desc + 14) in
      retM (Some (vring_desc_at_le_idx q next), idx).

(** The do/while of [virtio_process_one]; each round adds one buffer, so the
    bound on [buf_count] bounds the rounds. *)
Fixpoint gather (fuel : nat) (q : virtio_queue) (req : virtio_req) (desc idx : Z)
  : VM (virtio_req * option Z) :=
  match fuel with
  | O => failM NoFuel
  | S fuel' =>
      let* req := add_dev_buf_from_vring_desc req desc in
      if negb (q_max_merge_len q =? 0) && (q_max_merge_len q <? rq_total_len req) then
        retM (req, Some desc)
      else
        let* '(next, idx) := get_next_desc q desc idx in
        match next with
        | None => retM (req, None)
        | Some desc' =>
            if Z.of_nat (length (rq_buf req)) <? VIRTIO_REQ_MAX_BUFS then
              gather fuel' q req desc' idx
            else retM (req, Some desc')
        end
  end.

Definition virtio_process_one (ops : virtio_dev_ops D) (qidx : Z) : VM Z :=
  let* q := get_queue qidx in
  let idx := q_last_avail_idx q in
  let* desc := vring_desc_at_avail_idx q idx in
  let* '(req, desc) :=
    gather (Z.to_nat VIRTIO_REQ_MAX_BUFS) q (VirtioReq [] 0 qidx idx) desc idx in
  let* chained :=
    match desc with
    | None => retM false
    | Some d =>
        let* flags := ld 2 (d + 12) in
        retM (negb (Z.land flags VRING_DESC_F_NEXT =? 0))
    end in
  if chained : bool then failM Panicked
  else enqueue ops qidx req.

(** *** The processing loop *)

Fixpoint process_loop (ops : virtio_dev_ops D) (fuel : nat) (qidx : Z) : VM unit :=
  match fuel with
  | O => failM NoFuel
  | S fuel' =>
      let* q := get_queue qidx in
      let* aidx := get_avail_idx q in
      if q_last_avail_idx q =? aidx then retM tt
      else
        let* r := virtio_process_one ops qidx in
        if r <? 0 then retM tt
        else
          let* q := get_queue qidx in
          let* aidx := get_avail_idx q in
          (if q_last_avail_idx q =? aidx then virtio_set_avail_event q aidx else retM tt) ;;;
          process_loop ops fuel' qidx
  end.

Definition opt_call (o : option (Z -> VM unit)) (i : Z) : VM unit :=
  match o with Some f => f i | None => retM tt end.

Definition virtio_process_queue (ops : virtio_dev_ops D) (fuel : nat) (qidx : Z) : VM unit :=
  let* q := get_queue qidx in
  if q_ready q =? 0 then retM tt
  else
    opt_call (acquire_queue ops) qidx ;;;
    process_loop ops fuel qidx ;;;
    opt_call (release_queue ops) qidx.

(** *** Registers *)

Definition virtio_read_device_features (d : virtio_dev) : Z :=
  if negb (d_device_features_sel d =? 0) then u32 (Z.shiftr (d_device_features d) 32)
  else u32 (d_device_features d).

Definition virtio_write_driver_features (d : virtio_dev) (val : Z) : virtio_dev :=
  if negb (d_driver_features_sel d =? 0) then
    let tmp := Z.land (d_driver_features d) 0xFFFFFFFF in
    with_driver_features (Z.lor tmp (u64 (Z.shiftl val 32))) d
  else
    let tmp := Z.land (d_driver_features d) 0xFFFFFFFF00000000 in
    with_driver_features (Z.lor tmp val) d.

(** Return code and the bytes left in [res]. *)
Definition virtio_read (offset size : Z) : VM (Z * list Z) :=
  let* d := get_dev in
  if VIRTIO_MMIO_CONFIG <=? offset then
    let offset := offset - VIRTIO_MMIO_CONFIG in
    if d_config_len d <? offset + size then retM (- EINVAL, [])
    else retM (0, take (Z.to_nat size) (drop (Z.to_nat offset) (d_config_data d)))
  else if negb (size =? 4) then retM (- EINVAL, [])
  else
    let answer val := retM (0, le_bytes 4 val) in
    if offset =? VIRTIO_MMIO_MAGIC_VALUE then answer VIRTIO_DEV_MAGIC
    else if offset =? VIRTIO_MMIO_VERSION then answer VIRTIO_DEV_VERSION
    else if offset =? VIRTIO_MMIO_DEVICE_ID then answer (d_device_id d)
    else if offset =? VIRTIO_MMIO_VENDOR_ID then answer (d_vendor_id d)
    else if offset =? VIRTIO_MMIO_DEVICE_FEATURES then answer (virtio_read_device_features d)
    else if offset =? VIRTIO_MMIO_QUEUE_NUM_MAX then
      let* q := get_queue (d_queue_sel d) in answer (q_num_max q)
    else if offset =? VIRTIO_MMIO_QUEUE_READY then
      let* q := get_queue (d_queue_sel d) in answer (q_ready q)
    else if offset =? VIRTIO_MMIO_INTERRUPT_STATUS then answer (d_int_status d)
    else if offset =? VIRTIO_MMIO_STATUS then answer (d_status d)
    else if offset =? VIRTIO_MMIO_CONFIG_GENERATION then answer (d_config_gen d)
    else retM (-1, []).

Definition set_ptr_low (ptr val : Z) : Z := Z.lor (Z.land ptr 0xFFFFFFFF00000000) val.

Definition set_ptr_high (ptr val : Z) : Z :=
  Z.lor (Z.land ptr 0x00000000FFFFFFFF) (u64 (Z.shiftl val 32)).

Definition set_status (ops : virtio_dev_ops D) (val : Z) (d : virtio_dev) : virtio_dev :=
  let refused :=
    negb (Z.land val VIRTIO_CONFIG_S_FEATURES_OK =? 0) &&
    ((Z.land (d_driver_features d) (BIT VIRTIO_F_VERSION_1) =? 0) ||
     (Z.land (d_driver_features d) (BIT VIRTIO_RING_F_EVENT_IDX) =? 0) ||
     negb (check_features ops d =? 0)) in
  with_status (if refused then Z.ldiff val VIRTIO_CONFIG_S_FEATURES_OK else val) d.

(** [memcpy(dst + off, src, size)] on the configuration bytes. *)
Definition write_at (off : Z) (src dst : list Z) : list Z :=
  take (Z.to_nat off) dst ++ src ++ drop (Z.to_nat off + length src) dst.

Definition virtio_write (ops : virtio_dev_ops D) (fuel : nat) (offset : Z)
  (buf : list Z) (size : Z) : VM Z :=
  let* d := get_dev in
  if VIRTIO_MMIO_CONFIG <=? offset then
    let offset := offset - VIRTIO_MMIO_CONFIG in
    if d_config_len d <=? offset + size then retM (- EINVAL)
    else
      mod_dev (fun d =>
        with_config_data (write_at offset (take (Z.to_nat size) buf) (d_config_data d)) d) ;;;
      retM 0
  else if negb (size =? 4) then retM (- EINVAL)
  else
    let val := le_value (take 4 buf) in
    let sel := d_queue_sel d in
    let on_queue f := mod_queue sel f ;;; retM 0 in
    let on_dev f := mod_dev f ;;; retM 0 in
    if offset =? VIRTIO_MMIO_DEVICE_FEATURES_SEL then
      if 1 <? val then retM (- EINVAL) else on_dev (with_device_features_sel val)
    else if offset =? VIRTIO_MMIO_DRIVER_FEATURES_SEL then
      if 1 <? val then retM (- EINVAL) else on_dev (with_driver_features_sel val)
    else if offset =? VIRTIO_MMIO_DRIVER_FEATURES then
      on_dev (fun d => virtio_write_driver_features d val)
    else if offset =? VIRTIO_MMIO_QUEUE_SEL then on_dev (with_queue_sel val)
    else if offset =? VIRTIO_MMIO_QUEUE_NUM then on_queue (with_queue_num val)
    else if offset =? VIRTIO_MMIO_QUEUE_READY then on_queue (with_queue_ready val)
    else if offset =? VIRTIO_MMIO_QUEUE_NOTIFY then
      virtio_process_queue ops fuel val ;;; retM 0
    else if offset =? VIRTIO_MMIO_INTERRUPT_ACK then on_dev (with_int_status 0)
    else if offset =? VIRTIO_MMIO_STATUS then on_dev (set_status ops val)
    else if offset =? VIRTIO_MMIO_QUEUE_DESC_LOW then
      on_queue (fun q => with_desc (set_ptr_low (q_desc q) val) q)
    else if offset =? VIRTIO_MMIO_QUEUE_DESC_HIGH then
      on_queue (fun q => with_desc (set_ptr_high (q_desc q) val) q)
    else if offset =? VIRTIO_MMIO_QUEUE_AVAIL_LOW then
      on_queue (fun q => with_avail (set_ptr_low (q_avail q) val) q)
    else if offset =? VIRTIO_MMIO_QUEUE_AVAIL_HIGH then
      on_queue (fun q => with_avail (set_ptr_high (q_avail q) val) q)
    else if offset =? VIRTIO_MMIO_QUEUE_USED_LOW then
      on_queue (fun q => with_used (set_ptr_low (q_used q) val) q)
    else if offset =? VIRTIO_MMIO_QUEUE_USED_HIGH then
      on_queue (fun q => with_used (set_ptr_high (q_used q) val) q)
    else retM (-1).

Definition virtio_set_queue_max_merge_len (q len : Z) : VM unit :=
  mod_queue q (with_max_merge_len (u32 len)).

End Virtio.

(** The interrupt left for later: [set_irq_pending] of the CPU's owner, or of a
    thread with interrupts disabled. *)
#[export] Instance record_irq {D} : Trigger D := fun irq s =>
  Ok (tt, VState (v_mem s) (v_dev s) (v_irqs s ++ [irq]) (v_ext s)).

(** ** Properties *)

(** C34: the event-index test is exactly "the index the driver asked about lies
    in the half-open window of entries published since the last signal", on
    16-bit indices that wrap around. *)
Theorem vring_need_event_window (event_idx new_idx old : Z) :
  vring_need_event event_idx new_idx old = true <->
  u16 (event_idx - old) < u16 (new_idx - old).
Proof. unfold vring_need_event, u16. rewrite Z.ltb_lt. lia. Qed.
