(* ===== verification/VirtioRing.v ===== *)
(** * VirtioRing

    The theory of the device side of a virtqueue: what a well-formed queue in
    memory is, what gathering and completing a request do to it, and the
    contract between the queue loop of virtio.c and the device classes. *)

From S2P Require Import Prelude Memory Virtio.

(** ** Well-formed queues *)

Definition desc_area (q : virtio_queue) : Z -> Prop := range (q_desc q) (16 * q_num q).
Definition avail_area (q : virtio_queue) : Z -> Prop := range (q_avail q) (6 + 2 * q_num q).
Definition used_area (q : virtio_queue) : Z -> Prop := range (q_used q) (6 + 8 * q_num q).

(** The driver gave the queue a power-of-two size, the three rings are mapped,
    and the ring the device writes overlaps neither of the other two. *)
Record queue_ok (m : mem) (q : virtio_queue) : Prop := {
  qo_pow2 : exists k, 0 <= k <= 15 /\ q_num q = 2 ^ k;
  qo_desc : mapped m (q_desc q) (16 * q_num q);
  qo_avail : mapped m (q_avail q) (6 + 2 * q_num q);
  qo_used : mapped m (q_used q) (6 + 8 * q_num q);
  qo_disj_desc : forall i, used_area q i -> ~ desc_area q i;
  qo_disj_avail : forall i, used_area q i -> ~ avail_area q i;
  qo_last : 0 <= q_last_avail_idx q < 65536;
}.

Lemma queue_ok_num m q : queue_ok m q -> 1 <= q_num q <= 32768.
Proof.
  intros [[k [Hk ->]] _ _ _ _ _ _].
  change 1 with (2 ^ 0). change 32768 with (2 ^ 15).
  split; apply Z.pow_le_mono_r; lia.
Qed.

(** The slot of ring index [x]. *)
Definition slot (q : virtio_queue) (x : Z) : Z := x mod q_num q.

Lemma ring_mask_slot m q x : queue_ok m q -> ring_mask q x = slot q x.
Proof.
  intros Hq. pose proof (queue_ok_num _ _ Hq). destruct (qo_pow2 _ _ Hq) as (k & Hk & He).
  unfold ring_mask, slot. rewrite u32_id by lia. rewrite He. apply land_pow2_mask. lia.
Qed.

Lemma slot_range m q x : queue_ok m q -> 0 <= slot q x < q_num q.
Proof. intros Hq%queue_ok_num. apply Z.mod_pos_bound. lia. Qed.

(** The 16-bit wrap of the indices is invisible in the slots. *)
Lemma slot_u16 m q x : queue_ok m q -> slot q (u16 x) = slot q x.
Proof.
  intros Hq. pose proof (queue_ok_num _ _ Hq). destruct (qo_pow2 _ _ Hq) as (k & Hk & He).
  unfold slot, u16. symmetry. rewrite He. apply Znumtheory.Zmod_div_mod; [lia|lia|].
  exists (2 ^ (16 - k)). rewrite <- Z.pow_add_r by lia.
  by replace (16 - k + k) with 16 by lia.
Qed.

Lemma slot_inj m q x j j' :
  queue_ok m q -> 0 <= j < q_num q -> 0 <= j' < q_num q ->
  slot q (x + j) = slot q (x + j') -> j = j'.
Proof.
  intros Hq%queue_ok_num Hj Hj'. unfold slot. intros He.
  assert ((j - j') mod q_num q = 0) as Hd.
  { replace (j - j') with ((x + j) - (x + j')) by lia.
    rewrite Zminus_mod, He, Z.sub_diag. apply Z.mod_0_l. lia. }
  apply Z.mod_divide in Hd as [c Hc]; [|lia]. assert (c = 0) by nia. lia.
Qed.

Lemma queue_ok_frame P m m' q :
  frame P m m' -> queue_ok m q -> queue_ok m' q.
Proof.
  intros Hf [H1 H2 H3 H4 H5 H6 H7].
  split; try done; by eapply mapped_frame.
Qed.

(** Changing the running indices does not matter. *)
Definition same_layout (q q' : virtio_queue) : Prop :=
  q_num q' = q_num q /\ q_desc q' = q_desc q /\ q_avail q' = q_avail q /\
  q_used q' = q_used q /\ q_max_merge_len q' = q_max_merge_len q /\ q_ready q' = q_ready q /\
  q_num_max q' = q_num_max q.

Lemma same_layout_eq q q' :
  same_layout q q' ->
  q' = with_last_avail_idx (q_last_avail_idx q')
         (with_last_used_idx_signaled (q_last_used_idx_signaled q') q).
Proof.
  destruct q, q'. unfold same_layout. simpl.
  by intros (-> & -> & -> & -> & -> & -> & ->).
Qed.

Lemma queue_ok_layout m q q' :
  same_layout q q' -> 0 <= q_last_avail_idx q' < 65536 -> queue_ok m q -> queue_ok m q'.
Proof.
  intros (Hn & Hd & Ha & Hu & _) Hl [H1 H2 H3 H4 H5 H6 H7].
  split; unfold used_area, desc_area, avail_area in *;
    rewrite ?Hn, ?Hd, ?Ha, ?Hu; done.
Qed.

(** Ring cells inside their areas. *)
Lemma avail_cell_area q i k :
  0 <= i <= q_num q -> range (avail_ring_at q i) 2 k -> avail_area q k.
Proof. unfold range, avail_ring_at, avail_area, range. lia. Qed.

Lemma used_cell_area q i k :
  0 <= i < q_num q -> range (used_ring_at q i) 8 k -> used_area q k.
Proof. unfold range, used_ring_at, used_area, range. lia. Qed.

Lemma avail_load m q i :
  queue_ok m q -> 0 <= i <= q_num q -> exists v, load 2 (avail_ring_at q i) m = Some v.
Proof.
  intros Hq Hi. apply load_some. eapply mapped_sub; [apply (qo_avail _ _ Hq)|..];
    unfold avail_ring_at; lia.
Qed.

Lemma avail_idx_load m q : queue_ok m q -> exists v, load 2 (q_avail q + 2) m = Some v.
Proof.
  intros Hq. pose proof (queue_ok_num _ _ Hq). apply load_some.
  eapply mapped_sub; [apply (qo_avail _ _ Hq)|..]; lia.
Qed.

Lemma used_idx_load m q : queue_ok m q -> exists v, load 2 (q_used q + 2) m = Some v.
Proof.
  intros Hq. pose proof (queue_ok_num _ _ Hq). apply load_some.
  eapply mapped_sub; [apply (qo_used _ _ Hq)|..]; lia.
Qed.

(** Loads from the driver's rings survive writes to the device's. *)
Lemma avail_load_frame m m' q i :
  queue_ok m q -> frame (used_area q) m m' -> 0 <= i <= q_num q ->
  load 2 (avail_ring_at q i) m' = load 2 (avail_ring_at q i) m.
Proof.
  intros Hq Hf Hi. eapply load_frame; [done|]. intros k Hk Hu.
  apply (qo_disj_avail _ _ Hq k Hu). by eapply avail_cell_area.
Qed.

Lemma avail_idx_frame m m' q :
  queue_ok m q -> frame (used_area q) m m' ->
  load 2 (q_avail q + 2) m' = load 2 (q_avail q + 2) m.
Proof.
  intros Hq Hf. pose proof (queue_ok_num _ _ Hq). eapply load_frame; [done|].
  intros k Hk Hu. apply (qo_disj_avail _ _ Hq k Hu). unfold avail_area, range in *. lia.
Qed.

Section Ring.
Context {D : Type}.
Implicit Types s : vstate D.

Lemma ld_ok n a v s : load n a (v_mem s) = Some v -> ld n a s = Ok (v, s).
Proof. unfold ld. by intros ->. Qed.

Lemma st_ok n a v s :
  mapped (v_mem s) a (Z.of_nat n) ->
  exists m, store n a v (v_mem s) = Some m /\
    st n a v s = Ok (tt, VState m (v_dev s) (v_irqs s) (v_ext s)).
Proof.
  intros Hm. destruct (store_some n a v (v_mem s) Hm) as [m Hs].
  exists m. unfold st. by rewrite Hs.
Qed.

Lemma get_queue_ok i q s : queue_at i (v_dev s) = Some q -> get_queue i s = Ok (q, s).
Proof. unfold get_queue. by intros ->. Qed.

Lemma mod_queue_ok i q f s :
  queue_at i (v_dev s) = Some q ->
  mod_queue i f s = Ok (tt, VState (v_mem s) (upd_queue i f (v_dev s)) (v_irqs s) (v_ext s)).
Proof. intros H. unfold mod_queue, bindM. by rewrite (get_queue_ok _ _ _ H). Qed.

Lemma queue_at_upd i q f (d : virtio_dev) :
  queue_at i d = Some q -> queue_at i (upd_queue i f d) = Some (f q).
Proof.
  unfold queue_at, upd_queue. case_match; [done|]. intros Hi. simpl.
  by rewrite list_lookup_alter_eq, Hi.
Qed.

(** *** Completing *)

(** One used entry. *)
Lemma add_used_ok q u a len head s :
  queue_ok (v_mem s) q -> 0 <= len < 65536 ->
  load 2 (avail_ring_at q (slot q a)) (v_mem s) = Some head ->
  exists m, virtio_add_used q u a len s = Ok (tt, VState m (v_dev s) (v_irqs s) (v_ext s)) /\
    frame (range (used_ring_at q (slot q u)) 8) (v_mem s) m /\
    load 4 (used_ring_at q (slot q u)) m = Some head /\
    load 4 (used_ring_at q (slot q u) + 4) m = Some len.
Proof.
  intros Hq Hlen Hh. unfold virtio_add_used.
  rewrite !(ring_mask_slot _ _ _ Hq).
  rewrite (bindM_ok _ _ _ _ _ (ld_ok _ _ _ _ Hh)).
  pose proof (slot_range _ q u Hq) as Hu.
  set (c := used_ring_at q (slot q u)).
  assert (mapped (v_mem s) c 8) as Hmap.
  { eapply mapped_sub; [apply (qo_used _ _ Hq)|..]; subst c; unfold used_ring_at; lia. }
  destruct (st_ok 4 c head s) as (m1 & Hs1 & E1); [eapply mapped_sub; [done|lia|lia]|].
  rewrite (bindM_ok _ _ _ _ _ E1).
  destruct (st_ok 4 (c + 4) len (VState m1 (v_dev s) (v_irqs s) (v_ext s))) as (m2 & Hs2 & E2).
  { apply (mapped_sub _ c 8); [by eapply store_mapped|lia|simpl; lia]. }
  simpl in Hs2. rewrite E2. exists m2. split; [done|].
  apply load_range in Hh as Hhr. split_and!.
  - eapply frame_trans.
    + eapply frame_weaken; [|by eapply store_frame]. unfold range. lia.
    + eapply frame_weaken; [|by eapply store_frame]. unfold range. lia.
  - rewrite (load_store_ne _ _ _ _ _ _ _ Hs2) by (unfold disjoint_ranges; lia).
    rewrite (load_store_eq _ _ _ _ _ Hs1). f_equal. apply Z.mod_small. lia.
  - rewrite (load_store_eq _ _ _ _ _ Hs2). f_equal. apply Z.mod_small. lia.
Qed.

(** The lengths [virtio_req_complete] reports, one per used entry. *)
Fixpoint used_lens (merge : Z) (bufs : list iovec) (len : Z) : list Z :=
  match bufs with
  | [] => []
  | b :: bufs' =>
      let ul := if merge =? 0 then u16 len
                else u16 (if len <? iov_len b then len else iov_len b) in
      ul :: (if u32 (len - ul) =? 0 then [] else used_lens merge bufs' (u32 (len - ul)))
  end.

Definition entries_area (q : virtio_queue) (u n : Z) (i : Z) : Prop :=
  exists j, 0 <= j < n /\ range (used_ring_at q (slot q (u + j))) 8 i.

Lemma entries_used_area m q u n i :
  queue_ok m q -> entries_area q u n i -> used_area q i.
Proof.
  intros Hq (j & Hj & Hi). eapply used_cell_area; [|done]. by eapply slot_range.
Qed.

(** Entry [j] of a completion that started at used index [u] and available
    index [a]. *)
Definition used_entry (q : virtio_queue) (m : mem) (u a j len : Z) (m' : mem) : Prop :=
  load 4 (used_ring_at q (slot q (u + j))) m' = load 2 (avail_ring_at q (slot q (a + j))) m /\
  load 4 (used_ring_at q (slot q (u + j)) + 4) m' = Some len.

Lemma complete_loop_ok q bufs u a len s :
  queue_ok (v_mem s) q -> 0 <= len < 4294967296 ->
  bufs <> [] -> Forall (fun b => 0 <= iov_len b) bufs ->
  let lens := used_lens (q_max_merge_len q) bufs len in
  Z.of_nat (length lens) <= q_num q ->
  exists m, complete_loop q bufs u a len s =
      Ok ((u16 (u + Z.of_nat (length lens)), u16 (a + Z.of_nat (length lens))),
          VState m (v_dev s) (v_irqs s) (v_ext s)) /\
    frame (entries_area q u (Z.of_nat (length lens))) (v_mem s) m /\
    forall j l, lens !! j = Some l -> used_entry q (v_mem s) u a (Z.of_nat j) l m.
Proof.
  revert u a len s. induction bufs as [|b bufs IH]; intros u a len s Hq Hlen Hne Hnn lens Hn; [done|].
  inversion Hnn as [|?? Hb Hnn']; subst.
  pose proof (slot_range _ q a Hq) as Ha.
  destruct (avail_load _ q (slot q a) Hq) as [head Hh]; [lia|].
  subst lens. simpl complete_loop. simpl used_lens in *.
  set (ul := if q_max_merge_len q =? 0 then u16 len
             else u16 (if len <? iov_len b then len else iov_len b)) in *.
  assert (0 <= ul < 65536) as Hul by (subst ul; case_match; apply u16_range).
  destruct (add_used_ok q u a ul head s Hq Hul Hh) as (m1 & E1 & Hf1 & Hid & Hl).
  rewrite (bindM_ok _ _ _ _ _ E1).
  assert (frame (used_area q) (v_mem s) m1) as Hfu.
  { eapply frame_weaken; [|done]. intros i. apply used_cell_area. by eapply slot_range. }
  destruct (u32 (len - ul) =? 0) eqn:Hz.
  { exists m1. simpl. split; [done|]. split.
    - eapply frame_weaken; [|exact Hf1]. intros i Hi. exists 0. rewrite Z.add_0_r. split; [lia|done].
    - intros [|j] l; simpl; [|done]. intros [= <-]. unfold used_entry. simpl.
      rewrite !Z.add_0_r. split; [by rewrite Hid, Hh|done]. }
  simpl length in *.
  set (lens := used_lens (q_max_merge_len q) bufs (u32 (len - ul))) in *.
  destruct (decide (bufs = [])) as [->|Hbne].
  { exists m1. simpl. split; [done|]. split.
    - eapply frame_weaken; [|exact Hf1]. intros i Hi. exists 0. rewrite Z.add_0_r. split; [lia|done].
    - intros [|j] l; simpl; [|done]. intros [= <-]. unfold used_entry. simpl.
      rewrite !Z.add_0_r. split; [by rewrite Hid, Hh|done]. }
  destruct (IH (u16 (u + 1)) (u16 (a + 1)) (u32 (len - ul))
              (VState m1 (v_dev s) (v_irqs s) (v_ext s))) as (m2 & E2 & Hf2 & He2);
    [by eapply queue_ok_frame|apply u32_range|done|done|subst lens; lia|].
  simpl in E2, Hf2, He2. exists m2.
  assert (forall x j, slot q (u16 (x + 1) + j) = slot q (x + (1 + j))) as Hsl.
  { intros x j. rewrite <- (slot_u16 _ q (u16 (x + 1) + j) Hq).
    rewrite <- (slot_u16 _ q (x + (1 + j)) Hq). f_equal. unfold u16. lia. }
  split; [|split].
  - rewrite E2. do 3 f_equal; unfold u16; fold lens; lia.
  - eapply frame_trans.
    + eapply frame_weaken; [|exact Hf1]. intros i Hi. exists 0. rewrite Z.add_0_r.
      split; [lia|done].
    + eapply frame_weaken; [|exact Hf2]. intros i (j & Hj & Hi). rewrite Hsl in Hi.
      exists (1 + j). split; [fold lens in Hj; lia|done].
  - assert (forall x, 0 <= x < 8 -> ~ entries_area q (u16 (u + 1)) (Z.of_nat (length lens))
                       (used_ring_at q (slot q u) + x)) as Hout.
    { intros x Hx (j & Hj & Hi). rewrite Hsl in Hi.
      assert (slot q (u + (1 + j)) = slot q (u + 0)) as Hs.
      { rewrite Z.add_0_r. unfold range, used_ring_at in Hi. lia. }
      apply (slot_inj _ _ _ _ _ Hq) in Hs; lia. }
    intros [|j] l; simpl; intros Hj.
    + injection Hj as <-. unfold used_entry. rewrite !Z.add_0_r. split.
      * rewrite <- Hh in Hid. rewrite <- Hid. eapply load_frame; [exact Hf2|].
        intros i Hi. replace i with (used_ring_at q (slot q u) + (i - used_ring_at q (slot q u))) by lia.
        apply Hout. unfold range in Hi. lia.
      * rewrite <- Hl. eapply load_frame; [exact Hf2|].
        intros i Hi. replace i with (used_ring_at q (slot q u) + (i - used_ring_at q (slot q u))) by lia.
        apply Hout. unfold range in Hi. lia.
    + destruct (He2 j l Hj) as [Hi1 Hi2]. unfold used_entry.
      rewrite (Hsl u), (Hsl a) in Hi1. rewrite (Hsl u) in Hi2. replace (Z.of_nat (S j)) with (1 + Z.of_nat j) by lia.
      split; [|done]. rewrite Hi1. eapply avail_load_frame; [done|done|].
      pose proof (slot_range _ q (a + (1 + Z.of_nat j)) Hq). lia.
Qed.

(** Whether a completion that moved the used index from [u] to [new] and the
    consumed index to [a'] interrupts the driver. *)
Definition irq_due (q : virtio_queue) (a' aidx ev new : Z) : bool :=
  (a' =? aidx) || vring_need_event ev new (q_last_used_idx_signaled q).

(** The device after a completion. *)
Definition completed_dev (i : Z) (a' new : Z) (due : bool) (d : virtio_dev) : virtio_dev :=
  let d1 := upd_queue i (with_last_avail_idx a') d in
  if due then
    let d2 := upd_queue i (with_last_used_idx_signaled new) d1 in
    with_int_status (Z.lor (d_int_status d2) VIRTIO_MMIO_INT_VRING) d2
  else d1.

Lemma used_idx_not_entry m q u n i :
  queue_ok m q -> range (q_used q + 2) 2 i -> ~ entries_area q u n i.
Proof.
  intros Hq Hi (j & _ & Hj). pose proof (slot_range _ q (u + j) Hq).
  unfold range, used_ring_at in *. lia.
Qed.

Lemma req_complete_run {T : Trigger D} q req len u aidx ev s :
  queue_at (rq_qidx req) (v_dev s) = Some q ->
  queue_ok (v_mem s) q -> 0 <= len < 4294967296 ->
  rq_buf req <> [] -> Forall (fun b => 0 <= iov_len b) (rq_buf req) ->
  load 2 (q_used q + 2) (v_mem s) = Some u ->
  load 2 (q_avail q + 2) (v_mem s) = Some aidx ->
  load 2 (avail_ring_at q (q_num q)) (v_mem s) = Some ev ->
  let lens := used_lens (q_max_merge_len q) (rq_buf req) len in
  let n := Z.of_nat (length lens) in
  n <= q_num q ->
  let new := u16 (u + n) in
  let a' := u16 (rq_idx req + n) in
  let due := irq_due q a' aidx ev new in
  exists m, virtio_req_complete req len s =
      (if due then trigger_irq (d_irq (v_dev s)) else retM tt)
        (VState m (completed_dev (rq_qidx req) a' new due (v_dev s)) (v_irqs s) (v_ext s)) /\
    frame (fun i => entries_area q u n i \/ range (q_used q + 2) 2 i) (v_mem s) m /\
    load 2 (q_used q + 2) m = Some new /\
    forall j l, lens !! j = Some l -> used_entry q (v_mem s) u (rq_idx req) (Z.of_nat j) l m.
Proof.
  intros Hqa Hq Hlen Hne Hnn Hu Haidx Hev lens n Hn new a' due.
  unfold virtio_req_complete.
  rewrite (bindM_ok _ _ _ _ _ (get_queue_ok _ _ _ Hqa)).
  rewrite (bindM_ok _ _ _ _ _ (ld_ok _ _ _ _ Hu)).
  destruct (complete_loop_ok q (rq_buf req) u (rq_idx req) len s Hq Hlen Hne Hnn Hn)
    as (m1 & E1 & Hf1 & He1).
  rewrite (bindM_ok _ _ _ _ _ E1). cbn beta iota. fold lens n new a'.
  destruct (st_ok 2 (q_used q + 2) new (VState m1 (v_dev s) (v_irqs s) (v_ext s)))
    as (m2 & Hs2 & E2).
  { pose proof (queue_ok_num _ _ Hq). apply (mapped_sub _ (q_used q) (6 + 8 * q_num q));
      [eapply mapped_frame; [exact Hf1|apply (qo_used _ _ Hq)]|lia|simpl; lia]. }
  unfold virtio_sync_used_idx. rewrite (bindM_ok _ _ _ _ _ E2). simpl in Hs2.
  cbn [v_mem v_dev v_irqs v_ext].
  rewrite (bindM_ok _ _ _ _ _ (mod_queue_ok _ q (with_last_avail_idx a')
             (VState m2 (v_dev s) (v_irqs s) (v_ext s)) Hqa)).
  cbn [v_mem v_dev v_irqs v_ext].
  assert (frame (fun i => entries_area q u n i \/ range (q_used q + 2) 2 i) (v_mem s) m2) as Hf.
  { eapply frame_trans; [eapply frame_weaken; [|exact Hf1]; simpl; auto|].
    eapply frame_weaken; [|by eapply store_frame]. simpl. auto. }
  assert (frame (used_area q) (v_mem s) m2) as Hfu.
  { eapply frame_weaken; [|exact Hf]. intros i [Hi|Hi]; [by eapply entries_used_area|].
    pose proof (queue_ok_num _ _ Hq). unfold used_area, range in *. lia. }
  assert (load 2 (q_used q + 2) m2 = Some new) as Hnew.
  { rewrite (load_store_eq _ _ _ _ _ Hs2). f_equal. apply Z.mod_small.
    subst new. pose proof (u16_range (u + n)). simpl. lia. }
  assert (load 2 (q_avail q + 2) m2 = Some aidx) as Haidx2.
  { rewrite <- Haidx. by eapply avail_idx_frame. }
  assert (load 2 (avail_ring_at q (q_num q)) m2 = Some ev) as Hev2.
  { rewrite <- Hev. eapply avail_load_frame; [done|done|].
    pose proof (queue_ok_num _ _ Hq). lia. }
  exists m2. split.
  2:{ split_and!; [done|done|]. intros j l Hj. destruct (He1 j l Hj) as [H1 H2].
      unfold used_entry. rewrite <- H1, <- H2.
      split; eapply load_store_ne; try exact Hs2;
        pose proof (slot_range _ q (u + Z.of_nat j) Hq);
        unfold disjoint_ranges, used_ring_at; simpl; lia. }
  unfold get_avail_idx. set (s2 := VState m2 _ _ _).
  rewrite (bindM_ok _ _ s2 _ _ (ld_ok _ _ _ s2 Haidx2)).
  assert ((if a' =? aidx then retM true else
             let* ev0 := virtio_get_used_event q in
             let* new0 := virtio_get_used_idx q in
             retM (vring_need_event ev0 new0 (q_last_used_idx_signaled q))) s2 = Ok (due, s2)) as Hdue.
  { subst due. unfold irq_due. destruct (a' =? aidx); [done|].
    unfold virtio_get_used_event. rewrite (bindM_ok _ _ s2 _ _ (ld_ok _ _ _ s2 Hev2)).
    unfold virtio_get_used_idx. by rewrite (bindM_ok _ _ s2 _ _ (ld_ok _ _ _ s2 Hnew)). }
  rewrite (bindM_ok _ _ s2 _ _ Hdue). destruct due; [|done].
  unfold virtio_get_used_idx. rewrite (bindM_ok _ _ s2 _ _ (ld_ok _ _ _ s2 Hnew)).
  rewrite (bindM_ok _ _ s2 _ _ (mod_queue_ok _ (with_last_avail_idx a' q) _ s2
             (queue_at_upd _ q _ _ Hqa))).
  done.
Qed.

(** With the interrupt recorded. *)
Lemma req_complete_ok q req len u aidx ev s :
  queue_at (rq_qidx req) (v_dev s) = Some q ->
  queue_ok (v_mem s) q -> 0 <= len < 4294967296 ->
  rq_buf req <> [] -> Forall (fun b => 0 <= iov_len b) (rq_buf req) ->
  load 2 (q_used q + 2) (v_mem s) = Some u ->
  load 2 (q_avail q + 2) (v_mem s) = Some aidx ->
  load 2 (avail_ring_at q (q_num q)) (v_mem s) = Some ev ->
  let lens := used_lens (q_max_merge_len q) (rq_buf req) len in
  let n := Z.of_nat (length lens) in
  n <= q_num q ->
  let new := u16 (u + n) in
  let a' := u16 (rq_idx req + n) in
  let due := irq_due q a' aidx ev new in
  exists m, virtio_req_complete req len s =
      Ok (tt, VState m (completed_dev (rq_qidx req) a' new due (v_dev s))
                (v_irqs s ++ if due then [d_irq (v_dev s)] else []) (v_ext s)) /\
    frame (fun i => entries_area q u n i \/ range (q_used q + 2) 2 i) (v_mem s) m /\
    load 2 (q_used q + 2) m = Some new /\
    forall j l, lens !! j = Some l -> used_entry q (v_mem s) u (rq_idx req) (Z.of_nat j) l m.
Proof.
  intros Hqa Hq Hlen Hne Hnn Hu Haidx Hev lens n Hn new a' due.
  destruct (req_complete_run q req len u aidx ev s) as (m & E & H); try done.
  exists m. split; [|done]. rewrite E. fold lens n new a' due.
  destruct due; [done|]. by rewrite app_nil_r.
Qed.

End Ring.
