(* ===== verification/VirtioQueue.v ===== *)
(** * VirtioQueue

    What the queue loop of tools/lkl/lib/virtio.c delivers.  A descriptor chain
    has a reference reading ([read_chain]); gathering is proved equal to it up
    to the buffer limit.  A device class (block, net) promises [Serves]: its
    [enqueue] performs a pure [serve] on the memory and on its backend and
    completes the request.  Against that contract the processing loop refines
    [serve_all], the in-order service of every pending request. *)

From S2P Require Import Prelude Memory Virtio VirtioRing.

(** ** Descriptor chains *)

(** The buffers of the chain that starts at table entry [i], if it has at most
    [n] descriptors, all in mapped memory and none of them empty. *)
Fixpoint read_chain (n : nat) (m : mem) (q : virtio_queue) (i : Z) : option (list iovec) :=
  match n with
  | O => None
  | S n' =>
      let d := vring_desc_at_le_idx q i in
      base ← load 8 d m;
      len ← load 4 (d + 8) m;
      flags ← load 2 (d + 12) m;
      if (base =? 0) || (len =? 0) then None
      else if Z.land flags VRING_DESC_F_NEXT =? 0 then Some [Iovec base len]
      else
        next ← load 2 (d + 14) m;
        rest ← read_chain n' m q next;
        Some (Iovec base len :: rest)
  end.

Definition sum_len (bufs : list iovec) : Z := foldr (fun b n => iov_len b + n) 0 bufs.

(** Which bytes a list of buffers covers. *)
Definition bufs_area (bufs : list iovec) (i : Z) : Prop :=
  exists b, b ∈ bufs /\ range (iov_base b) (iov_len b) i.

Lemma desc_cell_area m q i k :
  queue_ok m q -> range (vring_desc_at_le_idx q i) 16 k -> desc_area q k.
Proof.
  intros Hq. unfold vring_desc_at_le_idx. rewrite (ring_mask_slot _ _ _ Hq).
  pose proof (slot_range _ q i Hq). unfold range, desc_area, range. lia.
Qed.

(** Inversion of one step of [read_chain]. *)
Lemma read_chain_inv n m q i bufs :
  read_chain n m q i = Some bufs ->
  exists n' base len flags, n = S n' /\
    let d := vring_desc_at_le_idx q i in
    load 8 d m = Some base /\ load 4 (d + 8) m = Some len /\
    load 2 (d + 12) m = Some flags /\ (base =? 0) || (len =? 0) = false /\
    if Z.land flags VRING_DESC_F_NEXT =? 0 then bufs = [Iovec base len]
    else exists next rest, load 2 (d + 14) m = Some next /\
      read_chain n' m q next = Some rest /\ bufs = Iovec base len :: rest.
Proof.
  destruct n as [|n']; [done|]. simpl. intros H.
  apply bind_Some in H as (base & Hb & H). apply bind_Some in H as (len & Hl & H).
  apply bind_Some in H as (flags & Hf & H).
  destruct ((base =? 0) || (len =? 0)) eqn:Hz; [done|].
  exists n', base, len, flags. split_and!; try done.
  case_match; [by simplify_eq|].
  apply bind_Some in H as (next & Hn & H). apply bind_Some in H as (rest & Hr & H).
  simplify_eq. eauto.
Qed.

Lemma read_chain_length n m q i bufs :
  read_chain n m q i = Some bufs -> (1 <= length bufs <= n)%nat.
Proof.
  revert i bufs. induction n as [|n IH]; intros i bufs H; [done|].
  apply read_chain_inv in H as (n' & base & len & flags & [= <-] & _ & _ & _ & _ & H).
  case_match; [subst; simpl; lia|].
  destruct H as (next & rest & _ & Hr & ->). apply IH in Hr. simpl. lia.
Qed.

Lemma read_chain_bufs n m q i bufs :
  read_chain n m q i = Some bufs -> Forall (fun b => 0 < iov_len b < 4294967296) bufs.
Proof.
  revert i bufs. induction n as [|n IH]; intros i bufs H; [done|].
  apply read_chain_inv in H as (n' & base & len & flags & [= <-] & _ & Hl & _ & Hz & H).
  apply load_range in Hl. change (256 ^ Z.of_nat 4) with 4294967296 in Hl.
  apply orb_false_iff in Hz as [_ Hz%Z.eqb_neq].
  case_match; [subst; apply Forall_singleton; simpl; lia|].
  destruct H as (next & rest & _ & Hr & ->). constructor; [simpl; lia|eauto].
Qed.

Lemma read_chain_frame n m m' P q i :
  queue_ok m q -> frame P m m' -> (forall k, P k -> ~ desc_area q k) ->
  read_chain n m' q i = read_chain n m q i.
Proof.
  intros Hq Hf HP. revert i. induction n as [|n IH]; intros i; [done|]. cbn [read_chain].
  assert (forall k o, 0 <= o -> o + Z.of_nat k <= 16 ->
    load k (vring_desc_at_le_idx q i + o) m' = load k (vring_desc_at_le_idx q i + o) m) as Hld.
  { intros k o Ho Hk. eapply load_frame; [done|]. intros x Hx Hp. apply (HP x Hp).
    apply (desc_cell_area m q i); [done|]. unfold range in *. lia. }
  pose proof (Hld 8%nat 0 ltac:(lia) ltac:(lia)) as H0. rewrite Z.add_0_r in H0.
  rewrite H0, (Hld 4%nat 8), (Hld 2%nat 12), (Hld 2%nat 14) by lia.
  destruct (load 8 _ m); [|done]. destruct (load 4 _ m); [|done].
  destruct (load 2 (_ + 12) m); [|done]. simpl.
  destruct (_ || _); [done|]. case_match; [done|].
  destruct (load 2 _ m); [|done]. simpl. by rewrite IH.
Qed.

Section Gather.
Context {D : Type}.
Implicit Types s : vstate D.

(** The loop of [virtio_process_one] on a chain: the buffers up to the limit,
    and the descriptor it stopped at when the chain goes on. *)
Lemma gather_chain fuel n q req idx i bufs s :
  q_max_merge_len q = 0 ->
  (fuel + length (rq_buf req) = Z.to_nat VIRTIO_REQ_MAX_BUFS)%nat -> (0 < fuel)%nat ->
  read_chain n (v_mem s) q i = Some bufs ->
  exists stop, gather fuel q req (vring_desc_at_le_idx q i) idx s =
      Ok ((VirtioReq (rq_buf req ++ take fuel bufs)
             (u32 (rq_total_len req + sum_len (take fuel bufs))) (rq_qidx req) (rq_idx req),
           stop), s) /\
    if (length bufs <=? fuel)%nat then stop = None
    else exists n' i', stop = Some (vring_desc_at_le_idx q i') /\
      read_chain n' (v_mem s) q i' = Some (drop fuel bufs).
Proof.
  intros Hmm. revert n req i bufs. induction fuel as [|fuel IH]; intros n req i bufs Hf Hpos Hc; [lia|].
  apply read_chain_inv in Hc as (n' & base & len & flags & -> & Hb & Hl & Hfl & Hz & Hc).
  cbn [gather]. unfold add_dev_buf_from_vring_desc, get_next_desc.
  rewrite bindM_assoc, (bindM_ok _ _ _ _ _ (ld_ok _ _ _ _ Hb)).
  rewrite bindM_assoc, (bindM_ok _ _ _ _ _ (ld_ok _ _ _ _ Hl)). rewrite Hz.
  rewrite (bindM_ok _ _ _ _ _ (eq_refl : retM _ s = Ok (_, s))).
  rewrite Hmm. cbn [negb Z.eqb andb rq_buf rq_total_len rq_qidx rq_idx].
  rewrite bindM_assoc, (bindM_ok _ _ _ _ _ (ld_ok _ _ _ _ Hfl)).
  case_match.
  { subst bufs. eexists. split; [|done].
    unfold sum_len. cbn [take foldr iov_len]. by rewrite firstn_nil, Z.add_0_r. }
  destruct Hc as (next & rest & Hn & Hr & ->).
  rewrite bindM_assoc, (bindM_ok _ _ _ _ _ (ld_ok _ _ _ _ Hn)).
  rewrite (bindM_ok _ _ _ _ _ (eq_refl : retM _ s = Ok (_, s))). cbn beta iota.
  pose proof (read_chain_length _ _ _ _ _ Hr) as Hrl.
  cbn [rq_buf]. rewrite length_app. cbn [length].
  destruct fuel as [|fuel].
  - rewrite (proj2 (Z.ltb_ge _ _)) by lia. eexists. split.
    { unfold sum_len. cbn [take foldr iov_len]. by rewrite Z.add_0_r. }
    destruct rest as [|b rest]; [simpl in Hrl; lia|]. cbn. eauto.
  - rewrite (proj2 (Z.ltb_lt _ _)) by lia.
    destruct (IH n' (VirtioReq (rq_buf req ++ [Iovec base len]) (u32 (rq_total_len req + len))
      (rq_qidx req) (rq_idx req)) next rest) as (stop & E & Hstop);
      [simpl; rewrite length_app; simpl; lia|lia|done|].
    exists stop. rewrite E. cbn [rq_buf rq_total_len rq_qidx rq_idx].
    rewrite <- app_assoc. split; [|done]. do 4 f_equal. unfold u32, sum_len. simpl.
    rewrite Zplus_mod_idemp_l. f_equal. lia.
Qed.

Lemma chain_flags n m q i bufs :
  read_chain n m q i = Some bufs ->
  exists flags, load 2 (vring_desc_at_le_idx q i + 12) m = Some flags /\
    (Z.land flags VRING_DESC_F_NEXT =? 0) = (length bufs =? 1)%nat.
Proof.
  intros H. apply read_chain_inv in H as (n' & base & len & flags & -> & _ & _ & Hf & _ & H).
  exists flags. split; [done|]. case_match; [by subst|].
  destruct H as (next & rest & _ & Hr & ->). apply read_chain_length in Hr.
  symmetry. apply Nat.eqb_neq. simpl. lia.
Qed.

(** What [virtio_process_one] hands to the device class, by chain length. *)
Lemma process_one_chain ops qidx q n head bufs s :
  queue_at qidx (v_dev s) = Some q -> queue_ok (v_mem s) q -> q_max_merge_len q = 0 ->
  load 2 (avail_ring_at q (slot q (q_last_avail_idx q))) (v_mem s) = Some head ->
  read_chain n (v_mem s) q head = Some bufs ->
  virtio_process_one ops qidx s =
    if (length bufs <=? Z.to_nat VIRTIO_REQ_MAX_BUFS + 1)%nat then
      enqueue ops qidx (VirtioReq (take (Z.to_nat VIRTIO_REQ_MAX_BUFS) bufs)
        (u32 (sum_len (take (Z.to_nat VIRTIO_REQ_MAX_BUFS) bufs))) qidx (q_last_avail_idx q)) s
    else Fail Panicked.
Proof.
  intros Hqa Hq Hmm Hh Hc. unfold virtio_process_one, vring_desc_at_avail_idx.
  rewrite (bindM_ok _ _ _ _ _ (get_queue_ok _ _ _ Hqa)).
  rewrite (ring_mask_slot _ _ _ Hq).
  rewrite bindM_assoc, (bindM_ok _ _ _ _ _ (ld_ok _ _ _ _ Hh)).
  rewrite (bindM_ok _ _ _ _ _ (eq_refl : retM _ s = Ok (_, s))).
  destruct (gather_chain (Z.to_nat VIRTIO_REQ_MAX_BUFS) n q
    (VirtioReq [] 0 qidx (q_last_avail_idx q)) (q_last_avail_idx q) head bufs s)
    as (stop & E & Hstop); [done|done|vm_compute; lia|done|].
  rewrite (bindM_ok _ _ _ _ _ E). cbn [rq_buf rq_total_len rq_qidx rq_idx app].
  rewrite Z.add_0_l. set (k := Z.to_nat VIRTIO_REQ_MAX_BUFS) in *.
  destruct (length bufs <=? k)%nat eqn:Hk.
  - subst stop. rewrite (bindM_ok _ _ _ _ _ (eq_refl : retM _ s = Ok (_, s))).
    apply Nat.leb_le in Hk. by rewrite (proj2 (Nat.leb_le _ _)) by lia.
  - destruct Hstop as (n' & i' & -> & Hd). apply Nat.leb_gt in Hk.
    destruct (chain_flags _ _ _ _ _ Hd) as (fl & Hfl & Hone).
    rewrite bindM_assoc, (bindM_ok _ _ _ _ _ (ld_ok _ _ _ _ Hfl)).
    rewrite (bindM_ok _ _ _ _ _ (eq_refl : retM _ s = Ok (_, s))).
    rewrite Hone, length_drop.
    destruct (Nat.leb_spec (length bufs) (k + 1)) as [H1|H1].
    + by rewrite (proj2 (Nat.eqb_eq _ _)) by lia.
    + by rewrite (proj2 (Nat.eqb_neq _ _)) by lia.
Qed.

End Gather.

(** ** The contract of a device class *)

(** Two memories that differ only in [P]. *)
Abbreviation agree_outside := frame.

(** What gathering guarantees of a request: no buffer is empty. *)
Definition req_ok (req : virtio_req) : Prop := Forall (fun b => 0 < iov_len b) (rq_buf req).

(** [serve req m x]: the memory and backend after the request, and the length
    the device reports.  [None] is a request the device class cannot handle
    without faulting. *)
Class Serves {D : Type} {T : Trigger D} (ops : virtio_dev_ops D) := {
  serve : virtio_req -> mem -> D -> option (mem * D * Z);
  serve_enqueue : forall qidx req s m x len,
    serve req (v_mem s) (v_ext s) = Some (m, x, len) ->
    enqueue ops qidx req s =
      (virtio_req_complete req len ;;; retM 0) (VState m (v_dev s) (v_irqs s) x);
  serve_len : forall req m x m' x' len,
    serve req m x = Some (m', x', len) -> 0 <= len < 65536;
  serve_frame : forall req m x m' x' len,
    req_ok req -> serve req m x = Some (m', x', len) -> frame (bufs_area (rq_buf req)) m m';
  serve_local : forall P req m1 m2 x m1' x' len,
    req_ok req -> serve req m1 x = Some (m1', x', len) ->
    agree_outside P m1 m2 -> (forall i, bufs_area (rq_buf req) i -> ~ P i) ->
    exists m2', serve req m2 x = Some (m2', x', len) /\ agree_outside P m1' m2';
}.

(** In-order service of a list of requests: the abstract device. *)
Fixpoint serve_all {D} {ops : virtio_dev_ops D} `{!Serves ops} (reqs : list virtio_req)
  (m : mem) (x : D) : option (mem * D * list Z) :=
  match reqs with
  | [] => Some (m, x, [])
  | req :: reqs' =>
      '(m, x, len) ← serve req m x;
      '(m, x, lens) ← serve_all reqs' m x;
      Some (m, x, len :: lens)
  end.

(** The [n] requests the driver made available from index [a] on. *)
Fixpoint pending (n : nat) (qidx a : Z) (m : mem) (q : virtio_queue) : option (list virtio_req) :=
  match n with
  | O => Some []
  | S n' =>
      head ← load 2 (avail_ring_at q (slot q a)) m;
      bufs ← read_chain (Z.to_nat VIRTIO_REQ_MAX_BUFS) m q head;
      reqs ← pending n' qidx (u16 (a + 1)) m q;
      Some (VirtioReq bufs (u32 (sum_len bufs)) qidx a :: reqs)
  end.

Definition rings_area (q : virtio_queue) (i : Z) : Prop :=
  desc_area q i \/ avail_area q i \/ used_area q i.

(** No buffer of the request overlaps the rings. *)
Definition off_rings (q : virtio_queue) (req : virtio_req) : Prop :=
  forall i, bufs_area (rq_buf req) i -> ~ rings_area q i.

Lemma pending_length n qidx a m q reqs : pending n qidx a m q = Some reqs -> length reqs = n.
Proof.
  revert a reqs. induction n as [|n IH]; intros a reqs; simpl; [by intros [= <-]|].
  intros H. apply bind_Some in H as (h & _ & H). apply bind_Some in H as (b & _ & H).
  apply bind_Some in H as (r & Hr & [= <-]). simpl. f_equal. eauto.
Qed.

(** The pending requests do not change while the device works. *)
Lemma pending_frame n qidx a m m' P q :
  queue_ok m q -> frame P m m' ->
  (forall i, P i -> ~ desc_area q i /\ ~ avail_area q i) ->
  pending n qidx a m' q = pending n qidx a m q.
Proof.
  intros Hq Hf HP. revert a. induction n as [|n IH]; intros a; cbn [pending]; [done|].
  rewrite (load_frame 2 _ P m m') by first
    [done | intros k Hk Hp; apply (HP k Hp); eapply avail_cell_area; [|done];
            pose proof (slot_range _ q a Hq); lia].
  destruct (load 2 _ m); [|done]. cbn [mbind option_bind].
  rewrite (read_chain_frame _ m m' P) by (try done; intros k Hk; by apply HP).
  by rewrite IH.
Qed.

Lemma read_chain_layout n m q q' i :
  same_layout q q' -> read_chain n m q' i = read_chain n m q i.
Proof.
  intros (Hn & Hd & _). revert i. induction n as [|n IH]; intros i; [done|]. cbn [read_chain].
  unfold vring_desc_at_le_idx, ring_mask. rewrite Hn, Hd.
  destruct (load 8 _ m); [|done]. destruct (load 4 _ m); [|done].
  destruct (load 2 (_ + 12) m); [|done]. simpl. destruct (_ || _); [done|].
  case_match; [done|]. destruct (load 2 _ m); [|done]. simpl. by rewrite IH.
Qed.

Lemma pending_layout n qidx a m q q' :
  same_layout q q' -> pending n qidx a m q' = pending n qidx a m q.
Proof.
  intros Hl. revert a. induction n as [|n IH]; intros a; cbn [pending]; [done|].
  unfold slot, avail_ring_at. destruct Hl as (Hn & Hd & Ha & Hl).
  rewrite Hn, Ha. destruct (load 2 _ m); cbn [mbind option_bind]; [|reflexivity].
  rewrite (read_chain_layout _ _ q q') by (split_and!; try done; apply Hl).
  rewrite IH. reflexivity.
Qed.

(** ** Draining the queue *)

Definition reqs_area (reqs : list virtio_req) (i : Z) : Prop :=
  exists r, r ∈ reqs /\ bufs_area (rq_buf r) i.

(** Everything the device may write while it serves [reqs] from used index [u]:
    the buffers, one used entry per request, the used index and the available
    event. *)
Definition written_area (q : virtio_queue) (u : Z) (reqs : list virtio_req) (i : Z) : Prop :=
  reqs_area reqs i \/ entries_area q u (Z.of_nat (length reqs)) i \/
  range (q_used q + 2) 2 i \/ range (used_ring_at q (q_num q)) 2 i.

Lemma read_chain_req_ok n m q i bufs t qi a :
  read_chain n m q i = Some bufs -> req_ok (VirtioReq bufs t qi a).
Proof.
  intros H%read_chain_bufs. eapply Forall_impl; [|exact H]. simpl. lia.
Qed.

Section One.
Context {D : Type} {T : Trigger D} (ops : virtio_dev_ops D) {SV : Serves ops}.
Implicit Types s : vstate D.

Lemma used_lens_one b bufs len : 0 <= len < 65536 -> used_lens 0 (b :: bufs) len = [len].
Proof. intros Hl. simpl. rewrite u16_id by lia. by rewrite Z.sub_diag. Qed.

(** One request, from the available ring to the used ring: the interrupt is the
    last thing the device does for it. *)
Lemma process_one_run qidx q u aidx head bufs m1 x1 len s :
  queue_at qidx (v_dev s) = Some q -> queue_ok (v_mem s) q -> q_max_merge_len q = 0 ->
  load 2 (q_used q + 2) (v_mem s) = Some u ->
  load 2 (q_avail q + 2) (v_mem s) = Some aidx ->
  let a := q_last_avail_idx q in
  let req := VirtioReq bufs (u32 (sum_len bufs)) qidx a in
  load 2 (avail_ring_at q (slot q a)) (v_mem s) = Some head ->
  read_chain (Z.to_nat VIRTIO_REQ_MAX_BUFS) (v_mem s) q head = Some bufs ->
  off_rings q req ->
  serve req (v_mem s) (v_ext s) = Some (m1, x1, len) ->
  exists m2 (due : bool),
    virtio_process_one ops qidx s =
      ((if due then trigger_irq (d_irq (v_dev s)) else retM tt) ;;; retM 0)
        (VState m2 (completed_dev qidx (u16 (a + 1)) (u16 (u + 1)) due (v_dev s)) (v_irqs s) x1) /\
    (u16 (a + 1) = aidx -> due = true) /\
    frame (fun i => entries_area q u 1 i \/ range (q_used q + 2) 2 i) m1 m2 /\
    load 2 (q_used q + 2) m2 = Some (u16 (u + 1)) /\
    load 4 (used_ring_at q (slot q u)) m2 = Some head /\
    load 4 (used_ring_at q (slot q u) + 4) m2 = Some len.
Proof.
  intros Hqa Hq Hmm Hu Haidx a req Hh Hc Hoff Hs.
  pose proof (read_chain_length _ _ _ _ _ Hc) as Hlen.
  pose proof (read_chain_bufs _ _ _ _ _ Hc) as Hbufs.
  assert (req_ok req) as Hrok by (by eapply read_chain_req_ok).
  pose proof (serve_frame _ _ _ _ _ _ Hrok Hs) as Hfr.
  pose proof (queue_ok_num _ _ Hq) as Hnum.
  rewrite (process_one_chain ops qidx q _ head bufs s Hqa Hq Hmm Hh Hc).
  rewrite (proj2 (Nat.leb_le _ _)) by lia. rewrite take_ge by lia. fold a. fold req.
  rewrite (serve_enqueue _ _ _ _ _ _ Hs).
  set (s1 := VState m1 (v_dev s) (v_irqs s) x1).
  assert (forall k b, (forall i, range b (Z.of_nat k) i -> rings_area q i) ->
    load k b m1 = load k b (v_mem s)) as Hld.
  { intros k b Hb. eapply load_frame; [exact Hfr|]. intros i Hi Hbi. by eapply Hoff, Hb. }
  assert (queue_ok m1 q) as Hq1 by (by eapply queue_ok_frame).
  destruct (avail_load _ q (q_num q) Hq1) as [ev Hev]; [lia|].
  destruct bufs as [|b bufs]; [simpl in Hlen; lia|].
  pose proof (serve_len _ _ _ _ _ _ Hs) as Hl.
  destruct (req_complete_run q req len u aidx ev s1) as (m2 & E & Hf & Hnew & He);
    [done|done|lia|done|..].
  { simpl. eapply Forall_impl; [|exact Hbufs]. simpl. lia. }
  { simpl. rewrite Hld; [done|]. intros i Hi. do 2 right. unfold used_area, range in *. lia. }
  { simpl. rewrite Hld; [done|]. intros i Hi. right. left. unfold avail_area, range in *. lia. }
  { done. }
  { rewrite Hmm. simpl rq_buf. rewrite used_lens_one by done. simpl. lia. }
  revert E Hf Hnew He. rewrite Hmm. change (rq_buf req) with (b :: bufs).
  rewrite used_lens_one by done. simpl length.
  intros E Hf Hnew He. exists m2, (irq_due q (u16 (a + 1)) aidx ev (u16 (u + 1))).
  split; [unfold bindM at 1; rewrite E; reflexivity|].
  split; [|split; [done|split; [done|]]].
  - intros Ha. change (irq_due q (u16 (a + 1)) aidx ev (u16 (u + 1)) = true).
    unfold irq_due. by rewrite (proj2 (Z.eqb_eq _ _) Ha).
  - destruct (He 0%nat len eq_refl) as [H1 H2]. change (Z.of_nat 0) with 0 in H1, H2.
    rewrite Z.add_0_r in H1, H2. rewrite Z.add_0_r in H1. cbn [v_mem s1 rq_idx req] in H1.
    rewrite H1. split; [|done]. rewrite Hld; [done|]. intros i Hi. right. left.
    eapply avail_cell_area; [|done]. pose proof (slot_range _ q a Hq). lia.
Qed.

End One.

Section Drain.
Context {D : Type} (ops : virtio_dev_ops D) `{!Serves ops}.
Implicit Types s : vstate D.

(** [s'] is [s] after the requests [reqs] were served and reported with
    lengths [lens]. *)
Record served (qidx : Z) (q : virtio_queue) (u : Z) (reqs : list virtio_req)
  (lens : list Z) s s' : Prop := {
  sv_frame : frame (written_area q u reqs) (v_mem s) (v_mem s');
  sv_used_idx : load 2 (q_used q + 2) (v_mem s') = Some (u16 (u + Z.of_nat (length reqs)));
  sv_entry : forall j req len, reqs !! j = Some req -> lens !! j = Some len ->
    load 4 (used_ring_at q (slot q (u + Z.of_nat j))) (v_mem s') =
      load 2 (avail_ring_at q (slot q (rq_idx req))) (v_mem s) /\
    load 4 (used_ring_at q (slot q (u + Z.of_nat j)) + 4) (v_mem s') = Some len;
  sv_queue : exists q', queue_at qidx (v_dev s') = Some q' /\ same_layout q q' /\
    q_last_avail_idx q' = u16 (q_last_avail_idx q + Z.of_nat (length reqs));
  sv_others : forall j, j <> qidx -> queue_at j (v_dev s') = queue_at j (v_dev s);
  sv_irqs : exists k, v_irqs s' = v_irqs s ++ replicate k (d_irq (v_dev s));
  sv_irq : d_irq (v_dev s') = d_irq (v_dev s);
}.

(** The driver has been told about everything: an interrupt was raised since
    [s], the device recorded the used index [u'] it signalled, and asks to be
    notified at available index [aidx]. *)
Record signalled (qidx : Z) (q : virtio_queue) (u' aidx : Z) s s' : Prop := {
  sg_irq : (length (v_irqs s) < length (v_irqs s'))%nat;
  sg_int_status : Z.testbit (d_int_status (v_dev s')) 0 = true;
  sg_queue : exists q', queue_at qidx (v_dev s') = Some q' /\ q_last_used_idx_signaled q' = u';
  sg_avail_event : load 2 (used_ring_at q (q_num q)) (v_mem s') = Some aidx;
}.

(** One request, with the interrupt recorded. *)
Lemma process_one_ok qidx q u aidx head bufs m1 x1 len s :
  queue_at qidx (v_dev s) = Some q -> queue_ok (v_mem s) q -> q_max_merge_len q = 0 ->
  load 2 (q_used q + 2) (v_mem s) = Some u ->
  load 2 (q_avail q + 2) (v_mem s) = Some aidx ->
  let a := q_last_avail_idx q in
  let req := VirtioReq bufs (u32 (sum_len bufs)) qidx a in
  load 2 (avail_ring_at q (slot q a)) (v_mem s) = Some head ->
  read_chain (Z.to_nat VIRTIO_REQ_MAX_BUFS) (v_mem s) q head = Some bufs ->
  off_rings q req ->
  serve req (v_mem s) (v_ext s) = Some (m1, x1, len) ->
  exists m2 due,
    virtio_process_one ops qidx s =
      Ok (0, VState m2 (completed_dev qidx (u16 (a + 1)) (u16 (u + 1)) due (v_dev s))
               (v_irqs s ++ if due then [d_irq (v_dev s)] else []) x1) /\
    (u16 (a + 1) = aidx -> due = true) /\
    frame (fun i => entries_area q u 1 i \/ range (q_used q + 2) 2 i) m1 m2 /\
    load 2 (q_used q + 2) m2 = Some (u16 (u + 1)) /\
    load 4 (used_ring_at q (slot q u)) m2 = Some head /\
    load 4 (used_ring_at q (slot q u) + 4) m2 = Some len.
Proof.
  intros Hqa Hq Hmm Hu Haidx a req Hh Hc Hoff Hs.
  destruct (process_one_run ops qidx q u aidx head bufs m1 x1 len s) as (m2 & due & E & H); try done.
  exists m2, due. split; [|done]. rewrite E. destruct due; [done|]. by rewrite app_nil_r.
Qed.

Lemma queue_at_upd_ne i j f (d : virtio_dev) :
  j <> i -> 0 <= i -> queue_at j (upd_queue i f d) = queue_at j d.
Proof.
  intros Hne Hi. unfold queue_at, upd_queue. destruct (j <? 0) eqn:Hj; [done|]. simpl.
  apply Z.ltb_ge in Hj. apply list_lookup_alter_ne. lia.
Qed.

Lemma queue_at_nonneg i d q : queue_at i d = Some q -> 0 <= i.
Proof. unfold queue_at. destruct (i <? 0) eqn:H; [done|]. lia. Qed.

(** The device after a completion. *)
Lemma completed_dev_queue i a' new due d q :
  queue_at i d = Some q ->
  exists q', queue_at i (completed_dev i a' new due d) = Some q' /\ same_layout q q' /\
    q_last_avail_idx q' = a' /\ (due = true -> q_last_used_idx_signaled q' = new).
Proof.
  intros Hqa. unfold completed_dev. destruct due.
  - eexists. split; [apply queue_at_upd, queue_at_upd, Hqa|]. done.
  - eexists. split; [apply queue_at_upd, Hqa|]. done.
Qed.

Lemma completed_dev_others i a' new due d j :
  0 <= i -> j <> i -> queue_at j (completed_dev i a' new due d) = queue_at j d.
Proof.
  intros Hi Hj. unfold completed_dev. destruct due; [|by apply queue_at_upd_ne].
  change (queue_at j (upd_queue i (with_last_used_idx_signaled new)
    (upd_queue i (with_last_avail_idx a') d)) = queue_at j d).
  by rewrite !queue_at_upd_ne.
Qed.

Lemma completed_dev_irq i a' new due d : d_irq (completed_dev i a' new due d) = d_irq d.
Proof. by destruct due. Qed.

Lemma completed_dev_int_status i a' new d :
  Z.testbit (d_int_status (completed_dev i a' new true d)) 0 = true.
Proof.
  change (Z.testbit (Z.lor (d_int_status d) 1) 0 = true).
  rewrite Z.lor_spec. apply orb_true_r.
Qed.

(** The available event cell lies after the entries. *)
Lemma event_cell_used q k : 1 <= q_num q -> range (used_ring_at q (q_num q)) 2 k -> used_area q k.
Proof. unfold range, used_ring_at, used_area, range. lia. Qed.

Lemma written_used_area m q u reqs i :
  queue_ok m q -> written_area q u reqs i -> reqs_area reqs i \/ used_area q i.
Proof.
  intros Hq. pose proof (queue_ok_num _ _ Hq). intros [Hi|[Hi|[Hi|Hi]]]; [by left|..]; right.
  - by eapply entries_used_area.
  - unfold used_area, range in *. lia.
  - by apply event_cell_used; [lia|].
Qed.

Lemma reqs_off_rings q reqs i :
  Forall (off_rings q) reqs -> reqs_area reqs i -> ~ rings_area q i.
Proof. intros HF (r & Hr & Hi). rewrite list.Forall_forall in HF. by apply (HF r). Qed.

(** Serving never writes the driver's rings. *)
Lemma written_off_driver m q u reqs i :
  queue_ok m q -> Forall (off_rings q) reqs -> written_area q u reqs i ->
  ~ desc_area q i /\ ~ avail_area q i.
Proof.
  intros Hq HF Hi. destruct (written_used_area _ _ _ _ _ Hq Hi) as [Hr|Hu].
  - pose proof (reqs_off_rings _ _ _ HF Hr). unfold rings_area in *. tauto.
  - split; [by apply (qo_disj_desc _ _ Hq)|by apply (qo_disj_avail _ _ Hq)].
Qed.

(** *** Composition *)

Lemma served_nil qidx q u s :
  queue_at qidx (v_dev s) = Some q -> queue_ok (v_mem s) q ->
  load 2 (q_used q + 2) (v_mem s) = Some u -> served qidx q u [] [] s s.
Proof.
  intros Hqa Hq Hu. split; try done.
  - rewrite Hu. apply load_range in Hu. change (256 ^ Z.of_nat 2) with 65536 in Hu.
    simpl. rewrite Z.add_0_r, u16_id by lia. done.
  - exists q. split_and!; try done. simpl. rewrite Z.add_0_r, u16_id; [done|apply Hq].
  - exists 0%nat. simpl. by rewrite app_nil_r.
Qed.

Lemma slot_succ m q x j : queue_ok m q -> slot q (u16 (x + 1) + j) = slot q (x + (1 + j)).
Proof.
  intros Hq. rewrite <- (slot_u16 _ q (u16 (x + 1) + j) Hq), <- (slot_u16 _ q (x + (1 + j)) Hq).
  f_equal. unfold u16. rewrite Zplus_mod_idemp_l. f_equal. lia.
Qed.

(** Used entry [u] is out of the way of the next [n] ones. *)
Lemma entry_off_rest m q u reqs i :
  queue_ok m q -> Forall (off_rings q) reqs -> Z.of_nat (length reqs) < q_num q ->
  range (used_ring_at q (slot q u)) 8 i -> ~ written_area q (u16 (u + 1)) reqs i.
Proof.
  intros Hq HF Hn Hi. pose proof (slot_range _ q u Hq).
  intros [Hr|[Hr|[Hr|Hr]]].
  - apply (reqs_off_rings _ _ _ HF Hr). do 2 right. by eapply used_cell_area.
  - destruct Hr as (j & Hj & Hij).
    assert (slot q (u16 (u + 1) + j) = slot q (u + 0)) as Hs.
    { unfold range, used_ring_at in *. rewrite Z.add_0_r. lia. }
    rewrite (slot_succ _ _ _ _ Hq) in Hs.
    pose proof (slot_inj _ q u (1 + j) 0 Hq ltac:(lia) ltac:(lia) Hs). lia.
  - unfold range, used_ring_at in *. lia.
  - unfold range, used_ring_at in *. lia.
Qed.

Lemma written_cons m q u req reqs i :
  queue_ok m q ->
  written_area q u [req] i \/ written_area q (u16 (u + 1)) reqs i ->
  written_area q u (req :: reqs) i.
Proof.
  intros Hq [[(r & Hr & Hi)|[(j & Hj & Hi)|Hi]]|[(r & Hr & Hi)|[(j & Hj & Hi)|Hi]]];
    try by (do 2 right).
  - left. exists r. split; [set_solver|done].
  - right. left. exists j. simpl length in *. split; [lia|done].
  - left. exists r. split; [set_solver|done].
  - right. left. exists (1 + j). rewrite <- (slot_succ _ _ _ _ Hq). simpl length. split; [lia|done].
Qed.

Lemma served_cons qidx q q1 u req len reqs lens s s1 s' :
  queue_ok (v_mem s) q -> Forall (off_rings q) (req :: reqs) ->
  Z.of_nat (length reqs) < q_num q ->
  served qidx q u [req] [len] s s1 -> queue_at qidx (v_dev s1) = Some q1 ->
  served qidx q1 (u16 (u + 1)) reqs lens s1 s' ->
  served qidx q u (req :: reqs) (len :: lens) s s'.
Proof.
  intros Hq HF Hn [Hf1 Hu1 He1 Hq1 Ho1 [k1 Hi1] Hd1] Hqa1 [Hf2 Hu2 He2 Hq2 Ho2 [k2 Hi2] Hd2].
  destruct Hq1 as (q1' & Hqa1' & Hl1 & Hla1). simplify_eq.
  pose proof (same_layout_eq _ _ Hl1) as Heq. rewrite Hla1 in Heq. simpl length in Heq.
  change (Z.of_nat 1) with 1 in Heq. rewrite Heq in *. clear Heq.
  assert (forall x, u16 (u16 (x + 1) + Z.of_nat (length reqs)) =
                    u16 (x + Z.of_nat (length (req :: reqs)))) as Hu16.
  { intros x. unfold u16. rewrite Zplus_mod_idemp_l. f_equal. simpl length. lia. }
  pose proof (Forall_inv HF) as Hoff. pose proof (Forall_inv_tail HF) as HF2.
  split.
  - eapply frame_trans; (eapply frame_weaken; [|eassumption]);
      intros i Hi; eapply written_cons; eauto.
  - rewrite <- Hu16. exact Hu2.
  - intros [|j] r l; simpl.
    + intros [= <-] [= <-]. destruct (He1 0%nat req len eq_refl eq_refl) as [H1 H2].
      rewrite <- H1, <- H2. split; (eapply load_frame; [exact Hf2|]); intros i Hi;
        (apply (entry_off_rest (v_mem s) q u reqs i); [done|done|done|]); change (Z.of_nat 0) with 0 in Hi;
        rewrite Z.add_0_r in Hi; unfold range in *; lia.
    + intros Hr Hl. destruct (He2 j r l Hr Hl) as [H1 H2].
      rewrite Nat2Z.inj_succ, <- Z.add_1_l, <- (slot_succ _ _ _ _ Hq).
      split; [|exact H2]. etransitivity; [exact H1|].
      eapply load_frame; [exact Hf1|]. intros i Hi Hw.
      apply (written_off_driver (v_mem s)) in Hw; [|done|by constructor].
      apply Hw. eapply avail_cell_area; [|exact Hi].
      pose proof (slot_range _ q (rq_idx r) Hq). simpl. lia.
  - destruct Hq2 as (q2 & Hqa2 & Hl2 & Hla2). exists q2. split; [done|]. split; [exact Hl2|].
    rewrite Hla2. apply Hu16.
  - intros j Hj. by rewrite Ho2, Ho1.
  - exists (k1 + k2)%nat. rewrite Hi2, Hi1, Hd1, replicate_add. by rewrite app_assoc.
  - by rewrite Hd2.
Qed.

(** *** The loop *)

(** Queue [q] of the device, with used index [u] and available index [aidx]. *)
Record at_queue (qidx : Z) (q : virtio_queue) (u aidx : Z) s : Prop := {
  aq_queue : queue_at qidx (v_dev s) = Some q;
  aq_ok : queue_ok (v_mem s) q;
  aq_merge : q_max_merge_len q = 0;
  aq_used : load 2 (q_used q + 2) (v_mem s) = Some u;
  aq_avail : load 2 (q_avail q + 2) (v_mem s) = Some aidx;
}.

(** The tail of a loop round: when the queue is empty, ask for a notification. *)
Lemma avail_event_ok q a aidx s :
  queue_ok (v_mem s) q -> load 2 (q_avail q + 2) (v_mem s) = Some aidx ->
  exists m, (if a =? aidx then virtio_set_avail_event q aidx else retM tt) s =
      Ok (tt, VState m (v_dev s) (v_irqs s) (v_ext s)) /\
    frame (range (used_ring_at q (q_num q)) 2) (v_mem s) m /\
    (a = aidx -> load 2 (used_ring_at q (q_num q)) m = Some aidx).
Proof.
  intros Hq Ha. pose proof (queue_ok_num _ _ Hq).
  destruct (Z.eqb_spec a aidx) as [->|Hne].
  - destruct (st_ok 2 (used_ring_at q (q_num q)) aidx s) as (m & Hs & E).
    { eapply mapped_sub; [apply (qo_used _ _ Hq)|..]; unfold used_ring_at; lia. }
    exists m. split; [exact E|]. split; [by eapply (store_frame 2)|]. intros _.
    rewrite (load_store_eq _ _ _ _ _ Hs). f_equal. apply load_range in Ha.
    apply Z.mod_small. done.
  - exists (v_mem s). split; [by destruct s|]. split; [done|lia].
Qed.

Lemma round_ok fuel qidx q u aidx head bufs m1 x1 len s :
  at_queue qidx q u aidx s ->
  let a := q_last_avail_idx q in
  let req := VirtioReq bufs (u32 (sum_len bufs)) qidx a in
  a <> aidx ->
  load 2 (avail_ring_at q (slot q a)) (v_mem s) = Some head ->
  read_chain (Z.to_nat VIRTIO_REQ_MAX_BUFS) (v_mem s) q head = Some bufs ->
  off_rings q req ->
  serve req (v_mem s) (v_ext s) = Some (m1, x1, len) ->
  exists s1, process_loop ops (S fuel) qidx s = process_loop ops fuel qidx s1 /\
    served qidx q u [req] [len] s s1 /\ v_ext s1 = x1 /\
    agree_outside (used_area q) m1 (v_mem s1) /\
    (u16 (a + 1) = aidx -> signalled qidx q (u16 (u + 1)) aidx s s1).
Proof.
  intros [Hqa Hq Hmm Hu Haidx] a req Hne Hh Hc Hoff Hs.
  destruct (process_one_ok qidx q u aidx head bufs m1 x1 len s) as
    (m2 & due & E & Hdue & Hf2 & Hnew & Hid & Hlen); try done.
  pose proof (queue_ok_num _ _ Hq) as Hnum. pose proof (serve_frame req _ _ _ _ _ (read_chain_req_ok _ _ _ _ _ _ _ _ Hc) Hs) as Hf1.
  destruct (completed_dev_queue qidx (u16 (a + 1)) (u16 (u + 1)) due _ _ Hqa)
    as (q1 & Hqa1 & Hl1 & Hla1 & Hsig1).
  set (s2 := VState m2 _ _ _) in E.
  assert (frame (written_area q u [req]) (v_mem s) m2) as Hf12.
  { eapply frame_trans; (eapply frame_weaken; [|eassumption]); intros i Hi.
    - left. exists req. split; [set_solver|exact Hi].
    - destruct Hi as [Hi|Hi]; [by right; left|by do 2 right; left]. }
  assert (queue_ok m2 q) as Hq2 by (by eapply queue_ok_frame).
  assert (load 2 (q_avail q + 2) m2 = Some aidx) as Haidx2.
  { rewrite <- Haidx. eapply load_frame; [exact Hf12|]. intros i Hi Hw.
    apply (written_off_driver (v_mem s)) in Hw; [|done|by constructor].
    apply Hw. unfold avail_area, range in *. lia. }
  destruct (avail_event_ok q (u16 (a + 1)) aidx s2 Hq2 Haidx2) as (m3 & E3 & Hf3 & Hev).
  exists (VState m3 (v_dev s2) (v_irqs s2) (v_ext s2)). split; [|split; [|split; [done|split]]].
  - cbn [process_loop]. rewrite (bindM_ok _ _ _ _ _ (get_queue_ok _ _ _ Hqa)).
    unfold get_avail_idx. rewrite (bindM_ok _ _ _ _ _ (ld_ok _ _ _ _ Haidx)).
    fold a. rewrite (proj2 (Z.eqb_neq _ _) Hne), (bindM_ok _ _ _ _ _ E). cbn [Z.ltb Z.compare].
    rewrite (bindM_ok _ _ _ _ _ (get_queue_ok _ _ s2 Hqa1)).
    pose proof (same_layout_eq _ _ Hl1) as Heq. rewrite Heq.
    rewrite (bindM_ok _ _ _ _ _ (ld_ok 2 (q_avail q + 2) _ s2 Haidx2)).
    rewrite Hla1. by rewrite (bindM_ok _ _ _ _ _ E3).
  - split.
    + eapply frame_trans; [exact Hf12|]. eapply frame_weaken; [|exact Hf3].
      intros i Hi. unfold written_area. tauto.
    + change (load 2 (q_used q + 2) m3 = Some (u16 (u + 1))). rewrite <- Hnew. eapply load_frame; [exact Hf3|].
      unfold range, used_ring_at. simpl. lia.
    + intros [|j] r l; [|done]. intros [= <-] [= <-]. change (Z.of_nat 0) with 0.
      rewrite Z.add_0_r. cbn [rq_idx req]. rewrite Hh, <- Hid, <- Hlen.
      pose proof (slot_range _ q u Hq).
      split; (eapply load_frame; [exact Hf3|]); unfold range, used_ring_at; simpl; lia.
    + exists q1. done.
    + intros j Hj. apply completed_dev_others; [|done]. by eapply queue_at_nonneg.
    + exists (if due then 1 else 0)%nat. by destruct due.
    + apply completed_dev_irq.
  - eapply frame_trans; (eapply frame_weaken; [|eassumption]); intros i Hi.
    + destruct Hi as [Hi|Hi]; [by eapply entries_used_area|]. unfold used_area, range in *. lia.
    + by apply event_cell_used; [lia|].
  - intros Ha'. specialize (Hdue Ha'). subst due. split.
    + simpl. rewrite length_app. simpl. lia.
    + apply completed_dev_int_status.
    + exists q1. split; [done|]. by apply Hsig1.
    + by apply Hev.
Qed.

(** After a request the queue is where the next one is expected. *)
Lemma at_queue_next qidx q u aidx req len s s1 :
  at_queue qidx q u aidx s -> off_rings q req -> served qidx q u [req] [len] s s1 ->
  exists q1, at_queue qidx q1 (u16 (u + 1)) aidx s1 /\ same_layout q q1 /\
    q_last_avail_idx q1 = u16 (q_last_avail_idx q + 1).
Proof.
  intros [Hqa Hq Hmm Hu Haidx] Hoff [Hf Hu1 _ (q1 & Hqa1 & Hl1 & Hla1) _ _ _].
  exists q1. split; [|done]. pose proof (queue_ok_num _ _ Hq).
  pose proof Hl1 as (_ & _ & Hav & Hus & Hm1 & _). split; try done.
  - eapply queue_ok_layout; [done| |by eapply queue_ok_frame]. rewrite Hla1. apply u16_range.
  - by rewrite Hm1.
  - by rewrite Hus.
  - rewrite Hav, <- Haidx. eapply load_frame; [exact Hf|]. intros i Hi Hw.
    apply (written_off_driver (v_mem s)) in Hw; [|done|by constructor].
    apply Hw. unfold avail_area, range in *. lia.
Qed.

Lemma process_loop_idle fuel qidx q u s :
  at_queue qidx q u (q_last_avail_idx q) s -> process_loop ops (S fuel) qidx s = Ok (tt, s).
Proof.
  intros [Hqa Hq Hmm Hu Haidx]. cbn [process_loop].
  rewrite (bindM_ok _ _ _ _ _ (get_queue_ok _ _ _ Hqa)).
  unfold get_avail_idx. rewrite (bindM_ok _ _ _ _ _ (ld_ok _ _ _ _ Haidx)).
  by rewrite Z.eqb_refl.
Qed.

Lemma at_queue_idx_range qidx q u aidx s :
  at_queue qidx q u aidx s -> 0 <= aidx < 65536 /\ 0 <= q_last_avail_idx q < 65536.
Proof. intros [_ Hq _ _ Ha]. apply load_range in Ha. split; [exact Ha|apply Hq]. Qed.

Lemma signalled_weaken qidx q q1 u' aidx s s1 s' :
  same_layout q q1 -> (length (v_irqs s) <= length (v_irqs s1))%nat ->
  signalled qidx q1 u' aidx s1 s' -> signalled qidx q u' aidx s s'.
Proof.
  intros Hl%same_layout_eq Hle [Hi Hs Hq He]. split; [lia|done|done|].
  rewrite Hl in He. exact He.
Qed.

Lemma process_loop_ok fuel reqs qidx q u aidx s ma m' x' lens :
  at_queue qidx q u aidx s ->
  u16 (aidx - q_last_avail_idx q) = Z.of_nat (length reqs) ->
  Z.of_nat (length reqs) <= q_num q ->
  pending (length reqs) qidx (q_last_avail_idx q) (v_mem s) q = Some reqs ->
  Forall (off_rings q) reqs -> agree_outside (used_area q) ma (v_mem s) ->
  serve_all reqs ma (v_ext s) = Some (m', x', lens) -> (length reqs < fuel)%nat ->
  exists s', process_loop ops fuel qidx s = Ok (tt, s') /\
    served qidx q u reqs lens s s' /\ v_ext s' = x' /\
    agree_outside (used_area q) m' (v_mem s') /\ (reqs = [] -> s' = s) /\
    (reqs <> [] -> signalled qidx q (u16 (u + Z.of_nat (length reqs))) aidx s s').
Proof.
  revert fuel q u s ma lens. induction reqs as [|req reqs IH];
    intros fuel q u s ma lens Haq Hn Hnum Hp HF Hag Hsa Hfuel;
    (destruct fuel as [|fuel]; [simpl in Hfuel; lia|]);
    destruct (at_queue_idx_range _ _ _ _ _ Haq) as [Har Hlr].
  { simpl in Hsa. simplify_eq. simpl in Hn. assert (aidx = q_last_avail_idx q) as -> by
      (unfold u16 in Hn; lia).
    exists s. rewrite (process_loop_idle _ _ _ _ _ Haq). split; [done|].
    split; [destruct Haq; by apply served_nil|]. done. }
  cbn [length pending] in Hp. pose proof (Forall_inv HF) as Hoff.
  apply bind_Some in Hp as (head & Hh & Hp). apply bind_Some in Hp as (bufs & Hc & Hp).
  apply bind_Some in Hp as (reqs' & Hp & Hreq). injection Hreq as Hr ->.
  cbn [serve_all] in Hsa. apply bind_Some in Hsa as ([[m1a x1] len] & Hs & Hsa).
  apply bind_Some in Hsa as ([[m2a x2] lens'] & Hsa & Hlens). simplify_eq.
  edestruct (serve_local (used_area q)) as (m1 & Hs1 & Hag1); [by eapply read_chain_req_ok, Hc|exact Hs|exact Hag|..].
  { intros i Hi Hui. apply (Hoff i Hi). by do 2 right. }
  assert (q_last_avail_idx q <> aidx) as Hne.
  { intros Heq. rewrite Heq, Z.sub_diag in Hn. done. }
  destruct (round_ok fuel qidx q u aidx head bufs m1 x1 len s Haq Hne Hh Hc Hoff Hs1)
    as (s1 & E & Hsv & Hx & Hag2 & Hsig).
  destruct (at_queue_next _ _ _ _ _ _ _ _ Haq Hoff Hsv) as (q1 & Haq1 & Hl1 & Hla1).
  pose proof Haq as [_ Hq _ _ _].
  destruct (IH fuel q1 (u16 (u + 1)) s1 m1a lens') as
    (s' & E' & Hsv' & Hx' & Hag' & Hid & Hsig'); [done|..].
  { rewrite Hla1. simpl length in Hn. unfold u16 in *. lia. }
  { destruct Hl1 as (-> & _). simpl length in Hnum. lia. }
  { rewrite Hla1, (pending_layout _ _ _ _ q q1 Hl1).
    rewrite (pending_frame _ _ _ (v_mem s) (v_mem s1) _ q Hq (sv_frame _ _ _ _ _ _ _ Hsv)); [done|].
    intros i. apply written_off_driver with (v_mem s); [done|by constructor]. }
  { rewrite (same_layout_eq _ _ Hl1). exact (Forall_inv_tail HF). }
  { rewrite (same_layout_eq _ _ Hl1). eapply frame_trans; [exact Hag1|exact Hag2]. }
  { by rewrite Hx. }
  { simpl in Hfuel. lia. }
  exists s'. rewrite E. split; [done|]. split.
  { eapply served_cons; [done|done| |exact Hsv|apply Haq1|exact Hsv'].
    simpl length in Hnum. lia. }
  split; [done|]. split; [rewrite (same_layout_eq _ _ Hl1) in Hag'; exact Hag'|].
  split; [done|]. intros _.
  destruct (decide (reqs = [])) as [->|Hrne].
  - rewrite (Hid eq_refl). apply Hsig. simpl in Hn. unfold u16 in *. lia.
  - apply signalled_weaken with q1 s1; [done|..].
    { destruct (sv_irqs _ _ _ _ _ _ _ Hsv) as [k ->]. rewrite length_app. lia. }
    replace (u16 (u + Z.of_nat (length (_ :: reqs)))) with
      (u16 (u16 (u + 1) + Z.of_nat (length reqs))); [by apply Hsig'|].
    simpl length. unfold u16. rewrite Zplus_mod_idemp_l. f_equal. lia.
Qed.

(** A ready queue of a device class without queue locks goes into the loop. *)
Lemma process_queue_enter fuel qidx q s s' :
  queue_at qidx (v_dev s) = Some q -> q_ready q <> 0 ->
  acquire_queue ops = None -> release_queue ops = None ->
  process_loop ops fuel qidx s = Ok (tt, s') ->
  virtio_process_queue ops fuel qidx s = Ok (tt, s').
Proof.
  intros Hqa Hr Hacq Hrel E. unfold virtio_process_queue.
  rewrite (bindM_ok _ _ _ _ _ (get_queue_ok _ _ _ Hqa)).
  rewrite (proj2 (Z.eqb_neq _ _) Hr), Hacq, Hrel. simpl.
  rewrite (bindM_ok _ _ _ _ _ (eq_refl : retM tt s = Ok (tt, s))).
  by rewrite (bindM_ok _ _ _ _ _ E).
Qed.

End Drain.

(** ** Properties *)

(** C33: a chain of up to 19 descriptors reaches the device class whole; a chain
    of exactly 20 is handed over without its last buffer; a longer one stops
    the process. *)
Theorem process_one_chain_limit {D} (ops : virtio_dev_ops D) qidx q n head bufs (s : vstate D) :
  queue_at qidx (v_dev s) = Some q -> queue_ok (v_mem s) q -> q_max_merge_len q = 0 ->
  load 2 (avail_ring_at q (slot q (q_last_avail_idx q))) (v_mem s) = Some head ->
  read_chain n (v_mem s) q head = Some bufs ->
  let hand b := enqueue ops qidx
    (VirtioReq b (u32 (sum_len b)) qidx (q_last_avail_idx q)) s in
  ((length bufs <= 19)%nat -> virtio_process_one ops qidx s = hand bufs) /\
  (length bufs = 20%nat -> virtio_process_one ops qidx s = hand (take 19 bufs)) /\
  ((20 < length bufs)%nat -> virtio_process_one ops qidx s = Fail Panicked).
Proof.
  intros Hqa Hq Hmm Hh Hc hand.
  pose proof (process_one_chain ops qidx q n head bufs s Hqa Hq Hmm Hh Hc) as E.
  change (Z.to_nat VIRTIO_REQ_MAX_BUFS) with 19%nat in E. rewrite E.
  split_and!; intros Hl.
  - rewrite (proj2 (Nat.leb_le _ _)) by lia. by rewrite take_ge by lia.
  - by rewrite (proj2 (Nat.leb_le _ _)) by lia.
  - by rewrite (proj2 (Nat.leb_gt _ _)) by lia.
Qed.

(** A chain of 20 descriptors of 8 bytes each, at a queue of 32. *)
Module LongChain.

Definition descs : list Z :=
  flat_map (fun k => let k := Z.of_nat k in
    le_bytes 8 (8192 + 16 * k) ++ le_bytes 4 8 ++
    le_bytes 2 (if k <? 19 then 1 else 0) ++ le_bytes 2 (k + 1)) (seq 0 20).

Definition m0 : mem :=
  put_bytes 4096 (descs ++ replicate (12 * 16) 0)
  (put_bytes 5120 (replicate 70 0) (put_bytes 6144 (replicate 262 0) ∅)).

Definition q0 : virtio_queue := VirtioQueue 32 32 1 0 4096 5120 6144 0 0.

Definition s0 : vstate unit :=
  VState m0 (VirtioDev 2 0 0 0 0 0 0 [q0] 0 0 0 1 [] 0 0x80 0) [] tt.

Definition bufs : list iovec :=
  map (fun k => Iovec (8192 + 16 * Z.of_nat k) 8) (seq 0 20).

Lemma chain_q0_ok : queue_ok m0 q0.
Proof.
  split; [exists 5; split; [lia|done]|apply mapped_b_ok; vm_compute; reflexivity..| | |simpl; lia];
    unfold used_area, desc_area, avail_area, range; simpl; lia.
Qed.

End LongChain.

Lemma process_one_chain_limit_witness :
  let sink := VirtioDevOps (fun _ => 0) (fun _ _ => retM 0) None None in
  virtio_process_one sink 0 LongChain.s0 =
    enqueue sink 0 (VirtioReq (take 19 LongChain.bufs) 152 0 0) LongChain.s0.
Proof.
  intros sink.
  refine (proj1 (proj2 (process_one_chain_limit sink 0 LongChain.q0 20 0 LongChain.bufs
    LongChain.s0 _ _ _ _ _)) _).
  - reflexivity.
  - exact LongChain.chain_q0_ok.
  - reflexivity.
  - vm_compute. reflexivity.
  - vm_compute. reflexivity.
  - reflexivity.
Defined.

(** C3: processing a ready queue terminates and serves every pending request in
    order.  The backend and all memory outside the used ring end up as the
    in-order service of the requests leaves them, each request has a used
    entry with its head and its length, the indices are advanced past all of
    them, only the buffers and the used ring were written, and if there was any
    request the driver was interrupted and will be notified of the next one. *)
Theorem process_queue_drains {D} (ops : virtio_dev_ops D) `{!Serves ops}
  fuel qidx q u aidx reqs m' x' lens (s : vstate D) :
  at_queue qidx q u aidx s -> q_ready q <> 0 ->
  acquire_queue ops = None -> release_queue ops = None ->
  u16 (aidx - q_last_avail_idx q) = Z.of_nat (length reqs) ->
  Z.of_nat (length reqs) <= q_num q ->
  pending (length reqs) qidx (q_last_avail_idx q) (v_mem s) q = Some reqs ->
  Forall (off_rings q) reqs ->
  serve_all reqs (v_mem s) (v_ext s) = Some (m', x', lens) ->
  (length reqs < fuel)%nat ->
  exists s', virtio_process_queue ops fuel qidx s = Ok (tt, s') /\
    served qidx q u reqs lens s s' /\ v_ext s' = x' /\
    agree_outside (used_area q) m' (v_mem s') /\
    (reqs <> [] -> signalled qidx q (u16 (u + Z.of_nat (length reqs))) aidx s s').
Proof.
  intros Haq Hr Hacq Hrel Hn Hnum Hp HF Hsa Hfuel.
  destruct (process_loop_ok ops fuel reqs qidx q u aidx s (v_mem s) m' x' lens)
    as (s' & E & Hsv & Hx & Hag & _ & Hsig); [done..|].
  exists s'. split; [|done]. eapply process_queue_enter; [apply Haq|done..].
Qed.
