(* ===== verification/VirtioBlk.v ===== *)
(** * VirtioBlk

    tools/lkl/lib/virtio_blk.c: the block device class.  [blk_enqueue] decodes
    a virtio-blk request, hands it to the disk's operations and completes it.
    The disk's operations ([lkl_dev_blk_ops]) are an interface: the host's file
    (posix-host.c) and the callbacks of the node module (disk.cc) implement it.
    Any backend with [BlkBackend] makes the class a [Serves] instance. *)

From S2P Require Import Prelude Memory Virtio VirtioRing VirtioQueue.

(** ** Interface of a disk (lkl_host.h) *)

Definition LKL_DEV_BLK_TYPE_READ : Z := 0.
Definition LKL_DEV_BLK_TYPE_WRITE : Z := 1.
Definition LKL_DEV_BLK_TYPE_FLUSH : Z := 4.
Definition LKL_DEV_BLK_TYPE_FLUSH_OUT : Z := 5.
Definition LKL_DEV_BLK_STATUS_OK : Z := 0.
Definition LKL_DEV_BLK_STATUS_IOERR : Z := 1.
Definition LKL_DEV_BLK_STATUS_UNSUP : Z := 2.

(** struct lkl_blk_req; [count] is the length of [br_buf]. *)
Record lkl_blk_req := LklBlkReq {
  br_type : Z;
  br_prio : Z;
  br_sector : Z;
  br_buf : list iovec;
}.

(** struct lkl_dev_blk_ops over a backend state [D].  [get_capacity] returns
    its code and what it stored in [*res], if it did; [None] is a call that does
    not come back, because it touches memory that is not mapped or because
    nobody answers it. *)
Record lkl_dev_blk_ops (D : Type) := LklDevBlkOps {
  get_capacity : D -> option (D * Z * option Z);
  request : lkl_blk_req -> mem -> D -> option (mem * D * Z);
}.
Arguments LklDevBlkOps {D} _ _.
Arguments get_capacity {D} _ _.
Arguments request {D} _ _ _ _.

(** What the device class relies on: a request writes only its own buffers,
    and depends on no other memory. *)
Class BlkBackend {D : Type} (ops : lkl_dev_blk_ops D) := {
  request_frame : forall r m x m' x' st,
    Forall (fun b => 0 < iov_len b) (br_buf r) ->
    request ops r m x = Some (m', x', st) -> frame (bufs_area (br_buf r)) m m';
  request_local : forall P r m1 m2 x m1' x' st,
    Forall (fun b => 0 < iov_len b) (br_buf r) ->
    request ops r m1 x = Some (m1', x', st) ->
    agree_outside P m1 m2 -> (forall i, bufs_area (br_buf r) i -> ~ P i) ->
    exists m2', request ops r m2 x = Some (m2', x', st) /\ agree_outside P m1' m2';
}.

(** ** The device class *)

Section Blk.
Context {D : Type} {T : Trigger D} (disk : lkl_dev_blk_ops D).

Definition blk_check_features (d : virtio_dev) : Z :=
  if d_driver_features d =? d_device_features d then 0 else - EINVAL.

(** The call through [blk_dev->ops->request]. *)
Definition call_request (r : lkl_blk_req) : M (vstate D) Z :=
  fun s => match request disk r (v_mem s) (v_ext s) with
           | Some (m, x, st) => Ok (st, VState m (v_dev s) (v_irqs s) x)
           | None => Fail Segv
           end.

(** struct lkl_virtio_blk_outhdr: type at 0, ioprio at 4, sector at 8. *)
Definition blk_enqueue (q : Z) (req : virtio_req) : M (vstate D) Z :=
  let buf_count := length (rq_buf req) in
  (if (buf_count <? 3)%nat then retM tt
   else
     let* b0 := someM (rq_buf req !! 0%nat) in
     let* bt := someM (rq_buf req !! (buf_count - 1)%nat) in
     let h := iov_base b0 in
     let t := iov_base bt in
     st 1 t LKL_DEV_BLK_STATUS_IOERR ;;;
     if negb (iov_len b0 =? 16) then retM tt
     else if negb (iov_len bt =? 1) then retM tt
     else
       let* type := ld 4 h in
       let* prio := ld 4 (h + 4) in
       let* sector := ld 8 (h + 8) in
       let* status := call_request (LklBlkReq type prio (u32 sector)
                        (take (buf_count - 2) (drop 1 (rq_buf req)))) in
       st 1 t (u8 status)) ;;;
  virtio_req_complete req 0 ;;;
  retM 0.

Definition blk_ops : virtio_dev_ops D := VirtioDevOps blk_check_features blk_enqueue None None.

(** ** The class's contract *)

(** The effect of a request without its completion. *)
Definition blk_serve (req : virtio_req) (m : mem) (x : D) : option (mem * D * Z) :=
  let n := length (rq_buf req) in
  if (n <? 3)%nat then Some (m, x, 0)
  else
    b0 ← rq_buf req !! 0%nat;
    bt ← rq_buf req !! (n - 1)%nat;
    m ← store 1 (iov_base bt) LKL_DEV_BLK_STATUS_IOERR m;
    if negb (iov_len b0 =? 16) || negb (iov_len bt =? 1) then Some (m, x, 0)
    else
      type ← load 4 (iov_base b0) m;
      prio ← load 4 (iov_base b0 + 4) m;
      sector ← load 8 (iov_base b0 + 8) m;
      '(m, x, st) ← request disk (LklBlkReq type prio (u32 sector)
                       (take (n - 2) (drop 1 (rq_buf req)))) m x;
      m ← store 1 (iov_base bt) (u8 st) m;
      Some (m, x, 0).

Lemma blk_enqueue_serve qidx req s m x len :
  blk_serve req (v_mem s) (v_ext s) = Some (m, x, len) ->
  blk_enqueue qidx req s =
    (virtio_req_complete req len ;;; retM 0) (VState m (v_dev s) (v_irqs s) x).
Proof.
  unfold blk_serve, blk_enqueue. destruct (_ <? _)%nat.
  { intros [= <- <- <-]. by destruct s. }
  intros H. apply bind_Some in H as (b0 & H0 & H). apply bind_Some in H as (bt & Ht & H).
  apply bind_Some in H as (m1 & Hm1 & H).
  set (c := (let* b0 := someM (rq_buf req !! 0%nat) in _)).
  assert (len = 0 /\ c s = Ok (tt, VState m (v_dev s) (v_irqs s) x)) as [-> E].
  { subst c. unfold someM, bindM. rewrite H0, Ht. unfold st at 1. rewrite Hm1.
    destruct (negb (iov_len b0 =? 16)); simpl in H; [by simplify_eq|].
    destruct (negb (iov_len bt =? 1)); [by simplify_eq|].
    apply bind_Some in H as (ty & Hty & H). apply bind_Some in H as (pr & Hpr & H).
    apply bind_Some in H as (se & Hse & H). apply bind_Some in H as ([[m2 x2] stt] & Hrq & H).
    apply bind_Some in H as (m3 & Hm3 & H). simplify_eq.
    unfold ld. simpl. rewrite Hty. simpl. rewrite Hpr. simpl. rewrite Hse.
    unfold call_request. simpl. rewrite Hrq. unfold st. simpl. by rewrite Hm3. }
  by rewrite (bindM_ok _ _ _ _ _ E).
Qed.

Lemma blk_buf_in (req : virtio_req) k b : rq_buf req !! k = Some b ->
  forall i, range (iov_base b) (iov_len b) i -> bufs_area (rq_buf req) i.
Proof. intros Hb i Hi. exists b. split; [by eapply list_elem_of_lookup_2|done]. Qed.

Lemma blk_data_sub (bufs : list iovec) n i :
  bufs_area (take n (drop 1 bufs)) i -> bufs_area bufs i.
Proof.
  intros (b & Hb & Hi). exists b. split; [|done].
  apply elem_of_take in Hb as (k & Hb & _). rewrite lookup_drop in Hb.
  by eapply list_elem_of_lookup_2.
Qed.

Context `{!BlkBackend disk}.

Lemma blk_data_ok req n : req_ok req ->
  Forall (fun b => 0 < iov_len b) (take n (drop 1 (rq_buf req))).
Proof. intros H. by apply Forall_take, Forall_drop. Qed.

Lemma blk_serve_frame req m x m' x' len :
  req_ok req -> blk_serve req m x = Some (m', x', len) -> frame (bufs_area (rq_buf req)) m m'.
Proof.
  unfold blk_serve. intros Hok. destruct (_ <? _)%nat; [by intros [= <- <- <-]|].
  intros H. apply bind_Some in H as (b0 & H0 & H). apply bind_Some in H as (bt & Ht & H).
  apply bind_Some in H as (m1 & Hm1 & H).
  assert (forall i, range (iov_base bt) 1 i -> bufs_area (rq_buf req) i) as Hbt.
  { intros i Hi. eapply blk_buf_in; [exact Ht|]. apply (Forall_lookup_1 _ _ _ _ Hok) in Ht.
    unfold range in *. lia. }
  assert (frame (bufs_area (rq_buf req)) m m1) as Hf1.
  { eapply frame_weaken; [|by eapply store_frame]. done. }
  destruct (_ || _); [by simplify_eq|].
  apply bind_Some in H as (ty & _ & H). apply bind_Some in H as (pr & _ & H).
  apply bind_Some in H as (se & _ & H). apply bind_Some in H as ([[m2 x2] stt] & Hrq & H).
  apply bind_Some in H as (m3 & Hm3 & H). simplify_eq.
  eapply frame_trans; [exact Hf1|]. eapply frame_trans.
  - eapply frame_weaken; [|eapply request_frame; [|exact Hrq]; by apply blk_data_ok].
    intros i. apply blk_data_sub.
  - eapply frame_weaken; [|by eapply store_frame]. done.
Qed.

Lemma blk_serve_local P req m1 m2 x m1' x' len :
  req_ok req -> blk_serve req m1 x = Some (m1', x', len) ->
  agree_outside P m1 m2 -> (forall i, bufs_area (rq_buf req) i -> ~ P i) ->
  exists m2', blk_serve req m2 x = Some (m2', x', len) /\ agree_outside P m1' m2'.
Proof.
  unfold blk_serve. intros Hok H Hag HP. destruct (_ <? _)%nat.
  { simplify_eq. eauto. }
  apply bind_Some in H as (b0 & H0 & H). apply bind_Some in H as (bt & Ht & H).
  apply bind_Some in H as (n1 & Hm1 & H). rewrite H0, Ht. simpl.
  destruct (store_local P _ _ _ _ m2 _ Hm1 Hag) as (n2 & -> & Hag1). simpl.
  destruct (_ || _) eqn:Hlen; [simplify_eq; eauto|].
  apply orb_false_iff in Hlen as [Hl0 _]. apply negb_false_iff, Z.eqb_eq in Hl0.
  apply bind_Some in H as (ty & Hty & H). apply bind_Some in H as (pr & Hpr & H).
  apply bind_Some in H as (se & Hse & H). apply bind_Some in H as ([[k1 x2] stt] & Hrq & H).
  apply bind_Some in H as (k1' & Hk1 & H). simplify_eq.
  assert (forall k o, 0 <= o -> o + Z.of_nat k <= 16 ->
    load k (iov_base b0 + o) n2 = load k (iov_base b0 + o) n1) as Hld.
  { intros k o Ho Hk. eapply load_frame; [done|]. intros i Hi. apply HP.
    eapply blk_buf_in; [exact H0|]. unfold range in *. lia. }
  pose proof (Hld 4%nat 0 ltac:(lia) ltac:(lia)) as Hld0. rewrite Z.add_0_r in Hld0.
  rewrite Hld0, Hty, (Hld 4%nat 4), (Hld 8%nat 8), Hpr, Hse by lia. simpl.
  edestruct (request_local P) as (k2 & -> & Hag2); [|exact Hrq|exact Hag1|..].
  { by apply blk_data_ok. }
  { intros i Hi. by eapply HP, blk_data_sub. }
  simpl. destruct (store_local P _ _ _ _ k2 _ Hk1 Hag2) as (k2' & -> & Hag3). simpl. eauto.
Qed.

Lemma blk_serve_len req m x m' x' len :
  blk_serve req m x = Some (m', x', len) -> 0 <= len < 65536.
Proof.
  unfold blk_serve. destruct (_ <? _)%nat; [intros; simplify_eq; lia|].
  intros H. do 3 apply bind_Some in H as (? & _ & H).
  destruct (_ || _); [simplify_eq; lia|].
  do 3 apply bind_Some in H as (? & _ & H). apply bind_Some in H as ([[? ?] ?] & _ & H).
  apply bind_Some in H as (? & _ & H). simplify_eq. lia.
Qed.

#[export] Instance blk_serves : Serves blk_ops :=
  Build_Serves D T blk_ops blk_serve blk_enqueue_serve blk_serve_len blk_serve_frame blk_serve_local.

End Blk.
