(* ===== verification/VirtioType.v ===== *)
(** * VirtioType

    The typing of a device: every field of struct virtio_dev and of its queues
    stays in the range of its C type, the configuration keeps its length, and
    what the guest may not change never changes, under any sequence of register
    accesses, notifications included. *)

From S2P Require Import Prelude Memory Virtio VirtioRing VirtioQueue VirtioBlk.

Definition fits (bits z : Z) : Prop := 0 <= z < 2 ^ bits.

(** struct virtio_queue of virtio.c. *)
Record queue_typed (q : virtio_queue) : Prop := {
  qt_num_max : fits 32 (q_num_max q);
  qt_num : fits 32 (q_num q);
  qt_ready : fits 32 (q_ready q);
  qt_max_merge_len : fits 32 (q_max_merge_len q);
  qt_desc : fits 64 (q_desc q);
  qt_avail : fits 64 (q_avail q);
  qt_used : fits 64 (q_used q);
  qt_last_avail_idx : fits 16 (q_last_avail_idx q);
  qt_last_used_idx_signaled : fits 16 (q_last_used_idx_signaled q)
}.

(** struct virtio_dev of virtio.h. *)
Record dev_typed (d : virtio_dev) : Prop := {
  dt_device_id : fits 32 (d_device_id d);
  dt_vendor_id : fits 32 (d_vendor_id d);
  dt_device_features : fits 64 (d_device_features d);
  dt_device_features_sel : 0 <= d_device_features_sel d <= 1;
  dt_driver_features : fits 64 (d_driver_features d);
  dt_driver_features_sel : 0 <= d_driver_features_sel d <= 1;
  dt_queue_sel : fits 32 (d_queue_sel d);
  dt_queue : Forall queue_typed (d_queue d);
  dt_int_status : fits 32 (d_int_status d);
  dt_status : fits 32 (d_status d);
  dt_config_gen : fits 32 (d_config_gen d);
  dt_config_data : Forall is_byte (d_config_data d);
  dt_config_len : Z.of_nat (length (d_config_data d)) = d_config_len d
}.

(** What the registers cannot change. *)
Definition same_queue (q q' : virtio_queue) : Prop :=
  q_num_max q' = q_num_max q /\ q_max_merge_len q' = q_max_merge_len q.

Record same_dev (d d' : virtio_dev) : Prop := {
  sd_device_id : d_device_id d' = d_device_id d;
  sd_vendor_id : d_vendor_id d' = d_vendor_id d;
  sd_device_features : d_device_features d' = d_device_features d;
  sd_config_gen : d_config_gen d' = d_config_gen d;
  sd_irq : d_irq d' = d_irq d;
  sd_config_len : d_config_len d' = d_config_len d;
  sd_base : d_base d' = d_base d;
  sd_virtio_mmio_id : d_virtio_mmio_id d' = d_virtio_mmio_id d;
  sd_queue : Forall2 same_queue (d_queue d) (d_queue d')
}.

#[export] Instance same_queue_preorder : PreOrder same_queue.
Proof. split; [done|]. intros q1 q2 q3 [H1 H2] [H3 H4]. split; congruence. Qed.

Lemma same_dev_refl d : same_dev d d.
Proof. by constructor. Qed.

Lemma same_dev_trans d1 d2 d3 : same_dev d1 d2 -> same_dev d2 d3 -> same_dev d1 d3.
Proof. intros [] []. constructor; [congruence..|]. by etransitivity. Qed.

(** ** Operations that keep the typing *)

Section Keep.
Context {D : Type}.
Abbreviation VM := (M (vstate D)).

(** From a typed device, a run that returns leaves a typed device with the same
    fixed fields, and an answer that satisfies [Q]. *)
Definition types {A} (c : VM A) (Q : A -> Prop) : Prop :=
  forall s a s', dev_typed (v_dev s) -> c s = Ok (a, s') ->
    dev_typed (v_dev s') /\ same_dev (v_dev s) (v_dev s') /\ Q a.

Lemma types_bind {A B} (c : VM A) (k : A -> VM B) Q Q' :
  types c Q -> (forall a, Q a -> types (k a) Q') -> types (bindM c k) Q'.
Proof.
  intros Hc Hk s b s2 Ht (a & s1 & E1 & E2)%bindM_inv.
  destruct (Hc _ _ _ Ht E1) as (Ht1 & Hs1 & HQ). destruct (Hk _ HQ _ _ _ Ht1 E2) as (Ht2 & Hs2 & HQ').
  split_and!; [done|by eapply same_dev_trans|done].
Qed.

Lemma types_weaken {A} (c : VM A) (Q Q' : A -> Prop) : types c Q -> (forall a, Q a -> Q' a) -> types c Q'.
Proof. intros H HQ s a s' Ht E. destruct (H _ _ _ Ht E) as (?&?&?). auto. Qed.

(** A command that leaves the device as it is. *)
Lemma types_same {A} (c : VM A) (Q : A -> Prop) :
  (forall s a s', c s = Ok (a, s') -> v_dev s' = v_dev s /\ Q a) -> types c Q.
Proof.
  intros H s a s' Ht E. destruct (H _ _ _ E) as [-> HQ]. split_and!; [done|apply same_dev_refl|done].
Qed.

Lemma types_ret {A} (a : A) (Q : A -> Prop) : Q a -> types (retM a) Q.
Proof. intros HQ. apply types_same. by intros s a' s' [= <- <-]. Qed.

Lemma types_fail {A} e (Q : A -> Prop) : types (failM e) Q.
Proof. by intros s a s'. Qed.

Lemma types_ld n a : types (ld n a) (fits (8 * Z.of_nat n)).
Proof.
  apply types_same. intros s v s'. unfold ld. destruct (load n a (v_mem s)) eqn:E; [|done].
  intros [= <- <-]. split; [done|]. apply load_range in E. unfold fits.
  by rewrite Z.pow_mul_r by lia.
Qed.

Lemma types_st n a v : types (st n a v) (fun _ => True).
Proof.
  apply types_same. intros s x s'. unfold st. destruct (store n a v (v_mem s)); [|done].
  by intros [= _ <-].
Qed.

Lemma types_mod_dev f :
  (forall d, dev_typed d -> dev_typed (f d) /\ same_dev d (f d)) -> types (mod_dev f) (fun _ => True).
Proof. intros H s x s' Ht [= _ <-]. cbn [v_dev]. by destruct (H _ Ht). Qed.

Lemma types_get_queue i : types (get_queue i) queue_typed.
Proof.
  intros s q s' Ht. unfold get_queue, queue_at. destruct (i <? 0); [done|].
  destruct (_ !! _) eqn:E; [|done]. intros [= <- <-]. split_and!; [done|apply same_dev_refl|].
  eapply Forall_lookup_1; [apply (dt_queue _ Ht)|exact E].
Qed.

Lemma types_mod_queue i f :
  (forall q, queue_typed q -> queue_typed (f q) /\ same_queue q (f q)) -> types (mod_queue i f) (fun _ => True).
Proof.
  intros Hf. unfold mod_queue. eapply types_bind; [apply types_get_queue|]. intros _ _.
  apply types_mod_dev. intros d Ht. unfold upd_queue. split.
  - destruct Ht. constructor; cbn; try done. apply Forall_alter; [done|]. intros q Hq Hl. by apply Hf.
  - constructor; try done. cbn [d_queue with_queues]. destruct Ht as [? ? ? ? ? ? ? Hqs]. clear -Hqs Hf.
    generalize (Z.to_nat i).
    induction Hqs as [|q qs Hq Hqs IH]; intros [|n].
    + constructor.
    + constructor.
    + constructor; [by apply Hf|done].
    + constructor; [done|apply IH].
Qed.

(** *** Completion *)

Lemma fits_u16 z : fits 16 (u16 z).
Proof. unfold fits. apply u16_range. Qed.

Lemma fits_u32 z : fits 32 (u32 z).
Proof. unfold fits. apply u32_range. Qed.

Lemma fits_u64 z : fits 64 (u64 z).
Proof. unfold fits. apply u64_range. Qed.

Lemma fits_lor n a b : 0 <= n -> fits n a -> fits n b -> fits n (Z.lor a b).
Proof.
  unfold fits. intros Hn Ha Hb. split; [apply Z.lor_nonneg; lia|by apply lor_lt_pow2].
Qed.

Lemma fits_land n a b : 0 <= n -> fits n b -> fits n (Z.land a b).
Proof.
  unfold fits. intros Hn Hb. rewrite <- (Z.mod_small b (2 ^ n)), <- Z.land_ones by lia.
  rewrite Z.land_assoc, Z.land_ones by lia. apply Z.mod_pos_bound. lia.
Qed.

Lemma types_complete_loop q bufs used_idx avail_idx len :
  fits 16 used_idx -> fits 16 avail_idx ->
  types (complete_loop q bufs used_idx avail_idx len) (fun '(u, a) => fits 16 u /\ fits 16 a).
Proof.
  revert used_idx avail_idx len. induction bufs as [|b bufs IH]; intros u a len Hu Ha; cbn [complete_loop].
  { by apply types_ret. }
  eapply types_bind.
  { unfold virtio_add_used. eapply types_bind; [apply types_ld|]. intros. cbv zeta.
    eapply types_bind; [apply types_st|]. intros. apply types_st. }
  intros _ _. cbv zeta. case_match; [by apply types_ret; split; apply fits_u16|].
  apply IH; apply fits_u16.
Qed.

Lemma types_deliver_irq : types virtio_deliver_irq (fun _ => True).
Proof.
  unfold virtio_deliver_irq. eapply types_bind.
  - apply types_mod_dev. intros d Ht. split; [|by constructor]. destruct Ht. constructor; try done.
    cbn [d_int_status with_int_status]. apply fits_lor; [lia|done|]. unfold fits, VIRTIO_MMIO_INT_VRING. lia.
  - intros _ _. apply types_same. by intros s a s' [= _ <-].
Qed.

Lemma types_req_complete req len : fits 16 (rq_idx req) -> types (virtio_req_complete req len) (fun _ => True).
Proof.
  intros Hi. unfold virtio_req_complete. eapply types_bind; [apply types_get_queue|]. intros q Hq.
  eapply types_bind; [apply types_ld|]. intros u Hu.
  eapply types_bind; [by apply types_complete_loop|]. intros [u' a'] [Hu' Ha'].
  eapply types_bind; [apply types_st|]. intros _ _.
  eapply types_bind.
  { apply types_mod_queue. intros q' Hq'. split; [|by split]. by destruct Hq'. }
  intros _ _. eapply types_bind; [apply types_ld|]. intros aidx _. cbv zeta.
  eapply (types_bind _ _ (fun _ => True)).
  { case_match; [by apply types_ret|]. do 2 (eapply types_bind; [apply types_ld|]; intros). by apply types_ret. }
  intros need _. destruct need; [|by apply types_ret].
  eapply types_bind; [apply types_ld|]. intros new Hnew. eapply types_bind; [|intros; apply types_deliver_irq].
  apply types_mod_queue. intros q' Hq'. split; [|by split]. by destruct Hq'.
Qed.

(** *** Processing *)

Lemma types_gather fuel q req desc idx :
  queue_typed q -> types (gather fuel q req desc idx) (fun '(req', _) => rq_idx req' = rq_idx req).
Proof.
  intros Hq. revert req desc idx. induction fuel as [|fuel IH]; intros req desc idx; cbn [gather];
    [apply types_fail|].
  eapply (types_bind _ _ (fun req' => rq_idx req' = rq_idx req)).
  { unfold add_dev_buf_from_vring_desc. do 2 (eapply types_bind; [apply types_ld|]; intros).
    case_match; [apply types_fail|by apply types_ret]. }
  intros req' Hreq. case_match; [by apply types_ret|].
  eapply (types_bind _ _ (fun _ => True)).
  { unfold get_next_desc. repeat first
      [ case_match | by apply types_ret | eapply types_bind; [apply types_ld|]; intros; cbv zeta ]. }
  intros [next idx'] _. destruct next as [desc'|]; [|by apply types_ret].
  case_match; [|by apply types_ret]. eapply types_weaken; [apply IH|]. intros [r o]. congruence.
Qed.

Context (ops : virtio_dev_ops D).

(** What the device class has to keep: requests with an index of the ring. *)
Hypothesis enqueue_types : forall q req, fits 16 (rq_idx req) -> types (enqueue ops q req) (fun _ => True).
Hypothesis acquire_types : forall f, acquire_queue ops = Some f -> forall q, types (f q) (fun _ => True).
Hypothesis release_types : forall f, release_queue ops = Some f -> forall q, types (f q) (fun _ => True).

Lemma types_process_one qidx : types (virtio_process_one ops qidx) (fun _ => True).
Proof.
  unfold virtio_process_one. eapply types_bind; [apply types_get_queue|]. intros q Hq. cbv zeta.
  eapply (types_bind _ _ (fun _ => True)).
  { unfold vring_desc_at_avail_idx. eapply types_bind; [apply types_ld|]. intros. by apply types_ret. }
  intros desc _. eapply types_bind; [by apply types_gather|]. intros [req d] Hreq. cbn [rq_idx] in Hreq.
  eapply (types_bind _ _ (fun _ => True)).
  { destruct d; [|by apply types_ret]. eapply types_bind; [apply types_ld|]. intros. by apply types_ret. }
  intros chained _. destruct chained; [apply types_fail|]. apply enqueue_types. rewrite Hreq. apply Hq.
Qed.

Lemma types_process_loop fuel qidx : types (process_loop ops fuel qidx) (fun _ => True).
Proof.
  induction fuel as [|fuel IH]; cbn [process_loop]; [apply types_fail|].
  eapply types_bind; [apply types_get_queue|]. intros q Hq.
  eapply types_bind; [apply types_ld|]. intros aidx _. case_match; [by apply types_ret|].
  eapply types_bind; [apply types_process_one|]. intros r _. case_match; [by apply types_ret|].
  eapply types_bind; [apply types_get_queue|]. intros q' Hq'.
  eapply types_bind; [apply types_ld|]. intros aidx' _. eapply types_bind; [|intros; apply IH].
  case_match; [apply types_st|by apply types_ret].
Qed.

Lemma types_process_queue fuel qidx : types (virtio_process_queue ops fuel qidx) (fun _ => True).
Proof.
  unfold virtio_process_queue. eapply types_bind; [apply types_get_queue|]. intros q Hq.
  case_match; [by apply types_ret|]. unfold opt_call.
  eapply (types_bind _ _ (fun _ => True)).
  { destruct (acquire_queue ops) eqn:E; [by eapply acquire_types|by apply types_ret]. }
  intros _ _. eapply types_bind; [apply types_process_loop|]. intros _ _.
  destruct (release_queue ops) eqn:E; [by eapply release_types|by apply types_ret].
Qed.

(** *** Registers *)

Lemma types_get_dev : types get_dev dev_typed.
Proof. intros s d s' Ht [= <- <-]. split_and!; [done|apply same_dev_refl|done]. Qed.

(** A successful read fills the buffer of the caller with bytes. *)
Definition fills (size : Z) (answer : Z * list Z) : Prop :=
  fst answer = 0 -> Z.of_nat (length (snd answer)) = size /\ Forall is_byte (snd answer).

Lemma le_bytes_is_byte n v : Forall is_byte (le_bytes n v).
Proof. revert v. induction n; intros v; constructor; [apply u8_range|done]. Qed.

Lemma types_read offset size : 0 <= size -> types (virtio_read offset size) (fills size).
Proof.
  intros Hsz. unfold virtio_read. eapply types_bind; [apply types_get_dev|]. intros d Hd.
  destruct (Z.leb_spec VIRTIO_MMIO_CONFIG offset) as [Hoff|Hoff].
  - cbv zeta. destruct (Z.ltb_spec (d_config_len d) (offset - VIRTIO_MMIO_CONFIG + size)); apply types_ret; [done|].
    intros _. cbn [snd]. pose proof (dt_config_len _ Hd). split.
    + rewrite length_take, length_drop. lia.
    + apply Forall_take, Forall_drop, (dt_config_data _ Hd).
  - destruct (Z.eqb_spec size 4) as [->|]; cbn [negb]; [|by apply types_ret].
    assert (forall v, fills 4 (0, le_bytes 4 v)) as Hw.
    { intros v _. split; [done|apply le_bytes_is_byte]. }
    cbv zeta. repeat first [ case_match | by apply types_ret
      | eapply types_bind; [apply types_get_queue|]; intros q Hq; by apply types_ret ].
Qed.

Lemma le_value_fits bs : fits (8 * Z.of_nat (length bs)) (le_value bs).
Proof.
  unfold fits. induction bs as [|b bs IH]; cbn [le_value length]; [done|].
  pose proof (u8_range b). rewrite Nat2Z.inj_succ, Z.mul_succ_r, Z.pow_add_r by lia.
  change (2 ^ 8) with 256. lia.
Qed.

Lemma fits_ptr_low p v : fits 64 p -> fits 32 v -> fits 64 (set_ptr_low p v).
Proof.
  intros Hp Hv. apply fits_lor; [lia| |unfold fits in *; lia]. apply fits_land; [lia|]. unfold fits. lia.
Qed.

Lemma fits_ptr_high p v : fits 64 p -> fits 64 (set_ptr_high p v).
Proof.
  intros Hp. apply fits_lor; [lia| |apply fits_u64]. apply fits_land; [lia|]. unfold fits. lia.
Qed.

Lemma types_driver_features d v :
  dev_typed d -> fits 32 v -> dev_typed (virtio_write_driver_features d v) /\
  same_dev d (virtio_write_driver_features d v).
Proof.
  intros Ht Hv. unfold virtio_write_driver_features. case_match; (split; [|by constructor]);
    destruct Ht; constructor; try done; cbn [d_driver_features with_driver_features].
  - apply (fits_ptr_high (d_driver_features d) v). done.
  - by apply (fits_ptr_low (d_driver_features d) v).
Qed.

Lemma types_set_status v d :
  dev_typed d -> fits 32 v -> dev_typed (set_status ops v d) /\ same_dev d (set_status ops v d).
Proof.
  intros Ht Hv. unfold set_status. split; [|by constructor]. destruct Ht. constructor; try done.
  cbn [d_status with_status]. case_match; [|done]. rewrite Z.ldiff_land, Z.land_comm. by apply fits_land.
Qed.

Lemma write_at_length off src dst :
  0 <= off -> off + Z.of_nat (length src) <= Z.of_nat (length dst) -> length (write_at off src dst) = length dst.
Proof.
  intros H1 H2. unfold write_at. rewrite !length_app, length_take, length_drop. lia.
Qed.

(** A write to one field. *)
Ltac one_field H := split; [destruct H; constructor; cbn; try done; by auto|by constructor].

Lemma types_write fuel offset buf :
  Forall is_byte buf -> types (virtio_write ops fuel offset buf (Z.of_nat (length buf))) (fun _ => True).
Proof.
  intros Hbuf s r s' Ht. unfold virtio_write. unfold bindM at 1, get_dev.
  destruct (Z.leb_spec VIRTIO_MMIO_CONFIG offset) as [Hoff|Hoff].
  { cbv zeta. case_match; [by apply (types_ret (- EINVAL) (fun _ => True))|].
    rewrite Nat2Z.id, firstn_all. intros [= _ <-]. cbn [v_dev]. split_and!; [|by constructor|done].
    pose proof (dt_config_len _ Ht). apply Z.leb_gt in H. destruct Ht. constructor; try done; cbn.
    - unfold write_at. rewrite !Forall_app. split_and!; [by apply Forall_take|done|by apply Forall_drop].
    - rewrite write_at_length by lia. done. }
  match goal with |- ?c s = _ -> _ => enough (types c (fun _ => True)) as H by (intros E; exact (H _ _ _ Ht E)) end.
  destruct (Z.eqb_spec (Z.of_nat (length buf)) 4) as [Hl|]; cbn [negb]; [|by apply types_ret].
  rewrite (firstn_all2 buf) by lia. pose proof (le_value_fits buf) as Hv. rewrite Hl in Hv.
  change (8 * 4) with 32 in Hv. set (v := le_value buf) in *. cbv zeta.
  assert (forall f, (forall q, queue_typed q -> queue_typed (f q) /\ same_queue q (f q)) ->
    types (mod_queue (D := D) (d_queue_sel (v_dev s)) f ;;; retM 0) (fun _ => True)) as onq.
  { intros f Hf. eapply types_bind; [by apply types_mod_queue|]. intros. by apply types_ret. }
  assert (forall f, (forall d, dev_typed d -> dev_typed (f d) /\ same_dev d (f d)) ->
    types (mod_dev (D := D) f ;;; retM 0) (fun _ => True)) as ond.
  { intros f Hf. eapply types_bind; [by apply types_mod_dev|]. intros. by apply types_ret. }
  pose proof (fits_ptr_low) as Hlow. pose proof fits_ptr_high as Hhigh.
  assert ((1 <? v) = false -> 0 <= v <= 1) as Hsel by (unfold fits in Hv; lia).
  assert (fits 32 0) as H0 by done.
  repeat (case_match;
    [first [ by apply types_ret
           | apply ond; intros d Hd; first [by apply types_driver_features | by apply types_set_status | one_field Hd]
           | apply onq; intros q Hq; one_field Hq
           | eapply types_bind; [apply types_process_queue|]; intros; by apply types_ret
           | case_match; [by apply types_ret|]; apply ond; intros d Hd; one_field Hd ] | ]).
  by apply types_ret.
Qed.

End Keep.

(** ** The block device under any sequence of accesses *)

Section Device.
Context {D : Type} (disk : lkl_dev_blk_ops D) (fuel : nat).

Lemma types_blk_enqueue q req : fits 16 (rq_idx req) -> types (blk_enqueue disk q req) (fun _ => True).
Proof.
  intros Hi. unfold blk_enqueue. cbv zeta. eapply (types_bind _ _ (fun _ => True)).
  - case_match; [by apply types_ret|].
    assert (forall o : option iovec, types (D := D) (someM o) (fun _ => True)) as Hsome.
    { intros [b|]; [by apply types_ret|apply types_fail]. }
    do 2 (eapply types_bind; [apply Hsome|]; intros).
    eapply types_bind; [apply types_st|]. intros. do 2 (case_match; [by apply types_ret|]).
    do 3 (eapply types_bind; [apply types_ld|]; intros). eapply (types_bind _ _ (fun _ => True)).
    + apply types_same. intros s st s'. unfold call_request.
      destruct (request disk _ _ _) as [[[m x] st']|]; [|done]. by intros [= _ <-].
    + intros. apply types_st.
  - intros. eapply types_bind; [by apply types_req_complete|]. intros. by apply types_ret.
Qed.

(** An access of the guest to the registers, as the I/O memory layer makes it. *)
Inductive access := RegRead (offset size : Z) | RegWrite (offset : Z) (buf : list Z).

Definition access_ok (a : access) : Prop :=
  match a with RegRead _ size => 0 <= size | RegWrite _ buf => Forall is_byte buf end.

Definition run_access (a : access) : M (vstate D) (Z * list Z) :=
  match a with
  | RegRead offset size => virtio_read offset size
  | RegWrite offset buf =>
      let* r := virtio_write (blk_ops disk) fuel offset buf (Z.of_nat (length buf)) in retM (r, [])
  end.

Fixpoint run_accesses (l : list access) : M (vstate D) (list (Z * list Z)) :=
  match l with
  | [] => retM []
  | a :: l' =>
      let* r := run_access a in
      let* rs := run_accesses l' in
      retM (r :: rs)
  end.

Definition answer_ok (a : access) (answer : Z * list Z) : Prop :=
  match a with RegRead _ size => fills size answer | RegWrite _ _ => True end.

Lemma types_access a : access_ok a -> types (run_access a) (answer_ok a).
Proof.
  destruct a as [offset size|offset buf]; cbn [access_ok run_access]; intros H; [by apply types_read|].
  eapply types_bind; [|intros; by apply types_ret].
  apply types_write; [apply types_blk_enqueue|done..].
Qed.

(** A notification. *)
Definition notifies (a : access) : bool :=
  match a with RegWrite offset _ => offset =? VIRTIO_MMIO_QUEUE_NOTIFY | RegRead _ _ => false end.

(** The registers of the selected queue. *)
Definition queue_reads : list Z := [VIRTIO_MMIO_QUEUE_NUM_MAX; VIRTIO_MMIO_QUEUE_READY].
Definition queue_writes : list Z :=
  [VIRTIO_MMIO_QUEUE_NUM; VIRTIO_MMIO_QUEUE_READY; VIRTIO_MMIO_QUEUE_DESC_LOW; VIRTIO_MMIO_QUEUE_DESC_HIGH;
   VIRTIO_MMIO_QUEUE_AVAIL_LOW; VIRTIO_MMIO_QUEUE_AVAIL_HIGH; VIRTIO_MMIO_QUEUE_USED_LOW;
   VIRTIO_MMIO_QUEUE_USED_HIGH].

Definition uses_queue (a : access) : bool :=
  match a with
  | RegRead offset _ => existsb (Z.eqb offset) queue_reads
  | RegWrite offset _ => existsb (Z.eqb offset) queue_writes
  end.

Lemma queue_at_none i d : 0 <= i -> queue_at i d = None -> Z.of_nat (length (d_queue d)) <= i.
Proof.
  intros Hi. unfold queue_at. destruct (Z.ltb_spec i 0); [lia|]. intros Hn%lookup_ge_None. lia.
Qed.

(** Neither a notification nor a register of a queue: the access returns. *)
Lemma access_returns a s : notifies a = false -> uses_queue a = false -> exists r s', run_access a s = Ok (r, s').
Proof.
  intros Hn Hu. destruct a as [offset size|offset buf]; cbn [run_access notifies uses_queue] in *.
  - unfold virtio_read. unfold bindM at 1, get_dev. cbv zeta. unfold queue_reads in Hu. cbn [existsb] in Hu.
    rewrite !orb_false_iff in Hu. destruct Hu as (H1 & H2 & _). rewrite H1, H2.
    repeat (case_match; try by do 2 eexists).
  - enough (exists r s', virtio_write (blk_ops disk) fuel offset buf (Z.of_nat (length buf)) s = Ok (r, s'))
      as (r & s' & Ew) by (rewrite (bindM_ok _ _ _ _ _ Ew); by do 2 eexists).
    unfold virtio_write. unfold bindM at 1, get_dev. cbv zeta. rewrite Hn.
    unfold queue_writes in Hu. cbn [existsb] in Hu. rewrite !orb_false_iff in Hu.
    destruct Hu as (-> & -> & -> & -> & -> & -> & -> & -> & _).
    repeat (case_match; try by do 2 eexists).
Qed.

(** An access that is no notification only fails on a queue that does not exist. *)
Lemma access_fault a s e :
  0 <= d_queue_sel (v_dev s) -> run_access a s = Fail e ->
  notifies a = true \/
  uses_queue a = true /\ Z.of_nat (length (d_queue (v_dev s))) <= d_queue_sel (v_dev s).
Proof.
  intros Hs E. destruct (notifies a) eqn:Hn; [by left|right].
  destruct (uses_queue a) eqn:Hu.
  2: { destruct (access_returns a s Hn Hu) as (r & s' & E'). congruence. }
  split; [done|].
  destruct (queue_at (d_queue_sel (v_dev s)) (v_dev s)) as [q|] eqn:Eq; [|by apply queue_at_none].
  exfalso. assert (get_queue (d_queue_sel (v_dev s)) s = Ok (q, s)) as Hg by (by apply get_queue_ok).
  destruct a as [offset size|offset buf]; cbn [run_access notifies] in *.
  - revert E. unfold virtio_read. unfold bindM at 1, get_dev. cbv zeta.
    repeat (case_match; try done; try by rewrite (bindM_ok _ _ _ _ _ Hg)).
  - assert (forall f, mod_queue (d_queue_sel (v_dev s)) f s
      = Ok (tt, VState (v_mem s) (upd_queue (d_queue_sel (v_dev s)) f (v_dev s)) (v_irqs s) (v_ext s))) as Hm.
    { intros f. by apply (mod_queue_ok _ q). }
    enough (exists r s', virtio_write (blk_ops disk) fuel offset buf (Z.of_nat (length buf)) s = Ok (r, s'))
      as (r & s' & Ew) by (by rewrite (bindM_ok _ _ _ _ _ Ew) in E).
    unfold virtio_write. unfold bindM at 1, get_dev. cbv zeta. rewrite Hn.
    repeat (case_match; try by eauto; try (rewrite (bindM_ok _ _ _ _ _ (Hm _)); by eauto)).
Qed.

(** C24: the types of struct virtio_dev.  Whatever the guest reads and writes at
    whatever offset and size, notifications with the requests they serve
    included, every field of the device and of its queues stays in the range of
    its C type, the configuration keeps its length, and identity, offered
    features, interrupt, base, number of queues and maximal queue sizes never
    change; a read that succeeds fills its buffer exactly.  When a sequence
    does fault, the accesses before the faulting one went through and left a
    typed device, and that access is a notification or one to a register of the
    selected queue while the selector is past the last queue. *)
Theorem device_stays_typed l s :
  dev_typed (v_dev s) -> Forall access_ok l ->
  match run_accesses l s with
  | Ok (answers, s') =>
      dev_typed (v_dev s') /\ same_dev (v_dev s) (v_dev s') /\ Forall2 answer_ok l answers
  | Fail e =>
      exists l1 a l2 answers s1, l = l1 ++ a :: l2 /\
        run_accesses l1 s = Ok (answers, s1) /\ run_access a s1 = Fail e /\
        dev_typed (v_dev s1) /\ same_dev (v_dev s) (v_dev s1) /\ Forall2 answer_ok l1 answers /\
        (notifies a = true \/
         uses_queue a = true /\ Z.of_nat (length (d_queue (v_dev s))) <= d_queue_sel (v_dev s1))
  end.
Proof.
  intros Ht Hl. revert s Ht. induction Hl as [|a l Ha Hl IH]; intros s Ht; cbn [run_accesses].
  { split_and!; [done|apply same_dev_refl|constructor]. }
  unfold bindM at 1. destruct (run_access a s) as [[r s1]|e] eqn:E.
  - destruct (types_access a Ha _ _ _ Ht E) as (Ht1 & Hs1 & Hr). specialize (IH s1 Ht1).
    unfold bindM at 1. destruct (run_accesses l s1) as [[rs s2]|e].
    + destruct IH as (Ht2 & Hs2 & Hrs). split_and!; [done|by eapply same_dev_trans|by constructor].
    + destruct IH as (l1 & a' & l2 & answers & s2 & -> & E1 & E2 & Ht2 & Hs2 & Hans & Hwhy).
      exists (a :: l1), a', l2, (r :: answers), s2. split; [done|].
      split; [cbn [run_accesses]; by rewrite (bindM_ok _ _ _ _ _ E), (bindM_ok _ _ _ _ _ E1)|].
      split_and!; [done|done|by eapply same_dev_trans|by constructor|].
      by rewrite (Forall2_length (sd_queue _ _ Hs1)).
  - exists [], a, l, [], s. split_and!; [done..|apply same_dev_refl|constructor|].
    eapply access_fault; [|exact E]. apply (dt_queue_sel _ Ht).
Qed.

End Device.

(** ** A concrete device *)

Module TypeDemo.

Definition no_disk : lkl_dev_blk_ops unit := LklDevBlkOps (fun _ => None) (fun _ _ _ => None).

Definition dev0 : virtio_dev :=
  VirtioDev 2 0 (2 ^ 32 + 2 ^ 29) 0 0 0 0 [VirtioQueue 32 0 0 0 0 0 0 0 0] 0 0 0 1 (repeat 0 8) 8 4096 0.

Definition accesses : list access :=
  [RegWrite VIRTIO_MMIO_QUEUE_DESC_LOW [1; 2; 3; 4]; RegWrite VIRTIO_MMIO_QUEUE_DESC_HIGH [255; 255; 255; 255];
   RegWrite VIRTIO_MMIO_CONFIG [7; 7]; RegRead VIRTIO_MMIO_CONFIG 8].

Lemma device_stays_typed_witness :
  (exists answers s', run_accesses no_disk 9 accesses (VState ∅ dev0 [] tt) = Ok (answers, s') /\
    answers = [(0, []); (0, []); (0, []); (0, [7; 7; 0; 0; 0; 0; 0; 0])] /\
    dev_typed (v_dev s') /\ Forall2 answer_ok accesses answers).
Proof.
  pose proof (device_stays_typed no_disk 9 accesses (VState ∅ dev0 [] tt)) as H.
  eexists _, _. split; [vm_compute; reflexivity|]. split; [reflexivity|].
  destruct H as (H1 & _ & H2); [| |split; [exact H1|exact H2]].
  - constructor; cbn; unfold fits; try lia; repeat constructor; cbn; unfold fits, is_byte; lia.
  - repeat constructor; cbn; unfold is_byte; lia.
Defined.

End TypeDemo.
