(* ===== verification/PosixHost.v ===== *)
(** * PosixHost

    tools/lkl/lib/posix-host.c: the default disk operations, which serve block
    requests from a host file with pread(2), pwrite(2) and fdatasync(2), and
    the time arithmetic of the host operations.

    The calls transfer as many bytes as the host likes: [f_sched] lists, call
    by call, the limit the host will apply (negative: the call fails), and the
    calls are complete once the list is used up. *)

From S2P Require Import Prelude Memory Virtio VirtioRing VirtioQueue VirtioBlk.

(** ** The host file *)

Record hfile := HFile { f_data : list Z; f_sched : list Z }.

(** The host's decision for a call that asks for [len] bytes. *)
Definition host_limit (len : Z) (f : hfile) : Z :=
  match f_sched f with [] => len | k :: _ => Z.min k len end.

Definition host_next (f : hfile) : hfile := HFile (f_data f) (tail (f_sched f)).

(** Bytes [off, off+n) of the file; short at the end of it. *)
Definition file_bytes (off n : Z) (data : list Z) : list Z :=
  take (Z.to_nat n) (drop (Z.to_nat off) data).

(** The file with [bs] at [off]; a gap is filled with zeros, and a write of no
    bytes does not extend the file. *)
Definition file_write (off : Z) (bs data : list Z) : list Z :=
  if bs is [] then data
  else
  let n := Z.to_nat off in
  take n data ++ replicate (n - length data) 0 ++ bs ++ drop (n + length bs) data.

(** One system call: memory, file and return value; [None] is a bad address or
    a length no object can have. *)
Definition syscall := Z -> Z -> Z -> mem -> hfile -> option (mem * hfile * Z).

Definition sys_pread : syscall := fun addr len off m f =>
  if len <? 0 then None
  else if (off <? 0) || (host_limit len f <? 0) then Some (m, host_next f, -1)
  else
    let bs := file_bytes off (host_limit len f) (f_data f) in
    m' ← store_bytes addr bs m;
    Some (m', host_next f, Z.of_nat (length bs)).

Definition sys_pwrite : syscall := fun addr len off m f =>
  if len <? 0 then None
  else if (off <? 0) || (host_limit len f <? 0) then Some (m, host_next f, -1)
  else
    let n := host_limit len f in
    bs ← load_bytes (Z.to_nat n) addr m;
    Some (m, HFile (file_write off bs (f_data f)) (tail (f_sched f)), n).

Definition sys_fdatasync (f : hfile) : hfile * Z :=
  (host_next f, if host_limit 0 f <? 0 then -1 else 0).

(** lseek(fd, 0, SEEK_END) *)
Definition sys_lseek_end (f : hfile) : hfile * Z :=
  (host_next f, if host_limit 0 f <? 0 then -1 else Z.of_nat (length (f_data f))).

(** ** Disk operations *)

Definition fd_get_capacity (f : hfile) : option (hfile * Z * option Z) :=
  let '(f, off) := sys_lseek_end f in
  Some (if off <? 0 then (f, -1, None) else (f, 0, Some off)).

(** The do/while of [do_rw] for one buffer.  Every round that goes on has moved
    at least one byte, so [len] rounds are enough. *)
Fixpoint rw_buf (fuel : nat) (fn : syscall) (addr len off : Z) (m : mem) (f : hfile)
  : option (mem * hfile * Z * Z) :=
  match fuel with
  | O => None
  | S fuel' =>
      '(m, f, ret) ← fn addr len off m f;
      let ret := s32 ret in
      if ret <=? 0 then Some (m, f, -1, off)
      else
        let addr := addr + ret in
        let len := s32 (len - ret) in
        let off := off + ret in
        if len =? 0 then Some (m, f, ret, off)
        else rw_buf fuel' fn addr len off m f
  end.

(** The for loop; [ret] is the value left by the previous buffer. *)
Fixpoint rw_bufs (fn : syscall) (bufs : list iovec) (off ret : Z) (m : mem) (f : hfile)
  : option (mem * hfile * Z) :=
  match bufs with
  | [] => Some (m, f, ret)
  | b :: bufs' =>
      let len := s32 (iov_len b) in
      '(m, f, ret, off) ← rw_buf (S (Z.to_nat len)) fn (iov_base b) len off m f;
      if ret <? 0 then Some (m, f, ret)
      else rw_bufs fn bufs' off ret m f
  end.

Definition do_rw (fn : syscall) (r : lkl_blk_req) (m : mem) (f : hfile)
  : option (mem * hfile * Z) :=
  rw_bufs fn (br_buf r) (s64 (u64 (br_sector r * 512))) 0 m f.

Definition blk_request (r : lkl_blk_req) (m : mem) (f : hfile) : option (mem * hfile * Z) :=
  let finish m f (err : Z) :=
    Some (m, f, if err <? 0 then LKL_DEV_BLK_STATUS_IOERR else LKL_DEV_BLK_STATUS_OK) in
  if br_type r =? LKL_DEV_BLK_TYPE_READ then
    '(m, f, err) ← do_rw sys_pread r m f; finish m f err
  else if br_type r =? LKL_DEV_BLK_TYPE_WRITE then
    '(m, f, err) ← do_rw sys_pwrite r m f; finish m f err
  else if (br_type r =? LKL_DEV_BLK_TYPE_FLUSH) || (br_type r =? LKL_DEV_BLK_TYPE_FLUSH_OUT) then
    let '(f, err) := sys_fdatasync f in finish m f err
  else Some (m, f, LKL_DEV_BLK_STATUS_UNSUP).

Definition posix_blk_ops : lkl_dev_blk_ops hfile := LklDevBlkOps fd_get_capacity blk_request.

(** ** The backend contract *)

(** What [do_rw] relies on: a call moves at most [len] bytes, inside the
    buffer it was given. *)
Record syscall_ok (fn : syscall) : Prop := {
  sc_ret : forall addr len off m f m' f' ret,
    fn addr len off m f = Some (m', f', ret) -> ret <= len;
  sc_nonneg : forall addr len off m f m' f' ret,
    fn addr len off m f = Some (m', f', ret) -> 0 <= len /\ -1 <= ret;
  sc_frame : forall addr len off m f m' f' ret,
    fn addr len off m f = Some (m', f', ret) -> frame (range addr len) m m';
  sc_local : forall P addr len off m1 m2 f m1' f' ret,
    fn addr len off m1 f = Some (m1', f', ret) ->
    agree_outside P m1 m2 -> (forall i, range addr len i -> ~ P i) ->
    exists m2', fn addr len off m2 f = Some (m2', f', ret) /\ agree_outside P m1' m2';
}.

Lemma host_limit_le len f : 0 <= len -> host_limit len f <= len.
Proof. unfold host_limit. case_match; lia. Qed.

Lemma length_file_bytes off n data :
  0 <= n -> Z.of_nat (length (file_bytes off n data)) <= n.
Proof. intros Hn. unfold file_bytes. rewrite length_take. lia. Qed.

Lemma sys_pread_ok : syscall_ok sys_pread.
Proof.
  split; unfold sys_pread; intros *; destruct (len <? 0) eqn:Hl; try done; apply Z.ltb_ge in Hl;
    (destruct (_ || _) eqn:Hlim;
      [|apply orb_false_iff in Hlim as [Ho Hh]; apply Z.ltb_ge in Ho, Hh;
        pose proof (length_file_bytes off (host_limit len f) (f_data f) Hh);
        pose proof (host_limit_le len f Hl)]);
    try (intros [= <- <- <-]); try lia; try done; eauto;
    intros H'; apply bind_Some in H' as (m'' & Hm & H'); simplify_eq; try lia.
  - eapply frame_weaken; [|by eapply store_bytes_frame]. unfold range. lia.
  - intros Hag HP. destruct (store_bytes_local P _ _ _ m2 _ Hm Hag) as (k & -> & Hk). simpl. eauto.
Qed.

Lemma sys_pwrite_ok : syscall_ok sys_pwrite.
Proof.
  split; unfold sys_pwrite; intros *; destruct (len <? 0) eqn:Hl; try done; apply Z.ltb_ge in Hl;
    (destruct (_ || _) eqn:Hlim;
      [|apply orb_false_iff in Hlim as [Ho Hh]; apply Z.ltb_ge in Ho, Hh;
        pose proof (host_limit_le len f Hl)]);
    try (intros [= <- <- <-]); try lia; try done; eauto;
    intros H'; apply bind_Some in H' as (bs & Hm & H'); simplify_eq; try lia; try done.
  intros Hag HP. rewrite (load_bytes_frame _ _ _ _ _ Hag), Hm; [simpl; eauto|].
  intros i Hi. apply HP. unfold range in *. lia.
Qed.

Lemma s32_le z : 0 <= z -> s32 z <= z.
Proof. intros Hz. unfold s32, u32. case_match; lia. Qed.

Section Loops.
Context (fn : syscall) (Hfn : syscall_ok fn).

(** One round of [rw_buf], without the conversions that change nothing. *)
Lemma rw_buf_step fuel addr len off m f : 0 <= len < 2147483648 ->
  rw_buf (S fuel) fn addr len off m f =
  '(m, f, ret) ← fn addr len off m f;
  if ret <=? 0 then Some (m, f, -1, off)
  else if len - ret =? 0 then Some (m, f, ret, off + ret)
  else rw_buf fuel fn (addr + ret) (len - ret) (off + ret) m f.
Proof.
  intros Hl. cbn [rw_buf]. destruct (fn addr len off m f) as [[[m' f'] ret]|] eqn:E; [|done].
  simpl. pose proof (sc_ret _ Hfn _ _ _ _ _ _ _ _ E). pose proof (sc_nonneg _ Hfn _ _ _ _ _ _ _ _ E).
  rewrite (s32_id ret) by lia. destruct (Z.leb_spec ret 0); [done|].
  by rewrite s32_id by lia.
Qed.

Lemma rw_buf_frame fuel addr len off m f m' f' ret off' :
  0 <= len < 2147483648 ->
  rw_buf fuel fn addr len off m f = Some (m', f', ret, off') -> frame (range addr len) m m'.
Proof.
  revert addr len off m f. induction fuel as [|fuel IH]; intros addr len off m f Hl; [done|].
  rewrite (rw_buf_step _ _ _ _ _ _ Hl). intros H.
  apply bind_Some in H as ([[m1 f1] r] & E & H).
  pose proof (sc_frame _ Hfn _ _ _ _ _ _ _ _ E) as Hf.
  pose proof (sc_ret _ Hfn _ _ _ _ _ _ _ _ E).
  destruct (Z.leb_spec r 0); [by simplify_eq|]. destruct (_ =? 0); [by simplify_eq|].
  apply IH in H; [|lia]. eapply frame_trans; [exact Hf|].
  eapply frame_weaken; [|exact H]. unfold range. lia.
Qed.

Lemma rw_buf_local P fuel addr len off m1 m2 f m1' f' ret off' :
  0 <= len < 2147483648 ->
  rw_buf fuel fn addr len off m1 f = Some (m1', f', ret, off') ->
  agree_outside P m1 m2 -> (forall i, range addr len i -> ~ P i) ->
  exists m2', rw_buf fuel fn addr len off m2 f = Some (m2', f', ret, off') /\
    agree_outside P m1' m2'.
Proof.
  revert addr len off m1 m2 f. induction fuel as [|fuel IH];
    intros addr len off m1 m2 f Hl; [done|].
  rewrite !(rw_buf_step _ _ _ _ _ _ Hl). intros H Hag HP.
  apply bind_Some in H as ([[k1 f1] r] & E & H).
  destruct (sc_local _ Hfn P _ _ _ _ m2 _ _ _ _ E Hag HP) as (k2 & -> & Hk).
  pose proof (sc_ret _ Hfn _ _ _ _ _ _ _ _ E). simpl.
  destruct (Z.leb_spec r 0); [simplify_eq; eauto|].
  destruct (_ =? 0); [simplify_eq; eauto|].
  eapply IH; [lia|exact H|exact Hk|]. intros i Hi. apply HP. unfold range in *. lia.
Qed.

Lemma rw_bufs_frame bufs off ret m f m' f' ret' :
  Forall (fun b => 0 < iov_len b) bufs ->
  rw_bufs fn bufs off ret m f = Some (m', f', ret') -> frame (bufs_area bufs) m m'.
Proof.
  revert off ret m f. induction bufs as [|b bufs IH]; intros off ret m f HF H;
    [by simplify_eq/=|].
  cbn [rw_bufs] in H. apply bind_Some in H as ([[[m1 f1] r] o] & E & H).
  inversion HF as [|?? Hb HF']; subst. pose proof (s32_range (iov_len b)).
  pose proof (s32_le (iov_len b)).
  assert (frame (bufs_area (b :: bufs)) m m1) as Hf.
  { destruct (Z.leb_spec 0 (s32 (iov_len b))).
    - apply rw_buf_frame in E; [|lia]. eapply frame_weaken; [|exact E].
      intros i Hi. exists b. split; [set_solver|unfold range in *; lia].
    - cbn [rw_buf] in E. apply bind_Some in E as ([[? ?] ?] & E & _).
      apply (sc_nonneg _ Hfn) in E. lia. }
  destruct (r <? 0); [by simplify_eq|]. apply IH in H; [|done].
  eapply frame_trans; [exact Hf|]. eapply frame_weaken; [|exact H].
  intros i (b' & Hb' & Hi). exists b'. split; [set_solver|done].
Qed.

Lemma rw_bufs_local P bufs off ret m1 m2 f m1' f' ret' :
  Forall (fun b => 0 < iov_len b) bufs ->
  rw_bufs fn bufs off ret m1 f = Some (m1', f', ret') ->
  agree_outside P m1 m2 -> (forall i, bufs_area bufs i -> ~ P i) ->
  exists m2', rw_bufs fn bufs off ret m2 f = Some (m2', f', ret') /\ agree_outside P m1' m2'.
Proof.
  revert off ret m1 m2 f. induction bufs as [|b bufs IH];
    intros off ret m1 m2 f HF H Hag HP; [simplify_eq/=; eauto|].
  cbn [rw_bufs] in *. apply bind_Some in H as ([[[k1 f1] r] o] & E & H).
  inversion HF as [|?? Hb HF']; subst. pose proof (s32_range (iov_len b)).
  pose proof (s32_le (iov_len b)).
  destruct (Z.leb_spec 0 (s32 (iov_len b))).
  - edestruct (rw_buf_local P) as (k2 & -> & Hk); [|exact E|exact Hag|..]; [lia|..].
    { intros i Hi. apply HP. exists b. split; [set_solver|unfold range in *; lia]. }
    simpl. destruct (r <? 0); [simplify_eq; eauto|]. eapply IH; [done|exact H|exact Hk|].
    intros i (b' & Hb' & Hi). apply HP. exists b'. split; [set_solver|done].
  - cbn [rw_buf] in E. apply bind_Some in E as ([[? ?] ?] & E & _).
    apply (sc_nonneg _ Hfn) in E. lia.
Qed.

End Loops.

#[export] Instance posix_blk_backend : BlkBackend posix_blk_ops.
Proof.
  split.
  - intros r m x m' x' st HF. cbn [request posix_blk_ops]. unfold blk_request.
    destruct (_ =? LKL_DEV_BLK_TYPE_READ); [|destruct (_ =? LKL_DEV_BLK_TYPE_WRITE)].
    1,2: intros H; apply bind_Some in H as ([[m1 f1] e] & E & H); simplify_eq;
      first [ exact (rw_bufs_frame _ sys_pread_ok _ _ _ _ _ _ _ _ HF E)
            | exact (rw_bufs_frame _ sys_pwrite_ok _ _ _ _ _ _ _ _ HF E) ].
    destruct (_ || _); intros; by simplify_eq/=.
  - intros P r m1 m2 x m1' x' st HF. cbn [request posix_blk_ops]. unfold blk_request.
    destruct (_ =? LKL_DEV_BLK_TYPE_READ); [|destruct (_ =? LKL_DEV_BLK_TYPE_WRITE)].
    1,2: intros H Hag HP; apply bind_Some in H as ([[k1 f1] e] & E & H); simplify_eq;
      unfold do_rw in *;
      first [ destruct (rw_bufs_local _ sys_pread_ok P _ _ _ _ m2 _ _ _ _ HF E Hag HP)
                as (k2 & -> & Hk)
            | destruct (rw_bufs_local _ sys_pwrite_ok P _ _ _ _ m2 _ _ _ _ HF E Hag HP)
                as (k2 & -> & Hk) ]; simpl; eauto.
    destruct (_ || _); intros; simplify_eq/=; eauto.
Qed.

(** ** What a request does *)

(** The bytes of a list of buffers, and the copy of bytes into it. *)
Fixpoint iov_load (bufs : list iovec) (m : mem) : option (list Z) :=
  match bufs with
  | [] => Some []
  | b :: bufs' =>
      bs ← load_bytes (Z.to_nat (iov_len b)) (iov_base b) m;
      rest ← iov_load bufs' m;
      Some (bs ++ rest)
  end.

Fixpoint iov_store (bufs : list iovec) (bs : list Z) (m : mem) : option mem :=
  match bufs with
  | [] => Some m
  | b :: bufs' =>
      m ← store_bytes (iov_base b) (take (Z.to_nat (iov_len b)) bs) m;
      iov_store bufs' (drop (Z.to_nat (iov_len b)) bs) m
  end.

Lemma file_bytes_app off n1 n2 data :
  0 <= off -> 0 <= n1 -> 0 <= n2 ->
  file_bytes off n1 data ++ file_bytes (off + n1) n2 data = file_bytes off (n1 + n2) data.
Proof.
  intros. unfold file_bytes. rewrite !Z2Nat.inj_add, <- drop_drop by lia.
  apply take_take_drop.
Qed.

Lemma length_file_bytes_eq off n data :
  0 <= off -> 0 <= n ->
  Z.of_nat (length (file_bytes off n data)) =
    Z.max 0 (Z.min n (Z.of_nat (length data) - off)).
Proof. intros. unfold file_bytes. rewrite length_take, length_drop. lia. Qed.

Lemma file_write_ne off bs data : bs <> [] ->
  let n := Z.to_nat off in
  file_write off bs data =
  (take n data ++ replicate (n - length data) 0 ++ bs) ++ drop (n + length bs) data.
Proof. intros Hne. unfold file_write. destruct bs; [done|]. by rewrite <- !app_assoc. Qed.

Lemma file_write_app off bs1 bs2 data :
  0 <= off ->
  file_write (off + Z.of_nat (length bs1)) bs2 (file_write off bs1 data) =
  file_write off (bs1 ++ bs2) data.
Proof.
  intros Ho. destruct (decide (bs1 = [])) as [->|H1]; [by rewrite Z.add_0_r|].
  destruct (decide (bs2 = [])) as [->|H2]; [by rewrite app_nil_r|].
  rewrite !file_write_ne by (by destruct bs1). rewrite Z2Nat.inj_add, Nat2Z.id by lia.
  set (n := Z.to_nat off). set (p := take n data ++ replicate (n - length data) 0 ++ bs1).
  assert (length p = (n + length bs1)%nat) as Hl.
  { unfold p. rewrite !length_app, length_take, length_replicate. lia. }
  rewrite take_app_length' by done. rewrite length_app, Hl.
  replace (n + length bs1 - (n + length bs1 + _))%nat with 0%nat by lia.
  rewrite drop_app_ge, Hl, drop_drop, length_app by lia. unfold p. rewrite <- !app_assoc.
  simpl. do 4 f_equal. f_equal. lia.
Qed.

(** A host whose calls never fail and never stall. *)
Definition willing (f : hfile) : Prop := Forall (fun k => 0 < k) (f_sched f).

Lemma willing_next f : willing f -> willing (host_next f).
Proof. unfold willing. destruct f as [d [|k ks]]; simpl; [done|]. by inversion 1. Qed.

Lemma willing_limit len f : willing f -> 0 < len -> 0 < host_limit len f.
Proof.
  unfold willing, host_limit. destruct f as [d [|k ks]]; simpl; [done|].
  inversion 1; subst. lia.
Qed.

(** *** Reading *)

(** One buffer: always an answer; a positive one only with the whole buffer
    read, and a positive one for certain from a willing host and a file that
    is long enough. *)
Lemma rw_buf_read fuel addr len off m f :
  0 < len < 2147483648 -> 0 <= off -> mapped m addr len -> (Z.to_nat len <= fuel)%nat ->
  exists m' f' ret off', rw_buf fuel sys_pread addr len off m f = Some (m', f', ret, off') /\
    f_data f' = f_data f /\
    (0 < ret -> off' = off + len /\ off + len <= Z.of_nat (length (f_data f)) /\
       store_bytes addr (file_bytes off len (f_data f)) m = Some m') /\
    (ret <= 0 -> ret = -1) /\
    (willing f -> off + len <= Z.of_nat (length (f_data f)) -> 0 < ret /\ willing f').
Proof.
  revert addr len off m f. induction fuel as [|fuel IH]; intros addr len off m f Hl Ho Hm Hfu; [lia|].
  rewrite (rw_buf_step _ sys_pread_ok) by lia. unfold sys_pread.
  rewrite (proj2 (Z.ltb_ge len 0)), (proj2 (Z.ltb_ge off 0)) by lia. simpl.
  pose proof (willing_limit len f) as Hw. pose proof (host_limit_le len f ltac:(lia)) as Hle.
  destruct (Z.ltb_spec (host_limit len f) 0) as [Hneg|Hlim].
  { simpl. do 4 eexists. split; [done|]. split; [done|]. split; [lia|]. split; [done|].
    intros W. specialize (Hw W). lia. }
  set (n := host_limit len f) in *. set (bs := file_bytes off n (f_data f)).
  pose proof (length_file_bytes_eq off n (f_data f) Ho Hlim) as Hbs. fold bs in Hbs.
  destruct (store_bytes_some addr bs m) as [m1 Hm1].
  { eapply mapped_sub; [exact Hm|lia|lia]. }
  rewrite Hm1. simpl. destruct (Z.leb_spec (Z.of_nat (length bs)) 0).
  { do 4 eexists. split; [done|]. split; [done|]. split; [lia|]. split; [done|].
    intros W. specialize (Hw W). lia. }
  assert (bs = file_bytes off (Z.of_nat (length bs)) (f_data f)) as Hbseq.
  { unfold bs, file_bytes. rewrite Nat2Z.id, length_take.
    destruct (Nat.min_spec (Z.to_nat n) (length (drop (Z.to_nat off) (f_data f)))) as [[? ->]|[? ->]];
      [done|]. rewrite !take_ge; lia || done. }
  destruct (Z.eqb_spec (len - Z.of_nat (length bs)) 0).
  { do 4 eexists. split; [done|]. split; [done|]. split.
    - intros _. replace len with (Z.of_nat (length bs)) by lia. rewrite <- Hbseq. split; [done|].
      split; [lia|done].
    - split; [lia|]. intros W _. split; [lia|by apply willing_next]. }
  destruct (IH (addr + Z.of_nat (length bs)) (len - Z.of_nat (length bs))
              (off + Z.of_nat (length bs)) m1 (host_next f))
    as (m' & f' & ret & off' & E & Hd & Hpos & Hnp & Hwill); [lia|lia| |lia|].
  { eapply store_bytes_frame in Hm1. eapply mapped_frame; [exact Hm1|].
    eapply mapped_sub; [exact Hm|lia|lia]. }
  exists m', f', ret, off'. split; [done|]. split; [done|]. split; [|split; [done|]].
  - intros Hr. destruct (Hpos Hr) as (-> & Hend & Hst). simpl in Hend, Hst. split; [lia|].
    split; [lia|].
    replace len with (Z.of_nat (length bs) + (len - Z.of_nat (length bs))) at 1 by lia.
    rewrite <- file_bytes_app by lia. rewrite <- Hbseq. rewrite store_bytes_app, Hm1. exact Hst.
  - intros W Hend. apply Hwill; [by apply willing_next|simpl; lia].
Qed.

(** *** Writing *)

Lemma rw_buf_write fuel addr len off m f bs :
  0 < len < 2147483648 -> 0 <= off -> (Z.to_nat len <= fuel)%nat ->
  load_bytes (Z.to_nat len) addr m = Some bs ->
  exists f' ret off', rw_buf fuel sys_pwrite addr len off m f = Some (m, f', ret, off') /\
    (0 < ret -> off' = off + len /\ f_data f' = file_write off bs (f_data f)) /\
    (ret <= 0 -> ret = -1) /\ (willing f -> 0 < ret /\ willing f').
Proof.
  revert addr len off f bs. induction fuel as [|fuel IH]; intros addr len off f bs Hl Ho Hfu Hbs; [lia|].
  rewrite (rw_buf_step _ sys_pwrite_ok) by lia. unfold sys_pwrite.
  rewrite (proj2 (Z.ltb_ge len 0)), (proj2 (Z.ltb_ge off 0)) by lia. simpl.
  pose proof (willing_limit len f) as Hw. pose proof (host_limit_le len f ltac:(lia)) as Hle.
  pose proof (willing_next f) as Hwn.
  destruct (Z.ltb_spec (host_limit len f) 0) as [Hneg|Hlim].
  { simpl. do 3 eexists. split; [done|]. split; [lia|]. split; [done|].
    intros W. specialize (Hw W). lia. }
  set (n := host_limit len f) in *.
  replace (Z.to_nat len) with (Z.to_nat n + Z.to_nat (len - n))%nat in Hbs by lia.
  rewrite load_bytes_app in Hbs. apply bind_Some in Hbs as (b1 & Hb1 & Hbs).
  apply bind_Some in Hbs as (b2 & Hb2 & [= <-]). rewrite Z2Nat.id in Hb2 by lia.
  rewrite Hb1. simpl. apply load_bytes_length in Hb1 as Hn1.
  destruct (Z.leb_spec n 0).
  { do 3 eexists. split; [done|]. split; [lia|]. split; [done|]. intros W. specialize (Hw W). lia. }
  destruct (Z.eqb_spec (len - n) 0) as [Hz|Hz].
  { rewrite Hz in Hb2. injection Hb2 as <-. rewrite app_nil_r. do 3 eexists. split; [done|].
    split; [intros _; split; [lia|done]|]. split; [lia|]. intros W. split; [lia|by apply Hwn]. }
  destruct (IH (addr + n) (len - n) (off + n) (HFile (file_write off b1 (f_data f)) (tail (f_sched f))) b2)
    as (f' & ret & off' & E & Hpos & Hnp & Hwill); [lia|lia|lia|done|].
  exists f', ret, off'. split; [done|]. split; [|split; [done|]].
  - intros Hr. destruct (Hpos Hr) as (-> & Hd). split; [lia|]. rewrite Hd. simpl.
    rewrite <- (file_write_app off b1 b2) by done. f_equal. lia.
  - intros W. apply Hwill. by apply Hwn.
Qed.

(** *** Lists of buffers *)

Definition bufs_ok (bufs : list iovec) : Prop :=
  Forall (fun b => 0 < iov_len b < 2147483648) bufs.

Lemma sum_len_nonneg bufs : bufs_ok bufs -> 0 <= sum_len bufs.
Proof. induction 1; simpl; [done|]. unfold sum_len in *. simpl. lia. Qed.

Lemma sum_len_pos bufs : bufs_ok bufs -> bufs <> [] -> 0 < sum_len bufs.
Proof.
  intros Hok Hne. destruct Hok as [|b bufs Hb Hok]; [done|].
  pose proof (sum_len_nonneg _ Hok). unfold sum_len in *. simpl. lia.
Qed.

Lemma iov_load_length bufs m bs :
  bufs_ok bufs -> iov_load bufs m = Some bs -> Z.of_nat (length bs) = sum_len bufs.
Proof.
  intros Hok. revert bs. induction Hok as [|b bufs Hb Hok IH]; intros bs H; simpl in H; [by simplify_eq|].
  apply bind_Some in H as (b1 & H1 & H). apply bind_Some in H as (b2 & H2 & H). simplify_eq.
  rewrite length_app. apply load_bytes_length in H1. apply IH in H2.
  unfold sum_len in *. simpl. lia.
Qed.

Lemma rw_bufs_write bufs off ret0 m f bs :
  bufs_ok bufs -> 0 <= off -> 0 <= ret0 -> iov_load bufs m = Some bs ->
  exists f' ret, rw_bufs sys_pwrite bufs off ret0 m f = Some (m, f', ret) /\
    (0 <= ret -> f_data f' = file_write off bs (f_data f)) /\
    (willing f -> 0 <= ret /\ willing f').
Proof.
  intros Hok. revert off ret0 f bs. induction Hok as [|b bufs Hb Hok IH];
    intros off ret0 f bs Ho Hr0 Hbs; simpl in Hbs.
  { simplify_eq. exists f, ret0. split; [done|]. split; [done|]. auto. }
  apply bind_Some in Hbs as (b1 & H1 & Hbs). apply bind_Some in Hbs as (b2 & H2 & [= <-]).
  cbn [rw_bufs]. rewrite s32_id by lia.
  destruct (rw_buf_write (S (Z.to_nat (iov_len b))) (iov_base b) (iov_len b) off m f b1)
    as (f1 & r & o & -> & Hpos & Hnp & Hw); [lia|lia|lia|done|].
  simpl. destruct (Z.ltb_spec r 0).
  { exists f1, r. split; [done|]. split; [lia|]. intros W. apply Hw in W. lia. }
  assert (0 < r) as Hr by (destruct (Z.leb_spec r 0); [specialize (Hnp ltac:(lia)); lia|lia]).
  destruct (Hpos Hr) as [-> Hd].
  destruct (IH (off + iov_len b) r f1 b2) as (f' & ret & -> & Hp & Hw'); [lia|lia|done|].
  exists f', ret. split; [done|]. split; [|intros W; apply Hw', Hw, W].
  intros Hret. apply load_bytes_length in H1.
  rewrite (Hp Hret), Hd, <- (file_write_app off b1 b2) by done. f_equal. lia.
Qed.

Lemma rw_bufs_read bufs off ret0 m f :
  bufs_ok bufs -> 0 <= off -> 0 <= ret0 ->
  Forall (fun b => mapped m (iov_base b) (iov_len b)) bufs ->
  exists m' f' ret, rw_bufs sys_pread bufs off ret0 m f = Some (m', f', ret) /\
    f_data f' = f_data f /\
    (0 <= ret -> iov_store bufs (file_bytes off (sum_len bufs) (f_data f)) m = Some m' /\
       (bufs <> [] -> off + sum_len bufs <= Z.of_nat (length (f_data f)))) /\
    (willing f -> off + sum_len bufs <= Z.of_nat (length (f_data f)) -> 0 <= ret /\ willing f').
Proof.
  intros Hok. revert off ret0 m f. induction Hok as [|b bufs Hb Hok IH];
    intros off ret0 m f Ho Hr0 Hmap.
  { exists m, f, ret0. split; [done|]. split; [done|]. split; [done|]. auto. }
  cbn [rw_bufs]. rewrite s32_id by lia. inversion Hmap as [|?? Hm Hmap']; subst.
  pose proof (sum_len_nonneg _ Hok) as Hsum.
  assert (sum_len (b :: bufs) = iov_len b + sum_len bufs) as Hs by done. rewrite Hs.
  destruct (rw_buf_read (S (Z.to_nat (iov_len b))) (iov_base b) (iov_len b) off m f)
    as (m1 & f1 & r & o & -> & Hd & Hpos & Hnp & Hw); [lia|lia|done|lia|].
  simpl. destruct (Z.ltb_spec r 0).
  { exists m1, f1, r. split; [done|]. split; [done|]. split; [lia|]. intros W He.
    apply Hw in W; lia. }
  assert (0 < r) as Hr by (destruct (Z.leb_spec r 0); [specialize (Hnp ltac:(lia)); lia|lia]).
  destruct (Hpos Hr) as (-> & Hend & Hst).
  destruct (IH (off + iov_len b) r m1 f1) as (m' & f' & ret & -> & Hd' & Hp & Hw'); [lia|lia| |].
  { eapply Forall_impl; [|exact Hmap']. intros b' Hb'. eapply mapped_frame; [|exact Hb'].
    by eapply store_bytes_frame. }
  exists m', f', ret. split; [done|]. split; [congruence|]. rewrite Hd in Hp, Hw'. split.
  - intros Hret. destruct (Hp Hret) as [Hio He]. rewrite <- file_bytes_app by lia.
    assert (length (file_bytes off (iov_len b) (f_data f)) = Z.to_nat (iov_len b)) as Hlen.
    { pose proof (length_file_bytes_eq off (iov_len b) (f_data f)). lia. }
    rewrite take_app_length', drop_app_length' by done. rewrite Hst. simpl. split; [done|].
    intros _. destruct bufs; [unfold sum_len; simpl; lia|]. specialize (He ltac:(done)). lia.
  - intros W He. apply Hw'; [apply Hw; [done|lia]|lia].
Qed.

(** Buffers that do not overlap give back what was copied into them. *)
Fixpoint bufs_disjoint (bufs : list iovec) : Prop :=
  match bufs with
  | [] => True
  | b :: bufs' =>
      Forall (fun b' => disjoint_ranges (iov_base b) (iov_len b) (iov_base b') (iov_len b')) bufs' /\
      bufs_disjoint bufs'
  end.

Lemma iov_store_frame bufs bs m m' :
  bufs_ok bufs -> iov_store bufs bs m = Some m' -> frame (bufs_area bufs) m m'.
Proof.
  intros Hok. revert bs m. induction Hok as [|b bufs Hb Hok IH]; intros bs m H; simpl in H;
    [by simplify_eq|].
  apply bind_Some in H as (m1 & H1 & H). apply IH in H. apply store_bytes_frame in H1.
  eapply frame_trans; (eapply frame_weaken; [|eassumption]).
  - intros i Hi. exists b. split; [set_solver|]. rewrite length_take in Hi. unfold range in *. lia.
  - intros i (b' & Hb' & Hi). exists b'. split; [set_solver|done].
Qed.

Lemma iov_load_store bufs bs m m' :
  bufs_ok bufs -> bufs_disjoint bufs -> Z.of_nat (length bs) = sum_len bufs ->
  iov_store bufs bs m = Some m' -> iov_load bufs m' = Some (map u8 bs).
Proof.
  intros Hok. revert bs m. induction Hok as [|b bufs Hb Hok IH]; intros bs m Hdis Hlen H.
  { unfold sum_len in Hlen. simpl in Hlen. by destruct bs. }
  simpl in H. apply bind_Some in H as (m1 & H1 & H). destruct Hdis as [Hd Hdis].
  pose proof (sum_len_nonneg _ Hok).
  assert (sum_len (b :: bufs) = iov_len b + sum_len bufs) as Hs by done.
  pose proof (iov_store_frame _ _ _ _ Hok H) as Hf.
  apply IH in H; [|done|rewrite length_drop; lia]. simpl.
  apply load_store_bytes in H1. rewrite length_take in H1.
  replace (Z.to_nat (iov_len b) `min` length bs)%nat with (Z.to_nat (iov_len b)) in H1 by lia.
  rewrite (load_bytes_frame _ _ _ _ _ Hf), H1, H; simpl; [|].
  - by rewrite <- map_app, take_drop.
  - intros i Hi (b' & Hb' & Hi'). rewrite list.Forall_forall in Hd. specialize (Hd b' Hb').
    unfold disjoint_ranges, range in *. lia.
Qed.

Lemma iov_load_u8 bufs m bs : iov_load bufs m = Some bs -> map u8 bs = bs.
Proof.
  revert bs. induction bufs as [|b bufs IH]; intros bs H; simpl in H; [by simplify_eq|].
  apply bind_Some in H as (b1 & H1 & H). apply bind_Some in H as (b2 & H2 & H). simplify_eq.
  rewrite map_app, (IH _ H2). f_equal. by eapply load_bytes_u8.
Qed.

(** What was written is what the file holds there. *)
Lemma file_bytes_write off bs data :
  0 <= off -> file_bytes off (Z.of_nat (length bs)) (file_write off bs data) = bs.
Proof.
  intros Ho. destruct (decide (bs = [])) as [->|Hne]; [done|].
  rewrite (file_write_ne _ _ _ Hne). unfold file_bytes. rewrite Nat2Z.id.
  set (n := Z.to_nat off). rewrite (app_assoc (take n data)), <- app_assoc.
  rewrite drop_app_length'; [by rewrite take_app_length'|].
  rewrite length_app, length_take, length_replicate. lia.
Qed.

Lemma length_file_write off bs data :
  0 <= off -> bs <> [] ->
  Z.of_nat (length (file_write off bs data)) =
    Z.max (Z.of_nat (length data)) (off + Z.of_nat (length bs)).
Proof.
  intros Ho Hne. rewrite (file_write_ne _ _ _ Hne).
  rewrite !length_app, length_take, length_replicate, length_drop. lia.
Qed.

Lemma sector_off sec : 0 <= sec < 4294967296 -> s64 (u64 (sec * 512)) = 512 * sec.
Proof. intros H. rewrite u64_id, s64_id by lia. lia. Qed.

(** *** Requests *)

Lemma request_read_ok r m f :
  br_type r = LKL_DEV_BLK_TYPE_READ -> 0 <= br_sector r < 4294967296 -> bufs_ok (br_buf r) ->
  Forall (fun b => mapped m (iov_base b) (iov_len b)) (br_buf r) ->
  let off := 512 * br_sector r in
  let n := sum_len (br_buf r) in
  exists m' f' st, blk_request r m f = Some (m', f', st) /\ f_data f' = f_data f /\
    (st = LKL_DEV_BLK_STATUS_OK ->
       iov_store (br_buf r) (file_bytes off n (f_data f)) m = Some m' /\
       (br_buf r <> [] -> off + n <= Z.of_nat (length (f_data f)))) /\
    (st = LKL_DEV_BLK_STATUS_OK \/ st = LKL_DEV_BLK_STATUS_IOERR) /\
    (willing f -> off + n <= Z.of_nat (length (f_data f)) ->
       st = LKL_DEV_BLK_STATUS_OK /\ willing f').
Proof.
  intros Ht Hs Hok Hm off n. unfold blk_request. rewrite Ht. simpl. unfold do_rw.
  rewrite (sector_off _ Hs). fold off.
  destruct (rw_bufs_read (br_buf r) off 0 m f) as (m' & f' & ret & -> & Hd & Hp & Hw);
    [done|lia|done|done|].
  simpl. do 3 eexists. split; [done|]. split; [done|]. destruct (Z.ltb_spec ret 0).
  - split; [done|]. split; [by right|]. intros W He. apply Hw in W; [lia|done].
  - split; [intros _; by apply Hp|]. split; [by left|]. intros W He. split; [done|]. by apply Hw.
Qed.

Lemma request_write_ok r m f bs :
  br_type r = LKL_DEV_BLK_TYPE_WRITE -> 0 <= br_sector r < 4294967296 -> bufs_ok (br_buf r) ->
  iov_load (br_buf r) m = Some bs ->
  let off := 512 * br_sector r in
  exists f' st, blk_request r m f = Some (m, f', st) /\
    (st = LKL_DEV_BLK_STATUS_OK -> f_data f' = file_write off bs (f_data f)) /\
    (st = LKL_DEV_BLK_STATUS_OK \/ st = LKL_DEV_BLK_STATUS_IOERR) /\
    (willing f -> st = LKL_DEV_BLK_STATUS_OK /\ willing f').
Proof.
  intros Ht Hs Hok Hbs off. unfold blk_request. rewrite Ht. simpl. unfold do_rw.
  rewrite (sector_off _ Hs). fold off.
  destruct (rw_bufs_write (br_buf r) off 0 m f bs) as (f' & ret & -> & Hp & Hw);
    [done|lia|done|done|].
  simpl. do 2 eexists. split; [done|]. destruct (Z.ltb_spec ret 0).
  - split; [done|]. split; [by right|]. intros W. apply Hw in W. lia.
  - split; [intros _; by apply Hp|]. split; [by left|]. intros W. split; [done|]. by apply Hw.
Qed.

(** ** The block class on a host file *)

(** [req] is a virtio-blk request of type [ty] for sector [sec]: a 16-byte
    header, the data buffers and a one-byte status, none overlapping. *)
Record blk_req_at (m : mem) (req : virtio_req) (ty sec : Z) (data : list iovec) (t : Z) : Prop := {
  ba_bufs : exists h, rq_buf req = Iovec h 16 :: data ++ [Iovec t 1] /\
    load 4 h m = Some ty /\ is_Some (load 4 (h + 4) m) /\ load 8 (h + 8) m = Some sec;
  ba_data : data <> [] /\ bufs_ok data;
  ba_disj : bufs_disjoint (rq_buf req);
  ba_mapped : Forall (fun b => mapped m (iov_base b) (iov_len b)) (rq_buf req);
}.

Lemma bufs_disjoint_last bufs b b' :
  bufs_disjoint (bufs ++ [b]) -> b' ∈ bufs ->
  disjoint_ranges (iov_base b') (iov_len b') (iov_base b) (iov_len b).
Proof.
  induction bufs as [|c bufs IH]; intros Hd Hb; [set_solver|]. destruct Hd as [Hc Hd].
  apply elem_of_cons in Hb as [->|Hb]; [|by apply IH].
  rewrite list.Forall_forall in Hc. apply Hc. set_solver.
Qed.

Lemma blk_req_status_off m req ty sec data t b :
  blk_req_at m req ty sec data t -> b ∈ removelast (rq_buf req) ->
  disjoint_ranges (iov_base b) (iov_len b) t 1.
Proof.
  intros [(h & Hb & _) _ Hd _]. rewrite Hb in *.
  change (Iovec h 16 :: data ++ [Iovec t 1]) with ((Iovec h 16 :: data) ++ [Iovec t 1]) in *.
  rewrite removelast_last. apply (bufs_disjoint_last _ _ _ Hd).
Qed.

(** The service of a well-formed request is the backend's, plus the status. *)
Lemma blk_serve_ok {D} (ops : lkl_dev_blk_ops D) `{!BlkBackend ops} m req ty sec data t x :
  blk_req_at m req ty sec data t ->
  exists prio, forall m' x' st,
  request ops (LklBlkReq ty prio (u32 sec) data) m x = Some (m', x', st) ->
  exists m'', blk_serve ops req m x = Some (m'', x', 0) /\
    agree_outside (range t 1) m' m'' /\ load 1 t m'' = Some (u8 st).
Proof.
  intros Hreq. pose proof Hreq as [(h & Hb & Hty & [prio Hpr] & Hsec) [Hne Hok] Hd Hm].
  assert (mapped m t 1) as Hmt.
  { rewrite list.Forall_forall in Hm. apply (Hm (Iovec t 1)). rewrite Hb. set_solver. }
  assert (forall b, b ∈ Iovec h 16 :: data ->
    disjoint_ranges (iov_base b) (iov_len b) t 1) as Hoff.
  { intros b Hin. eapply blk_req_status_off; [exact Hreq|]. rewrite Hb.
    change (Iovec h 16 :: data ++ [Iovec t 1]) with ((Iovec h 16 :: data) ++ [Iovec t 1]).
    by rewrite removelast_last. }
  exists prio. intros m' x' st Hrq. unfold blk_serve. rewrite Hb.
  assert (length (Iovec h 16 :: data ++ [Iovec t 1]) = S (S (length data))) as Hlen.
  { simpl. rewrite length_app. simpl. lia. }
  rewrite Hlen. rewrite (proj2 (Nat.ltb_ge _ _)) by (destruct data; simpl; [done|lia]).
  cbn [lookup list_lookup mbind option_bind].
  replace ((Iovec h 16 :: data ++ [Iovec t 1]) !! (S (S (length data)) - 1)%nat)
    with (Some (Iovec t 1)).
  2:{ replace (S (S (length data)) - 1)%nat with (S (length data)) by lia. simpl.
      by rewrite list_lookup_middle. }
  destruct (store_some 1 t LKL_DEV_BLK_STATUS_IOERR m Hmt) as [m1 Hm1]. simpl. rewrite Hm1. simpl.
  pose proof (store_frame _ _ _ _ _ Hm1) as Hf1. simpl in Hf1.
  pose proof (Hoff _ (list_elem_of_here _ _)) as Hh. unfold disjoint_ranges in Hh. simpl in Hh.
  rewrite (load_frame 4 h _ _ _ Hf1), (load_frame 4 (h + 4) _ _ _ Hf1),
    (load_frame 8 (h + 8) _ _ _ Hf1) by (unfold range; simpl; lia).
  rewrite Hty, Hpr, Hsec. simpl. rewrite drop_0, take_app_length' by lia.
  edestruct (request_local (range t 1)) as (m2 & -> & Hag); [|exact Hrq|exact Hf1|..].
  { simpl. eapply Forall_impl; [|exact Hok]. simpl. lia. }
  { intros i (b & Hin & Hi). specialize (Hoff b (list_elem_of_further _ _ _ Hin)).
    unfold disjoint_ranges, range in *. lia. }
  simpl. destruct (store_some 1 t (u8 st) m2) as [m3 Hm3].
  { eapply mapped_frame; [exact Hag|]. eapply mapped_frame; [|exact Hmt].
    eapply request_frame; [|exact Hrq]. simpl. eapply Forall_impl; [|exact Hok]. simpl. lia. }
  rewrite Hm3. simpl. exists m3. split; [done|]. split.
  - eapply frame_trans; [exact Hag|]. by apply (store_frame 1) in Hm3.
  - rewrite (load_store_eq _ _ _ _ _ Hm3). f_equal. apply Z.mod_small. apply u8_range.
Qed.

Lemma iov_load_frame P bufs m m' :
  frame P m m' -> bufs_ok bufs -> (forall i, bufs_area bufs i -> ~ P i) ->
  iov_load bufs m' = iov_load bufs m.
Proof.
  intros Hf Hok. induction Hok as [|b bufs Hb Hok IH]; intros HP; [done|]. simpl.
  rewrite (load_bytes_frame _ _ P m m' Hf), IH; [done|..].
  - intros i (b' & Hb' & Hi). apply HP. exists b'. split; [set_solver|done].
  - intros i Hi. apply HP. exists b. split; [set_solver|]. unfold range in *. lia.
Qed.

Lemma blk_req_data_area m req ty sec data t i :
  blk_req_at m req ty sec data t -> bufs_area data i \/ range t 1 i -> bufs_area (rq_buf req) i.
Proof.
  intros [(h & Hb & _) _ _ _] [(b & Hin & Hi)|Hi]; rewrite Hb.
  - exists b. split; [set_solver|done].
  - exists (Iovec t 1). split; [set_solver|done].
Qed.

Lemma blk_req_at_frame P m m' req ty sec data t :
  frame P m m' -> (forall i, bufs_area (rq_buf req) i -> ~ P i) ->
  blk_req_at m req ty sec data t -> blk_req_at m' req ty sec data t.
Proof.
  intros Hf HP [(h & Hb & Hty & Hpr & Hsec) Hdt Hd Hm]. split; [|done|done|].
  - assert (forall i, range h 16 i -> ~ P i) as Hh.
    { intros i Hi. apply HP. rewrite Hb. exists (Iovec h 16). split; [set_solver|done]. }
    exists h. split; [done|].
    rewrite (load_frame 4 h _ _ _ Hf), (load_frame 4 (h + 4) _ _ _ Hf),
      (load_frame 8 (h + 8) _ _ _ Hf); [done|..];
      intros i Hi; apply Hh; unfold range in *; lia.
  - eapply Forall_impl; [|exact Hm]. intros b Hbm. by eapply mapped_frame.
Qed.

(** The data and the status of a request do not overlap. *)
Lemma blk_req_data_off m req ty sec data t i :
  blk_req_at m req ty sec data t -> bufs_area data i -> ~ range t 1 i.
Proof.
  intros Hreq (b & Hin & Hi) Ht.
  assert (disjoint_ranges (iov_base b) (iov_len b) t 1) as Hd.
  { eapply blk_req_status_off; [exact Hreq|]. destruct Hreq as [(h & -> & _) _ _ _].
    change (Iovec h 16 :: data ++ [Iovec t 1]) with ((Iovec h 16 :: data) ++ [Iovec t 1]).
    rewrite removelast_last. set_solver. }
  unfold disjoint_ranges, range in *. lia.
Qed.

Lemma blk_req_data_ok m req ty sec data t :
  blk_req_at m req ty sec data t -> bufs_disjoint data /\
  Forall (fun b => mapped m (iov_base b) (iov_len b)) data.
Proof.
  intros [(h & Hb & _) _ Hd Hm]. rewrite Hb in *. destruct Hd as [_ Hd].
  inversion Hm as [|?? _ Hm']; subst. apply Forall_app in Hm' as [Hm' _]. split; [|done].
  clear -Hd. induction data as [|b data IH]; [done|]. destruct Hd as [Hb Hd].
  split; [by apply Forall_app in Hb as [Hb _]|by apply IH].
Qed.

Lemma blk_req_ok m req ty sec data t : blk_req_at m req ty sec data t -> req_ok req.
Proof.
  intros [(h & Hb & _) [_ Hok] _ _]. unfold req_ok. rewrite Hb. constructor; [simpl; lia|].
  apply Forall_app. split; [|by repeat constructor].
  eapply Forall_impl; [|exact Hok]. simpl. lia.
Qed.

(** A write request served from a willing host. *)
Lemma blk_serve_write m req sec data t bs f :
  blk_req_at m req LKL_DEV_BLK_TYPE_WRITE sec data t -> 0 <= sec < 4294967296 ->
  iov_load data m = Some bs -> willing f ->
  exists m' f', blk_serve posix_blk_ops req m f = Some (m', f', 0) /\
    frame (range t 1) m m' /\ load 1 t m' = Some LKL_DEV_BLK_STATUS_OK /\
    f_data f' = file_write (512 * sec) bs (f_data f) /\ willing f'.
Proof.
  intros Hreq Hsec Hbs W. destruct (blk_serve_ok posix_blk_ops m req _ _ _ _ f Hreq) as [prio Hs].
  rewrite u32_id in Hs by lia.
  destruct (request_write_ok (LklBlkReq LKL_DEV_BLK_TYPE_WRITE prio sec data) m f bs)
    as (f' & st & E & Hok & _ & Hw); [done|done|apply Hreq|done|].
  destruct (Hw W) as [-> W']. destruct (Hs _ _ _ E) as (m' & E' & Hf & Hl).
  exists m', f'. split_and!; try done. by apply Hok.
Qed.

(** A read request served from a willing host. *)
Lemma blk_serve_read m req sec data t f :
  blk_req_at m req LKL_DEV_BLK_TYPE_READ sec data t -> 0 <= sec < 4294967296 ->
  512 * sec + sum_len data <= Z.of_nat (length (f_data f)) -> willing f ->
  exists m' f', blk_serve posix_blk_ops req m f = Some (m', f', 0) /\
    load 1 t m' = Some LKL_DEV_BLK_STATUS_OK /\
    iov_load data m' = Some (map u8 (file_bytes (512 * sec) (sum_len data) (f_data f))) /\
    f_data f' = f_data f.
Proof.
  intros Hreq Hsec He W. destruct (blk_serve_ok posix_blk_ops m req _ _ _ _ f Hreq) as [prio Hs].
  rewrite u32_id in Hs by lia. destruct (blk_req_data_ok _ _ _ _ _ _ Hreq) as [Hd Hm].
  pose proof (ba_data _ _ _ _ _ _ Hreq) as [_ Hok].
  destruct (request_read_ok (LklBlkReq LKL_DEV_BLK_TYPE_READ prio sec data) m f)
    as (m1 & f' & st & E & Hfd & Hst & _ & Hw); [done|done|done|done|].
  destruct (Hw W He) as [-> _]. destruct (Hst eq_refl) as [Hio _].
  destruct (Hs _ _ _ E) as (m' & E' & Hf & Hl). exists m', f'. split_and!; try done.
  rewrite (iov_load_frame _ _ _ _ Hf Hok) by (intros i; by eapply blk_req_data_off).
  eapply iov_load_store; [done|done| |exact Hio].
  rewrite length_file_bytes_eq; [simpl; pose proof (sum_len_nonneg _ Hok); lia|simpl; lia|].
  by apply sum_len_nonneg.
Qed.

(** ** Disks that behave like a file *)

(** What a user of a disk relies on, for requests with one data buffer: a disk
    that is ready stores and returns bytes as a file does, and stays ready. *)
Class FileBackend {D : Type} (ops : lkl_dev_blk_ops D) := {
  fb_data : D -> list Z;
  fb_ready : D -> Prop;
  fb_write : forall prio sec b m x bs,
    fb_ready x -> 0 <= sec < 4294967296 -> bufs_ok [b] ->
    load_bytes (Z.to_nat (iov_len b)) (iov_base b) m = Some bs ->
    exists x', request ops (LklBlkReq LKL_DEV_BLK_TYPE_WRITE prio sec [b]) m x =
        Some (m, x', LKL_DEV_BLK_STATUS_OK) /\
      fb_ready x' /\ fb_data x' = file_write (512 * sec) bs (fb_data x);
  fb_read : forall prio sec b m x,
    fb_ready x -> 0 <= sec < 4294967296 -> bufs_ok [b] -> mapped m (iov_base b) (iov_len b) ->
    512 * sec + iov_len b <= Z.of_nat (length (fb_data x)) ->
    exists m' x', request ops (LklBlkReq LKL_DEV_BLK_TYPE_READ prio sec [b]) m x =
        Some (m', x', LKL_DEV_BLK_STATUS_OK) /\
      fb_ready x' /\ fb_data x' = fb_data x /\
      store_bytes (iov_base b) (file_bytes (512 * sec) (iov_len b) (fb_data x)) m = Some m';
}.

#[export] Instance posix_file_backend : FileBackend posix_blk_ops.
Proof.
  refine {| fb_data := f_data; fb_ready := willing |}.
  - intros prio sec b m x bs W Hs Hb Hbs.
    destruct (request_write_ok (LklBlkReq LKL_DEV_BLK_TYPE_WRITE prio sec [b]) m x bs)
      as (f' & st & E & Hd & _ & Hw); [done|done|done|simpl; rewrite Hbs; simpl; by rewrite app_nil_r|].
    destruct (Hw W) as [-> W']. exists f'. split_and!; [done|done|by apply Hd].
  - intros prio sec b m x W Hs Hb Hm He.
    destruct (request_read_ok (LklBlkReq LKL_DEV_BLK_TYPE_READ prio sec [b]) m x)
      as (m' & f' & st & E & Hd & Hst & _ & Hw); [done|done|done|by repeat constructor|].
    cbn [br_sector br_buf sum_len foldr] in Hw, Hst. rewrite Z.add_0_r in Hw, Hst.
    destruct (Hw W He) as [-> W']. destruct (Hst eq_refl) as [Hio _].
    exists m', f'. split_and!; try done. cbn [iov_store] in Hio.
    apply bind_Some in Hio as (m1 & Hm1 & Hio). injection Hio as ->. rewrite <- Hm1. f_equal.
    symmetry. apply take_ge. inversion Hb as [|?? Hb1 _]; subst.
    pose proof (length_file_bytes_eq (512 * sec) (iov_len b) (f_data x)). lia.
Defined.

(** ** Properties *)

(** A block request on a host file always comes back with a status, however
    the host splits the transfers.  A read that reports success has filled the
    buffers with the bytes of the file from byte 512 * sector on, all of them
    present in the file; it never changes the file; and it does succeed when
    the host makes progress and the file is long enough. *)
Theorem blk_request_read r m f :
  br_type r = LKL_DEV_BLK_TYPE_READ -> 0 <= br_sector r < 4294967296 -> bufs_ok (br_buf r) ->
  Forall (fun b => mapped m (iov_base b) (iov_len b)) (br_buf r) ->
  let off := 512 * br_sector r in
  let n := sum_len (br_buf r) in
  exists m' f' st, blk_request r m f = Some (m', f', st) /\ f_data f' = f_data f /\
    (st = LKL_DEV_BLK_STATUS_OK ->
       iov_store (br_buf r) (file_bytes off n (f_data f)) m = Some m' /\
       (br_buf r <> [] -> off + n <= Z.of_nat (length (f_data f)))) /\
    (st = LKL_DEV_BLK_STATUS_OK \/ st = LKL_DEV_BLK_STATUS_IOERR) /\
    (willing f -> off + n <= Z.of_nat (length (f_data f)) -> st = LKL_DEV_BLK_STATUS_OK).
Proof.
  intros Ht Hs Hok Hm off n.
  destruct (request_read_ok r m f Ht Hs Hok Hm) as (m' & f' & st & E & Hd & H1 & H2 & H3).
  exists m', f', st. split_and!; try done. intros W He. by apply H3.
Qed.

(** what is written to a sector is what a later read of that sector
    returns, for any way of cutting both into buffers and for any way the host
    cuts the transfers. *)
Theorem blk_write_read_roundtrip rw rr m f bs :
  br_type rw = LKL_DEV_BLK_TYPE_WRITE -> br_type rr = LKL_DEV_BLK_TYPE_READ ->
  br_sector rw = br_sector rr -> 0 <= br_sector rr < 4294967296 ->
  bufs_ok (br_buf rw) -> bufs_ok (br_buf rr) -> br_buf rw <> [] ->
  iov_load (br_buf rw) m = Some bs ->
  Forall (fun b => mapped m (iov_base b) (iov_len b)) (br_buf rr) ->
  bufs_disjoint (br_buf rr) -> sum_len (br_buf rr) = sum_len (br_buf rw) -> willing f ->
  exists f1 m2 f2, blk_request rw m f = Some (m, f1, LKL_DEV_BLK_STATUS_OK) /\
    blk_request rr m f1 = Some (m2, f2, LKL_DEV_BLK_STATUS_OK) /\
    iov_load (br_buf rr) m2 = Some bs /\ f_data f2 = f_data f1.
Proof.
  intros Hw Hr Hsec Hs Hokw Hokr Hne Hbs Hm Hd Hsum W.
  destruct (request_write_ok rw m f bs) as (f1 & st & E1 & Hf1 & _ & Hw1);
    [done|lia|done|done|].
  destruct (Hw1 W) as [-> W1]. specialize (Hf1 eq_refl).
  pose proof (iov_load_length _ _ _ Hokw Hbs) as Hlen.
  pose proof (sum_len_pos _ Hokw Hne) as Hpos.
  assert (bs <> []) as Hbne by (intros ->; simpl in Hlen; lia).
  destruct (request_read_ok rr m f1) as (m2 & f2 & st & E2 & Hd2 & Hst & _ & Hw2); [done..|].
  destruct (Hw2 W1) as [-> _].
  { rewrite Hf1, length_file_write by (done || lia). lia. }
  destruct (Hst eq_refl) as [Hio _]. exists f1, m2, f2. split_and!; try done.
  rewrite Hf1, <- Hsec, Hsum, <- Hlen, file_bytes_write in Hio by lia.
  rewrite (iov_load_store _ bs m m2); [|done|done|lia|done]. f_equal. by eapply iov_load_u8.
Qed.

(** C7: end to end through the virtqueue: when a write and a read of the same
    sector are pending on the disk's queue, one notification serves both; the
    read's buffers then hold the written bytes, both statuses say success, and
    the file holds the bytes at 512 * sector. *)
Theorem disk_queue_write_read qidx q u aidx rw rr sec dw dr tw tr bs s :
  at_queue qidx q u aidx s -> q_ready q <> 0 -> 2 <= q_num q ->
  u16 (aidx - q_last_avail_idx q) = 2 ->
  pending 2 qidx (q_last_avail_idx q) (v_mem s) q = Some [rw; rr] ->
  off_rings q rw -> off_rings q rr ->
  blk_req_at (v_mem s) rw LKL_DEV_BLK_TYPE_WRITE sec dw tw ->
  blk_req_at (v_mem s) rr LKL_DEV_BLK_TYPE_READ sec dr tr ->
  (forall i, bufs_area (rq_buf rw) i -> ~ bufs_area (rq_buf rr) i) ->
  0 <= sec < 4294967296 -> sum_len dr = sum_len dw ->
  iov_load dw (v_mem s) = Some bs -> willing (v_ext s) ->
  exists s', virtio_process_queue (blk_ops posix_blk_ops) 3 qidx s = Ok (tt, s') /\
    iov_load dr (v_mem s') = Some bs /\
    load 1 tw (v_mem s') = Some LKL_DEV_BLK_STATUS_OK /\
    load 1 tr (v_mem s') = Some LKL_DEV_BLK_STATUS_OK /\
    f_data (v_ext s') = file_write (512 * sec) bs (f_data (v_ext s)).
Proof.
  intros Haq Hr Hnum Hn Hp Hoffw Hoffr Hw Hrd Hdis Hsec Hsum Hbs W.
  destruct (blk_serve_write _ _ _ _ _ _ _ Hw Hsec Hbs W) as (m1 & f1 & E1 & Hf1 & Hl1 & Hd1 & W1).
  pose proof (ba_data _ _ _ _ _ _ Hw) as [Hdne Hdok].
  pose proof (ba_data _ _ _ _ _ _ Hrd) as [_ Hrok].
  pose proof (iov_load_length _ _ _ Hdok Hbs) as Hlen.
  assert (forall i, range tw 1 i -> bufs_area (rq_buf rw) i) as Htw.
  { intros i Hi. eapply blk_req_data_area; [exact Hw|by right]. }
  assert (blk_req_at m1 rr LKL_DEV_BLK_TYPE_READ sec dr tr) as Hrd1.
  { eapply blk_req_at_frame; [exact Hf1| |exact Hrd]. intros i Hi Ht. by eapply Hdis, Hi; apply Htw. }
  destruct (blk_serve_read _ _ _ _ _ f1 Hrd1 Hsec) as (m2 & f2 & E2 & Hl2 & Hio & Hd2); [|done|].
  { rewrite Hd1, length_file_write; [lia|lia|].
    pose proof (sum_len_pos _ Hdok Hdne). intros ->. simpl in Hlen. lia. }
  rewrite Hd1, Hsum, <- Hlen, file_bytes_write, (iov_load_u8 _ _ _ Hbs) in Hio by lia.
  destruct (process_loop_ok (blk_ops posix_blk_ops) 3 [rw; rr] qidx q u aidx s (v_mem s) m2 f2 [0; 0])
    as (s' & E & _ & Hx & Hag & _); try done.
  { by repeat constructor. }
  { cbn [serve_all serve blk_serves]. rewrite E1. simpl. by rewrite E2. }
  { simpl. lia. }
  exists s'. split; [eapply process_queue_enter; [apply Haq|done..]|].
  assert (forall req i, off_rings q req -> bufs_area (rq_buf req) i -> ~ used_area q i) as Hused.
  { intros req i Hoff Hi Hu. apply (Hoff i Hi). by do 2 right. }
  split_and!.
  - rewrite (iov_load_frame _ _ _ _ Hag Hrok); [done|]. intros i Hi.
    eapply Hused; [exact Hoffr|]. eapply blk_req_data_area; [exact Hrd|by left].
  - rewrite (load_frame 1 tw _ _ _ Hag); [|intros i Hi; eapply Hused; [exact Hoffw|by apply Htw]].
    rewrite (load_frame 1 tw (bufs_area (rq_buf rr)) m1 m2); [done| |].
    + eapply blk_serve_frame; [apply _|by eapply blk_req_ok, Hrd|exact E2].
    + intros i Hi. by apply Hdis, Htw.
  - rewrite (load_frame 1 tr _ _ _ Hag); [done|]. intros i Hi.
    eapply Hused; [exact Hoffr|]. eapply blk_req_data_area; [exact Hrd|by right].
  - by rewrite Hx, Hd2.
Qed.

(** ** A concrete disk

    A queue of 8 entries holds a write of four bytes to sector 1 and a read of
    the same four bytes in two buffers; the host moves one byte in the first
    call and up to three in the second. *)
Module Demo.

Definition desc (addr len flags next : Z) : list Z :=
  le_bytes 8 addr ++ le_bytes 4 len ++ le_bytes 2 flags ++ le_bytes 2 next.

Definition header (ty sec : Z) : list Z := le_bytes 4 ty ++ le_bytes 4 0 ++ le_bytes 8 sec.

Definition m0 : mem :=
  put_bytes 4096 (desc 7168 16 1 1 ++ desc 7200 4 1 2 ++ desc 7216 1 0 0 ++
                  desc 7424 16 1 4 ++ desc 7456 2 1 5 ++ desc 7460 2 1 6 ++ desc 7472 1 0 0 ++
                  replicate 16 0)
  (put_bytes 5120 (le_bytes 2 0 ++ le_bytes 2 2 ++ le_bytes 2 0 ++ le_bytes 2 3 ++ replicate 14 0)
  (put_bytes 6144 (replicate 70 0)
  (put_bytes 7168 (header 1 1) (put_bytes 7200 [10; 20; 30; 40] (put_bytes 7216 [255]
  (put_bytes 7424 (header 0 1) (put_bytes 7456 [0; 0; 0; 0; 0; 0] (put_bytes 7472 [255] ∅)))))))).

Definition q0 : virtio_queue := VirtioQueue 32 8 1 0 4096 5120 6144 0 0.

Definition d0 : virtio_dev :=
  VirtioDev 2 0 0x120000000 0 0x120000000 0 0 [q0] 0 0 0 1 [] 0 0x80 0.

Definition f0 : hfile := HFile (replicate 600 7) [1; 3].

Definition s0 : vstate hfile := VState m0 d0 [] f0.

Definition dw : list iovec := [Iovec 7200 4].
Definition dr : list iovec := [Iovec 7456 2; Iovec 7460 2].
Definition rw : virtio_req := VirtioReq [Iovec 7168 16; Iovec 7200 4; Iovec 7216 1] 21 0 0.
Definition rr : virtio_req :=
  VirtioReq [Iovec 7424 16; Iovec 7456 2; Iovec 7460 2; Iovec 7472 1] 21 0 1.

Lemma q0_ok : queue_ok m0 q0.
Proof.
  split; [exists 3; split; [lia|done]|apply mapped_b_ok; vm_compute; reflexivity..| | |simpl; lia];
    unfold used_area, desc_area, avail_area, range; simpl; lia.
Qed.

Lemma at_q0 : at_queue 0 q0 0 2 s0.
Proof.
  split; [reflexivity|exact q0_ok|reflexivity|vm_compute; reflexivity|vm_compute; reflexivity].
Qed.

(** Membership in a concrete list of buffers, one buffer at a time. *)
Ltac each_buf :=
  repeat match goal with
  | H : bufs_area _ _ |- _ => destruct H as (? & H & ?)
  | H : _ ∈ _ :: _ |- _ => apply elem_of_cons in H as [->|H]
  | H : _ ∈ [] |- _ => by apply not_elem_of_nil in H
  end; unfold rings_area, desc_area, avail_area, used_area, range in *; simpl in *; try lia.

Lemma rw_off : off_rings q0 rw.
Proof. intros i Hi. simpl in Hi. each_buf. Qed.

Lemma rr_off : off_rings q0 rr.
Proof. intros i Hi. simpl in Hi. each_buf. Qed.

Ltac disj := repeat constructor; unfold disjoint_ranges; simpl; lia.

Lemma rw_at : blk_req_at m0 rw LKL_DEV_BLK_TYPE_WRITE 1 dw 7216.
Proof.
  split; [exists 7168; split_and!; vm_compute; eauto|split; [done|by repeat constructor]|disj|].
  repeat constructor; apply mapped_b_ok; vm_compute; reflexivity.
Qed.

Lemma rr_at : blk_req_at m0 rr LKL_DEV_BLK_TYPE_READ 1 dr 7472.
Proof.
  split; [exists 7424; split_and!; vm_compute; eauto|split; [done|by repeat constructor]|disj|].
  repeat constructor; apply mapped_b_ok; vm_compute; reflexivity.
Qed.

End Demo.

Lemma disk_queue_write_read_witness :
  exists s', virtio_process_queue (blk_ops posix_blk_ops) 3 0 Demo.s0 = Ok (tt, s') /\
    iov_load Demo.dr (v_mem s') = Some [10; 20; 30; 40] /\
    load 1 7216 (v_mem s') = Some 0 /\ load 1 7472 (v_mem s') = Some 0 /\
    f_data (v_ext s') = file_write 512 [10; 20; 30; 40] (replicate 600 7).
Proof.
  apply (disk_queue_write_read 0 Demo.q0 0 2 Demo.rw Demo.rr 1 Demo.dw Demo.dr 7216 7472).
  - exact Demo.at_q0.
  - done.
  - simpl. lia.
  - reflexivity.
  - vm_compute. reflexivity.
  - exact Demo.rw_off.
  - exact Demo.rr_off.
  - exact Demo.rw_at.
  - exact Demo.rr_at.
  - intros i Hw Hr. simpl in *. Demo.each_buf.
  - lia.
  - reflexivity.
  - vm_compute. reflexivity.
  - by repeat constructor.
Defined.

Lemma blk_request_read_witness :
  exists m' f' st,
    blk_request (LklBlkReq 0 0 1 Demo.dr) Demo.m0 Demo.f0 = Some (m', f', st) /\
    f_data f' = replicate 600 7 /\ st = LKL_DEV_BLK_STATUS_OK /\
    iov_store Demo.dr [7; 7; 7; 7] Demo.m0 = Some m'.
Proof.
  destruct (blk_request_read (LklBlkReq 0 0 1 Demo.dr) Demo.m0 Demo.f0)
    as (m' & f' & st & E & Hd & Hst & _ & Hw);
    [reflexivity|simpl; lia|by repeat constructor| |].
  { repeat constructor; apply mapped_b_ok; vm_compute; reflexivity. }
  exists m', f', st. split; [exact E|]. split; [exact Hd|].
  assert (st = LKL_DEV_BLK_STATUS_OK) as -> by (apply Hw; [by repeat constructor|by vm_compute]).
  split; [reflexivity|]. apply Hst. reflexivity.
Defined.

Lemma blk_write_read_roundtrip_witness :
  exists f1 m2 f2,
    blk_request (LklBlkReq 1 0 9 Demo.dw) Demo.m0 Demo.f0 = Some (Demo.m0, f1, 0) /\
    blk_request (LklBlkReq 0 0 9 Demo.dr) Demo.m0 f1 = Some (m2, f2, 0) /\
    iov_load Demo.dr m2 = Some [10; 20; 30; 40] /\ f_data f2 = f_data f1.
Proof.
  apply (blk_write_read_roundtrip (LklBlkReq 1 0 9 Demo.dw) (LklBlkReq 0 0 9 Demo.dr));
    [reflexivity|reflexivity|reflexivity|simpl; lia|by repeat constructor|by repeat constructor
    |done|vm_compute; reflexivity| |simpl; split; [|done]|reflexivity|by repeat constructor].
  - repeat constructor; apply mapped_b_ok; vm_compute; reflexivity.
  - simpl. Demo.disj.
Defined.

Lemma process_queue_drains_witness :
  exists s', virtio_process_queue (blk_ops posix_blk_ops) 3 0 Demo.s0 = Ok (tt, s') /\
    served 0 Demo.q0 0 [Demo.rw; Demo.rr] [0; 0] Demo.s0 s' /\
    signalled 0 Demo.q0 2 2 Demo.s0 s'.
Proof.
  set (r := serve_all (ops := blk_ops posix_blk_ops) [Demo.rw; Demo.rr] Demo.m0 Demo.f0).
  set (m' := match r with Some (m, _, _) => m | None => ∅ end).
  set (x' := match r with Some (_, x, _) => x | None => Demo.f0 end).
  destruct (process_queue_drains (blk_ops posix_blk_ops) 3 0 Demo.q0 0 2 [Demo.rw; Demo.rr]
    m' x' [0; 0] Demo.s0) as (s' & E & Hs & _ & _ & Hsig).
  - exact Demo.at_q0.
  - done.
  - reflexivity.
  - reflexivity.
  - reflexivity.
  - simpl. lia.
  - vm_compute. reflexivity.
  - constructor; [exact Demo.rw_off|constructor; [exact Demo.rr_off|constructor]].
  - vm_compute. reflexivity.
  - simpl. lia.
  - exists s'. split; [exact E|]. split; [exact Hs|]. by apply Hsig.
Defined.
