(* ===== verification/JsDisk.v ===== *)
(** * JsDisk

    src/disk.cc and lib/disk.js: the disk operations of the addon.  A block
    request becomes a call of [DiskWrapper.request] on the main thread, which
    calls the user's disk object; the callback of the promise brings the
    status back to the kernel thread.  The threads themselves are in Addon.v:
    here a request is the sequence of these calls.

    The user's disk is a parameter ([js_disk]); [JsFile] states what the
    documentation of the file-disk package promises of one. *)

From S2P Require Import Prelude Memory Virtio VirtioRing VirtioQueue VirtioBlk PosixHost.

(** ** JavaScript values and promises *)

(** A value as far as [IsNull] and [IntegerValue] can tell: a number (already
    truncated to an integer), or something that converts to NaN, as an Error
    does. *)
Inductive jsval := JNull | JUndefined | JNumber (z : Z) | JObject.

(** v8::Value::IntegerValue, an int64_t. *)
Definition IntegerValue (v : jsval) : Z :=
  match v with
  | JNumber z => Z.max (- 2 ^ 63) (Z.min (2 ^ 63 - 1) z)
  | JNull | JUndefined | JObject => 0
  end.

Definition IsNull (v : jsval) : bool := if v is JNull then true else false.

Definition truthy (v : jsval) : bool :=
  match v with JNull | JUndefined => false | JNumber z => negb (z =? 0) | JObject => true end.

(** What a method of the user's disk does: it throws, or the promise it returns
    is fulfilled, rejected or left alone. *)
Inductive outcome := Throws | Fulfilled (v : jsval) | Rejected (e : jsval) | Pending.

(** The arguments of the callback after [Bluebird.resolve(p).asCallback(callback)];
    Bluebird wraps a reason that is not truthy in an Error. *)
Inductive called := Called (args : list jsval) | NeverCalled | Uncaught.

Definition asCallback (p : outcome) : called :=
  match p with
  | Fulfilled v => Called [JNull; v]
  | Rejected e => Called [if truthy e then e else JObject]
  | Pending => NeverCalled
  | Throws => Uncaught
  end.

(** [info[i]]; an argument that was not passed is undefined. *)
Definition info (args : list jsval) (i : nat) : jsval := default JUndefined (args !! i).

(** ** The disk object *)

(** [read(buf, 0, buf.length, offset)] gets the contents of the Buffer and gives
    what it wrote, from the start of it. *)
Record js_disk (D : Type) := JsDisk {
  jd_read : list Z -> Z -> D -> D * list Z * outcome;
  jd_write : list Z -> Z -> D -> D * outcome;
  jd_flush : D -> D * outcome;
  jd_getCapacity : D -> D * outcome;
}.
Arguments jd_read {D} _ _ _ _.
Arguments jd_write {D} _ _ _ _.
Arguments jd_flush {D} _ _.
Arguments jd_getCapacity {D} _ _.

(** A Buffer after [bs] was stored from its start: a typed array ignores what
    lies past its end. *)
Definition buf_put (old bs : list Z) : list Z := take (length old) bs ++ drop (length bs) old.

Section Disk.
Context {D : Type} (disk : js_disk D).

(** DiskWrapper.request.  [iovecs] are Buffers over the memory of the process;
    [buf.length] of no Buffer at all is a TypeError. *)
Definition DiskWrapper_request (type offset : Z) (iovecs : list iovec) (m : mem) (x : D)
  : option (mem * D * called) :=
  if type =? LKL_DEV_BLK_TYPE_READ then
    match iovecs with
    | [] => Some (m, x, Uncaught)
    | buf :: _ =>
        old ← load_bytes (Z.to_nat (iov_len buf)) (iov_base buf) m;
        let '(x, bs, p) := jd_read disk old offset x in
        m ← store_bytes (iov_base buf) (buf_put old bs) m;
        Some (m, x, asCallback p)
    end
  else if type =? LKL_DEV_BLK_TYPE_WRITE then
    match iovecs with
    | [] => Some (m, x, Uncaught)
    | buf :: _ =>
        bs ← load_bytes (Z.to_nat (iov_len buf)) (iov_base buf) m;
        let '(x, p) := jd_write disk bs offset x in
        Some (m, x, asCallback p)
    end
  else if (type =? LKL_DEV_BLK_TYPE_FLUSH) || (type =? LKL_DEV_BLK_TYPE_FLUSH_OUT) then
    let '(x, p) := jd_flush disk x in
    Some (m, x, asCallback p)
  else Some (m, x, NeverCalled).

Definition DiskWrapper_getCapacity (x : D) : D * called :=
  let '(x, p) := jd_getCapacity disk x in (x, asCallback p).

(** ** The native side *)

(** How a call that waits for JavaScript ends: it returns, it waits for ever,
    or an exception nobody catches ends the process. *)
Inductive ended (A : Type) := Returns (a : A) | Waits | Exits.
Arguments Returns {A} _.
Arguments Waits {A}.
Arguments Exits {A}.

Definition wait_for {A} (done : list jsval -> A) (c : called) : ended A :=
  match c with Called args => Returns (done args) | NeverCalled => Waits | Uncaught => Exits end.

(** request_done: what it leaves in [s->ret], an int. *)
Definition request_done (args : list jsval) : Z :=
  if IsNull (info args 0) then 0 else s32 (IntegerValue (info args 0)).

(** get_capacity_done: [s->ret] and [*s->res]. *)
Definition get_capacity_done (args : list jsval) : Z * Z :=
  if IsNull (info args 0) then (0, u64 (IntegerValue (info args 1)))
  else (s32 (IntegerValue (info args 0)), 0).

(** The byte offset goes to JavaScript as a double; it is exact for the 32-bit
    sector numbers of the block class. *)
Definition js_request (r : lkl_blk_req) (m : mem) (x : D) : option (mem * D * called) :=
  DiskWrapper_request (br_type r) (u64 (br_sector r * 512)) (br_buf r) m x.

Definition js_request_entry (r : lkl_blk_req) (m : mem) (x : D) : option (mem * D * ended Z) :=
  '(m, x, c) ← js_request r m x; Some (m, x, wait_for request_done c).

Definition js_get_capacity_entry (x : D) : D * ended (Z * Z) :=
  let '(x, c) := DiskWrapper_getCapacity x in (x, wait_for get_capacity_done c).

(** lkl_js_disk_ops, for the calls that come back. *)
Definition lkl_js_disk_ops : lkl_dev_blk_ops D :=
  LklDevBlkOps
    (fun x => match js_get_capacity_entry x with
              | (x, Returns (ret, res)) => Some (x, ret, Some res)
              | _ => None
              end)
    (fun r m x => '(m, x, e) ← js_request_entry r m x;
                  if e is Returns ret then Some (m, x, ret) else None).

(** ** The backend contract *)

Lemma length_buf_put old bs : length (buf_put old bs) = length old.
Proof. unfold buf_put. rewrite length_app, length_take, length_drop. lia. Qed.

Lemma wrapper_frame type off bufs m x m' x' c :
  Forall (fun b => 0 < iov_len b) bufs ->
  DiskWrapper_request type off bufs m x = Some (m', x', c) -> frame (bufs_area bufs) m m'.
Proof.
  intros HF. unfold DiskWrapper_request. destruct (_ =? _); [|destruct (_ =? _)];
    [| |destruct (_ || _); [destruct (jd_flush _ _)|]; intros; by simplify_eq].
  - destruct bufs as [|b bufs]; intros H; [by simplify_eq|].
    apply bind_Some in H as (old & Hold & H). destruct (jd_read _ _ _ _) as [[x1 bs] p].
    apply bind_Some in H as (m1 & Hm1 & H). simplify_eq.
    apply store_bytes_frame in Hm1. eapply frame_weaken; [|exact Hm1]. intros i Hi.
    exists b. split; [set_solver|]. apply load_bytes_length in Hold.
    rewrite length_buf_put, Hold in Hi. inversion HF; subst. unfold range in *. lia.
  - destruct bufs as [|b bufs]; intros H; [by simplify_eq|].
    apply bind_Some in H as (bs & _ & H). destruct (jd_write _ _ _ _) as [x1 p]. by simplify_eq.
Qed.

Lemma wrapper_local P type off bufs m1 m2 x m1' x' c :
  Forall (fun b => 0 < iov_len b) bufs ->
  DiskWrapper_request type off bufs m1 x = Some (m1', x', c) ->
  agree_outside P m1 m2 -> (forall i, bufs_area bufs i -> ~ P i) ->
  exists m2', DiskWrapper_request type off bufs m2 x = Some (m2', x', c) /\ agree_outside P m1' m2'.
Proof.
  intros HF H Hag HP. unfold DiskWrapper_request in *. destruct (_ =? _); [|destruct (_ =? _)].
  3:{ destruct (_ || _); [destruct (jd_flush _ _)|]; simplify_eq; eauto. }
  all: destruct bufs as [|b bufs]; [simplify_eq; eauto|].
  all: inversion HF; subst.
  all: assert (load_bytes (Z.to_nat (iov_len b)) (iov_base b) m2 =
         load_bytes (Z.to_nat (iov_len b)) (iov_base b) m1) as ->
    by (eapply load_bytes_frame; [exact Hag|]; intros i Hi; apply HP; exists b;
        split; [set_solver|unfold range in *; lia]).
  all: apply bind_Some in H as (old & -> & H); cbn [mbind option_bind].
  - destruct (jd_read _ _ _ _) as [[x1 bs] p]. apply bind_Some in H as (m & Hm & H). simplify_eq.
    destruct (store_bytes_local P _ _ _ m2 _ Hm Hag) as (m' & -> & Hag'). simpl. eauto.
  - destruct (jd_write _ _ _ _) as [x1 p]. simplify_eq. eauto.
Qed.

#[export] Instance js_blk_backend : BlkBackend lkl_js_disk_ops.
Proof.
  split; cbn [request lkl_js_disk_ops]; unfold js_request_entry, js_request.
  - intros r m x m' x' st HF H. apply bind_Some in H as ([[m1 x1] e] & H & He).
    apply bind_Some in H as ([[m2 x2] c] & H & Hc). simplify_eq.
    destruct (wait_for request_done c) as [a| |]; simplify_eq. by eapply wrapper_frame.
  - intros P r m1 m2 x m1' x' st HF H Hag HP. apply bind_Some in H as ([[m3 x1] e] & H & He).
    apply bind_Some in H as ([[m4 x2] c] & H & Hc). simplify_eq.
    destruct (wrapper_local P _ _ _ _ m2 _ _ _ _ HF H Hag HP) as (m5 & -> & Hag').
    cbn [mbind option_bind]. destruct (wait_for request_done c) as [a| |]; simplify_eq. eauto.
Qed.

(** ** Disks that behave like a file *)

(** What the documentation of file-disk promises of a disk: [read] fills the
    Buffer with the bytes at the offset, [write] stores it there, and both
    promises are fulfilled. *)
Class JsFile := {
  jf_data : D -> list Z;
  jf_read : forall old off x, 0 <= off ->
    off + Z.of_nat (length old) <= Z.of_nat (length (jf_data x)) ->
    exists x' v, jd_read disk old off x =
        (x', file_bytes off (Z.of_nat (length old)) (jf_data x), Fulfilled v) /\
      jf_data x' = jf_data x;
  jf_write : forall bs off x, 0 <= off ->
    exists x' v, jd_write disk bs off x = (x', Fulfilled v) /\
      jf_data x' = file_write off bs (jf_data x);
}.

Lemma buf_put_full old bs : length bs = length old -> buf_put old bs = bs.
Proof. intros H. unfold buf_put. rewrite take_ge, drop_ge by lia. apply app_nil_r. Qed.

#[export] Instance js_file_backend `{!JsFile} : FileBackend lkl_js_disk_ops.
Proof.
  refine {| fb_data := jf_data; fb_ready _ := True |}; intros prio sec b m x.
  - intros bs _ Hs Hb Hbs. cbn [request lkl_js_disk_ops].
    unfold js_request_entry, js_request, DiskWrapper_request. cbn [br_type br_sector br_buf].
    rewrite u64_id by lia. cbn [LKL_DEV_BLK_TYPE_WRITE LKL_DEV_BLK_TYPE_READ Z.eqb Pos.eqb].
    rewrite Hbs. cbn [mbind option_bind].
    destruct (jf_write bs (sec * 512) x) as (x' & v & -> & Hd); [lia|]. cbn.
    exists x'. split_and!; [done|done|]. by rewrite Hd, Z.mul_comm.
  - intros _ Hs Hb Hm He. inversion Hb as [|?? Hb1 _]; subst. cbn [request lkl_js_disk_ops].
    unfold js_request_entry, js_request, DiskWrapper_request. cbn [br_type br_sector br_buf].
    rewrite u64_id by lia. cbn [LKL_DEV_BLK_TYPE_READ Z.eqb].
    destruct (load_bytes_some (Z.to_nat (iov_len b)) (iov_base b) m) as [old Hold].
    { by rewrite Z2Nat.id by lia. }
    rewrite Hold. cbn [mbind option_bind]. apply load_bytes_length in Hold.
    assert (Z.of_nat (length old) = iov_len b) as Hlen by lia.
    destruct (jf_read old (sec * 512) x) as (x' & v & -> & Hd); [lia|lia|]. rewrite Hlen.
    assert (length (file_bytes (sec * 512) (iov_len b) (jf_data x)) = length old) as Hfb.
    { pose proof (length_file_bytes_eq (sec * 512) (iov_len b) (jf_data x)). lia. }
    rewrite buf_put_full by done.
    destruct (store_bytes_some (iov_base b) (file_bytes (sec * 512) (iov_len b) (jf_data x)) m)
      as [m' Hm']. { by rewrite Hfb, Hlen. }
    rewrite Hm'. cbn. exists m', x'. split_and!; try done. by rewrite Z.mul_comm.
Defined.

End Disk.

(** ** A disk in memory *)

Module JsDemo.

Definition list_disk : js_disk (list Z) := {|
  jd_read old off x := (x, file_bytes off (Z.of_nat (length old)) x, Fulfilled JUndefined);
  jd_write bs off x := (file_write off bs x, Fulfilled JUndefined);
  jd_flush x := (x, Fulfilled JUndefined);
  jd_getCapacity x := (x, Fulfilled (JNumber (Z.of_nat (length x))));
|}.

#[global] Instance list_disk_file : JsFile list_disk.
Proof. refine {| jf_data x := x |}; simpl; eauto. Defined.

End JsDemo.
