(* ===== verification/VirtioMmio.v ===== *)
(** * VirtioMmio

    The guest's side of the register window: drivers/virtio/virtio_mmio.c and
    the feature negotiation of drivers/virtio/virtio.c, running against the
    device of tools/lkl/lib/virtio.c.  A register access of the guest
    (arch/lkl/include/asm/io.h) ends in [virtio_read] or [virtio_write]; the
    routing by address is the subject of [Iomem]. *)

From S2P Require Import Prelude Memory Virtio VirtioRing VirtioQueue VirtioBlk.

Definition VIRTIO_MMIO_GUEST_PAGE_SIZE : Z := 0x028.
Definition VIRTIO_MMIO_QUEUE_ALIGN : Z := 0x03c.
Definition VIRTIO_MMIO_QUEUE_PFN : Z := 0x040.

Definition VIRTIO_CONFIG_S_ACKNOWLEDGE : Z := 1.
Definition VIRTIO_CONFIG_S_DRIVER : Z := 2.
Definition VIRTIO_CONFIG_S_DRIVER_OK : Z := 4.
Definition VIRTIO_CONFIG_S_FAILED : Z := 0x80.

Definition VIRTIO_TRANSPORT_F_START : Z := 28.
Definition VIRTIO_TRANSPORT_F_END : Z := 34.
Definition VIRTIO_RING_F_INDIRECT_DESC : Z := 28.
Definition VIRTIO_F_IOMMU_PLATFORM : Z := 33.

Definition ENODEV : Z := 19.
Definition ENXIO : Z := 6.

(** ** Feature bits *)

Definition transport_bits : list Z := [28; 29; 30; 31; 32; 33].

Definition virtio_test_bit (features fbit : Z) : bool := negb (Z.land features (BIT fbit) =? 0).
Definition virtio_set_bit (features fbit : Z) : Z := Z.lor features (BIT fbit).
Definition virtio_clear_bit (features fbit : Z) : Z := Z.ldiff features (BIT fbit).

Definition vring_transport_features (features : Z) : Z :=
  fold_left (fun f i =>
    if (i =? VIRTIO_RING_F_INDIRECT_DESC) || (i =? VIRTIO_RING_F_EVENT_IDX) ||
       (i =? VIRTIO_F_VERSION_1) || (i =? VIRTIO_F_IOMMU_PLATFORM)
    then f else virtio_clear_bit f i) transport_bits features.

(** ** The transport driver *)

Section Guest.
Context {D : Type} (ops : virtio_dev_ops D) (fuel : nat).
Abbreviation VM := (M (vstate D)).

(** __raw_read{b,w,l} and __raw_write{b,w,l}: a failed access only warns; the
    value of a failed read is indeterminate. *)
Definition raw_read (n : nat) (off : Z) : VM Z :=
  let* '(ret, bs) := virtio_read off (Z.of_nat n) in
  if ret =? 0 then retM (le_value bs) else failM Segv.

Definition raw_write (n : nat) (value off : Z) : VM unit :=
  let* _ := virtio_write ops fuel off (le_bytes n value) (Z.of_nat n) in retM tt.

Definition readb : Z -> VM Z := raw_read 1.
Definition readw : Z -> VM Z := raw_read 2.
Definition readl : Z -> VM Z := raw_read 4.
Definition writeb : Z -> Z -> VM unit := raw_write 1.
Definition writew : Z -> Z -> VM unit := raw_write 2.
Definition writel : Z -> Z -> VM unit := raw_write 4.

Definition vm_get_features : VM Z :=
  writel 1 VIRTIO_MMIO_DEVICE_FEATURES_SEL ;;;
  let* features := readl VIRTIO_MMIO_DEVICE_FEATURES in
  let features := u64 (Z.shiftl features 32) in
  writel 0 VIRTIO_MMIO_DEVICE_FEATURES_SEL ;;;
  let* low := readl VIRTIO_MMIO_DEVICE_FEATURES in
  retM (Z.lor features low).

(** Returns the code and [vdev->features]. *)
Definition vm_finalize_features (version features : Z) : VM (Z * Z) :=
  let features := vring_transport_features features in
  if (version =? 2) && negb (virtio_test_bit features VIRTIO_F_VERSION_1) then
    retM (- EINVAL, features)
  else
    writel 1 VIRTIO_MMIO_DRIVER_FEATURES_SEL ;;;
    writel (u32 (Z.shiftr features 32)) VIRTIO_MMIO_DRIVER_FEATURES ;;;
    writel 0 VIRTIO_MMIO_DRIVER_FEATURES_SEL ;;;
    writel (u32 features) VIRTIO_MMIO_DRIVER_FEATURES ;;;
    retM (0, features).

(** The byte loops of the legacy layout. *)
Fixpoint get_bytes (off : Z) (n : nat) : VM (list Z) :=
  match n with
  | O => retM []
  | S n' =>
      let* b := readb off in
      let* rest := get_bytes (off + 1) n' in
      retM (b :: rest)
  end.

Fixpoint set_bytes (off : Z) (buf : list Z) : VM unit :=
  match buf with
  | [] => retM tt
  | b :: buf' => writeb b off ;;; set_bytes (off + 1) buf'
  end.

Definition vm_get (version offset : Z) (len : nat) : VM (list Z) :=
  let base := VIRTIO_MMIO_CONFIG in
  if version =? 1 then get_bytes (base + offset) len
  else match len with
  | 1%nat => let* b := readb (base + offset) in retM (le_bytes 1 b)
  | 2%nat => let* w := readw (base + offset) in retM (le_bytes 2 w)
  | 4%nat => let* l := readl (base + offset) in retM (le_bytes 4 l)
  | 8%nat =>
      let* l := readl (base + offset) in
      let* h := readl (base + offset + 4) in
      retM (le_bytes 4 l ++ le_bytes 4 h)
  | _ => failM Panicked
  end.

Definition vm_set (version offset : Z) (buf : list Z) : VM unit :=
  let base := VIRTIO_MMIO_CONFIG in
  if version =? 1 then set_bytes (base + offset) buf
  else match length buf with
  | 1%nat => writeb (le_value buf) (base + offset)
  | 2%nat => writew (le_value buf) (base + offset)
  | 4%nat => writel (le_value buf) (base + offset)
  | 8%nat =>
      writel (le_value (take 4 buf)) (base + offset) ;;;
      writel (le_value (drop 4 buf)) (base + offset + 4)
  | _ => failM Panicked
  end.

Definition vm_generation (version : Z) : VM Z :=
  if version =? 1 then retM 0 else readl VIRTIO_MMIO_CONFIG_GENERATION.

Definition vm_get_status : VM Z :=
  let* v := readl VIRTIO_MMIO_STATUS in retM (Z.land v 0xff).

Definition vm_set_status (status : Z) : VM unit :=
  if status =? 0 then failM Panicked else writel status VIRTIO_MMIO_STATUS.

Definition vm_reset : VM unit := writel 0 VIRTIO_MMIO_STATUS.

Definition vm_notify (index : Z) : VM bool :=
  writel index VIRTIO_MMIO_QUEUE_NOTIFY ;;; retM true.

(** What [vring_create_virtqueue] gives: the ring size and the three ring
    addresses, or NULL. *)
Record vring_layout := VringLayout { vl_num : Z; vl_desc : Z; vl_avail : Z; vl_used : Z }.

(** [kmalloc] says whether [info] could be allocated, [create] is
    [vring_create_virtqueue] for this queue. *)
Definition vm_setup_vq (version index : Z) (kmalloc : bool) (create : Z -> option vring_layout)
  : VM Z :=
  writel index VIRTIO_MMIO_QUEUE_SEL ;;;
  let* busy := readl (if version =? 1 then VIRTIO_MMIO_QUEUE_PFN else VIRTIO_MMIO_QUEUE_READY) in
  if negb (busy =? 0) then retM (- ENOENT)
  else if negb kmalloc then retM (- ENOMEM)
  else
    let error_new_virtqueue err :=
      (if version =? 1 then writel 0 VIRTIO_MMIO_QUEUE_PFN
       else writel 0 VIRTIO_MMIO_QUEUE_READY ;;;
            let* _ := readl VIRTIO_MMIO_QUEUE_READY in retM tt) ;;;
      retM err in
    let* num := readl VIRTIO_MMIO_QUEUE_NUM_MAX in
    if num =? 0 then error_new_virtqueue (- ENOENT)
    else match create num with
    | None => error_new_virtqueue (- ENOMEM)
    | Some vq =>
        writel (vl_num vq) VIRTIO_MMIO_QUEUE_NUM ;;;
        (if version =? 1 then
           writel PAGE_SIZE VIRTIO_MMIO_QUEUE_ALIGN ;;;
           writel (u32 (Z.shiftr (vl_desc vq) 12)) VIRTIO_MMIO_QUEUE_PFN
         else
           writel (u32 (vl_desc vq)) VIRTIO_MMIO_QUEUE_DESC_LOW ;;;
           writel (u32 (Z.shiftr (vl_desc vq) 32)) VIRTIO_MMIO_QUEUE_DESC_HIGH ;;;
           writel (u32 (vl_avail vq)) VIRTIO_MMIO_QUEUE_AVAIL_LOW ;;;
           writel (u32 (Z.shiftr (vl_avail vq) 32)) VIRTIO_MMIO_QUEUE_AVAIL_HIGH ;;;
           writel (u32 (vl_used vq)) VIRTIO_MMIO_QUEUE_USED_LOW ;;;
           writel (u32 (Z.shiftr (vl_used vq) 32)) VIRTIO_MMIO_QUEUE_USED_HIGH ;;;
           writel 1 VIRTIO_MMIO_QUEUE_READY) ;;;
        retM 0
    end.

(** The register accesses of [vm_del_vq]. *)
Definition vm_del_vq (version index : Z) : VM unit :=
  writel index VIRTIO_MMIO_QUEUE_SEL ;;;
  if version =? 1 then writel 0 VIRTIO_MMIO_QUEUE_PFN
  else
    writel 0 VIRTIO_MMIO_QUEUE_READY ;;;
    let* _ := readl VIRTIO_MMIO_QUEUE_READY in retM tt.

(** The checks of [virtio_mmio_probe]: a code, or version, device and vendor. *)
Definition virtio_mmio_probe : VM (Z + (Z * Z * Z)) :=
  let* magic := readl VIRTIO_MMIO_MAGIC_VALUE in
  if negb (magic =? 0x74726976) then retM (inl (- ENODEV))
  else
    let* version := readl VIRTIO_MMIO_VERSION in
    if (version <? 1) || (2 <? version) then retM (inl (- ENXIO))
    else
      let* device := readl VIRTIO_MMIO_DEVICE_ID in
      if device =? 0 then retM (inl (- ENODEV))
      else
        let* vendor := readl VIRTIO_MMIO_VENDOR_ID in
        (if version =? 1 then writel PAGE_SIZE VIRTIO_MMIO_GUEST_PAGE_SIZE else retM tt) ;;;
        retM (inr (version, device, vendor)).

(** ** The virtio core (drivers/virtio/virtio.c) *)

Definition add_status (status : Z) : VM unit :=
  let* old := vm_get_status in vm_set_status (Z.lor old status).

Definition virtio_finalize_features (version features : Z) : VM (Z * Z) :=
  let* '(ret, features) := vm_finalize_features version features in
  if negb (ret =? 0) then retM (ret, features)
  else if negb (virtio_test_bit features VIRTIO_F_VERSION_1) then retM (0, features)
  else
    add_status VIRTIO_CONFIG_S_FEATURES_OK ;;;
    let* status := vm_get_status in
    if Z.land status VIRTIO_CONFIG_S_FEATURES_OK =? 0 then retM (- ENODEV, features)
    else retM (0, features).

(** [1ULL << f] for every entry of a driver's table. *)
Definition feature_mask (table : list Z) : Z :=
  fold_left (fun m f => Z.lor m (BIT f)) table 0.

(** The negotiation of [virtio_dev_probe], up to [drv->probe]; [legacy] is the
    driver's legacy table if it has one. *)
Definition probe_features (version : Z) (table : list Z) (legacy : option (list Z)) : VM (Z * Z) :=
  add_status VIRTIO_CONFIG_S_DRIVER ;;;
  let* device_features := vm_get_features in
  if existsb (fun f => 64 <=? f) (table ++ default [] legacy) then failM Panicked
  else
    let driver_features := feature_mask table in
    let driver_features_legacy :=
      match legacy with Some t => feature_mask t | None => driver_features end in
    let features :=
      if virtio_test_bit device_features VIRTIO_F_VERSION_1
      then Z.land driver_features device_features
      else Z.land driver_features_legacy device_features in
    let features :=
      fold_left (fun f i => if virtio_test_bit device_features i then virtio_set_bit f i else f)
        transport_bits features in
    let* '(err, features) := virtio_finalize_features version features in
    (if negb (err =? 0) then add_status VIRTIO_CONFIG_S_FAILED else retM tt) ;;;
    retM (err, features).

End Guest.

(** ** Lemmas *)

Section Lemmas.
Context {D : Type} (ops : virtio_dev_ops D) (fuel : nat).
Implicit Types s : vstate D.

(** The state with another device. *)
Definition set_dev (d : virtio_dev) s : vstate D := VState (v_mem s) d (v_irqs s) (v_ext s).

Lemma word_value v : 0 <= v < 4294967296 -> le_value (take 4 (le_bytes 4 v)) = v.
Proof.
  intros Hv. rewrite take_ge by (by rewrite length_le_bytes).
  rewrite le_value_bytes. by apply Z.mod_small.
Qed.

(** A register write that changes the device only. *)
Definition dev_reg (reg v : Z) (d : virtio_dev) : option virtio_dev :=
  if reg =? VIRTIO_MMIO_DEVICE_FEATURES_SEL then
    if 1 <? v then None else Some (with_device_features_sel v d)
  else if reg =? VIRTIO_MMIO_DRIVER_FEATURES_SEL then
    if 1 <? v then None else Some (with_driver_features_sel v d)
  else if reg =? VIRTIO_MMIO_DRIVER_FEATURES then Some (virtio_write_driver_features d v)
  else if reg =? VIRTIO_MMIO_QUEUE_SEL then Some (with_queue_sel v d)
  else if reg =? VIRTIO_MMIO_INTERRUPT_ACK then Some (with_int_status 0 d)
  else if reg =? VIRTIO_MMIO_STATUS then Some (set_status ops v d)
  else None.

(** A register write that changes the selected queue only. *)
Definition queue_reg (reg v : Z) : option (virtio_queue -> virtio_queue) :=
  if reg =? VIRTIO_MMIO_QUEUE_NUM then Some (with_queue_num v)
  else if reg =? VIRTIO_MMIO_QUEUE_READY then Some (with_queue_ready v)
  else if reg =? VIRTIO_MMIO_QUEUE_DESC_LOW then Some (fun q => with_desc (set_ptr_low (q_desc q) v) q)
  else if reg =? VIRTIO_MMIO_QUEUE_DESC_HIGH then Some (fun q => with_desc (set_ptr_high (q_desc q) v) q)
  else if reg =? VIRTIO_MMIO_QUEUE_AVAIL_LOW then Some (fun q => with_avail (set_ptr_low (q_avail q) v) q)
  else if reg =? VIRTIO_MMIO_QUEUE_AVAIL_HIGH then Some (fun q => with_avail (set_ptr_high (q_avail q) v) q)
  else if reg =? VIRTIO_MMIO_QUEUE_USED_LOW then Some (fun q => with_used (set_ptr_low (q_used q) v) q)
  else if reg =? VIRTIO_MMIO_QUEUE_USED_HIGH then Some (fun q => with_used (set_ptr_high (q_used q) v) q)
  else None.

Ltac reg_cases :=
  repeat match goal with
  | |- context [?r =? ?c] =>
      is_var r; let E := fresh in destruct (Z.eqb_spec r c) as [E|E];
        [subst; try done|]
  end; try done.

Lemma writel_dev reg v d' s :
  0 <= v < 4294967296 -> dev_reg reg v (v_dev s) = Some d' ->
  writel ops fuel v reg s = Ok (tt, set_dev d' s).
Proof.
  intros Hv. unfold dev_reg, writel, raw_write, virtio_write, bindM, get_dev.
  rewrite (word_value _ Hv). reg_cases.
  all: try (intros [= <-]; done).
  all: vm_compute (VIRTIO_MMIO_CONFIG <=? _).
  all: cbn -[Z.ltb]; destruct (1 <? v); by intros [= <-].
Qed.

Lemma writel_queue reg v f q s :
  0 <= v < 4294967296 -> queue_reg reg v = Some f ->
  queue_at (d_queue_sel (v_dev s)) (v_dev s) = Some q ->
  writel ops fuel v reg s = Ok (tt, set_dev (upd_queue (d_queue_sel (v_dev s)) f (v_dev s)) s).
Proof.
  intros Hv Hr Hq. unfold writel, raw_write, virtio_write.
  rewrite bindM_assoc, (bindM_ok _ _ s _ _ (eq_refl : get_dev s = Ok (v_dev s, s))).
  rewrite (word_value _ Hv). revert Hr. unfold queue_reg. reg_cases.
  all: intros [= <-]; unfold bindM; cbn -[mod_queue upd_queue Z.ltb];
    change (negb (Z.of_nat 4 =? 4)) with false; cbn iota beta; by rewrite (mod_queue_ok _ _ _ _ Hq).
Qed.

(** A 4-byte read. *)
Lemma readl_ok reg v s :
  0 <= v < 4294967296 -> virtio_read reg 4 s = Ok ((0, le_bytes 4 v), s) ->
  readl reg s = Ok (v, s).
Proof.
  intros Hv E. unfold readl, raw_read. rewrite (bindM_ok _ _ _ _ _ E). cbn beta iota.
  rewrite le_value_bytes, Z.mod_small by done. done.
Qed.

Lemma upd_queue_upd i f g d : upd_queue i f (upd_queue i g d) = upd_queue i (fun q => f (g q)) d.
Proof.
  unfold upd_queue, with_queues. simpl. f_equal. generalize (Z.to_nat i). generalize (d_queue d).
  induction l as [|x l IH]; intros [|n]; try done. simpl. f_equal. apply IH.
Qed.

Lemma set_ptr_low_eq p v : 0 <= v < 4294967296 ->
  set_ptr_low p v = ((p / 4294967296) mod 4294967296) * 4294967296 + v.
Proof.
  intros Hv. unfold set_ptr_low.
  replace (Z.land p 0xFFFFFFFF00000000) with (Z.shiftl (Z.land (Z.shiftr p 32) (Z.ones 32)) 32).
  2:{ change 0xFFFFFFFF00000000 with (Z.shiftl (Z.ones 32) 32).
      apply Z.bits_inj'. intros n Hn. rewrite Z.land_spec, !Z.shiftl_spec by done.
      destruct (Z.ltb_spec n 32).
      - rewrite !(Z.testbit_neg_r _ (n - 32)) by lia. btauto.
      - rewrite Z.land_spec, Z.shiftr_spec by lia. by replace (n - 32 + 32) with n by lia. }
  rewrite Z.land_ones, Z.shiftr_div_pow2 by lia. change (2 ^ 32) with 4294967296.
  set (h := (p / 4294967296) mod 4294967296). by rewrite (lor_shiftl_low h v 32) by lia.
Qed.

Lemma set_ptr_high_eq p v : 0 <= v < 4294967296 ->
  set_ptr_high p v = v * 4294967296 + p mod 4294967296.
Proof.
  intros Hv. unfold set_ptr_high. change 0x00000000FFFFFFFF with (Z.ones 32).
  rewrite Z.land_ones by lia. change (2 ^ 32) with 4294967296.
  rewrite u64_id by (rewrite Z.shiftl_mul_pow2 by lia; change (2 ^ 32) with 4294967296; lia).
  rewrite Z.lor_comm. by rewrite (lor_shiftl_low v _ 32) by (change (2 ^ 32) with 4294967296; lia).
Qed.

Lemma set_ptr_both p v : 0 <= v < 18446744073709551616 ->
  set_ptr_high (set_ptr_low p (u32 v)) (u32 (Z.shiftr v 32)) = v.
Proof.
  intros Hv. rewrite Z.shiftr_div_pow2 by lia. change (2 ^ 32) with 4294967296.
  rewrite (u32_id (v / _)) by lia.
  rewrite set_ptr_high_eq, set_ptr_low_eq by (try apply u32_range; lia).
  unfold u32. lia.
Qed.

(** *** Sequences of writes to the selected queue *)

Lemma upd_queue_ext i f g d q :
  queue_at i d = Some q -> f q = g q -> upd_queue i f d = upd_queue i g d.
Proof.
  unfold queue_at, upd_queue, with_queues. destruct (i <? 0); [done|]. intros Hq Hfg. f_equal.
  revert Hq. generalize (Z.to_nat i). generalize (d_queue d).
  induction l as [|x l IH]; intros [|n]; simpl; try done.
  - intros [= ->]. by rewrite Hfg.
  - intros Hq. f_equal. by apply IH.
Qed.

(** The device with queue [i] replaced. *)
Definition put_queue (i : Z) (q : virtio_queue) (d : virtio_dev) : virtio_dev :=
  upd_queue i (fun _ => q) d.

Lemma writel_queue_next reg v q1 g d i q s :
  0 <= v < 4294967296 -> queue_reg reg v = Some g -> d_queue_sel d = i -> queue_at i d = Some q ->
  writel ops fuel v reg (set_dev (put_queue i q1 d) s) =
    Ok (tt, set_dev (put_queue i (g q1) d) s).
Proof.
  intros Hv Hr Hi Hq. unfold put_queue.
  rewrite (writel_queue reg v g q1); [|done|done|].
  - simpl. rewrite Hi. by rewrite upd_queue_upd.
  - simpl. rewrite Hi. by apply (queue_at_upd _ q).
Qed.

Lemma put_queue_same i q d : queue_at i d = Some q -> put_queue i q d = d.
Proof.
  intros Hq. unfold put_queue. rewrite (upd_queue_ext _ _ (fun q => q) d q Hq) by done.
  unfold upd_queue, with_queues. rewrite list_alter_id by done. by destruct d.
Qed.

Lemma readl_queue_ready q s :
  queue_at (d_queue_sel (v_dev s)) (v_dev s) = Some q -> 0 <= q_ready q < 4294967296 ->
  readl VIRTIO_MMIO_QUEUE_READY s = Ok (q_ready q, s).
Proof.
  intros Hq Hr. apply readl_ok; [done|].
  change (virtio_read VIRTIO_MMIO_QUEUE_READY 4) with
    (let* d := get_dev in let* q := get_queue (d_queue_sel d) in
     @retM (vstate D) _ (0, le_bytes 4 (q_ready q))).
  rewrite (bindM_ok _ _ s _ _ (eq_refl : get_dev s = Ok (v_dev s, s))).
  by rewrite (bindM_ok _ _ _ _ _ (get_queue_ok _ _ _ Hq)).
Qed.

Lemma readl_queue_num_max q s :
  queue_at (d_queue_sel (v_dev s)) (v_dev s) = Some q -> 0 <= q_num_max q < 4294967296 ->
  readl VIRTIO_MMIO_QUEUE_NUM_MAX s = Ok (q_num_max q, s).
Proof.
  intros Hq Hr. apply readl_ok; [done|].
  change (virtio_read VIRTIO_MMIO_QUEUE_NUM_MAX 4) with
    (let* d := get_dev in let* q := get_queue (d_queue_sel d) in
     @retM (vstate D) _ (0, le_bytes 4 (q_num_max q))).
  rewrite (bindM_ok _ _ s _ _ (eq_refl : get_dev s = Ok (v_dev s, s))).
  by rewrite (bindM_ok _ _ _ _ _ (get_queue_ok _ _ _ Hq)).
Qed.

(** *** Features and status *)

Lemma bit_testbit i k : 0 <= i < 64 -> 0 <= k -> Z.testbit (BIT i) k = (k =? i).
Proof.
  intros Hi Hk. unfold BIT. rewrite Z.shiftl_1_l, u64_id.
  - rewrite Z.pow2_bits_eqb by lia. apply Z.eqb_sym.
  - split; [lia|]. change 18446744073709551616 with (2 ^ 64). apply Z.pow_lt_mono_r; lia.
Qed.

Lemma test_bit_testbit f i : 0 <= i < 64 -> virtio_test_bit f i = Z.testbit f i.
Proof.
  intros Hi. unfold virtio_test_bit. destruct (Z.testbit f i) eqn:E.
  - apply negb_true_iff, Z.eqb_neq. intros H0.
    apply (f_equal (fun z => Z.testbit z i)) in H0.
    rewrite Z.land_spec, bit_testbit, E, Z.eqb_refl, Z.bits_0 in H0 by lia. done.
  - apply negb_false_iff, Z.eqb_eq. apply Z.bits_inj'. intros k Hk.
    rewrite Z.land_spec, bit_testbit, Z.bits_0 by lia.
    destruct (Z.eqb_spec k i) as [->|]; [by rewrite E|by rewrite andb_false_r].
Qed.

(** Every bit of [a] is a bit of [b]. *)
Definition bits_in (a b : Z) : Prop := forall k, 0 <= k -> Z.testbit a k = true -> Z.testbit b k = true.

Lemma fold_left_inv {A B} (P : A -> Prop) (f : A -> B -> A) l a :
  P a -> (forall a b, b ∈ l -> P a -> P (f a b)) -> P (fold_left f l a).
Proof.
  revert a. induction l as [|b l IH]; intros a Ha Hf; simpl; [done|].
  apply IH; [apply Hf; [set_solver|done]|]. intros a' b' Hb'. apply Hf. set_solver.
Qed.

Lemma transport_bits_range i : i ∈ transport_bits -> 28 <= i < 34.
Proof. unfold transport_bits. rewrite !elem_of_cons, elem_of_nil. lia. Qed.

Lemma bits_in_set f i b : 0 <= i < 64 -> bits_in f b -> Z.testbit b i = true ->
  bits_in (virtio_set_bit f i) b.
Proof.
  intros Hi Hf Hb k Hk. unfold virtio_set_bit. rewrite Z.lor_spec, bit_testbit by done.
  destruct (Z.eqb_spec k i) as [->|]; [done|]. rewrite orb_false_r. by apply Hf.
Qed.

Lemma bits_in_clear f i b : bits_in f b -> bits_in (virtio_clear_bit f i) b.
Proof.
  intros Hf k Hk. unfold virtio_clear_bit. rewrite Z.ldiff_spec.
  destruct (Z.testbit f k) eqn:E; [intros _; by apply Hf|done].
Qed.

Lemma bits_in_bound a b n : 0 <= n -> 0 <= a -> 0 <= b < 2 ^ n -> bits_in a b -> a < 2 ^ n.
Proof.
  intros Hn Ha Hb Hin. destruct (Z.ltb_spec a (2 ^ n)) as [|Hge]; [done|].
  assert (0 < 2 ^ n) by (apply Z.pow_pos_nonneg; lia).
  assert (n <= Z.log2 a) as Hl by (apply Z.log2_le_pow2; lia).
  assert (Z.testbit b (Z.log2 a) = true) as Hbit.
  { apply Hin; [lia|]. apply Z.bit_log2. lia. }
  rewrite <- (Z.mod_small b (2 ^ n)) in Hbit by lia.
  rewrite Z.mod_pow2_bits_high in Hbit by lia. done.
Qed.

(** The features a driver with table [table] ends up with on a device that
    offers [df]. *)
Definition offer (df f i : Z) : Z := if virtio_test_bit df i then virtio_set_bit f i else f.

Definition negotiated (table : list Z) (df : Z) : Z :=
  vring_transport_features (fold_left (offer df) transport_bits (Z.land (feature_mask table) df)).

Lemma transport_features_eq f :
  vring_transport_features f = virtio_clear_bit (virtio_clear_bit f 30) 31.
Proof. reflexivity. Qed.

Lemma offer_testbit df f i k : 0 <= i < 64 -> 0 <= k ->
  Z.testbit (offer df f i) k = Z.testbit f k || ((k =? i) && Z.testbit df i).
Proof.
  intros Hi Hk. unfold offer. rewrite test_bit_testbit by done. destruct (Z.testbit df i).
  - unfold virtio_set_bit. rewrite Z.lor_spec, bit_testbit by done. by rewrite andb_true_r.
  - by rewrite andb_false_r, orb_false_r.
Qed.

Lemma negotiated_testbit table df k : 0 <= k ->
  Z.testbit (negotiated table df) k =
    Z.testbit df k && negb (k =? 30) && negb (k =? 31) &&
    (Z.testbit (feature_mask table) k || ((28 <=? k) && (k <? 34))).
Proof.
  intros Hk. unfold negotiated. rewrite transport_features_eq. unfold virtio_clear_bit.
  rewrite !Z.ldiff_spec, !bit_testbit by lia. unfold transport_bits. cbn [fold_left].
  rewrite !offer_testbit, Z.land_spec by lia.
  assert (k = 28 \/ k = 29 \/ k = 30 \/ k = 31 \/ k = 32 \/ k = 33 \/ (k < 28 \/ 34 <= k))
    as [->|[->|[->|[->|[->|[->|Hout]]]]]] by lia.
  7:{ rewrite !(proj2 (Z.eqb_neq k _)) by lia.
      replace ((28 <=? k) && (k <? 34)) with false by (destruct Hout; symmetry;
        [apply andb_false_iff; left; apply Z.leb_gt|apply andb_false_iff; right; apply Z.ltb_ge]; lia).
      cbn [negb andb]. btauto. }
  all: generalize (Z.testbit (feature_mask table)); generalize (Z.testbit df); intros F G;
    cbn -[Z.land]; btauto.
Qed.

Lemma negotiated_in table df : bits_in (negotiated table df) df.
Proof.
  intros k Hk. rewrite negotiated_testbit by done. destruct (Z.testbit df k); done.
Qed.

Lemma feature_mask_nonneg table : 0 <= feature_mask table.
Proof.
  unfold feature_mask. apply (fold_left_inv (fun m => 0 <= m)); [done|].
  intros m f _ Hm. apply Z.lor_nonneg. split; [done|]. apply u64_range.
Qed.

Lemma negotiated_range table df :
  0 <= df < 18446744073709551616 -> 0 <= negotiated table df < 18446744073709551616.
Proof.
  intros Hdf.
  assert (0 <= negotiated table df) as Hn.
  { unfold negotiated. rewrite transport_features_eq. unfold virtio_clear_bit.
    apply Z.ldiff_nonneg. left. apply Z.ldiff_nonneg. left.
    apply (fold_left_inv (fun f => 0 <= f)).
    - apply Z.land_nonneg. right. lia.
    - intros f i _ Hf. unfold offer, virtio_set_bit. case_match; [|done].
      apply Z.lor_nonneg. split; [done|]. apply u64_range. }
  split; [done|]. apply (bits_in_bound _ df 64); [lia|done|done|]. apply negotiated_in.
Qed.

(** A 4-byte read of a device register. *)
Lemma readl_dev reg f s :
  (virtio_read reg 4 : M (vstate D) _) = (let* d := get_dev in retM (0, le_bytes 4 (f d))) ->
  0 <= f (v_dev s) < 4294967296 -> readl reg s = Ok (f (v_dev s), s).
Proof. intros E Hr. apply readl_ok; [done|]. by rewrite E. Qed.

Lemma vm_get_features_ok s :
  0 <= d_device_features (v_dev s) < 18446744073709551616 ->
  vm_get_features ops fuel s =
    Ok (d_device_features (v_dev s), set_dev (with_device_features_sel 0 (v_dev s)) s).
Proof.
  intros Hdf. set (d := v_dev s). set (df := d_device_features d). unfold vm_get_features.
  rewrite (bindM_ok _ _ _ _ _ (writel_dev VIRTIO_MMIO_DEVICE_FEATURES_SEL 1 _ s ltac:(lia) eq_refl)).
  rewrite (bindM_ok _ _ _ _ _ (readl_dev VIRTIO_MMIO_DEVICE_FEATURES virtio_read_device_features
    (set_dev (with_device_features_sel 1 d) s) eq_refl (u32_range _))).
  rewrite (bindM_ok _ _ _ _ _ (writel_dev VIRTIO_MMIO_DEVICE_FEATURES_SEL 0 _
    (set_dev (with_device_features_sel 1 d) s) ltac:(lia) eq_refl)).
  rewrite (bindM_ok _ _ _ _ _ (readl_dev VIRTIO_MMIO_DEVICE_FEATURES virtio_read_device_features
    (set_dev (with_device_features_sel 0 (with_device_features_sel 1 d)) (set_dev (with_device_features_sel 1 d) s))
    eq_refl (u32_range _))).
  unfold retM. do 2 f_equal. unfold virtio_read_device_features. cbn.
  fold df. unfold df, d in *. rewrite Z.shiftr_div_pow2 by lia. change (2 ^ 32) with 4294967296.
  rewrite (u32_id (_ / _)) by lia.
  rewrite u64_id by (rewrite Z.shiftl_mul_pow2 by lia; change (2 ^ 32) with 4294967296; lia).
  rewrite lor_shiftl_low; change (2 ^ 32) with 4294967296; [unfold u32; lia|lia|apply u32_range].
Qed.

Lemma set_ptr_both_rev p v : 0 <= v < 18446744073709551616 ->
  set_ptr_low (set_ptr_high p (u32 (Z.shiftr v 32))) (u32 v) = v.
Proof.
  intros Hv. rewrite Z.shiftr_div_pow2 by lia. change (2 ^ 32) with 4294967296.
  rewrite (u32_id (v / _)) by lia.
  rewrite set_ptr_low_eq, set_ptr_high_eq by (try apply u32_range; lia).
  unfold u32. lia.
Qed.

Lemma vm_finalize_features_ok f s :
  let f' := vring_transport_features f in
  0 <= f' < 18446744073709551616 -> Z.testbit f' VIRTIO_F_VERSION_1 = true ->
  vm_finalize_features ops fuel 2 f s =
    Ok ((0, f'), set_dev (with_driver_features f' (with_driver_features_sel 0 (v_dev s))) s).
Proof.
  intros f' Hf Hv. unfold vm_finalize_features. fold f'.
  rewrite test_bit_testbit, Hv by (unfold VIRTIO_F_VERSION_1; lia). cbn [negb andb Z.eqb Pos.eqb].
  set (d := v_dev s).
  rewrite (bindM_ok _ _ _ _ _ (writel_dev VIRTIO_MMIO_DRIVER_FEATURES_SEL 1 _ s ltac:(lia) eq_refl)).
  set (s1 := set_dev _ s).
  rewrite (bindM_ok _ _ _ _ _ (writel_dev VIRTIO_MMIO_DRIVER_FEATURES _ _ s1 (u32_range _) eq_refl)).
  set (s2 := set_dev _ s1).
  rewrite (bindM_ok _ _ _ _ _ (writel_dev VIRTIO_MMIO_DRIVER_FEATURES_SEL 0 _ s2 ltac:(lia) eq_refl)).
  set (s3 := set_dev _ s2).
  rewrite (bindM_ok _ _ _ _ _ (writel_dev VIRTIO_MMIO_DRIVER_FEATURES _ _ s3 (u32_range _) eq_refl)).
  unfold retM. do 2 f_equal. unfold set_dev. f_equal.
  change (with_driver_features (set_ptr_low (set_ptr_high (d_driver_features d)
    (u32 (Z.shiftr f' 32))) (u32 f')) (with_driver_features_sel 0 d) =
    with_driver_features f' (with_driver_features_sel 0 d)).
  by rewrite set_ptr_both_rev.
Qed.

Lemma vm_get_status_ok s :
  0 <= d_status (v_dev s) < 256 -> vm_get_status s = Ok (d_status (v_dev s), s).
Proof.
  intros Hs. unfold vm_get_status.
  rewrite (bindM_ok _ _ _ _ _ (readl_dev VIRTIO_MMIO_STATUS d_status s eq_refl ltac:(lia))).
  unfold retM. do 2 f_equal. change 0xff with (2 ^ 8 - 1). rewrite land_pow2_mask by lia.
  by rewrite Z.mod_small by (simpl; lia).
Qed.

Lemma add_status_ok st s :
  0 <= d_status (v_dev s) < 256 -> 0 < st < 256 ->
  add_status ops fuel st s =
    Ok (tt, set_dev (set_status ops (Z.lor (d_status (v_dev s)) st) (v_dev s)) s).
Proof.
  intros Hs Hst. unfold add_status. rewrite (bindM_ok _ _ _ _ _ (vm_get_status_ok s Hs)).
  assert (0 < Z.lor (d_status (v_dev s)) st < 256) as Hr.
  { split.
    - assert (0 <= Z.lor (d_status (v_dev s)) st) by (apply Z.lor_nonneg; lia).
      assert (Z.lor (d_status (v_dev s)) st <> 0) by (intros [_ ?]%Z.lor_eq_0_iff; lia). lia.
    - change 256 with (2 ^ 8). apply lor_lt_pow2; simpl; lia. }
  unfold vm_set_status. rewrite (proj2 (Z.eqb_neq _ _)) by lia.
  by apply (writel_dev VIRTIO_MMIO_STATUS); [lia|].
Qed.

(** The status register takes every value without FEATURES_OK. *)
Lemma set_status_plain v d :
  Z.land v VIRTIO_CONFIG_S_FEATURES_OK = 0 -> set_status ops v d = with_status v d.
Proof. intros Hv. unfold set_status. by rewrite Hv. Qed.

(** FEATURES_OK sticks when the device accepts the driver's features. *)
Lemma set_status_features v d :
  Z.land v VIRTIO_CONFIG_S_FEATURES_OK <> 0 ->
  Z.testbit (d_driver_features d) VIRTIO_F_VERSION_1 = true ->
  Z.testbit (d_driver_features d) VIRTIO_RING_F_EVENT_IDX = true ->
  set_status ops v d =
    with_status (if check_features ops d =? 0 then v else Z.ldiff v VIRTIO_CONFIG_S_FEATURES_OK) d.
Proof.
  intros Hv H1 H2. unfold set_status. rewrite (proj2 (Z.eqb_neq _ _) Hv).
  rewrite <- test_bit_testbit in H1, H2 by (unfold VIRTIO_F_VERSION_1, VIRTIO_RING_F_EVENT_IDX; lia).
  unfold virtio_test_bit in H1, H2. apply negb_true_iff in H1, H2. rewrite H1, H2.
  cbn [negb andb orb]. by destruct (check_features ops d =? 0).
Qed.

Lemma virtio_finalize_features_ok f s :
  let f' := vring_transport_features f in
  let dn := with_driver_features f' (with_driver_features_sel 0 (v_dev s)) in
  d_status (v_dev s) = 3 -> 0 <= f' < 18446744073709551616 ->
  Z.testbit f' VIRTIO_F_VERSION_1 = true -> Z.testbit f' VIRTIO_RING_F_EVENT_IDX = true ->
  virtio_finalize_features ops fuel 2 f s =
    if check_features ops dn =? 0 then Ok ((0, f'), set_dev (with_status 11 dn) s)
    else Ok ((- ENODEV, f'), set_dev (with_status 3 dn) s).
Proof.
  intros f' dn Hst Hf H1 H2. unfold virtio_finalize_features.
  rewrite (bindM_ok _ _ _ _ _ (vm_finalize_features_ok f s Hf H1)). cbn beta iota. fold f' dn.
  cbn [negb Z.eqb]. rewrite test_bit_testbit, H1 by (unfold VIRTIO_F_VERSION_1; lia). cbn [negb].
  assert (d_status (v_dev (set_dev dn s)) = 3) as Hst' by done.
  rewrite (bindM_ok _ _ _ _ _ (add_status_ok VIRTIO_CONFIG_S_FEATURES_OK (set_dev dn s)
    ltac:(rewrite Hst'; lia) ltac:(unfold VIRTIO_CONFIG_S_FEATURES_OK; lia))).
  rewrite Hst'. rewrite set_status_features by done.
  change (v_dev (set_dev dn s)) with dn.
  destruct (check_features ops dn =? 0).
  - rewrite (bindM_ok _ _ _ _ _ (vm_get_status_ok (set_dev (with_status 11 dn) s) ltac:(simpl; lia))).
    done.
  - rewrite (bindM_ok _ _ _ _ _ (vm_get_status_ok (set_dev (with_status 3 dn) s) ltac:(simpl; lia))).
    done.
Qed.

Lemma probe_features_ok table legacy s :
  let d := v_dev s in
  let df := d_device_features d in
  let F := negotiated table df in
  d_status d = VIRTIO_CONFIG_S_ACKNOWLEDGE -> 0 <= df < 18446744073709551616 ->
  Z.testbit df VIRTIO_F_VERSION_1 = true -> Z.testbit df VIRTIO_RING_F_EVENT_IDX = true ->
  Forall (fun f => f < 64) (table ++ default [] legacy) ->
  let dn := with_driver_features F (with_driver_features_sel 0
              (with_device_features_sel 0 (with_status 3 d))) in
  probe_features ops fuel 2 table legacy s =
    if check_features ops dn =? 0 then Ok ((0, F), set_dev (with_status 11 dn) s)
    else Ok ((- ENODEV, F), set_dev (with_status 0x83 dn) s).
Proof.
  intros d df F Hst Hdf H1 H2 Ht dn. unfold probe_features.
  rewrite (bindM_ok _ _ _ _ _ (add_status_ok VIRTIO_CONFIG_S_DRIVER s
    ltac:(fold d; rewrite Hst; unfold VIRTIO_CONFIG_S_ACKNOWLEDGE; lia)
    ltac:(unfold VIRTIO_CONFIG_S_DRIVER; lia))).
  fold d. rewrite Hst. change (Z.lor _ _) with 3. rewrite set_status_plain by done.
  rewrite (bindM_ok _ _ _ _ _ (vm_get_features_ok (set_dev (with_status 3 d) s) Hdf)).
  change (d_device_features (v_dev (set_dev (with_status 3 d) s))) with df.
  replace (existsb _ _) with false.
  2:{ symmetry. apply not_true_iff_false. rewrite existsb_exists. intros (f & Hin & Hf).
      rewrite Forall_forall in Ht. specialize (Ht f Hin). apply Z.leb_le in Hf. lia. }
  rewrite (test_bit_testbit df), H1 by (unfold VIRTIO_F_VERSION_1; lia).
  assert (Z.testbit F VIRTIO_F_VERSION_1 = true) as HF1.
  { unfold F. rewrite negotiated_testbit, H1 by (unfold VIRTIO_F_VERSION_1; lia).
    rewrite orb_true_r. done. }
  assert (Z.testbit F VIRTIO_RING_F_EVENT_IDX = true) as HF2.
  { unfold F. rewrite negotiated_testbit, H2 by (unfold VIRTIO_RING_F_EVENT_IDX; lia).
    rewrite orb_true_r. done. }
  set (s1 := set_dev (with_device_features_sel 0 _) _).
  pose proof (virtio_finalize_features_ok (fold_left (offer df) transport_bits
    (Z.land (feature_mask table) df)) s1 eq_refl (negotiated_range table df Hdf) HF1 HF2) as E.
  unfold bindM at 1.
  change (fold_left (fun f i => if virtio_test_bit df i then virtio_set_bit f i else f))
    with (fold_left (offer df)).
  rewrite E. change (vring_transport_features _) with F.
  change (with_driver_features F (with_driver_features_sel 0 (v_dev s1))) with dn.
  destruct (check_features ops dn =? 0); [done|]. cbn beta iota. cbn [negb Z.eqb Z.opp ENODEV].
  rewrite (bindM_ok _ _ _ _ _ (add_status_ok VIRTIO_CONFIG_S_FAILED (set_dev (with_status 3 dn) s1)
    ltac:(simpl; lia) ltac:(unfold VIRTIO_CONFIG_S_FAILED; lia))).
  rewrite set_status_plain by done. done.
Qed.

(** *** Configuration space *)

(** The configuration structure of a device: [config_len] bytes. *)
Definition config_ok (d : virtio_dev) : Prop :=
  Z.of_nat (length (d_config_data d)) = d_config_len d /\ Forall is_byte (d_config_data d).

Definition config_bytes (d : virtio_dev) (offset : Z) (n : nat) : list Z :=
  take n (drop (Z.to_nat offset) (d_config_data d)).

Lemma config_bytes_ok d offset n : config_ok d -> 0 <= offset ->
  offset + Z.of_nat n <= d_config_len d ->
  length (config_bytes d offset n) = n /\ Forall is_byte (config_bytes d offset n).
Proof.
  intros [Hl Hb] Ho Hn. unfold config_bytes. split.
  - rewrite length_take, length_drop. lia.
  - by apply Forall_take, Forall_drop.
Qed.

Lemma raw_read_config n offset s :
  config_ok (v_dev s) -> 0 <= offset -> offset + Z.of_nat n <= d_config_len (v_dev s) ->
  raw_read n (VIRTIO_MMIO_CONFIG + offset) s = Ok (le_value (config_bytes (v_dev s) offset n), s).
Proof.
  intros Hc Ho Hn. unfold raw_read, virtio_read.
  rewrite bindM_assoc, (bindM_ok _ _ s _ _ (eq_refl : get_dev s = Ok (v_dev s, s))).
  rewrite (proj2 (Z.leb_le _ _)) by lia.
  replace (VIRTIO_MMIO_CONFIG + offset - VIRTIO_MMIO_CONFIG) with offset by lia.
  rewrite (proj2 (Z.ltb_ge _ _)) by lia.
  rewrite (bindM_ok _ _ _ _ _ (eq_refl : retM _ s = Ok (_, s))). cbn beta iota.
  unfold config_bytes. by rewrite Nat2Z.id.
Qed.

Lemma config_read_bytes n offset s :
  config_ok (v_dev s) -> 0 <= offset -> offset + Z.of_nat n <= d_config_len (v_dev s) ->
  le_bytes n (le_value (config_bytes (v_dev s) offset n)) = config_bytes (v_dev s) offset n.
Proof.
  intros Hc Ho Hn. destruct (config_bytes_ok _ _ _ Hc Ho Hn) as [Hl Hb].
  rewrite <- Hl at 1. by apply le_bytes_value.
Qed.

Lemma config_bytes_app d offset n1 n2 : 0 <= offset ->
  config_bytes d offset n1 ++ config_bytes d (offset + Z.of_nat n1) n2 =
  config_bytes d offset (n1 + n2).
Proof.
  intros Ho. unfold config_bytes. rewrite Z2Nat.inj_add, Nat2Z.id, <- drop_drop by lia.
  apply take_take_drop.
Qed.

(** A write to the configuration space. *)
Lemma vm_get_config offset len s :
  config_ok (v_dev s) -> 0 <= offset -> len ∈ [1; 2; 4; 8]%nat ->
  offset + Z.of_nat len <= d_config_len (v_dev s) ->
  vm_get 2 offset len s = Ok (config_bytes (v_dev s) offset len, s).
Proof.
  intros Hc Ho Hlen Hn. unfold vm_get. cbn [Z.eqb Pos.eqb].
  rewrite !elem_of_cons, elem_of_nil in Hlen. destruct Hlen as [->|[->|[->|[->|[]]]]].
  1-3: rewrite (bindM_ok _ _ _ _ _ (raw_read_config _ offset s Hc Ho Hn)); unfold retM;
    by rewrite config_read_bytes.
  unfold readl. rewrite (bindM_ok _ _ _ _ _ (raw_read_config 4 offset s Hc Ho ltac:(lia))).
  rewrite <- Z.add_assoc.
  rewrite (bindM_ok _ _ _ _ _ (raw_read_config 4 (offset + 4) s Hc ltac:(lia) ltac:(lia))).
  unfold retM. rewrite !config_read_bytes by (try done; lia).
  change (offset + 4) with (offset + Z.of_nat 4). by rewrite config_bytes_app.
Qed.

Lemma raw_write_config n v offset s :
  0 <= offset ->
  raw_write ops fuel n v (VIRTIO_MMIO_CONFIG + offset) s =
    Ok (tt, if d_config_len (v_dev s) <=? offset + Z.of_nat n then s
            else set_dev (with_config_data (write_at offset (le_bytes n v)
                   (d_config_data (v_dev s))) (v_dev s)) s).
Proof.
  intros Ho. unfold raw_write, virtio_write.
  rewrite bindM_assoc, (bindM_ok _ _ s _ _ (eq_refl : get_dev s = Ok (v_dev s, s))).
  rewrite (proj2 (Z.leb_le _ _)) by lia.
  replace (VIRTIO_MMIO_CONFIG + offset - VIRTIO_MMIO_CONFIG) with offset by lia.
  destruct (_ <=? offset + Z.of_nat n); [done|].
  rewrite Nat2Z.id, take_ge by (by rewrite length_le_bytes). done.
Qed.

End Lemmas.

(** ** Properties *)

(** The queue as the driver described it. *)
Definition programmed (l : vring_layout) (q : virtio_queue) : virtio_queue :=
  VirtioQueue (q_num_max q) (vl_num l) 1 (q_max_merge_len q) (vl_desc l) (vl_avail l) (vl_used l)
    (q_last_avail_idx q) (q_last_used_idx_signaled q).

Definition layout_ok (l : vring_layout) : Prop :=
  0 <= vl_num l < 4294967296 /\ 0 <= vl_desc l < 18446744073709551616 /\
  0 <= vl_avail l < 18446744073709551616 /\ 0 <= vl_used l < 18446744073709551616.

(** One more write to the selected queue. *)
Ltac wqueue Hq :=
  rewrite ?bindM_assoc; erewrite bindM_ok;
  [|eapply writel_queue_next; [first [apply u32_range|lia]|reflexivity|reflexivity|exact Hq]];
  cbn [with_queue_num with_queue_ready with_desc with_avail with_used q_num_max q_num q_ready
       q_max_merge_len q_desc q_avail q_used q_last_avail_idx q_last_used_idx_signaled].

(** C36: the guest's queue set-up, run against the device, leaves the queue with
    exactly the size and the 64-bit ring addresses the guest chose, ready, and
    nothing else of the device changed but the queue selector. *)
Theorem vm_setup_vq_programs {D} (ops : virtio_dev_ops D) fuel index create l q (s : vstate D) :
  0 <= index < 4294967296 -> queue_at index (v_dev s) = Some q -> q_ready q = 0 ->
  0 < q_num_max q < 4294967296 -> create (q_num_max q) = Some l -> layout_ok l ->
  vm_setup_vq ops fuel 2 index true create s =
    Ok (0, set_dev (upd_queue index (programmed l) (with_queue_sel index (v_dev s))) s).
Proof.
  intros Hidx Hq Hr Hn Hc (Hl1 & Hl2 & Hl3 & Hl4). unfold vm_setup_vq.
  rewrite (bindM_ok _ _ _ _ _ (writel_dev ops fuel VIRTIO_MMIO_QUEUE_SEL _ _ s Hidx eq_refl)).
  set (d := with_queue_sel index (v_dev s)).
  rewrite (bindM_ok _ _ _ _ _ (readl_queue_ready q (set_dev d s) Hq ltac:(lia))).
  rewrite Hr. cbn [negb Z.eqb].
  rewrite (bindM_ok _ _ _ _ _ (readl_queue_num_max q (set_dev d s) Hq ltac:(lia))).
  rewrite (proj2 (Z.eqb_neq _ _)), Hc by lia. cbn [Z.eqb Pos.eqb].
  rewrite <- (put_queue_same index q d Hq) at 1. do 8 wqueue Hq.
  unfold retM. do 2 f_equal. f_equal. unfold put_queue. eapply upd_queue_ext; [exact Hq|].
  unfold programmed. by rewrite !set_ptr_both.
Qed.

(** C37: feature negotiation of the virtio core with any LKL device that offers
    VERSION_1 and EVENT_IDX.  The driver ends up with exactly the offered
    features that are in its table or in the transport's range (and known to
    virtio_ring.c), and the device has recorded that set, its offer and its
    queues untouched.  The device class is then asked about that very device:
    if it accepts, the probe succeeds and FEATURES_OK is set; if it refuses,
    FEATURES_OK does not stick, the probe fails with -ENODEV and the device is
    marked FAILED. *)
Theorem probe_features_negotiates {D} (ops : virtio_dev_ops D) fuel table legacy (s : vstate D) :
  let d := v_dev s in
  let df := d_device_features d in
  d_status d = VIRTIO_CONFIG_S_ACKNOWLEDGE -> 0 <= df < 18446744073709551616 ->
  Z.testbit df VIRTIO_F_VERSION_1 = true -> Z.testbit df VIRTIO_RING_F_EVENT_IDX = true ->
  Forall (fun f => f < 64) (table ++ default [] legacy) ->
  exists F dn,
    (forall k, 0 <= k -> Z.testbit F k =
       Z.testbit df k && negb (k =? 30) && negb (k =? 31) &&
       (Z.testbit (feature_mask table) k || ((28 <=? k) && (k <? 34)))) /\
    d_driver_features dn = F /\ d_device_features dn = df /\ d_queue dn = d_queue d /\
    (check_features ops dn = 0 ->
       probe_features ops fuel 2 table legacy s =
         Ok ((0, F), set_dev (with_status (Z.lor (Z.lor VIRTIO_CONFIG_S_ACKNOWLEDGE VIRTIO_CONFIG_S_DRIVER)
                                             VIRTIO_CONFIG_S_FEATURES_OK) dn) s)) /\
    (check_features ops dn <> 0 ->
       probe_features ops fuel 2 table legacy s =
         Ok ((- ENODEV, F), set_dev (with_status (Z.lor (Z.lor VIRTIO_CONFIG_S_ACKNOWLEDGE VIRTIO_CONFIG_S_DRIVER)
                                                    VIRTIO_CONFIG_S_FAILED) dn) s)).
Proof.
  intros d df Hst Hdf H1 H2 Ht.
  pose proof (probe_features_ok ops fuel table legacy s Hst Hdf H1 H2 Ht) as E. cbv zeta in E.
  fold d df in E. exists (negotiated table df), (with_driver_features (negotiated table df)
    (with_driver_features_sel 0 (with_device_features_sel 0 (with_status 3 d)))).
  split; [intros k; apply negotiated_testbit|]. split_and!; try done.
  - intros Hc. rewrite E, Hc. done.
  - intros Hc. rewrite E. by rewrite (proj2 (Z.eqb_neq _ _) Hc).
Qed.

(** the disk's feature check (the driver must accept exactly what is
    offered) is satisfied by every virtio driver, whatever its feature table:
    negotiation with a disk always succeeds. *)
Theorem blk_features_accepted {D} (disk : lkl_dev_blk_ops D) fuel table legacy (s : vstate D) :
  d_status (v_dev s) = VIRTIO_CONFIG_S_ACKNOWLEDGE ->
  d_device_features (v_dev s) = Z.lor (BIT VIRTIO_F_VERSION_1) (BIT VIRTIO_RING_F_EVENT_IDX) ->
  Forall (fun f => f < 64) (table ++ default [] legacy) ->
  exists d', probe_features (blk_ops disk) fuel 2 table legacy s =
      Ok ((0, d_device_features (v_dev s)), set_dev d' s) /\
    d_driver_features d' = d_device_features (v_dev s) /\ Z.testbit (d_status d') 3 = true.
Proof.
  intros Hst Hdf Ht.
  assert (negotiated table (d_device_features (v_dev s)) = d_device_features (v_dev s)) as Hn.
  { apply Z.bits_inj'. intros k Hk. rewrite negotiated_testbit by done. rewrite Hdf.
    rewrite Z.lor_spec, !bit_testbit by (unfold VIRTIO_F_VERSION_1, VIRTIO_RING_F_EVENT_IDX; lia).
    unfold VIRTIO_F_VERSION_1, VIRTIO_RING_F_EVENT_IDX.
    generalize (Z.testbit (feature_mask table)). intros G.
    destruct (Z.eqb_spec k 32) as [->|]; [cbn; btauto|].
    destruct (Z.eqb_spec k 29) as [->|]; [cbn; btauto|]. done. }
  pose proof (probe_features_ok (blk_ops disk) fuel table legacy s Hst) as E. cbv zeta in E.
  rewrite Hn in E. specialize (E ltac:(rewrite Hdf; vm_compute; split; congruence)
    ltac:(rewrite Hdf; reflexivity) ltac:(rewrite Hdf; reflexivity) Ht).
  cbn [blk_ops check_features] in E. unfold blk_check_features in E.
  cbn [d_driver_features d_device_features with_driver_features with_driver_features_sel
       with_device_features_sel with_status] in E.
  rewrite Z.eqb_refl in E. cbn [Z.eqb] in E. eexists. split; [exact E|]. done.
Qed.

(** reading the configuration space through the driver's accessor gives the
    device's configuration bytes, for every size the driver may use, and does
    not change the device. *)
Theorem vm_get_reads_config {D} offset len (s : vstate D) :
  config_ok (v_dev s) -> 0 <= offset -> len ∈ [1; 2; 4; 8]%nat ->
  offset + Z.of_nat len <= d_config_len (v_dev s) ->
  vm_get 2 offset len s = Ok (config_bytes (v_dev s) offset len, s).
Proof. apply vm_get_config. Qed.

(** the bound of a configuration write is one byte stricter than that of a
    read.  A write that ends before the last byte is stored; one that ends
    exactly at the end of the structure, which a read of the same range
    accepts, is dropped and the driver's accessor does not notice. *)
Theorem config_write_last_byte_refused {D} (ops : virtio_dev_ops D) fuel offset b (s : vstate D) :
  config_ok (v_dev s) -> 0 <= offset < d_config_len (v_dev s) -> is_byte b ->
  vm_set ops fuel 2 offset [b] s =
    if offset + 1 =? d_config_len (v_dev s) then Ok (tt, s)
    else Ok (tt, set_dev (with_config_data (<[Z.to_nat offset := b]> (d_config_data (v_dev s)))
                   (v_dev s)) s).
Proof.
  intros [Hl Hb] Ho Hbyte. unfold vm_set. cbn [Z.eqb Pos.eqb length]. unfold writeb.
  rewrite raw_write_config by lia. change (Z.of_nat 1) with 1.
  destruct (Z.eqb_spec (offset + 1) (d_config_len (v_dev s))) as [He|Hne].
  { by rewrite (proj2 (Z.leb_le _ _)) by lia. }
  rewrite (proj2 (Z.leb_gt _ _)) by lia. do 5 f_equal.
  change 1%nat with (length [b]). rewrite le_bytes_value by (by constructor).
  unfold write_at. rewrite insert_take_drop by lia. cbn [length app]. by rewrite Nat.add_1_r.
Qed.

(** the queue selector is not checked by the device: setting up a queue the
    device does not have reads past its queue array, where the driver expects
    a size of 0 and -ENOENT. *)
Theorem vm_setup_vq_unchecked {D} (ops : virtio_dev_ops D) fuel index kmalloc create (s : vstate D) :
  0 <= index < 4294967296 -> Z.of_nat (length (d_queue (v_dev s))) <= index ->
  vm_setup_vq ops fuel 2 index kmalloc create s = Fail Segv.
Proof.
  intros Hi Hlen. unfold vm_setup_vq.
  rewrite (bindM_ok _ _ _ _ _ (writel_dev ops fuel VIRTIO_MMIO_QUEUE_SEL _ _ s Hi eq_refl)).
  cbn [Z.eqb Pos.eqb]. apply bindM_fail. unfold readl, raw_read. apply bindM_fail.
  change (virtio_read VIRTIO_MMIO_QUEUE_READY (Z.of_nat 4)) with
    (let* d := get_dev in let* q := get_queue (d_queue_sel d) in
     @retM (vstate D) _ (0, le_bytes 4 (q_ready q))).
  rewrite (bindM_ok _ _ _ _ _ (eq_refl : get_dev _ = Ok (_, _))). apply bindM_fail.
  unfold get_queue, queue_at. simpl. rewrite (proj2 (Z.ltb_ge _ _)) by lia.
  by rewrite lookup_ge_None_2 by lia.
Qed.

(** ** A concrete device: one queue, eight configuration bytes *)
Module Demo.

Definition q0 : virtio_queue := VirtioQueue 32 0 0 0 0 0 0 0 0.

Definition d0 : virtio_dev :=
  VirtioDev 2 0 0x120000000 0 0 0 0 [q0] 0 1 0 1 [1; 2; 3; 4; 5; 6; 7; 8] 8 0x80 0.

Definition s0 : vstate unit := VState ∅ d0 [] tt.

(** A disk that refuses every request. *)
Definition disk : lkl_dev_blk_ops unit :=
  LklDevBlkOps (fun _ => Some (tt, 0, Some 0)) (fun _ m x => Some (m, x, LKL_DEV_BLK_STATUS_UNSUP)).

Definition l0 : vring_layout := VringLayout 32 0x7f0000001000 0x7f0000002000 0x7f0000003000.

Lemma d0_config : config_ok d0.
Proof. split; [reflexivity|]. repeat (constructor; [unfold is_byte; lia|]). constructor. Qed.

End Demo.

Lemma vm_setup_vq_programs_witness :
  vm_setup_vq (blk_ops Demo.disk) 0 2 0 true (fun _ => Some Demo.l0) Demo.s0 =
    Ok (0, set_dev (upd_queue 0 (programmed Demo.l0) (with_queue_sel 0 Demo.d0)) Demo.s0).
Proof.
  apply (vm_setup_vq_programs (blk_ops Demo.disk) 0 0 (fun _ => Some Demo.l0) Demo.l0 Demo.q0 Demo.s0);
    [lia|reflexivity|reflexivity|simpl; lia|reflexivity|].
  repeat split; simpl; lia.
Defined.

Lemma probe_features_negotiates_witness :
  exists F dn, d_driver_features dn = F /\
    probe_features (blk_ops Demo.disk) 0 2 [6; 10; 28] (Some [6; 9]) Demo.s0 =
      Ok ((0, F), set_dev (with_status 11 dn) Demo.s0).
Proof.
  destruct (probe_features_negotiates (blk_ops Demo.disk) 0 [6; 10; 28] (Some [6; 9]) Demo.s0)
    as (F & dn & HF & Hd & Hdf & _ & Hok & _);
    [reflexivity|simpl; lia|reflexivity|reflexivity|repeat constructor|].
  exists F, dn. split; [exact Hd|]. apply Hok.
  assert (F = 0x120000000) as EF.
  { apply Z.bits_inj'. intros k Hk. rewrite HF by exact Hk.
    change (d_device_features (v_dev Demo.s0)) with (Z.lor (BIT 32) (BIT 29)).
    change 0x120000000 with (Z.lor (BIT 32) (BIT 29)). rewrite Z.lor_spec, !bit_testbit by lia.
    destruct (Z.eqb_spec k 32) as [->|]; [reflexivity|].
    destruct (Z.eqb_spec k 29) as [->|]; [reflexivity|]. reflexivity. }
  cbn [blk_ops check_features]. unfold blk_check_features. rewrite Hd, Hdf, EF. reflexivity.
Defined.

Lemma blk_features_accepted_witness :
  exists d', probe_features (blk_ops Demo.disk) 0 2 [6; 10; 28] (Some [6; 9]) Demo.s0 =
      Ok ((0, 0x120000000), set_dev d' Demo.s0) /\
    d_driver_features d' = 0x120000000 /\ Z.testbit (d_status d') 3 = true.
Proof.
  apply (blk_features_accepted Demo.disk 0 [6; 10; 28] (Some [6; 9]) Demo.s0);
    [reflexivity|reflexivity|repeat constructor].
Defined.

Lemma vm_get_reads_config_witness :
  vm_get 2 0 8 Demo.s0 = Ok ([1; 2; 3; 4; 5; 6; 7; 8], Demo.s0).
Proof.
  apply (vm_get_reads_config 0 8 Demo.s0 Demo.d0_config); [lia|set_solver|simpl; lia].
Defined.

Lemma config_write_last_byte_refused_witness :
  vm_set (blk_ops Demo.disk) 0 2 7 [99] Demo.s0 = Ok (tt, Demo.s0).
Proof.
  exact (config_write_last_byte_refused (blk_ops Demo.disk) 0 7 99 Demo.s0 Demo.d0_config
    ltac:(simpl; lia) ltac:(unfold is_byte; lia)).
Defined.

Lemma vm_setup_vq_unchecked_witness :
  vm_setup_vq (blk_ops Demo.disk) 0 2 1 true (fun _ => Some Demo.l0) Demo.s0 = Fail Segv.
Proof.
  apply (vm_setup_vq_unchecked (blk_ops Demo.disk) 0 1 true (fun _ => Some Demo.l0) Demo.s0);
    [lia|simpl; lia].
Defined.
