(* ===== verification/GuestRing.v ===== *)
(** * GuestRing

    drivers/virtio/virtio_ring.c: the driver's side of a virtqueue.  It shares
    the rings in memory with the device of [Virtio]; a notification goes
    through the register window ([VirtioMmio.vm_notify]) and runs the device's
    queue loop.  LKL devices are used without the DMA API (no IOMMU feature is
    offered and LKL is not a Xen guest), so a scatterlist entry is mapped to its
    physical address and mapping cannot fail. *)

From S2P Require Import Prelude Memory Virtio VirtioRing VirtioQueue VirtioMmio.

Definition VRING_DESC_F_WRITE : Z := 2.
Definition VRING_DESC_F_INDIRECT : Z := 4.
Definition VRING_USED_F_NO_NOTIFY : Z := 1.
Definition VRING_AVAIL_F_NO_INTERRUPT : Z := 1.
Definition EIO : Z := 5.
Definition ENOSPC : Z := 28.

(** ** Layout (uapi/linux/virtio_ring.h) *)

(** struct vring *)
Record vring := Vring { vr_num : Z; vr_desc : Z; vr_avail : Z; vr_used : Z }.

(** [(x + align - 1) & ~(align - 1)] *)
Definition align_up (x align : Z) : Z := Z.ldiff (x + align - 1) (align - 1).

Definition vring_init (num p align : Z) : vring :=
  let avail := p + num * 16 in
  Vring num p avail (align_up (avail + 4 + 2 * num + 2) align).

Definition vring_size (num align : Z) : Z :=
  align_up (16 * num + 2 * (3 + num)) align + 2 * 3 + 8 * num.

(** ** State *)

(** struct vring_virtqueue; [g_data] and [g_indir] are the two members of
    [desc_state], NULL is 0. *)
Record vring_virtqueue := VringVirtqueue {
  g_vring : vring;
  g_index : Z;
  g_callback : bool;
  g_broken : bool;
  g_indirect : bool;
  g_event : bool;
  g_free_head : Z;
  g_num_free : Z;
  g_num_added : Z;
  g_last_used_idx : Z;
  g_avail_flags_shadow : Z;
  g_avail_idx_shadow : Z;
  g_data : list Z;
  g_indir : list Z;
}.

Definition with_g_broken v g := VringVirtqueue (g_vring g) (g_index g) (g_callback g) v
  (g_indirect g) (g_event g) (g_free_head g) (g_num_free g) (g_num_added g) (g_last_used_idx g)
  (g_avail_flags_shadow g) (g_avail_idx_shadow g) (g_data g) (g_indir g).
Definition with_free_head v g := VringVirtqueue (g_vring g) (g_index g) (g_callback g) (g_broken g)
  (g_indirect g) (g_event g) v (g_num_free g) (g_num_added g) (g_last_used_idx g)
  (g_avail_flags_shadow g) (g_avail_idx_shadow g) (g_data g) (g_indir g).
Definition with_num_free v g := VringVirtqueue (g_vring g) (g_index g) (g_callback g) (g_broken g)
  (g_indirect g) (g_event g) (g_free_head g) v (g_num_added g) (g_last_used_idx g)
  (g_avail_flags_shadow g) (g_avail_idx_shadow g) (g_data g) (g_indir g).
Definition with_num_added v g := VringVirtqueue (g_vring g) (g_index g) (g_callback g) (g_broken g)
  (g_indirect g) (g_event g) (g_free_head g) (g_num_free g) v (g_last_used_idx g)
  (g_avail_flags_shadow g) (g_avail_idx_shadow g) (g_data g) (g_indir g).
Definition with_last_used v g := VringVirtqueue (g_vring g) (g_index g) (g_callback g) (g_broken g)
  (g_indirect g) (g_event g) (g_free_head g) (g_num_free g) (g_num_added g) v
  (g_avail_flags_shadow g) (g_avail_idx_shadow g) (g_data g) (g_indir g).
Definition with_flags_shadow v g := VringVirtqueue (g_vring g) (g_index g) (g_callback g) (g_broken g)
  (g_indirect g) (g_event g) (g_free_head g) (g_num_free g) (g_num_added g) (g_last_used_idx g)
  v (g_avail_idx_shadow g) (g_data g) (g_indir g).
Definition with_idx_shadow v g := VringVirtqueue (g_vring g) (g_index g) (g_callback g) (g_broken g)
  (g_indirect g) (g_event g) (g_free_head g) (g_num_free g) (g_num_added g) (g_last_used_idx g)
  (g_avail_flags_shadow g) v (g_data g) (g_indir g).
Definition with_data v g := VringVirtqueue (g_vring g) (g_index g) (g_callback g) (g_broken g)
  (g_indirect g) (g_event g) (g_free_head g) (g_num_free g) (g_num_added g) (g_last_used_idx g)
  (g_avail_flags_shadow g) (g_avail_idx_shadow g) v (g_indir g).
Definition with_indir v g := VringVirtqueue (g_vring g) (g_index g) (g_callback g) (g_broken g)
  (g_indirect g) (g_event g) (g_free_head g) (g_num_free g) (g_num_added g) (g_last_used_idx g)
  (g_avail_flags_shadow g) (g_avail_idx_shadow g) (g_data g) v.

(** The guest's queue beside the host's state of the device. *)
Record gstate (D : Type) := GState { g_host : vstate D; g_vq : vring_virtqueue }.
Arguments GState {D} _ _.
Arguments g_host {D} _.
Arguments g_vq {D} _.

(** ** Operations *)

Section Ring.
Context {D : Type} (ops : virtio_dev_ops D) (fuel : nat).
Abbreviation GM := (M (gstate D)).

Definition host {A} (c : M (vstate D) A) : GM A :=
  fun s => match c (g_host s) with
           | Ok (a, h) => Ok (a, GState h (g_vq s))
           | Fail e => Fail e
           end.

Definition get_vq : GM vring_virtqueue := fun s => Ok (g_vq s, s).
Definition mod_vq (f : vring_virtqueue -> vring_virtqueue) : GM unit :=
  fun s => Ok (tt, GState (g_host s) (f (g_vq s))).

(** Addresses of the ring members. *)
Definition desc_at (base i : Z) : Z := base + 16 * i.
Definition avail_at (r : vring) (i : Z) : Z := vr_avail r + 4 + 2 * i.
Definition used_at (r : vring) (i : Z) : Z := vr_used r + 4 + 8 * i.
Definition vring_used_event (r : vring) : Z := avail_at r (vr_num r).
Definition vring_avail_event (r : vring) : Z := used_at r (vr_num r).

(** *** Notification *)

Definition virtqueue_kick_prepare : GM bool :=
  let* vq := get_vq in
  let old := u16 (g_avail_idx_shadow vq - g_num_added vq) in
  let new := g_avail_idx_shadow vq in
  mod_vq (with_num_added 0) ;;;
  if g_event vq then
    let* ev := host (ld 2 (vring_avail_event (g_vring vq))) in
    retM (vring_need_event ev new old)
  else
    let* flags := host (ld 2 (vr_used (g_vring vq))) in
    retM (Z.land flags VRING_USED_F_NO_NOTIFY =? 0).

Definition virtqueue_notify : GM bool :=
  let* vq := get_vq in
  if g_broken vq then retM false
  else
    let* ok := host (vm_notify ops fuel (g_index vq)) in
    if negb ok then mod_vq (with_g_broken true) ;;; retM false
    else retM true.

Definition virtqueue_kick : GM bool :=
  let* needed := virtqueue_kick_prepare in
  if needed then virtqueue_notify else retM true.

(** *** Adding buffers *)

(** Entries [j .. total-1] of a fresh indirect table at [t]. *)
Fixpoint init_indirect (n : nat) (t j : Z) : GM unit :=
  match n with
  | O => retM tt
  | S n' => host (st 2 (desc_at t j + 14) (j + 1)) ;;; init_indirect n' t (j + 1)
  end.

Definition alloc_indirect (kmalloc : option Z) (total : nat) : GM (option Z) :=
  match kmalloc with
  | None => retM None
  | Some t => init_indirect total t 0 ;;; retM (Some t)
  end.

(** One of the two descriptor loops: the new [i] and [prev]. *)
Fixpoint add_descs (base flags : Z) (sgs : list iovec) (i prev : Z) : GM (Z * Z) :=
  match sgs with
  | [] => retM (i, prev)
  | sg :: sgs' =>
      host (st 2 (desc_at base i + 12) flags) ;;;
      host (st 8 (desc_at base i) (iov_base sg)) ;;;
      host (st 4 (desc_at base i + 8) (iov_len sg)) ;;;
      let* next := host (ld 2 (desc_at base i + 14)) in
      add_descs base flags sgs' next i
  end.

(** [desc_state[head].data = v]; [head] is not checked by the source. *)
Definition set_data (head v : Z) : GM unit :=
  let* vq := get_vq in
  if (head <? 0) || (vr_num (g_vring vq) <=? head) then failM Segv
  else mod_vq (with_data (<[Z.to_nat head := v]> (g_data vq))).

Definition set_indir (head v : Z) : GM unit :=
  let* vq := get_vq in
  if (head <? 0) || (vr_num (g_vring vq) <=? head) then failM Segv
  else mod_vq (with_indir (<[Z.to_nat head := v]> (g_indir vq))).

(** [out] and [inn] are the flattened scatterlists, [kmalloc] what the
    allocation of an indirect table returns. *)
Definition virtqueue_add (out inn : list iovec) (data : Z) (kmalloc : option Z) : GM Z :=
  if data =? 0 then failM Panicked
  else
    let* vq := get_vq in
    let r := g_vring vq in
    let total_sg := Z.of_nat (length out + length inn) in
    if g_broken vq then retM (- EIO)
    else if (vr_num r <? total_sg) || (total_sg =? 0) then failM Panicked
    else
      let head := g_free_head vq in
      let* table :=
        (if g_indirect vq && (1 <? total_sg) && negb (g_num_free vq =? 0)
         then alloc_indirect kmalloc (length out + length inn) else retM None) in
      let '(base, i, descs_used) :=
        match table with
        | Some t => (t, 0, 1)
        | None => (vr_desc r, head, total_sg)
        end in
      if g_num_free vq <? descs_used then
        (if negb (length out =? 0)%nat then
           let* _ := host (vm_notify ops fuel (g_index vq)) in retM tt
         else retM tt) ;;;
        retM (- ENOSPC)
      else
        let* '(i, prev) := add_descs base VRING_DESC_F_NEXT out i 0 in
        let* '(i, prev) :=
          add_descs base (Z.lor VRING_DESC_F_NEXT VRING_DESC_F_WRITE) inn i prev in
        let* flags := host (ld 2 (desc_at base prev + 12)) in
        host (st 2 (desc_at base prev + 12) (Z.ldiff flags VRING_DESC_F_NEXT)) ;;;
        (match table with
         | Some t =>
             host (st 2 (desc_at (vr_desc r) head + 12) VRING_DESC_F_INDIRECT) ;;;
             host (st 8 (desc_at (vr_desc r) head) t) ;;;
             host (st 4 (desc_at (vr_desc r) head + 8) (total_sg * 16))
         | None => retM tt
         end) ;;;
        mod_vq (with_num_free (g_num_free vq - descs_used)) ;;;
        let* fh :=
          (match table with
           | Some _ => host (ld 2 (desc_at (vr_desc r) head + 14))
           | None => retM i
           end) in
        mod_vq (with_free_head fh) ;;;
        set_data head data ;;;
        (match table with Some t => set_indir head t | None => retM tt end) ;;;
        host (st 2 (avail_at r (Z.land (g_avail_idx_shadow vq) (u32 (vr_num r - 1)))) head) ;;;
        let shadow := u16 (g_avail_idx_shadow vq + 1) in
        mod_vq (with_idx_shadow shadow) ;;;
        host (st 2 (vr_avail r + 2) shadow) ;;;
        mod_vq (with_num_added (g_num_added vq + 1)) ;;;
        (if g_num_added vq + 1 =? 65535 then let* _ := virtqueue_kick in retM tt else retM tt) ;;;
        retM 0.

(** *** Taking buffers back *)

(** The while loop of [detach_buf]: the last descriptor and the number of
    descriptors before it. *)
Fixpoint chain_end (n : nat) (base i : Z) : GM (Z * Z) :=
  match n with
  | O => failM NoFuel
  | S n' =>
      let* flags := host (ld 2 (desc_at base i + 12)) in
      if Z.land flags VRING_DESC_F_NEXT =? 0 then retM (i, 0)
      else
        let* next := host (ld 2 (desc_at base i + 14)) in
        let* '(e, k) := chain_end n' base next in
        retM (e, k + 1)
  end.

(** Unmapping is a no-op without the DMA API; freeing the indirect table
    leaves no trace in the model beyond the cleared pointer. *)
Definition detach_buf (head : Z) : GM unit :=
  set_data head 0 ;;;
  let* vq := get_vq in
  let r := g_vring vq in
  let* '(last, k) := chain_end (S (Z.to_nat (vr_num r))) (vr_desc r) head in
  host (st 2 (desc_at (vr_desc r) last + 14) (g_free_head vq)) ;;;
  mod_vq (with_free_head head) ;;;
  mod_vq (with_num_free (g_num_free vq + k + 1)) ;;;
  let* indir := someM (g_indir vq !! Z.to_nat head) in
  if indir =? 0 then retM tt
  else
    let* len := host (ld 4 (desc_at (vr_desc r) head + 8)) in
    let* flags := host (ld 2 (desc_at (vr_desc r) head + 12)) in
    if (Z.land flags VRING_DESC_F_INDIRECT =? 0) || (len =? 0) || negb (len mod 16 =? 0)
    then failM Panicked
    else set_indir head 0.

Definition more_used : GM bool :=
  let* vq := get_vq in
  let* idx := host (ld 2 (vr_used (g_vring vq) + 2)) in
  retM (negb (g_last_used_idx vq =? idx)).

(** The token (0 for NULL) and what was stored in [*len], if it was. *)
Definition virtqueue_get_buf : GM (Z * option Z) :=
  let* vq := get_vq in
  let r := g_vring vq in
  if g_broken vq then retM (0, None)
  else
    let* more := more_used in
    if negb more then retM (0, None)
    else
      let last_used := Z.land (g_last_used_idx vq) (u32 (vr_num r - 1)) in
      let* i := host (ld 4 (used_at r last_used)) in
      let* len := host (ld 4 (used_at r last_used + 4)) in
      if vr_num r <=? i then mod_vq (with_g_broken true) ;;; retM (0, Some len)
      else
        let* data := someM (g_data vq !! Z.to_nat i) in
        if data =? 0 then mod_vq (with_g_broken true) ;;; retM (0, Some len)
        else
          detach_buf i ;;;
          let last := u16 (g_last_used_idx vq + 1) in
          mod_vq (with_last_used last) ;;;
          (if Z.land (g_avail_flags_shadow vq) VRING_AVAIL_F_NO_INTERRUPT =? 0
           then host (st 2 (vring_used_event r) last) else retM tt) ;;;
          retM (data, Some len).

(** *** Callbacks *)

Definition virtqueue_disable_cb : GM unit :=
  let* vq := get_vq in
  if Z.land (g_avail_flags_shadow vq) VRING_AVAIL_F_NO_INTERRUPT =? 0 then
    let f := Z.lor (g_avail_flags_shadow vq) VRING_AVAIL_F_NO_INTERRUPT in
    mod_vq (with_flags_shadow f) ;;;
    if g_event vq then retM tt else host (st 2 (vr_avail (g_vring vq)) f)
  else retM tt.

Definition clear_no_interrupt : GM unit :=
  let* vq := get_vq in
  if Z.land (g_avail_flags_shadow vq) VRING_AVAIL_F_NO_INTERRUPT =? 0 then retM tt
  else
    let f := Z.ldiff (g_avail_flags_shadow vq) VRING_AVAIL_F_NO_INTERRUPT in
    mod_vq (with_flags_shadow f) ;;;
    if g_event vq then retM tt else host (st 2 (vr_avail (g_vring vq)) f).

Definition virtqueue_enable_cb_prepare : GM Z :=
  clear_no_interrupt ;;;
  let* vq := get_vq in
  host (st 2 (vring_used_event (g_vring vq)) (g_last_used_idx vq)) ;;;
  retM (g_last_used_idx vq).

Definition virtqueue_poll (last_used_idx : Z) : GM bool :=
  let* vq := get_vq in
  let* idx := host (ld 2 (vr_used (g_vring vq) + 2)) in
  retM (negb (u16 last_used_idx =? idx)).

Definition virtqueue_enable_cb : GM bool :=
  let* last_used_idx := virtqueue_enable_cb_prepare in
  let* pending := virtqueue_poll last_used_idx in
  retM (negb pending).

Definition virtqueue_enable_cb_delayed : GM bool :=
  clear_no_interrupt ;;;
  let* vq := get_vq in
  let bufs := u16 (u16 (g_avail_idx_shadow vq - g_last_used_idx vq) * 3 / 4) in
  host (st 2 (vring_used_event (g_vring vq)) (u16 (g_last_used_idx vq + bufs))) ;;;
  let* idx := host (ld 2 (vr_used (g_vring vq) + 2)) in
  retM (negb (bufs <? u16 (idx - g_last_used_idx vq))).

(** The first head with a token, from index [i] on. *)
Fixpoint first_unused_head (data : list Z) (i : Z) : option (Z * Z) :=
  match data with
  | [] => None
  | d :: data' => if d =? 0 then first_unused_head data' (i + 1) else Some (i, d)
  end.

Definition virtqueue_detach_unused_buf : GM Z :=
  let* vq := get_vq in
  let r := g_vring vq in
  match first_unused_head (take (Z.to_nat (vr_num r)) (g_data vq)) 0 with
  | Some (i, buf) =>
      detach_buf i ;;;
      let shadow := u16 (g_avail_idx_shadow vq - 1) in
      mod_vq (with_idx_shadow shadow) ;;;
      host (st 2 (vr_avail r + 2) shadow) ;;;
      retM buf
  | None => if negb (g_num_free vq =? vr_num r) then failM Panicked else retM 0
  end.

(** Whether the interrupt was for this queue, and whether the callback runs. *)
Definition vring_interrupt : GM (bool * bool) :=
  let* more := more_used in
  let* vq := get_vq in
  if negb more then retM (false, false)
  else if g_broken vq then retM (true, false)
  else retM (true, g_callback vq).

(** *** Creation *)

(** [desc[i].next = i + 1] for [n] entries from [i] on. *)
Fixpoint link_free (n : nat) (base i : Z) : M (vstate D) unit :=
  match n with
  | O => retM tt
  | S n' => st 2 (desc_at base i + 14) (i + 1) ;;; link_free n' base (i + 1)
  end.

(** [None] when the bookkeeping cannot be allocated. *)
Definition vring_new_virtqueue (index : Z) (r : vring) (features : Z) (callback kmalloc : bool)
  : M (vstate D) (option vring_virtqueue) :=
  if negb kmalloc then retM None
  else
    let indirect := virtio_test_bit features VIRTIO_RING_F_INDIRECT_DESC in
    let event := virtio_test_bit features VIRTIO_RING_F_EVENT_IDX in
    let flags := if callback then 0 else VRING_AVAIL_F_NO_INTERRUPT in
    (if negb callback && negb event then st 2 (vr_avail r) flags else retM tt) ;;;
    link_free (Z.to_nat (vr_num r - 1)) (vr_desc r) 0 ;;;
    retM (Some (VringVirtqueue r index callback false indirect event 0 (vr_num r) 0 0 flags 0
                  (replicate (Z.to_nat (vr_num r)) 0) (replicate (Z.to_nat (vr_num r)) 0))).

(** The search for a ring size that can be allocated; [alloc size] is
    [vring_alloc_queue]. *)
Fixpoint shrink_num (n : nat) (alloc : Z -> option Z) (num align : Z) : Z * option Z :=
  match n with
  | O => (num, None)
  | S n' =>
      if (num =? 0) || (vring_size num align <=? PAGE_SIZE) then (num, None)
      else match alloc (vring_size num align) with
           | Some q => (num, Some q)
           | None => shrink_num n' alloc (num / 2) align
           end
  end.

Definition vring_create_virtqueue (index num vring_align features : Z) (callback kmalloc : bool)
  (alloc : Z -> option Z) : M (vstate D) (option vring_virtqueue) :=
  if negb (Z.land num (u32 (num - 1)) =? 0) then retM None
  else
    let '(num, queue) := shrink_num 33 alloc num vring_align in
    if num =? 0 then retM None
    else
      let queue := match queue with Some q => Some q | None => alloc (vring_size num vring_align) end in
      match queue with
      | None => retM None
      | Some q => vring_new_virtqueue index (vring_init num q vring_align) features callback kmalloc
      end.

End Ring.
