(* ===== verification/GuestInv.v ===== *)
(** * GuestInv

    The invariant of the driver's virtqueue ([GuestRing]) and its preservation.
    The descriptor table is partitioned into a linked free list and the chains
    in flight; a chain in flight reads, through the device's eyes
    ([VirtioQueue.read_chain]), as exactly the buffers that were added. *)

From S2P Require Import Prelude Memory Virtio VirtioRing VirtioQueue VirtioMmio GuestRing.

(** ** Descriptors in memory *)

(** Consecutive entries of [l] are linked through their [next] fields. *)
Fixpoint linked (m : mem) (base : Z) (l : list Z) : Prop :=
  match l with
  | a :: ((b :: _) as l') => load 2 (desc_at base a + 14) m = Some b /\ linked m base l'
  | _ => True
  end.

Definition desc_has (m : mem) (base : Z) (i : Z) (b : iovec) (flags : Z) : Prop :=
  load 8 (desc_at base i) m = Some (iov_base b) /\
  load 4 (desc_at base i + 8) m = Some (iov_len b) /\
  load 2 (desc_at base i + 12) m = Some flags.

(** The bytes of a set of descriptors. *)
Definition descs_area (base : Z) (l : list Z) (i : Z) : Prop :=
  exists a, a ∈ l /\ range (desc_at base a) 16 i.

(** A finished chain: every descriptor but the last continues. *)
Fixpoint chain_ok (m : mem) (base : Z) (idx : list Z) (bufs : list iovec) : Prop :=
  match idx, bufs with
  | [i], [b] => exists fl, desc_has m base i b fl /\ Z.land fl VRING_DESC_F_NEXT = 0
  | i :: ((j :: _) as idx'), b :: bufs' =>
      (exists fl, desc_has m base i b fl /\ Z.land fl VRING_DESC_F_NEXT <> 0) /\
      load 2 (desc_at base i + 14) m = Some j /\ chain_ok m base idx' bufs'
  | _, _ => False
  end.

Lemma descs_disjoint base l a i :
  a ∉ l -> range (desc_at base a) 16 i -> ~ descs_area base l i.
Proof.
  intros Ha Hi (b & Hb & Hib). assert (a = b) as ->; [|done].
  unfold range, desc_at in *. lia.
Qed.

Section Frame.
Context (P : Z -> Prop) (m m' : mem) (base : Z) (Hf : frame P m m').

Lemma linked_frame l :
  (forall a i, a ∈ l -> range (desc_at base a) 16 i -> ~ P i) -> linked m base l -> linked m' base l.
Proof.
  induction l as [|a l IH]; intros HP H; [done|]. destruct l as [|b l]; [done|].
  destruct H as [H1 H2]. split.
  - rewrite <- H1. eapply load_frame; [exact Hf|]. intros i Hi. apply (HP a); [set_solver|].
    unfold range in *. lia.
  - apply IH; [|done]. intros c i Hc. apply HP. set_solver.
Qed.

Lemma desc_has_frame a b fl :
  (forall i, range (desc_at base a) 16 i -> ~ P i) -> desc_has m base a b fl -> desc_has m' base a b fl.
Proof.
  intros HP (H1 & H2 & H3). split_and!; [rewrite <- H1|rewrite <- H2|rewrite <- H3];
    (eapply load_frame; [exact Hf|]); intros i Hi; apply HP; unfold range in *; lia.
Qed.

Lemma chain_ok_frame idx bufs :
  (forall a i, a ∈ idx -> range (desc_at base a) 16 i -> ~ P i) ->
  chain_ok m base idx bufs -> chain_ok m' base idx bufs.
Proof.
  revert bufs. induction idx as [|a idx IH]; intros bufs HP H; [done|].
  assert (forall i, range (desc_at base a) 16 i -> ~ P i) as Ha by (intros i; apply HP; set_solver).
  destruct idx as [|c idx], bufs as [|b bufs]; try done.
  - destruct bufs; [|done]. destruct H as (fl & H1 & H2). exists fl. split; [|done].
    by apply desc_has_frame.
  - destruct H as ((fl & H1 & H2) & H3 & H4). split; [exists fl; split; [by apply desc_has_frame|done]|].
    split.
    + rewrite <- H3. eapply load_frame; [exact Hf|]. intros i Hi. apply Ha. unfold range in *. lia.
    + apply IH; [|done]. intros c' i Hc. apply HP. set_solver.
Qed.

End Frame.

Lemma linked_app_inv m base l1 l2 : linked m base (l1 ++ l2) -> linked m base l1 /\ linked m base l2.
Proof.
  induction l1 as [|a l1 IH]; [done|]. simpl. intros H. destruct l1 as [|b l1].
  - simpl in *. split; [done|]. destruct l2; [done|]. apply H.
  - simpl in H. destruct H as [H1 H2]. destruct (IH H2) as [H3 H4]. done.
Qed.

(** Joining two linked lists. *)
Lemma linked_app m base l1 l2 :
  linked m base l1 -> linked m base l2 ->
  (forall l a h t, l1 = l ++ [a] -> l2 = h :: t -> load 2 (desc_at base a + 14) m = Some h) ->
  linked m base (l1 ++ l2).
Proof.
  induction l1 as [|a l1 IH]; intros H1 H2 Hj; [done|]. destruct l1 as [|b l1].
  - destruct l2 as [|h l2]; [done|]. split; [by apply (Hj [] a h l2)|done].
  - destruct H1 as [H1 H1']. split; [done|]. apply IH; [done|done|].
    intros l a' h t Hl. apply (Hj (a :: l)). by rewrite Hl.
Qed.

(** ** Adding descriptors *)

Section Steps.
Context {D : Type}.
Implicit Types h : vstate D.
Implicit Types g : vring_virtqueue.

Definition with_mem (m : mem) h : vstate D := VState m (v_dev h) (v_irqs h) (v_ext h).

Lemma host_ld_ok n a v h g :
  load n a (v_mem h) = Some v -> host (ld n a) (GState h g) = Ok (v, GState h g).
Proof. intros H. unfold host, ld. simpl. by rewrite H. Qed.

Lemma host_st_ok n a v h g :
  mapped (v_mem h) a (Z.of_nat n) ->
  exists m, store n a v (v_mem h) = Some m /\
    host (st n a v) (GState h g) = Ok (tt, GState (with_mem m h) g).
Proof.
  intros Hm. destruct (store_some n a v (v_mem h) Hm) as [m Hs].
  exists m. split; [done|]. unfold host, st. simpl. by rewrite Hs.
Qed.

(** A table of [num] descriptors at [base] is mapped. *)
Definition table_mapped (m : mem) (base num : Z) : Prop := mapped m base (16 * num).

Lemma desc_field_mapped m base num a o n :
  table_mapped m base num -> 0 <= a < num -> 0 <= o -> o + n <= 16 ->
  mapped m (desc_at base a + o) n.
Proof. intros Hm Ha Ho Hn. eapply mapped_sub; [exact Hm|..]; unfold desc_at; lia. Qed.

Definition buf_ok (b : iovec) : Prop :=
  0 < iov_base b < 18446744073709551616 /\ 0 < iov_len b < 4294967296.

(** Filling one descriptor. *)
Lemma fill_desc_ok {A} base num i b flags next h g (k : Z -> M (gstate D) A) :
  table_mapped (v_mem h) base num -> 0 <= i < num -> buf_ok b -> 0 <= flags < 65536 ->
  load 2 (desc_at base i + 14) (v_mem h) = Some next ->
  exists m', (host (st 2 (desc_at base i + 12) flags) ;;;
              host (st 8 (desc_at base i) (iov_base b)) ;;;
              host (st 4 (desc_at base i + 8) (iov_len b)) ;;;
              let* n := host (ld 2 (desc_at base i + 14)) in k n) (GState h g) =
      k next (GState (with_mem m' h) g) /\
    frame (range (desc_at base i) 14) (v_mem h) m' /\ desc_has m' base i b flags.
Proof.
  intros Hm Hi [Hb1 Hb2] Hfl Hn.
  destruct (host_st_ok 2 (desc_at base i + 12) flags h g) as (m1 & Hs1 & E1);
    [eapply desc_field_mapped; [exact Hm|lia..]|].
  rewrite (bindM_ok _ _ _ _ _ E1).
  assert (frame (range (desc_at base i) 14) (v_mem h) m1) as Hf1.
  { eapply frame_weaken; [|by eapply store_frame]. unfold range. lia. }
  destruct (host_st_ok 8 (desc_at base i) (iov_base b) (with_mem m1 h) g) as (m2 & Hs2 & E2).
  { rewrite <- (Z.add_0_r (desc_at base i)).
    eapply desc_field_mapped; [eapply mapped_frame; [exact Hf1|exact Hm]|lia..]. }
  simpl in Hs2. rewrite (bindM_ok _ _ _ _ _ E2).
  assert (frame (range (desc_at base i) 14) (v_mem h) m2) as Hf2.
  { eapply frame_trans; [exact Hf1|]. eapply frame_weaken; [|by eapply store_frame].
    unfold range. lia. }
  destruct (host_st_ok 4 (desc_at base i + 8) (iov_len b) (with_mem m2 (with_mem m1 h)) g)
    as (m3 & Hs3 & E3).
  { eapply desc_field_mapped; [eapply mapped_frame; [exact Hf2|exact Hm]|lia..]. }
  simpl in Hs3. rewrite (bindM_ok _ _ _ _ _ E3).
  assert (frame (range (desc_at base i) 14) (v_mem h) m3) as Hf3.
  { eapply frame_trans; [exact Hf2|]. eapply frame_weaken; [|by eapply store_frame].
    unfold range. lia. }
  exists m3. split; [|split; [done|]].
  - assert (load 2 (desc_at base i + 14) m3 = Some next) as Hn3.
    { rewrite <- Hn. eapply load_frame; [exact Hf3|]. unfold range. simpl. lia. }
    by rewrite (bindM_ok _ _ _ _ _ (host_ld_ok _ _ _ (with_mem m3 (with_mem m2 (with_mem m1 h))) g Hn3)).
  - split_and!.
    + rewrite (load_store_ne _ _ _ _ _ _ _ Hs3) by (unfold disjoint_ranges; lia).
      rewrite (load_store_eq _ _ _ _ _ Hs2). f_equal. apply Z.mod_small. simpl. lia.
    + rewrite (load_store_eq _ _ _ _ _ Hs3). f_equal. apply Z.mod_small. simpl. lia.
    + rewrite (load_store_ne _ _ _ _ _ _ _ Hs3) by (unfold disjoint_ranges; lia).
      rewrite (load_store_ne _ _ _ _ _ _ _ Hs2) by (unfold disjoint_ranges; lia).
      rewrite (load_store_eq _ _ _ _ _ Hs1). f_equal. apply Z.mod_small. simpl. lia.
Qed.

Lemma with_mem_id h : with_mem (v_mem h) h = h.
Proof. by destruct h. Qed.

Lemma last_cons {A} (l : list A) a d : last (a :: l) d = last l a.
Proof. revert a. induction l as [|b l IH]; intros a; [done|]. simpl in *. by destruct l. Qed.

(** [x] is the first element of [l], if there is one. *)
Definition first_is (l : list Z) (x : Z) : Prop := match l with y :: _ => x = y | [] => True end.

Lemma add_descs_ok base num flags sgs idx rest i prev h g :
  length idx = length sgs -> first_is (idx ++ rest) i ->
  linked (v_mem h) base (idx ++ rest) -> NoDup (idx ++ rest) ->
  Forall (fun a => 0 <= a < num) idx -> table_mapped (v_mem h) base num ->
  Forall buf_ok sgs -> 0 <= flags < 65536 ->
  exists m' i', add_descs base flags sgs i prev (GState h g) =
      Ok ((i', last idx prev), GState (with_mem m' h) g) /\
    first_is rest i' /\ frame (descs_area base idx) (v_mem h) m' /\
    linked m' base (idx ++ rest) /\ Forall2 (fun a b => desc_has m' base a b flags) idx sgs.
Proof.
  revert idx i prev h. induction sgs as [|b sgs IH]; intros idx i prev h Hlen Hi Hl Hnd Hr Hm Hb Hfl.
  { destruct idx; [|done]. exists (v_mem h), i. rewrite with_mem_id. done. }
  destruct idx as [|a idx]; [done|]. simpl in Hi. subst i.
  inversion Hr as [|?? Ha Hr']; subst. inversion Hb as [|?? Hb1 Hb']; subst.
  simpl in Hlen. assert (exists next, load 2 (desc_at base a + 14) (v_mem h) = Some next /\
    first_is (idx ++ rest) next) as (next & Hnext & Hfirst).
  { simpl in Hl. destruct (idx ++ rest) as [|c l] eqn:E.
    - destruct (load_some 2 (desc_at base a + 14) (v_mem h)) as [v Hv];
        [eapply desc_field_mapped; [exact Hm|lia..]|]. by exists v.
    - destruct Hl as [Hl _]. by exists c. }
  cbn [add_descs].
  destruct (fill_desc_ok base num a b flags next h g (fun n => add_descs base flags sgs n a))
    as (m1 & -> & Hf1 & Hd1); [done..|].
  assert (forall c, c ∈ idx ++ rest -> forall x, range (desc_at base c) 16 x ->
    ~ range (desc_at base a) 14 x) as Hoff.
  { intros c Hc x Hx Hax. apply list.NoDup_cons in Hnd as [Hnotin _].
    apply (descs_disjoint base (idx ++ rest) a x); [done|unfold range in *; lia|by exists c]. }
  destruct (IH idx next a (with_mem m1 h)) as (m2 & i' & E & Hi' & Hf2 & Hl2 & Hd2).
  { lia. }
  { done. }
  { eapply linked_frame; [exact Hf1|intros c x Hc Hx; by eapply Hoff|].
    apply (linked_app_inv _ _ [a]) in Hl. apply Hl. }
  { by apply list.NoDup_cons in Hnd as [_ Hnd]. }
  { done. }
  { eapply mapped_frame; [exact Hf1|exact Hm]. }
  { done. }
  { done. }
  exists m2, i'. rewrite E, last_cons. split; [done|]. split; [done|].
  assert (forall x, range (desc_at base a) 16 x -> ~ descs_area base idx x) as Hoff2.
  { intros x Hx. apply list.NoDup_cons in Hnd as [Hnotin _]. eapply descs_disjoint; [|exact Hx]. set_solver. }
  split; [|split].
  - eapply frame_trans; (eapply frame_weaken; [|eassumption]); intros x Hx.
    + exists a. split; [set_solver|unfold range in *; lia].
    + destruct Hx as (c & Hc & Hx). exists c. split; [set_solver|done].
  - simpl. destruct (idx ++ rest) as [|c l] eqn:El; [done|]. split; [|done].
    simpl in Hfirst. subst next.
    rewrite (load_frame 2 _ _ _ _ Hf2) by (intros x Hx; apply Hoff2; unfold range in *; lia).
    rewrite (load_frame 2 _ _ _ _ Hf1); [done|]. unfold range. simpl. lia.
  - constructor; [|done]. eapply desc_has_frame; [exact Hf2|done|done].
Qed.

End Steps.

(** ** Closing a chain *)

(** Every descriptor of [idx] holds its buffer and continues. *)
Definition open_chain (m : mem) (base : Z) (idx : list Z) (bufs : list iovec) : Prop :=
  linked m base idx /\
  Forall2 (fun a b => exists fl, desc_has m base a b fl /\ Z.land fl VRING_DESC_F_NEXT <> 0) idx bufs.

Lemma ldiff_next_range fl : 0 <= fl < 65536 ->
  0 <= Z.ldiff fl VRING_DESC_F_NEXT < 65536 /\
  Z.land (Z.ldiff fl VRING_DESC_F_NEXT) VRING_DESC_F_NEXT = 0.
Proof.
  intros Hfl. pose proof (ldiff_range VRING_DESC_F_NEXT fl). split; [lia|].
  apply Z.bits_inj'. intros n Hn. rewrite Z.land_spec, Z.ldiff_spec, Z.bits_0. btauto.
Qed.

(** Clearing the flag of the last descriptor finishes the chain. *)
Lemma close_chain m m' base idx bufs fl :
  idx <> [] -> NoDup idx -> open_chain m base idx bufs ->
  load 2 (desc_at base (last idx 0) + 12) m = Some fl ->
  store 2 (desc_at base (last idx 0) + 12) (Z.ldiff fl VRING_DESC_F_NEXT) m = Some m' ->
  chain_ok m' base idx bufs.
Proof.
  intros Hne Hnd [Hl Hfill] Hfl Hst. pose proof (store_frame _ _ _ _ _ Hst) as Hfr.
  revert bufs Hl Hfill Hnd Hfl Hst Hfr. induction idx as [|a idx IH]; [done|].
  intros bufs Hl Hfill Hnd Hfl Hst Hfr. inversion Hfill as [|? b ? bufs' Hd Hfill']; subst.
  destruct idx as [|c idx].
  - inversion Hfill'; subst. simpl in *. destruct Hd as (fl' & (H1 & H2 & H3) & _).
    rewrite Hfl in H3. injection H3 as <-. apply load_range in Hfl.
    destruct (ldiff_next_range fl Hfl) as [Hr Hz]. exists (Z.ldiff fl VRING_DESC_F_NEXT). split; [|done].
    split_and!.
    + rewrite <- H1. eapply load_frame; [exact Hfr|]. unfold range. simpl. lia.
    + rewrite <- H2. eapply load_frame; [exact Hfr|]. unfold range. simpl. lia.
    + rewrite (load_store_eq _ _ _ _ _ Hst). f_equal. by apply Z.mod_small.
  - apply list.NoDup_cons in Hnd as [Hnotin Hnd]. destruct Hl as [Hla Hl].
    assert (last (c :: idx) 0 ∈ c :: idx) as Hin.
    { destruct (exists_last (l := c :: idx)) as (l' & z & ->); [done|]. rewrite last_last. set_solver. }
    assert (forall i, range (desc_at base a) 16 i ->
      ~ range (desc_at base (last (a :: c :: idx) 0) + 12) (Z.of_nat 2) i) as Hoff.
    { intros i Hi Hx. change (last (a :: c :: idx) 0) with (last (c :: idx) 0) in Hx.
      eapply (descs_disjoint base (c :: idx) a i); [done|done|].
      exists (last (c :: idx) 0). split; [done|]. unfold range in *. change (Z.of_nat 2) with 2 in Hx. lia. }
    destruct Hd as (fl' & Hd & Hfl'). split.
    { exists fl'. split; [|done]. by eapply desc_has_frame. }
    split.
    + rewrite <- Hla. eapply load_frame; [exact Hfr|]. intros i Hi. apply Hoff. unfold range in *. lia.
    + by apply IH.
Qed.

(** ** The invariant *)

(** A chain in flight: its descriptors, its buffers and the driver's token. *)
Record flight := Flight { fl_idx : list Z; fl_bufs : list iovec; fl_token : Z }.

Definition flight_ok (m : mem) (g : vring_virtqueue) (f : flight) : Prop :=
  chain_ok m (vr_desc (g_vring g)) (fl_idx f) (fl_bufs f) /\ Forall buf_ok (fl_bufs f) /\
  fl_token f <> 0 /\
  exists hd, hd_error (fl_idx f) = Some hd /\ g_data g !! Z.to_nat hd = Some (fl_token f).

Definition g_desc_area (r : vring) : Z -> Prop := range (vr_desc r) (16 * vr_num r).
Definition g_avail_area (r : vring) : Z -> Prop := range (vr_avail r) (6 + 2 * vr_num r).
Definition g_used_area (r : vring) : Z -> Prop := range (vr_used r) (6 + 8 * vr_num r).

(** The rings are mapped and apart, and the size is a power of two. *)
Record vring_ok (m : mem) (r : vring) : Prop := {
  vo_pow2 : exists k, 0 <= k <= 15 /\ vr_num r = 2 ^ k;
  vo_desc : mapped m (vr_desc r) (16 * vr_num r);
  vo_avail : mapped m (vr_avail r) (6 + 2 * vr_num r);
  vo_used : mapped m (vr_used r) (6 + 8 * vr_num r);
  vo_disj : forall i,
    (g_desc_area r i -> ~ g_avail_area r i /\ ~ g_used_area r i) /\
    (g_avail_area r i -> ~ g_used_area r i);
}.

Lemma vring_ok_num m r : vring_ok m r -> 1 <= vr_num r <= 32768.
Proof.
  intros [[k [Hk ->]] _ _ _ _]. change 1 with (2 ^ 0). change 32768 with (2 ^ 15).
  split; apply Z.pow_le_mono_r; lia.
Qed.

Lemma vring_ok_frame P m m' r : frame P m m' -> vring_ok m r -> vring_ok m' r.
Proof. intros Hf [H1 H2 H3 H4 H5]. split; try done; by eapply mapped_frame. Qed.

Definition all_idx (free : list Z) (fls : list flight) : list Z := free ++ flat_map fl_idx fls.

(** The descriptors are the free list and the chains in flight, each once. *)
Record ring_inv (m : mem) (g : vring_virtqueue) (free : list Z) (fls : list flight) : Prop := {
  ri_vring : vring_ok m (g_vring g);
  ri_broken : g_broken g = false;
  ri_indirect : g_indirect g = false;
  ri_nodup : NoDup (all_idx free fls);
  ri_range : Forall (fun i => 0 <= i < vr_num (g_vring g)) (all_idx free fls);
  ri_total : Z.of_nat (length (all_idx free fls)) = vr_num (g_vring g);
  ri_num_free : g_num_free g = Z.of_nat (length free);
  ri_free_head : first_is free (g_free_head g);
  ri_free : linked m (vr_desc (g_vring g)) free;
  ri_flights : Forall (flight_ok m g) fls;
  ri_data_len : Z.of_nat (length (g_data g)) = vr_num (g_vring g);
  ri_data : forall i t, g_data g !! i = Some t -> t <> 0 ->
    exists f, f ∈ fls /\ hd_error (fl_idx f) = Some (Z.of_nat i);
  ri_indir : g_indir g = replicate (Z.to_nat (vr_num (g_vring g))) 0;
  ri_avail_idx : load 2 (vr_avail (g_vring g) + 2) m = Some (g_avail_idx_shadow g);
}.

Lemma last_app {A} (l1 l2 : list A) d : last (l1 ++ l2) d = last l2 (last l1 d).
Proof.
  revert d. induction l1 as [|a l1 IH]; intros d; [done|].
  rewrite <- app_comm_cons, !last_cons. apply IH.
Qed.

Lemma filled_open P m m' base flags idx sgs :
  frame P m m' -> (forall a x, a ∈ idx -> range (desc_at base a) 16 x -> ~ P x) ->
  Z.land flags VRING_DESC_F_NEXT <> 0 ->
  Forall2 (fun a b => desc_has m base a b flags) idx sgs ->
  Forall2 (fun a b => exists fl, desc_has m' base a b fl /\ Z.land fl VRING_DESC_F_NEXT <> 0) idx sgs.
Proof.
  intros Hf HP Hfl. induction 1 as [|a b idx sgs Hd Hd' IH]; constructor.
  - exists flags. split; [|done]. eapply desc_has_frame; [exact Hf|intros x; apply HP; set_solver|done].
  - apply IH. intros c x Hc. apply HP. set_solver.
Qed.

Section Add.
Context {D : Type} (ops : virtio_dev_ops D) (fuel : nat).
Implicit Types h : vstate D.

(** The descriptor part of [virtqueue_add]. *)
Lemma add_chain_ok base num out inn idx1 idx2 rest i h g :
  length idx1 = length out -> length idx2 = length inn -> out ++ inn <> [] ->
  let idx := idx1 ++ idx2 in
  first_is (idx ++ rest) i -> linked (v_mem h) base (idx ++ rest) -> NoDup (idx ++ rest) ->
  Forall (fun a => 0 <= a < num) idx -> table_mapped (v_mem h) base num ->
  Forall buf_ok (out ++ inn) ->
  exists m' i', (forall A (k : Z -> M (gstate D) A),
      (let* '(i, prev) := add_descs base VRING_DESC_F_NEXT out i 0 in
       let* '(i, prev) := add_descs base (Z.lor VRING_DESC_F_NEXT VRING_DESC_F_WRITE) inn i prev in
       let* flags := host (ld 2 (desc_at base prev + 12)) in
       host (st 2 (desc_at base prev + 12) (Z.ldiff flags VRING_DESC_F_NEXT)) ;;; k i)
        (GState h g) = k i' (GState (with_mem m' h) g)) /\
    first_is rest i' /\ frame (descs_area base idx) (v_mem h) m' /\
    chain_ok m' base idx (out ++ inn) /\ linked m' base rest.
Proof.
  intros Hl1 Hl2 Hne idx Hi Hl Hnd Hr Hm Hb. subst idx. rewrite <- app_assoc in *.
  apply Forall_app in Hb as [Hb1 Hb2]. apply Forall_app in Hr as [Hr1 Hr2].
  destruct (add_descs_ok base num VRING_DESC_F_NEXT out idx1 (idx2 ++ rest) i 0 h g)
    as (m1 & i1 & E1 & Hi1 & Hf1 & Hlk1 & Hd1); [done..|].
  apply list.NoDup_app in Hnd as HN. destruct HN as (Hnd1 & Hdis1 & Hnd2).
  destruct (add_descs_ok base num (Z.lor VRING_DESC_F_NEXT VRING_DESC_F_WRITE) inn idx2 rest i1
    (last idx1 0) (with_mem m1 h) g) as (m2 & i2 & E2 & Hi2 & Hf2 & Hlk2 & Hd2);
    [done|done|apply (linked_app_inv _ _ idx1), Hlk1|done|done
    |eapply mapped_frame; [exact Hf1|exact Hm]|done|done|].
  rewrite <- last_app in E2. simpl in Hf2.
  assert (idx1 ++ idx2 <> []) as Hine.
  { intros [-> ->]%app_eq_nil. simpl in *. destruct out, inn; done. }
  assert (NoDup (idx1 ++ idx2)) as Hnd12.
  { rewrite app_assoc in Hnd. by apply list.NoDup_app in Hnd as [? _]. }
  assert (forall a x, a ∈ idx1 -> range (desc_at base a) 16 x -> ~ descs_area base idx2 x) as Hoff.
  { intros a x Ha Hx. eapply descs_disjoint; [|exact Hx]. intros Hin. apply (Hdis1 a Ha). set_solver. }
  assert (open_chain m2 base (idx1 ++ idx2) (out ++ inn)) as Hopen.
  { split.
    - apply linked_app.
      + eapply linked_frame; [exact Hf2|exact Hoff|]. by apply linked_app_inv in Hlk1 as [? _].
      + by apply linked_app_inv in Hlk2 as [? _].
      + intros l a hd t -> ->. rewrite <- app_assoc in Hlk1. simpl in Hlk1.
        apply linked_app_inv in Hlk1 as [_ [Hlk1 _]]. rewrite <- Hlk1.
        eapply load_frame; [exact Hf2|]. intros x Hx. apply (Hoff a); [set_solver|].
        unfold range in *. simpl in Hx. lia.
    - apply Forall2_app;
        [by apply (filled_open (descs_area base idx2) m1 m2 base VRING_DESC_F_NEXT)|].
      apply (filled_open (fun _ => False) m2 m2 base (Z.lor VRING_DESC_F_NEXT VRING_DESC_F_WRITE));
        [reflexivity|tauto|done|done]. }
  set (l := last (idx1 ++ idx2) 0) in *.
  assert (l ∈ idx1 ++ idx2) as Hlin.
  { unfold l. destruct (exists_last Hine) as (l' & z & ->). rewrite last_last. set_solver. }
  assert (table_mapped m2 base num) as Hm2.
  { eapply mapped_frame; [exact Hf2|]. eapply mapped_frame; [exact Hf1|exact Hm]. }
  assert (0 <= l < num) as Hlr.
  { assert (Forall (fun a => 0 <= a < num) (idx1 ++ idx2)) as HF by (by apply Forall_app).
    rewrite list.Forall_forall in HF. by apply HF. }
  destruct (load_some 2 (desc_at base l + 12) m2) as [fl Hfl];
    [eapply desc_field_mapped; [exact Hm2|lia..]|].
  destruct (host_st_ok 2 (desc_at base l + 12) (Z.ldiff fl VRING_DESC_F_NEXT)
    (with_mem m2 (with_mem m1 h)) g) as (m3 & Hs3 & E3);
    [eapply desc_field_mapped; [exact Hm2|lia..]|].
  simpl in Hs3. pose proof (store_frame _ _ _ _ _ Hs3) as Hf3.
  assert (forall x, range (desc_at base l + 12) (Z.of_nat 2) x -> descs_area base (idx1 ++ idx2) x) as Hl3.
  { intros x Hx. exists l. split; [done|]. unfold range in *. simpl in Hx. lia. }
  exists m3, i2. split_and!.
  - intros A k. rewrite (bindM_ok _ _ _ _ _ E1). cbn beta iota. rewrite (bindM_ok _ _ _ _ _ E2).
    cbn beta iota. rewrite (bindM_ok _ _ _ _ _ (host_ld_ok _ _ _ (with_mem m2 (with_mem m1 h)) g Hfl)).
    by rewrite (bindM_ok _ _ _ _ _ E3).
  - done.
  - eapply frame_trans; [|eapply frame_trans]; (eapply frame_weaken; [|eassumption]); [..|done].
    + intros x (a & Ha & Hx). exists a. split; [set_solver|done].
    + intros x (a & Ha & Hx). exists a. split; [set_solver|done].
  - by eapply close_chain.
  - apply linked_app_inv in Hlk2 as [_ Hlk2]. eapply linked_frame; [exact Hf3| |exact Hlk2].
    intros a x Ha Hx Hx3. apply Hl3 in Hx3. revert Hx3. apply (descs_disjoint _ _ a); [|done].
    intros Hin. rewrite app_assoc in Hnd. apply list.NoDup_app in Hnd as (_ & Hdis & _).
    by apply (Hdis a).
Qed.

(** The queue after a successful add. *)
Definition added_vq (g : vring_virtqueue) (fh n head data : Z) : vring_virtqueue :=
  VringVirtqueue (g_vring g) (g_index g) (g_callback g) (g_broken g) (g_indirect g) (g_event g)
    fh (g_num_free g - n) (g_num_added g + 1) (g_last_used_idx g) (g_avail_flags_shadow g)
    (u16 (g_avail_idx_shadow g + 1)) (<[Z.to_nat head := data]> (g_data g)) (g_indir g).

(** Where the next head goes in the available ring. *)
Definition avail_slot (g : vring_virtqueue) : Z :=
  avail_at (g_vring g) (g_avail_idx_shadow g mod vr_num (g_vring g)).

Lemma g_mask m r x : vring_ok m r -> Z.land x (u32 (vr_num r - 1)) = x mod vr_num r.
Proof.
  intros Hr. pose proof (vring_ok_num _ _ Hr). destruct (vo_pow2 _ _ Hr) as (k & Hk & He).
  rewrite u32_id by lia. rewrite He. apply land_pow2_mask. lia.
Qed.

(** Publishing head [hd]: the ring entry, then the index. *)
Lemma publish_ok m r shadow hd h g :
  vring_ok m r -> v_mem h = m -> 0 <= hd < 65536 -> 0 <= shadow < 65536 ->
  let a := avail_at r (shadow mod vr_num r) in
  exists m1 m2, host (st 2 (avail_at r (Z.land shadow (u32 (vr_num r - 1)))) hd) (GState h g) =
      Ok (tt, GState (with_mem m1 h) g) /\
    (forall g', host (st 2 (vr_avail r + 2) (u16 (shadow + 1))) (GState (with_mem m1 h) g') =
      Ok (tt, GState (with_mem m2 h) g')) /\
    frame (fun i => range a 2 i \/ range (vr_avail r + 2) 2 i) m m2 /\
    load 2 a m2 = Some hd /\ load 2 (vr_avail r + 2) m2 = Some (u16 (shadow + 1)).
Proof.
  intros Hr <- Hhd Hsh a. rewrite (g_mask _ _ _ Hr). fold a.
  pose proof (vring_ok_num _ _ Hr). pose proof (Z.mod_pos_bound shadow (vr_num r)).
  destruct (host_st_ok 2 a hd h g) as (m1 & Hs1 & E1).
  { eapply mapped_sub; [apply (vo_avail _ _ Hr)|..]; unfold a, avail_at; simpl; lia. }
  pose proof (store_frame _ _ _ _ _ Hs1) as Hf1. simpl in Hf1.
  destruct (store_some 2 (vr_avail r + 2) (u16 (shadow + 1)) m1) as [m2 Hs2].
  { eapply mapped_frame; [exact Hf1|]. eapply mapped_sub; [apply (vo_avail _ _ Hr)|..]; simpl; lia. }
  pose proof (store_frame _ _ _ _ _ Hs2) as Hf2. simpl in Hf2.
  exists m1, m2. split; [done|]. split; [|split; [|split]].
  - intros g'. unfold host, st. simpl. by rewrite Hs2.
  - eapply frame_trans; (eapply frame_weaken; [|eassumption]); simpl; auto.
  - rewrite (load_store_ne _ _ _ _ _ _ _ Hs2) by (unfold disjoint_ranges, a, avail_at; lia).
    rewrite (load_store_eq _ _ _ _ _ Hs1). f_equal. by apply Z.mod_small.
  - rewrite (load_store_eq _ _ _ _ _ Hs2). f_equal. apply Z.mod_small, u16_range.
Qed.

Lemma set_data_ok hd v h g :
  0 <= hd < vr_num (g_vring g) ->
  set_data hd v (GState h g) = Ok (tt, GState h (with_data (<[Z.to_nat hd := v]> (g_data g)) g)).
Proof.
  intros Hhd. unfold set_data.
  rewrite (bindM_ok _ _ _ _ _ (eq_refl : get_vq (GState h g) = Ok (g, GState h g))).
  rewrite (proj2 (Z.ltb_ge _ _)), (proj2 (Z.leb_gt _ _)) by lia. done.
Qed.

(** Descriptors are apart from the available ring. *)
Lemma desc_off_avail m g a x :
  vring_ok m (g_vring g) -> 0 <= a < vr_num (g_vring g) ->
  range (desc_at (vr_desc (g_vring g)) a) 16 x -> ~ g_avail_area (g_vring g) x.
Proof.
  intros Hvr Ha Hx. apply (vo_disj _ _ Hvr x). unfold g_desc_area, range, desc_at in *. lia.
Qed.

Lemma publish_avail m g x :
  vring_ok m (g_vring g) ->
  range (avail_slot g) 2 x \/ range (vr_avail (g_vring g) + 2) 2 x -> g_avail_area (g_vring g) x.
Proof.
  intros Hvr. pose proof (vring_ok_num _ _ Hvr).
  pose proof (Z.mod_pos_bound (g_avail_idx_shadow g) (vr_num (g_vring g))).
  unfold g_avail_area, avail_slot, avail_at, range. lia.
Qed.

(** [virtqueue_add] with room in the table: what it computes. *)
Lemma virtqueue_add_run out inn data kmalloc h g free fls :
  ring_inv (v_mem h) g free fls -> data <> 0 -> Forall buf_ok (out ++ inn) ->
  let n := length (out ++ inn) in
  (0 < n <= length free)%nat -> g_num_added g + 1 <> 65535 ->
  let idx := take n free in
  let base := vr_desc (g_vring g) in
  exists m' hd fh,
    virtqueue_add ops fuel out inn data kmalloc (GState h g) =
      Ok (0, GState (with_mem m' h) (added_vq g fh (Z.of_nat n) hd data)) /\
    hd_error idx = Some hd /\ first_is (drop n free) fh /\
    frame (fun i => descs_area base idx i \/ range (avail_slot g) 2 i \/
                    range (vr_avail (g_vring g) + 2) 2 i) (v_mem h) m' /\
    chain_ok m' base idx (out ++ inn) /\ linked m' base (drop n free) /\
    load 2 (avail_slot g) m' = Some hd /\
    load 2 (vr_avail (g_vring g) + 2) m' = Some (u16 (g_avail_idx_shadow g + 1)).
Proof.
  intros Hinv Hdata Hb n Hn Hadd idx base.
  pose proof Hinv as [Hvr Hbr Hind Hnd Hr Htot Hnf Hfh Hfree Hfl Hdl Hdat Hindir Hai].
  pose proof (vring_ok_num _ _ Hvr) as Hnum.
  assert (length (out ++ inn) = (length out + length inn)%nat) as Hlen by apply length_app.
  assert (NoDup free /\ Forall (fun a => 0 <= a < vr_num (g_vring g)) free) as [Hndf Hrf].
  { apply list.NoDup_app in Hnd as [? _]. by apply Forall_app in Hr as [? _]. }
  assert (Z.of_nat (length free) <= vr_num (g_vring g)) as Hfn.
  { unfold all_idx in Htot. rewrite length_app in Htot. lia. }
  assert (exists hd free', free = hd :: free') as (hd & free' & Efree).
  { clear -Hn. destruct free; [simpl in Hn; lia|eauto]. }
  assert (idx = take (length out) free ++ take (length inn) (drop (length out) free)) as Hidx.
  { unfold idx, n. rewrite Hlen. symmetry. apply take_take_drop. }
  assert (free = idx ++ drop n free) as Hsplit by (symmetry; apply take_drop).
  destruct (add_chain_ok base (vr_num (g_vring g)) out inn (take (length out) free)
    (take (length inn) (drop (length out) free)) (drop n free) (g_free_head g) h g)
    as (m1 & fh & E1 & Hfh' & Hf1 & Hch & Hlk).
  { rewrite length_take. lia. }
  { rewrite length_take, length_drop. lia. }
  { intros Hnil. unfold n in Hn. rewrite Hnil in Hn. simpl in Hn. lia. }
  { by rewrite <- Hidx, <- Hsplit. }
  { by rewrite <- Hidx, <- Hsplit. }
  { by rewrite <- Hidx, <- Hsplit. }
  { rewrite <- Hidx. by apply Forall_take. }
  { apply Hvr. }
  { done. }
  rewrite <- Hidx in Hf1, Hch.
  assert (0 <= hd < vr_num (g_vring g)) as Hhd by (rewrite Efree in Hrf; by inversion Hrf).
  assert (g_free_head g = hd) as Hhead by (rewrite Efree in Hfh; done).
  assert (vring_ok m1 (g_vring g)) as Hvr1 by (by eapply vring_ok_frame).
  apply load_range in Hai as Hshr.
  destruct (publish_ok m1 (g_vring g) (g_avail_idx_shadow g) hd (with_mem m1 h)
    (VringVirtqueue (g_vring g) (g_index g) (g_callback g) (g_broken g) (g_indirect g) (g_event g)
      fh (g_num_free g - Z.of_nat n) (g_num_added g) (g_last_used_idx g) (g_avail_flags_shadow g)
      (g_avail_idx_shadow g) (<[Z.to_nat hd := data]> (g_data g)) (g_indir g)))
    as (m2 & m3 & E2 & E3 & Hf3 & Hsl & Hix); [done|done|lia|exact Hshr|].
  exists m3, hd, fh. split.
  { unfold virtqueue_add. rewrite (proj2 (Z.eqb_neq _ _) Hdata).
    rewrite (bindM_ok _ _ _ _ _ (eq_refl : get_vq (GState h g) = Ok (g, GState h g))).
    rewrite Hbr, Hind. cbn [andb]. rewrite <- Hlen. fold n.
    rewrite (proj2 (Z.ltb_ge _ _)), (proj2 (Z.eqb_neq (Z.of_nat n) 0)) by lia. cbn [orb].
    rewrite (bindM_ok _ _ _ _ _ (eq_refl : retM None (GState h g) = Ok (None, GState h g))).
    rewrite (proj2 (Z.ltb_ge _ _)) by lia. fold base. rewrite Hhead in E1 |- *.
    etransitivity; [apply (E1 _ (fun i => retM tt ;;; _))|].
    rewrite (bindM_ok _ _ _ _ _ (eq_refl : retM tt _ = Ok (tt, _))).
    rewrite (bindM_ok _ _ _ _ _ (eq_refl : mod_vq _ _ = Ok (tt, _))).
    rewrite (bindM_ok _ _ _ _ _ (eq_refl : retM _ _ = Ok (_, _))).
    rewrite (bindM_ok _ _ _ _ _ (eq_refl : mod_vq _ _ = Ok (tt, _))).
    cbn [g_host g_vq]. set (g1 := with_free_head fh _).
    rewrite (bindM_ok _ _ _ _ _ (set_data_ok hd data (with_mem m1 h) g1 Hhd)).
    rewrite (bindM_ok _ _ _ _ _ (eq_refl : retM tt _ = Ok (tt, _))).
    rewrite (bindM_ok _ _ _ _ _ E2).
    rewrite (bindM_ok _ _ _ _ _ (eq_refl : mod_vq _ _ = Ok (tt, _))). cbn [g_host g_vq].
    rewrite (bindM_ok _ _ _ _ _ (E3 _)).
    rewrite (bindM_ok _ _ _ _ _ (eq_refl : mod_vq _ _ = Ok (tt, _))). cbn [g_host g_vq].
    rewrite (proj2 (Z.eqb_neq _ _) Hadd). reflexivity. }
  split; [unfold idx; rewrite Efree; destruct n; [lia|done]|]. split; [done|].
  assert (forall a x, a ∈ free -> range (desc_at base a) 16 x ->
    ~ (range (avail_slot g) 2 x \/ range (vr_avail (g_vring g) + 2) 2 x)) as Hoff.
  { intros a x Ha Hx Hav. rewrite list.Forall_forall in Hrf.
    eapply desc_off_avail; [exact Hvr|by apply Hrf|exact Hx|]. by eapply publish_avail. }
  split_and!.
  - eapply frame_trans; (eapply frame_weaken; [|eassumption]); simpl; tauto.
  - eapply chain_ok_frame; [exact Hf3| |exact Hch]. intros a x Ha Hx.
    apply (Hoff a); [|done]. rewrite Hsplit. set_solver.
  - eapply linked_frame; [exact Hf3| |exact Hlk]. intros a x Ha Hx.
    apply (Hoff a); [|done]. rewrite Hsplit. set_solver.
  - done.
  - done.
Qed.

Lemma flight_frame P m m' g g' f :
  frame P m m' -> g_vring g' = g_vring g ->
  (forall a x, a ∈ fl_idx f -> range (desc_at (vr_desc (g_vring g)) a) 16 x -> ~ P x) ->
  (forall hd, hd_error (fl_idx f) = Some hd ->
     g_data g' !! Z.to_nat hd = g_data g !! Z.to_nat hd) ->
  flight_ok m g f -> flight_ok m' g' f.
Proof.
  intros Hf Hv HP Hd (H1 & H2 & H3 & hd & H4 & H5). split_and!; try done.
  - rewrite Hv. by eapply chain_ok_frame.
  - exists hd. split; [done|]. by rewrite Hd.
Qed.

Lemma hd_error_in {A} (l : list A) x : hd_error l = Some x -> x ∈ l.
Proof. destruct l; simpl; [done|]. intros [= ->]. set_solver. Qed.

Lemma flight_idx_in free fls f a : f ∈ fls -> a ∈ fl_idx f -> a ∈ all_idx free fls.
Proof.
  intros Hf Ha. unfold all_idx. apply elem_of_app. right. apply list_elem_of_In.
  apply in_flat_map. exists f. split; by apply list_elem_of_In.
Qed.

(** Adding keeps the invariant, and the chain is in flight. *)
Lemma virtqueue_add_ok out inn data kmalloc h g free fls :
  ring_inv (v_mem h) g free fls -> data <> 0 -> Forall buf_ok (out ++ inn) ->
  let n := length (out ++ inn) in
  (0 < n <= length free)%nat -> g_num_added g + 1 <> 65535 ->
  let idx := take n free in
  exists m' hd fh, let g' := added_vq g fh (Z.of_nat n) hd data in
    virtqueue_add ops fuel out inn data kmalloc (GState h g) =
      Ok (0, GState (with_mem m' h) g') /\
    hd_error idx = Some hd /\
    ring_inv m' g' (drop n free) (fls ++ [Flight idx (out ++ inn) data]) /\
    frame (fun i => descs_area (vr_desc (g_vring g)) idx i \/ range (avail_slot g) 2 i \/
                    range (vr_avail (g_vring g) + 2) 2 i) (v_mem h) m' /\
    load 2 (avail_slot g) m' = Some hd.
Proof.
  intros Hinv Hdata Hb n Hn Hadd idx.
  destruct (virtqueue_add_run out inn data kmalloc h g free fls Hinv Hdata Hb Hn Hadd)
    as (m' & hd & fh & E & Hhd & Hfh & Hf & Hch & Hlk & Hsl & Hix).
  exists m', hd, fh. split; [exact E|]. split; [done|]. split; [|done].
  pose proof Hinv as [Hvr Hbr Hind Hnd Hr Htot Hnf Hfh0 Hfree Hfl Hdl Hdat Hindir Hai].
  assert (all_idx (drop n free) (fls ++ [Flight idx (out ++ inn) data]) ≡ₚ all_idx free fls) as Hperm.
  { unfold all_idx. rewrite flat_map_app. simpl. rewrite app_nil_r.
    rewrite <- (take_drop n free) at 2. fold idx. solve_Permutation. }
  assert (hd ∈ all_idx free fls) as Hhin.
  { rewrite <- Hperm. eapply (flight_idx_in _ _ (Flight idx (out ++ inn) data)); [set_solver|].
    by apply hd_error_in. }
  assert (forall f a, f ∈ fls -> a ∈ fl_idx f -> a ∉ idx) as Hoff.
  { intros f a Hin Ha Hai'. apply list.NoDup_app in Hnd as (_ & Hdis & _).
    apply (Hdis a); [|by apply (flight_idx_in [] fls f)].
    rewrite <- (take_drop n free). set_solver. }
  rewrite list.Forall_forall in Hr. pose proof (Hr hd Hhin) as Hhr.
  split; try done.
  - by eapply vring_ok_frame.
  - by rewrite Hperm.
  - rewrite list.Forall_forall. intros a. rewrite Hperm. apply Hr.
  - by rewrite Hperm.
  - simpl. rewrite length_drop. lia.
  - apply Forall_app. split; [|constructor; [|constructor]].
    + rewrite list.Forall_forall in Hfl |- *. intros f Hin.
      eapply (flight_frame _ _ _ g); [exact Hf|done| | |by apply Hfl].
      * intros a x Ha Hx [Hd|Hav].
        -- eapply descs_disjoint; [|exact Hx|exact Hd]. by eapply Hoff.
        -- eapply desc_off_avail; [exact Hvr| |exact Hx|by eapply publish_avail].
           apply Hr. by eapply flight_idx_in.
      * intros hd' Hhd'. simpl. apply list_lookup_insert_ne. apply hd_error_in in Hhd'.
        pose proof (Hoff f hd' Hin Hhd') as Hne. apply hd_error_in in Hhd.
        assert (0 <= hd' < vr_num (g_vring g)) by (apply Hr; by eapply flight_idx_in).
        intros Heq. apply Hne. assert (hd' = hd) as -> by lia. done.
    + split_and!; try done. exists hd. split; [done|]. simpl. apply list_lookup_insert_eq. lia.
  - simpl. by rewrite length_insert.
  - intros i t Hi Ht. simpl in Hi. destruct (decide (i = Z.to_nat hd)) as [->|Hne].
    + eexists (Flight idx (out ++ inn) data). split; [set_solver|]. rewrite Z2Nat.id by lia. exact Hhd.
    + rewrite list_lookup_insert_ne in Hi by done. destruct (Hdat i t Hi Ht) as (f & Hin & Hh).
      exists f. split; [set_solver|done].
Qed.

End Add.

(** ** Taking a chain back *)

Lemma chain_linked m base idx bufs : chain_ok m base idx bufs -> linked m base idx.
Proof.
  revert bufs. induction idx as [|a idx IH]; intros bufs H; [done|].
  destruct idx as [|c idx]; [done|]. destruct bufs as [|b bufs]; [done|].
  destruct H as (_ & H1 & H2). split; [done|]. by eapply IH.
Qed.

Lemma chain_ok_length m base idx bufs : chain_ok m base idx bufs -> length idx = length bufs.
Proof.
  revert bufs. induction idx as [|a idx IH]; intros bufs H; [done|].
  destruct idx as [|c idx], bufs as [|b bufs]; try done.
  - by destruct bufs.
  - destruct H as (_ & _ & H). simpl. f_equal. by apply IH.
Qed.

Lemma chain_ok_ne m base idx bufs : chain_ok m base idx bufs -> idx <> [].
Proof. by destruct idx. Qed.

(** What the device reads in place of the chain. *)
Lemma chain_read m q idx bufs i n :
  queue_ok m q -> chain_ok m (q_desc q) idx bufs -> Forall buf_ok bufs ->
  Forall (fun a => 0 <= a < q_num q) idx -> hd_error idx = Some i -> (length idx <= n)%nat ->
  read_chain n m q i = Some bufs.
Proof.
  intros Hq. revert bufs i n. induction idx as [|a idx IH]; intros bufs i n Hc Hb Hr Hi Hn; [done|].
  simpl in Hi. injection Hi as <-. destruct n as [|n]; [simpl in Hn; lia|].
  inversion Hr as [|?? Ha Hr']; subst.
  assert (vring_desc_at_le_idx q a = desc_at (q_desc q) a) as Hd.
  { unfold vring_desc_at_le_idx, desc_at. rewrite (ring_mask_slot _ _ _ Hq). unfold slot.
    by rewrite Z.mod_small by lia. }
  destruct bufs as [|b bufs]; [by destruct idx|]. inversion Hb as [|?? [Hb1 Hb2] Hb']; subst.
  cbn [read_chain]. rewrite Hd.
  destruct idx as [|c idx].
  - destruct bufs; [|done]. destruct Hc as (fl & (H1 & H2 & H3) & H4).
    rewrite H1, H2, H3. cbn [mbind option_bind].
    rewrite (proj2 (Z.eqb_neq (iov_base b) 0)), (proj2 (Z.eqb_neq (iov_len b) 0)) by lia.
    cbn [orb]. rewrite H4. by destruct b.
  - destruct Hc as ((fl & (H1 & H2 & H3) & H4) & H5 & H6).
    rewrite H1, H2, H3. cbn [mbind option_bind].
    rewrite (proj2 (Z.eqb_neq (iov_base b) 0)), (proj2 (Z.eqb_neq (iov_len b) 0)) by lia.
    cbn [orb]. rewrite (proj2 (Z.eqb_neq _ _) H4), H5. cbn [mbind option_bind].
    rewrite (IH bufs c n H6 Hb' Hr' eq_refl) by (simpl in Hn |- *; lia). by destruct b.
Qed.

Section Get.
Context {D : Type} (ops : virtio_dev_ops D) (fuel : nat).
Implicit Types h : vstate D.

Lemma chain_end_ok m base idx bufs i n h g :
  v_mem h = m -> chain_ok m base idx bufs -> hd_error idx = Some i -> (length idx <= n)%nat ->
  chain_end n base i (GState h g) =
    Ok ((last idx 0, Z.of_nat (length idx) - 1), GState h g).
Proof.
  intros <-. revert bufs i n. induction idx as [|a idx IH]; intros bufs i n Hc Hi Hn; [done|].
  simpl in Hi. injection Hi as <-. destruct n as [|n]; [simpl in Hn; lia|].
  cbn [chain_end]. destruct idx as [|c idx], bufs as [|b bufs]; try done.
  - destruct bufs; [|done]. destruct Hc as (fl & (H1 & H2 & H3) & H4).
    rewrite (bindM_ok _ _ _ _ _ (host_ld_ok _ _ _ h g H3)). by rewrite H4.
  - destruct Hc as ((fl & (H1 & H2 & H3) & H4) & H5 & H6).
    rewrite (bindM_ok _ _ _ _ _ (host_ld_ok _ _ _ h g H3)).
    rewrite (proj2 (Z.eqb_neq _ _) H4).
    rewrite (bindM_ok _ _ _ _ _ (host_ld_ok _ _ _ h g H5)).
    rewrite (bindM_ok _ _ _ _ _ (IH bufs c n H6 eq_refl ltac:(simpl in Hn |- *; lia))).
    cbn beta iota. rewrite (last_cons (c :: idx)). unfold retM. do 2 f_equal.
    f_equal; [|simpl length; lia]. clear. revert c. induction idx as [|d idx IH]; [done|].
    intros c. rewrite !(last_cons (d :: idx)). done.
Qed.

(** The queue after [detach_buf]. *)
Definition detached_vq (g : vring_virtqueue) (hd k : Z) : vring_virtqueue :=
  VringVirtqueue (g_vring g) (g_index g) (g_callback g) (g_broken g) (g_indirect g) (g_event g)
    hd (g_num_free g + k) (g_num_added g) (g_last_used_idx g) (g_avail_flags_shadow g)
    (g_avail_idx_shadow g) (<[Z.to_nat hd := 0]> (g_data g)) (g_indir g).

Lemma flight_fits m g free fls f :
  ring_inv m g free fls -> f ∈ fls -> Z.of_nat (length (fl_idx f)) <= vr_num (g_vring g).
Proof.
  intros Hinv Hf. rewrite <- (ri_total _ _ _ _ Hinv). unfold all_idx.
  apply list_elem_of_split in Hf as (l1 & l2 & ->).
  rewrite flat_map_app. simpl. rewrite !length_app. lia.
Qed.

Lemma detach_run h g free fls1 f fls2 hd :
  ring_inv (v_mem h) g free (fls1 ++ f :: fls2) -> hd_error (fl_idx f) = Some hd ->
  let base := vr_desc (g_vring g) in
  exists m', detach_buf hd (GState h g) =
      Ok (tt, GState (with_mem m' h) (detached_vq g hd (Z.of_nat (length (fl_idx f))))) /\
    frame (range (desc_at base (last (fl_idx f) 0) + 14) 2) (v_mem h) m' /\
    load 2 (desc_at base (last (fl_idx f) 0) + 14) m' = Some (u16 (g_free_head g)).
Proof.
  intros Hinv Hhd base.
  pose proof Hinv as [Hvr Hbr Hind Hnd Hr Htot Hnf Hfh Hfree Hfl Hdl Hdat Hindir Hai].
  assert (flight_ok (v_mem h) g f) as (Hch & _).
  { rewrite list.Forall_forall in Hfl. apply Hfl. set_solver. }
  assert (forall a, a ∈ fl_idx f -> 0 <= a < vr_num (g_vring g)) as Hrf.
  { intros a Ha. rewrite list.Forall_forall in Hr. apply Hr. eapply flight_idx_in; [|exact Ha]. set_solver. }
  pose proof (Hrf hd (hd_error_in _ _ Hhd)) as Hhr.
  assert (last (fl_idx f) 0 ∈ fl_idx f) as Hlin.
  { destruct (exists_last (chain_ok_ne _ _ _ _ Hch)) as (l' & z & ->). rewrite last_last. set_solver. }
  pose proof (Hrf _ Hlin) as Hlr.
  set (g1 := with_data (<[Z.to_nat hd := 0]> (g_data g)) g).
  destruct (host_st_ok 2 (desc_at base (last (fl_idx f) 0) + 14) (g_free_head g) h g1) as (m' & Hs & E).
  { eapply desc_field_mapped; [apply (vo_desc _ _ Hvr)|lia..]. }
  exists m'. split; [|split; [by apply (store_frame 2) in Hs|]].
  2:{ rewrite (load_store_eq _ _ _ _ _ Hs). done. }
  unfold detach_buf. rewrite (bindM_ok _ _ _ _ _ (set_data_ok hd 0 h g Hhr)). fold g1.
  rewrite (bindM_ok _ _ _ _ _ (eq_refl : get_vq (GState h g1) = Ok (g1, GState h g1))).
  change (vr_desc (g_vring g1)) with base. change (vr_num (g_vring g1)) with (vr_num (g_vring g)).
  rewrite (bindM_ok _ _ _ _ _ (chain_end_ok _ base (fl_idx f) (fl_bufs f) hd
    (S (Z.to_nat (vr_num (g_vring g)))) h g1 eq_refl Hch Hhd
    ltac:(pose proof (flight_fits _ _ _ _ f Hinv ltac:(set_solver)); lia))).
  cbn beta iota. change (g_free_head g1) with (g_free_head g). rewrite (bindM_ok _ _ _ _ _ E).
  rewrite (bindM_ok _ _ _ _ _ (eq_refl : mod_vq _ _ = Ok (tt, _))). cbn [g_host g_vq].
  rewrite (bindM_ok _ _ _ _ _ (eq_refl : mod_vq _ _ = Ok (tt, _))). cbn [g_host g_vq].
  change (g_indir g1) with (g_indir g). rewrite Hindir.
  rewrite lookup_replicate_2 by lia.
  set (s' := GState (with_mem m' h) _).
  rewrite (bindM_ok _ _ _ _ _ (eq_refl : someM (Some 0) s' = Ok (0, s'))). cbn [Z.eqb].
  unfold retM. do 2 f_equal. unfold s', detached_vq. f_equal.
  change (g_num_free g1) with (g_num_free g).
  replace (g_num_free g + Z.of_nat (length (fl_idx f))) with
    (g_num_free g + (Z.of_nat (length (fl_idx f)) - 1) + 1) by lia. reflexivity.
Qed.

(** Writing the last link does not disturb the others. *)
Lemma linked_last m m' base l :
  frame (range (desc_at base (last l 0) + 14) 2) m m' -> NoDup l ->
  linked m base l -> linked m' base l.
Proof.
  intros Hf. induction l as [|a l IH]; intros Hnd H; [done|]. destruct l as [|b l]; [done|].
  apply list.NoDup_cons in Hnd as [Hnotin Hnd]. destruct H as [H1 H2]. split.
  - rewrite <- H1. eapply load_frame; [exact Hf|]. intros i Hi Hx.
    change (last (a :: b :: l) 0) with (last (b :: l) 0) in Hx.
    assert (last (b :: l) 0 ∈ b :: l) as Hin.
    { destruct (exists_last (l := b :: l)) as (l' & z & ->); [done|]. rewrite last_last. set_solver. }
    assert (a = last (b :: l) 0) as Heq; [|by rewrite <- Heq in Hin].
    unfold range, desc_at in *. change (Z.of_nat 2) with 2 in Hi. lia.
  - by apply IH.
Qed.

Lemma detach_inv m m' g free fls1 f fls2 hd :
  ring_inv m g free (fls1 ++ f :: fls2) -> hd_error (fl_idx f) = Some hd ->
  let base := vr_desc (g_vring g) in
  frame (range (desc_at base (last (fl_idx f) 0) + 14) 2) m m' ->
  load 2 (desc_at base (last (fl_idx f) 0) + 14) m' = Some (u16 (g_free_head g)) ->
  ring_inv m' (detached_vq g hd (Z.of_nat (length (fl_idx f)))) (fl_idx f ++ free) (fls1 ++ fls2).
Proof.
  intros Hinv Hhd base Hf Hld.
  pose proof Hinv as [Hvr Hbr Hind Hnd Hr Htot Hnf Hfh Hfree Hfl Hdl Hdat Hindir Hai].
  assert (all_idx (fl_idx f ++ free) (fls1 ++ fls2) ≡ₚ all_idx free (fls1 ++ f :: fls2)) as Hperm.
  { unfold all_idx. rewrite !flat_map_app. simpl. solve_Permutation. }
  pose proof Hnd as Hnd'. rewrite <- Hperm in Hnd'. unfold all_idx in Hnd'.
  apply list.NoDup_app in Hnd' as (Hnd1 & Hdis & _).
  apply list.NoDup_app in Hnd1 as (Hndf & Hdisf & _).
  rewrite list.Forall_forall in Hr. rewrite list.Forall_forall in Hfl.
  destruct (Hfl f ltac:(set_solver)) as (Hch & _).
  set (z := last (fl_idx f) 0) in *.
  assert (z ∈ fl_idx f) as Hz.
  { destruct (exists_last (chain_ok_ne _ _ _ _ Hch)) as (l' & z' & E). unfold z. rewrite E, last_last.
    set_solver. }
  assert (forall a, a ∈ all_idx free (fls1 ++ f :: fls2) -> a <> z ->
    forall x, range (desc_at base a) 16 x -> ~ range (desc_at base z + 14) 2 x) as Hoff.
  { intros a _ Hne x Hx Hx'. apply Hne. unfold range, desc_at in *. lia. }
  assert (forall a x, 0 <= a < vr_num (g_vring g) -> range (desc_at base a + 14) 2 x ->
    ~ g_avail_area (g_vring g) x) as Hav.
  { intros a x Ha Hx. eapply desc_off_avail; [exact Hvr|exact Ha|]. unfold base, range in *. lia. }
  pose proof (Hr z ltac:(eapply (flight_idx_in _ _ f); [set_solver|done])) as Hzr.
  pose proof (vring_ok_num _ _ Hvr) as Hnum.
  split; try done.
  - by eapply vring_ok_frame.
  - by rewrite Hperm.
  - rewrite list.Forall_forall. intros a. rewrite Hperm. apply Hr.
  - by rewrite Hperm.
  - simpl. rewrite length_app. lia.
  - simpl. by destruct (fl_idx f); [|injection Hhd as <-].
  - simpl. apply linked_app.
    + eapply linked_last; [exact Hf|done|by eapply chain_linked].
    + eapply linked_frame; [exact Hf| |exact Hfree]. intros a x Ha. apply Hoff.
      * unfold all_idx. set_solver.
      * intros ->. by apply (Hdisf z).
    + intros l a h' t El ->. simpl in Hfh.
      assert (0 <= h' < vr_num (g_vring g)) by (apply Hr; unfold all_idx; set_solver).
      assert (z = a) as <- by (unfold z; by rewrite El, last_last).
      fold base. rewrite Hld, Hfh, u16_id by lia. done.
  - rewrite list.Forall_forall. intros f' Hf'.
    assert (f' ∈ fls1 ++ f :: fls2) as Hf'' by set_solver.
    assert (forall a, a ∈ fl_idx f' -> a ∉ fl_idx f) as Hd'.
    { intros a Ha Ha'. apply (Hdis a); [set_solver|]. by apply (flight_idx_in [] _ f'). }
    eapply (flight_frame _ _ _ g); [exact Hf|done| | |by apply Hfl].
    + intros a x Ha. apply Hoff; [by eapply flight_idx_in|]. intros ->. by apply (Hd' z).
    + intros hd' Hhd'. simpl. apply list_lookup_insert_ne. apply hd_error_in in Hhd', Hhd.
      assert (0 <= hd' < vr_num (g_vring g)) by (apply Hr; by eapply flight_idx_in).
      assert (0 <= hd < vr_num (g_vring g)) by (apply Hr; eapply (flight_idx_in _ _ f); [set_solver|done]).
      intros Heq. apply (Hd' hd' Hhd'). by assert (hd' = hd) as -> by lia.
  - simpl. by rewrite length_insert.
  - simpl. intros i t Hi Ht. destruct (decide (i = Z.to_nat hd)) as [->|Hne].
    { rewrite list_lookup_insert_eq in Hi; [by simplify_eq|]. apply hd_error_in in Hhd.
      assert (0 <= hd < vr_num (g_vring g)) by (apply Hr; eapply (flight_idx_in _ _ f); [set_solver|done]).
      lia. }
    rewrite list_lookup_insert_ne in Hi by done. destruct (Hdat i t Hi Ht) as (f' & Hin & Hh).
    exists f'. split; [|done]. apply elem_of_app in Hin as [Hin|[->|Hin]%elem_of_cons]; [set_solver| |set_solver].
    rewrite Hhd in Hh. injection Hh as ->. rewrite Nat2Z.id in Hne. done.
  - simpl. rewrite <- Hai. eapply load_frame; [exact Hf|]. intros x Hx Hx'.
    apply (Hav z x Hzr Hx'). unfold g_avail_area, range in *. simpl in Hx. lia.
Qed.

(** Only the memory outside the rings the invariant reads may change. *)
Lemma ring_inv_frame P m m' g free fls :
  ring_inv m g free fls -> frame P m m' ->
  (forall x, P x -> ~ g_desc_area (g_vring g) x) ->
  (forall x, range (vr_avail (g_vring g) + 2) 2 x -> ~ P x) -> ring_inv m' g free fls.
Proof.
  intros [Hvr Hbr Hind Hnd Hr Htot Hnf Hfh Hfree Hfl Hdl Hdat Hindir Hai] Hf HP HP2.
  assert (forall a x, a ∈ all_idx free fls -> range (desc_at (vr_desc (g_vring g)) a) 16 x -> ~ P x) as Hd.
  { intros a x Ha Hx Hp. rewrite list.Forall_forall in Hr. specialize (Hr a Ha). apply (HP x Hp).
    unfold g_desc_area, range, desc_at in *. lia. }
  split; try done.
  - by eapply vring_ok_frame.
  - eapply linked_frame; [exact Hf| |done]. intros a x Ha. apply Hd. unfold all_idx. set_solver.
  - rewrite list.Forall_forall in Hfl |- *. intros f Hin.
    eapply (flight_frame _ _ _ g); [exact Hf|done| |done|by apply Hfl].
    intros a x Ha. apply Hd. by eapply flight_idx_in.
  - rewrite <- Hai. eapply load_frame; [exact Hf|]. exact HP2.
Qed.

Lemma ring_inv_last_used m g free fls v :
  ring_inv m g free fls -> ring_inv m (with_last_used v g) free fls.
Proof. intros []. by split. Qed.

(** Taking the next used entry: the token of the chain it names comes back and
    its descriptors return to the free list. *)
Lemma virtqueue_get_buf_ok h g free fls1 f fls2 hd len uidx :
  let r := g_vring g in
  let u := used_at r (g_last_used_idx g mod vr_num r) in
  ring_inv (v_mem h) g free (fls1 ++ f :: fls2) -> hd_error (fl_idx f) = Some hd ->
  load 2 (vr_used r + 2) (v_mem h) = Some uidx -> g_last_used_idx g <> uidx ->
  load 4 u (v_mem h) = Some hd -> load 4 (u + 4) (v_mem h) = Some len ->
  exists m', let g' := with_last_used (u16 (g_last_used_idx g + 1))
                         (detached_vq g hd (Z.of_nat (length (fl_idx f)))) in
    virtqueue_get_buf (GState h g) = Ok ((fl_token f, Some len), GState (with_mem m' h) g') /\
    ring_inv m' g' (fl_idx f ++ free) (fls1 ++ fls2) /\
    frame (fun i => g_desc_area r i \/ range (vring_used_event r) 2 i) (v_mem h) m' /\
    (Z.land (g_avail_flags_shadow g) VRING_AVAIL_F_NO_INTERRUPT = 0 ->
     load 2 (vring_used_event r) m' = Some (u16 (g_last_used_idx g + 1))).
Proof.
  intros r u Hinv Hhd Hui Hne Hid Hlen.
  pose proof Hinv as [Hvr Hbr _ _ Hr _ _ _ _ Hfl Hdl _ _ _].
  rewrite list.Forall_forall in Hr. rewrite list.Forall_forall in Hfl.
  destruct (Hfl f ltac:(set_solver)) as (Hch & _ & Htok & hd' & Hhd' & Hdat).
  rewrite Hhd in Hhd'. injection Hhd' as <-. pose proof (vring_ok_num _ _ Hvr) as Hnum.
  assert (0 <= hd < vr_num r) as Hhr.
  { apply Hr. eapply (flight_idx_in _ _ f); [set_solver|by apply hd_error_in]. }
  assert (0 <= last (fl_idx f) 0 < vr_num r) as Hzr.
  { apply Hr. eapply (flight_idx_in _ _ f); [set_solver|].
    destruct (exists_last (chain_ok_ne _ _ _ _ Hch)) as (l' & z & ->). rewrite last_last. set_solver. }
  destruct (detach_run h g free fls1 f fls2 hd Hinv Hhd) as (m1 & E1 & Hf1 & Hld1).
  pose proof (detach_inv _ m1 _ _ _ _ _ _ Hinv Hhd Hf1 Hld1) as Hinv1.
  set (g1 := detached_vq g hd _) in *. set (nu := u16 (g_last_used_idx g + 1)).
  assert (forall i, range (vring_used_event r) 2 i -> g_avail_area r i) as Hue.
  { intros i. unfold vring_used_event, avail_at, g_avail_area, range. lia. }
  assert (exists m2, (if Z.land (g_avail_flags_shadow g) VRING_AVAIL_F_NO_INTERRUPT =? 0
      then host (st 2 (vring_used_event r) nu) else retM tt) (GState (with_mem m1 h) (with_last_used nu g1)) =
      Ok (tt, GState (with_mem m2 h) (with_last_used nu g1)) /\
    frame (range (vring_used_event r) 2) m1 m2 /\
    (Z.land (g_avail_flags_shadow g) VRING_AVAIL_F_NO_INTERRUPT = 0 ->
     load 2 (vring_used_event r) m2 = Some nu)) as (m2 & E2 & Hf2 & Hev).
  { destruct (Z.eqb_spec (Z.land (g_avail_flags_shadow g) VRING_AVAIL_F_NO_INTERRUPT) 0) as [Hz|Hz].
    - destruct (host_st_ok 2 (vring_used_event r) nu (with_mem m1 h) (with_last_used nu g1)) as (m2 & Hs & E).
      { eapply mapped_frame; [exact Hf1|]. eapply mapped_sub; [apply (vo_avail _ _ Hvr)|..];
          unfold vring_used_event, avail_at; simpl; fold r; lia. }
      exists m2. split; [exact E|]. split; [by apply (store_frame 2) in Hs|]. intros _.
      rewrite (load_store_eq _ _ _ _ _ Hs). f_equal. apply Z.mod_small, u16_range.
    - by exists m1. }
  exists m2. split; [|split; [|split; [|done]]].
  - unfold virtqueue_get_buf, more_used.
    rewrite (bindM_ok _ _ _ _ _ (eq_refl : get_vq (GState h g) = Ok (g, GState h g))).
    rewrite Hbr, bindM_assoc.
    rewrite (bindM_ok _ _ _ _ _ (eq_refl : get_vq (GState h g) = Ok (g, GState h g))). fold r.
    rewrite bindM_assoc, (bindM_ok _ _ _ _ _ (host_ld_ok _ _ _ h g Hui)).
    rewrite (bindM_ok _ _ _ _ _ (eq_refl : retM _ (GState h g) = Ok (_, GState h g))).
    rewrite (proj2 (Z.eqb_neq _ _) Hne). cbn [negb]. rewrite (g_mask _ _ _ Hvr). fold u.
    rewrite (bindM_ok _ _ _ _ _ (host_ld_ok _ _ _ h g Hid)).
    rewrite (bindM_ok _ _ _ _ _ (host_ld_ok _ _ _ h g Hlen)).
    rewrite (proj2 (Z.leb_gt _ _)) by lia. rewrite Hdat.
    rewrite (bindM_ok _ _ _ _ _ (eq_refl : someM (Some _) (GState h g) = Ok (_, GState h g))).
    rewrite (proj2 (Z.eqb_neq _ _) Htok), (bindM_ok _ _ _ _ _ E1). fold g1 nu.
    rewrite (bindM_ok _ _ _ _ _ (eq_refl : mod_vq _ _ = Ok (tt, _))). cbn [g_host g_vq].
    by rewrite (bindM_ok _ _ _ _ _ E2).
  - apply ring_inv_last_used. eapply ring_inv_frame; [exact Hinv1|exact Hf2|..].
    + intros x Hx Hd. apply (vo_disj _ _ Hvr x) in Hd as [Hd _]. by apply Hd, Hue.
    + intros x Hx. change (g_vring g1) with r in Hx.
      unfold range, vring_used_event, avail_at in *. lia.
  - eapply frame_trans; (eapply frame_weaken; [|eassumption]); [|by right].
    intros x Hx. left. unfold g_desc_area, range, desc_at in *. fold r in Hx. lia.
Qed.

End Get.

(** ** Creation *)

Lemma align_up_spec x k : 0 <= k ->
  x <= align_up x (2 ^ k) < x + 2 ^ k /\ align_up x (2 ^ k) mod 2 ^ k = 0.
Proof.
  intros Hk. assert (0 < 2 ^ k) by (apply Z.pow_pos_nonneg; lia).
  assert (align_up x (2 ^ k) = (x + 2 ^ k - 1) - (x + 2 ^ k - 1) mod 2 ^ k) as ->.
  { unfold align_up. rewrite <- land_pow2_mask by done.
    set (y := x + 2 ^ k - 1). set (w := 2 ^ k - 1).
    assert (y = Z.land w y + Z.ldiff y w) as Hsum.
    { rewrite Z.add_nocarry_lxor by (bits; btauto). bits; btauto. }
    rewrite (Z.land_comm y w). lia. }
  pose proof (Z.mod_pos_bound (x + 2 ^ k - 1) (2 ^ k) ltac:(lia)). split; [lia|].
  rewrite Zminus_mod_idemp_r, Z.sub_diag. apply Z.mod_0_l. lia.
Qed.

Lemma align_up_shift p x k : 0 <= k -> p mod 2 ^ k = 0 ->
  align_up (p + x) (2 ^ k) = p + align_up x (2 ^ k).
Proof.
  intros Hk Hp. assert (0 < 2 ^ k) by (apply Z.pow_pos_nonneg; lia).
  destruct (align_up_spec (p + x) k Hk) as [H1 H2]. destruct (align_up_spec x k Hk) as [H3 H4].
  apply Z.mod_divide in Hp as [a ->]; [|lia]. apply Z.mod_divide in H2 as [b Hb]; [|lia].
  apply Z.mod_divide in H4 as [c Hc]; [|lia]. rewrite Hb, Hc in *.
  set (w := 2 ^ k) in *. assert (- w < (b - a - c) * w < w) as Hd by lia.
  assert (b - a - c = 0) by nia. replace b with (a + c) by lia. lia.
Qed.

(** The three rings of [vring_init] lie one after the other and fill exactly
    [vring_size] bytes. *)
Lemma vring_init_layout num p k : 0 <= k -> p mod 2 ^ k = 0 -> 0 < num ->
  let r := vring_init num p (2 ^ k) in
  vr_num r = num /\ vr_desc r = p /\ vr_avail r = vr_desc r + 16 * num /\
  vr_avail r + 6 + 2 * num <= vr_used r /\
  vr_used r + 6 + 8 * num = p + vring_size num (2 ^ k).
Proof.
  intros Hk Hp Hn r. unfold r, vring_init, vring_size. simpl.
  replace (p + num * 16 + 4 + 2 * num + 2) with (p + (16 * num + 2 * (3 + num))) by lia.
  rewrite align_up_shift by done. destruct (align_up_spec (16 * num + 2 * (3 + num)) k Hk).
  split_and!; try done; lia.
Qed.

Lemma vring_init_ok m num p k j :
  0 <= k -> p mod 2 ^ k = 0 -> 0 <= j <= 15 -> num = 2 ^ j ->
  mapped m p (vring_size num (2 ^ k)) -> vring_ok m (vring_init num p (2 ^ k)).
Proof.
  intros Hk Hp Hj Hnum Hm. assert (0 < num) by (subst; apply Z.pow_pos_nonneg; lia).
  destruct (vring_init_layout num p k Hk Hp) as (H1 & H2 & H3 & H4 & H5); [done|].
  set (r := vring_init num p (2 ^ k)) in *.
  split; rewrite ?H1.
  - by exists j.
  - eapply mapped_sub; [exact Hm|lia|lia].
  - eapply mapped_sub; [exact Hm|lia|lia].
  - eapply mapped_sub; [exact Hm|lia|lia].
  - intros i. unfold g_desc_area, g_avail_area, g_used_area, range. rewrite H1. lia.
Qed.

Section Create.
Context {D : Type}.
Implicit Types h : vstate D.

Lemma link_free_ok n base num i h :
  table_mapped (v_mem h) base num -> 0 <= i -> i + Z.of_nat n < num -> num <= 32768 ->
  exists m', link_free n base i h = Ok (tt, with_mem m' h) /\
    frame (fun x => base + 16 * i <= x < base + 16 * (i + Z.of_nat n)) (v_mem h) m' /\
    linked m' base (seqZ i (Z.of_nat n + 1)).
Proof.
  revert i h. induction n as [|n IH]; intros i h Hm Hi Hn Hnum.
  { exists (v_mem h). rewrite with_mem_id. split; [done|]. split; [done|].
    by rewrite (seqZ_cons i) by lia. }
  destruct (st_ok 2 (desc_at base i + 14) (i + 1) h) as (m1 & Hs & E);
    [eapply desc_field_mapped; [exact Hm|lia..]|].
  pose proof (store_frame _ _ _ _ _ Hs) as Hf1. simpl in Hf1.
  destruct (IH (i + 1) (with_mem m1 h)) as (m2 & E2 & Hf2 & Hl2); [|lia|lia|done|].
  { eapply mapped_frame; [exact Hf1|exact Hm]. }
  exists m2. cbn [link_free]. rewrite (bindM_ok _ _ _ _ _ E). split; [exact E2|]. simpl in Hf2. split.
  - eapply frame_trans; (eapply frame_weaken; [|eassumption]); unfold range, desc_at; lia.
  - rewrite (seqZ_cons i) by lia. replace (Z.pred (Z.of_nat (S n) + 1)) with (Z.of_nat n + 1) by lia.
    replace (Z.succ i) with (i + 1) by lia.
    rewrite (seqZ_cons (i + 1)) in Hl2 |- * by lia. split; [|exact Hl2].
    rewrite (load_frame 2 _ _ _ _ Hf2) by (unfold range, desc_at; simpl; lia).
    rewrite (load_store_eq _ _ _ _ _ Hs). f_equal. apply Z.mod_small. simpl. lia.
Qed.

(** A new queue: everything is free. *)
Lemma vring_new_virtqueue_ok index r features callback h :
  vring_ok (v_mem h) r -> load 2 (vr_avail r + 2) (v_mem h) = Some 0 ->
  virtio_test_bit features VIRTIO_RING_F_INDIRECT_DESC = false ->
  virtio_test_bit features VIRTIO_RING_F_EVENT_IDX = true ->
  exists m' g, vring_new_virtqueue index r features callback true h = Ok (Some g, with_mem m' h) /\
    ring_inv m' g (seqZ 0 (vr_num r)) [] /\ frame (g_desc_area r) (v_mem h) m' /\
    g_vring g = r /\ g_index g = index /\ g_event g = true /\ g_last_used_idx g = 0 /\
    g_avail_idx_shadow g = 0 /\ g_num_added g = 0.
Proof.
  intros Hvr Hz Hind Hev. pose proof (vring_ok_num _ _ Hvr) as Hnum.
  destruct (link_free_ok (Z.to_nat (vr_num r - 1)) (vr_desc r) (vr_num r) 0 h)
    as (m' & E & Hf & Hl); [apply Hvr|lia|lia|lia|].
  assert (frame (g_desc_area r) (v_mem h) m') as Hf'.
  { eapply frame_weaken; [|exact Hf]. intros x Hx. unfold g_desc_area, range. simpl in Hx. lia. }
  replace (Z.of_nat (Z.to_nat (vr_num r - 1)) + 1) with (vr_num r) in Hl by lia.
  unfold vring_new_virtqueue. cbn [negb]. rewrite Hind, Hev. cbn [negb]. rewrite andb_false_r.
  rewrite (bindM_ok _ _ _ _ _ (eq_refl : retM tt h = Ok (tt, h))).
  rewrite (bindM_ok _ _ _ _ _ E). do 2 eexists. split; [done|]. split; [|done].
  assert (all_idx (seqZ 0 (vr_num r)) [] = seqZ 0 (vr_num r)) as Hall.
  { unfold all_idx. simpl. by rewrite app_nil_r. }
  split; cbn [g_vring g_broken g_indirect g_num_free g_free_head g_data g_indir g_avail_idx_shadow];
    try done; rewrite ?Hall.
  - by eapply vring_ok_frame.
  - apply NoDup_seqZ.
  - rewrite list.Forall_forall. intros i. rewrite elem_of_seqZ. lia.
  - rewrite length_seqZ. lia.
  - rewrite length_seqZ. lia.
  - rewrite (seqZ_cons 0) by lia. done.
  - rewrite length_replicate. lia.
  - intros i t Hi Ht. apply lookup_replicate in Hi as [-> _]. done.
  - rewrite <- Hz. eapply load_frame; [exact Hf'|]. intros x Hx Hd.
    apply (vo_disj _ _ Hvr x) in Hd as [Hd _]. apply Hd. unfold g_avail_area, range in *. simpl in Hx. lia.
Qed.

End Create.
