(* ===== verification/GuestDriver.v ===== *)
(** * GuestDriver

    The driver's virtqueue (drivers/virtio/virtio_ring.c) and the device's
    processing loop (tools/lkl/lib/virtio.c) at work on the same rings: a batch
    of requests submitted with [virtqueue_add], one [virtqueue_kick], and the
    completions taken back with [virtqueue_get_buf]. *)

From S2P Require Import Prelude Memory Virtio VirtioRing VirtioQueue VirtioMmio VirtioBlk PosixHost GuestRing GuestInv.

(** ** A driver *)

(** A request: the buffers the device reads, those it writes, and the token. *)
Record submission := Submission { sub_out : list iovec; sub_in : list iovec; sub_token : Z }.

Definition sub_bufs (b : submission) : list iovec := sub_out b ++ sub_in b.

Section Driver.
Context {D : Type} (ops : virtio_dev_ops D) (fuel : nat).
Abbreviation GM := (M (gstate D)).

(** [virtqueue_add] for each of the requests. *)
Fixpoint submit_all (bs : list submission) : GM (list Z) :=
  match bs with
  | [] => retM []
  | b :: bs' =>
      let* r := virtqueue_add ops fuel (sub_out b) (sub_in b) (sub_token b) None in
      let* rs := submit_all bs' in
      retM (r :: rs)
  end.

(** [n] times [virtqueue_get_buf]. *)
Fixpoint reap (n : nat) : GM (list (Z * option Z)) :=
  match n with
  | O => retM []
  | S n' =>
      let* c := virtqueue_get_buf in
      let* cs := reap n' in
      retM (c :: cs)
  end.

Definition batch (bs : list submission) : GM (list Z * bool * list (Z * option Z)) :=
  let* rs := submit_all bs in
  let* ok := virtqueue_kick ops fuel in
  let* cs := reap (length bs) in
  retM (rs, ok, cs).

End Driver.

(** The request the device sees for the [j]-th submission. *)
Fixpoint reqs_of (qidx a : Z) (bs : list submission) : list virtio_req :=
  match bs with
  | [] => []
  | b :: bs' =>
      VirtioReq (sub_bufs b) (u32 (sum_len (sub_bufs b))) qidx a :: reqs_of qidx (u16 (a + 1)) bs'
  end.

(** ** The two views of the rings *)

Record queue_of (r : vring) (q : virtio_queue) : Prop := {
  qf_num : q_num q = vr_num r;
  qf_desc : q_desc q = vr_desc r;
  qf_avail : q_avail q = vr_avail r;
  qf_used : q_used q = vr_used r;
}.

Lemma queue_of_layout r q q' : queue_of r q -> same_layout q q' -> queue_of r q'.
Proof. intros [H1 H2 H3 H4] (E1 & E2 & E3 & E4 & _). split; congruence. Qed.

Section Views.
Context (r : vring) (q : virtio_queue) (Hqf : queue_of r q).

Lemma desc_area_of i : desc_area q i <-> g_desc_area r i.
Proof. destruct Hqf as [H1 H2 _ _]. unfold desc_area, g_desc_area. by rewrite H1, H2. Qed.

Lemma avail_area_of i : avail_area q i <-> g_avail_area r i.
Proof. destruct Hqf as [H1 _ H2 _]. unfold avail_area, g_avail_area. by rewrite H1, H2. Qed.

Lemma used_area_of i : used_area q i <-> g_used_area r i.
Proof. destruct Hqf as [H1 _ _ H2]. unfold used_area, g_used_area. by rewrite H1, H2. Qed.

Lemma avail_at_of i : avail_ring_at q i = avail_at r i.
Proof. unfold avail_ring_at, avail_at. by rewrite (qf_avail _ _ Hqf). Qed.

Lemma used_at_of i : used_ring_at q i = used_at r i.
Proof. unfold used_ring_at, used_at. by rewrite (qf_used _ _ Hqf). Qed.

Lemma slot_of x : slot q x = x mod vr_num r.
Proof. unfold slot. by rewrite (qf_num _ _ Hqf). Qed.

Lemma queue_of_ok m : vring_ok m r -> 0 <= q_last_avail_idx q < 65536 -> queue_ok m q.
Proof.
  intros [Hp Hd Ha Hu Hdis] Hl. pose proof Hqf as [H1 H2 H3 H4].
  split; rewrite ?H1, ?H2, ?H3, ?H4; try done.
  - intros i. rewrite used_area_of, desc_area_of. intros Hi Hi2. by apply (Hdis i) in Hi2 as [].
  - intros i. rewrite used_area_of, avail_area_of. intros Hi Hi2. by apply (Hdis i) in Hi2.
Qed.

End Views.

(** ** Submitting *)

Definition flight_of (f : flight) (b : submission) : Prop :=
  fl_bufs f = sub_bufs b /\ fl_token f = sub_token b.

(** The available ring holds the heads of the chains in flight, from index [a] on. *)
Definition heads_at (m : mem) (q : virtio_queue) (a : Z) (fls : list flight) : Prop :=
  forall j f hd, fls !! j = Some f -> hd_error (fl_idx f) = Some hd ->
    load 2 (avail_ring_at q (slot q (a + Z.of_nat j))) m = Some hd.

Definition sub_ok (b : submission) : Prop :=
  sub_token b <> 0 /\ sub_bufs b <> [] /\ Forall buf_ok (sub_bufs b).

(** The descriptors a batch takes. *)
Definition descs_of (bs : list submission) : nat := length (flat_map sub_bufs bs).

Lemma flights_le m g free fls :
  ring_inv m g free fls -> (length fls + length free <= length (all_idx free fls))%nat.
Proof.
  intros [_ _ _ _ _ _ _ _ _ Hfl _ _ _ _]. unfold all_idx. rewrite length_app.
  enough (length fls <= length (flat_map fl_idx fls))%nat by lia.
  induction Hfl as [|f fls (_ & _ & _ & hd & Hhd & _) _ IH]; [done|].
  simpl. rewrite length_app. destruct (fl_idx f); [done|]. simpl. lia.
Qed.

Lemma heads_at_snoc m m' q a fls f hd (P : Z -> Prop) :
  queue_ok m q -> Z.of_nat (length fls) < q_num q -> heads_at m q a fls ->
  frame P m m' -> hd_error (fl_idx f) = Some hd ->
  (forall j i, 0 <= j < Z.of_nat (length fls) ->
     range (avail_ring_at q (slot q (a + j))) 2 i -> ~ P i) ->
  load 2 (avail_ring_at q (slot q (a + Z.of_nat (length fls)))) m' = Some hd ->
  heads_at m' q a (fls ++ [f]).
Proof.
  intros Hq Hn Hh Hf Hhd HP Hl j f' hd' Hj Hhd'.
  apply lookup_app_Some in Hj as [Hj|[Hge Hj]].
  - rewrite <- (Hh j f' hd' Hj Hhd'). eapply load_frame; [exact Hf|]. intros i. apply HP.
    apply lookup_lt_Some in Hj. lia.
  - apply list_lookup_singleton_Some in Hj as [Hj <-].
    rewrite Hhd in Hhd'. injection Hhd' as <-. replace j with (length fls) by lia. exact Hl.
Qed.

(** Rings written by the driver. *)
Definition driver_area (r : vring) (i : Z) : Prop := g_desc_area r i \/ g_avail_area r i.

(** What an exchange of buffers leaves alone in the queue. *)
Definition same_vq (g g' : vring_virtqueue) : Prop :=
  g_vring g' = g_vring g /\ g_index g' = g_index g /\ g_event g' = g_event g /\
  g_callback g' = g_callback g.

Lemma same_vq_trans g1 g2 g3 : same_vq g1 g2 -> same_vq g2 g3 -> same_vq g1 g3.
Proof. intros (H1 & H2 & H3 & H4) (E1 & E2 & E3 & E4). split_and!; congruence. Qed.

(** The driver has published [fls], from index [a] on. *)
Record loaded (m : mem) (g : vring_virtqueue) (q : virtio_queue) (a : Z) (free : list Z)
  (fls : list flight) : Prop := {
  lo_inv : ring_inv m g free fls;
  lo_queue : queue_of (g_vring g) q;
  lo_heads : heads_at m q a fls;
  lo_shadow : g_avail_idx_shadow g = u16 (a + Z.of_nat (length fls));
  lo_added : g_num_added g = Z.of_nat (length fls);
  lo_last : q_last_avail_idx q = a /\ 0 <= a < 65536;
}.

Lemma loaded_queue_ok m g q a free fls : loaded m g q a free fls -> queue_ok m q.
Proof.
  intros [Hi Hq _ _ _ [<- Hl]]. eapply queue_of_ok; [exact Hq|apply Hi|done].
Qed.

(** One more submission. *)
Section Submit.
Context {D : Type} (ops : virtio_dev_ops D) (fuel : nat).
Implicit Types h : vstate D.

Lemma submit_one b q a h g free fls :
  loaded (v_mem h) g q a free fls -> sub_ok b -> (length (sub_bufs b) <= length free)%nat ->
  exists m' g' f, virtqueue_add ops fuel (sub_out b) (sub_in b) (sub_token b) None (GState h g) =
      Ok (0, GState (with_mem m' h) g') /\
    loaded m' g' q a (drop (length (sub_bufs b)) free) (fls ++ [f]) /\ flight_of f b /\
    frame (driver_area (g_vring g)) (v_mem h) m' /\ same_vq g g' /\
    g_last_used_idx g' = g_last_used_idx g.
Proof.
  intros Hlo (Htok & Hne & Hb) Hlen. pose proof (loaded_queue_ok _ _ _ _ _ _ Hlo) as Hqok.
  destruct Hlo as [Hinv Hq Hh Hsh Hadd Hlast].
  pose proof (flights_le _ _ _ _ Hinv) as Hle. pose proof (ri_total _ _ _ _ Hinv) as Htot.
  pose proof (vring_ok_num _ _ (ri_vring _ _ _ _ Hinv)) as Hnum.
  assert (0 < length (sub_bufs b))%nat as Hpos by (destruct (sub_bufs b); [done|simpl; lia]).
  destruct (virtqueue_add_ok ops fuel (sub_out b) (sub_in b) (sub_token b) None h g free fls)
    as (m' & hd & fh & E & Hhd & Hinv' & Hf & Hslot); [done..|fold (sub_bufs b); lia|lia|].
  fold (sub_bufs b) in *. set (n := length (sub_bufs b)) in *.
  set (g' := added_vq g fh (Z.of_nat n) hd (sub_token b)) in *.
  assert (avail_slot g = avail_ring_at q (slot q (a + Z.of_nat (length fls)))) as Hsl.
  { unfold avail_slot. rewrite (avail_at_of _ _ Hq), <- (slot_of _ _ Hq), Hsh.
    by rewrite (slot_u16 _ _ _ Hqok). }
  exists m', g', (Flight (take n free) (sub_bufs b) (sub_token b)).
  split; [exact E|]. split; [|split_and!; try done].
  - split; try done.
    + eapply heads_at_snoc; [exact Hqok| |exact Hh|exact Hf|exact Hhd| |by rewrite <- Hsl].
      { rewrite (qf_num _ _ Hq). lia. }
      intros j i Hj Hi. pose proof (slot_range _ q (a + j) Hqok).
      pose proof (slot_range _ q (a + Z.of_nat (length fls)) Hqok).
      intros [(c & Hc & Hci)|[Hp|Hp]].
      * apply (desc_off_avail _ g c i (ri_vring _ _ _ _ Hinv)) in Hci.
        -- apply Hci, (avail_area_of _ _ Hq). eapply avail_cell_area; [|exact Hi]. lia.
        -- pose proof (ri_range _ _ _ _ Hinv) as Hr. rewrite list.Forall_forall in Hr.
           apply Hr. unfold all_idx. rewrite <- (take_drop n free). set_solver.
      * rewrite Hsl in Hp. assert (slot q (a + j) = slot q (a + Z.of_nat (length fls))) as Heq.
        { unfold avail_ring_at, range in *. lia. }
        apply (slot_inj _ _ _ _ _ Hqok) in Heq; rewrite ?(qf_num _ _ Hq); lia.
      * rewrite <- (qf_avail _ _ Hq) in Hp. unfold avail_ring_at, range in *. lia.
    + simpl. rewrite length_app, Hsh. unfold u16. rewrite Zplus_mod_idemp_l. f_equal. simpl. lia.
    + simpl. rewrite length_app, Hadd. simpl. lia.
  - eapply frame_weaken; [|exact Hf]. intros i [(c & Hc & Hci)|Hp].
    + left. pose proof (ri_range _ _ _ _ Hinv) as Hr. rewrite list.Forall_forall in Hr.
      assert (0 <= c < vr_num (g_vring g)).
      { apply Hr. unfold all_idx. rewrite <- (take_drop n free). set_solver. }
      unfold g_desc_area, range, desc_at in *. lia.
    + right. by eapply publish_avail; [apply Hinv|].
Qed.

Lemma submit_all_ok bs q a h g free fls :
  loaded (v_mem h) g q a free fls -> Forall sub_ok bs -> (descs_of bs <= length free)%nat ->
  exists m' g' fls', submit_all ops fuel bs (GState h g) =
      Ok (replicate (length bs) 0, GState (with_mem m' h) g') /\
    loaded m' g' q a (drop (descs_of bs) free) (fls ++ fls') /\ Forall2 flight_of fls' bs /\
    frame (driver_area (g_vring g)) (v_mem h) m' /\ same_vq g g' /\
    g_last_used_idx g' = g_last_used_idx g.
Proof.
  revert h g free fls. induction bs as [|b bs IH]; intros h g free fls Hlo Hok Hlen.
  { exists (v_mem h), g, []. rewrite with_mem_id, app_nil_r. done. }
  inversion Hok as [|?? Hb Hbs]; subst. unfold descs_of in Hlen |- *. simpl in Hlen |- *.
  rewrite length_app in Hlen |- *. fold (descs_of bs) in Hlen |- *.
  destruct (submit_one b q a h g free fls Hlo Hb) as (m1 & g1 & f & E1 & Hlo1 & Hf1 & Hfr1 & Hs1 & Hu1);
    [lia|].
  destruct (IH (with_mem m1 h) g1 _ _ Hlo1 Hbs) as (m2 & g2 & fls2 & E2 & Hlo2 & Hf2 & Hfr2 & Hs2 & Hu2).
  { rewrite length_drop. lia. }
  exists m2, g2, (f :: fls2). rewrite (bindM_ok _ _ _ _ _ E1), (bindM_ok _ _ _ _ _ E2).
  rewrite drop_drop, <- app_assoc in Hlo2. split; [done|]. split; [done|].
  split; [by constructor|]. destruct Hs1 as [Hr1 Hs1']. rewrite Hr1 in Hfr2.
  split; [by eapply frame_trans|]. split; [|congruence].
  eapply same_vq_trans; [split; [exact Hr1|exact Hs1']|exact Hs2].
Qed.

End Submit.

(** The device reads the buffers of a chain in flight. *)
Lemma flight_read m g q free fls f hd :
  queue_ok m q -> ring_inv m g free fls -> queue_of (g_vring g) q -> f ∈ fls -> hd_error (fl_idx f) = Some hd ->
  (length (fl_bufs f) <= 19)%nat ->
  read_chain (Z.to_nat VIRTIO_REQ_MAX_BUFS) m q hd = Some (fl_bufs f).
Proof.
  intros Hqok Hinv Hq Hin Hhd Hshort.
  pose proof (ri_flights _ _ _ _ Hinv) as Hfls. rewrite list.Forall_forall in Hfls.
  destruct (Hfls f Hin) as (Hch & Hbk & _).
  pose proof (ri_range _ _ _ _ Hinv) as Hr. rewrite list.Forall_forall in Hr.
  apply (chain_read m q (fl_idx f) (fl_bufs f) hd); [done| |done| |done|].
  - by rewrite (qf_desc _ _ Hq).
  - rewrite (qf_num _ _ Hq), list.Forall_forall. intros c Hc. apply Hr. by eapply flight_idx_in.
  - by rewrite (chain_ok_length _ _ _ _ Hch).
Qed.

(** What the driver published is what the device finds pending. *)
Lemma loaded_pending m g q a free fls bs qidx k j :
  loaded m g q a free fls -> Forall2 flight_of fls bs ->
  Forall (fun b => (length (sub_bufs b) <= 19)%nat) bs -> (j + k = length bs)%nat ->
  pending k qidx (u16 (a + Z.of_nat j)) m q =
    Some (reqs_of qidx (u16 (a + Z.of_nat j)) (drop j bs)).
Proof.
  intros Hlo Hfb Hshort. pose proof (loaded_queue_ok _ _ _ _ _ _ Hlo) as Hqok.
  destruct Hlo as [Hinv Hq Hh _ _ _]. revert j.
  induction k as [|k IH]; intros j Hj; cbn [pending].
  { by rewrite drop_ge by lia. }
  destruct (lookup_lt_is_Some_2 bs j) as [b Hb]; [lia|].
  destruct (Forall2_lookup_r _ _ _ _ _ Hfb Hb) as (f & Hf & Hfl & _).
  pose proof (ri_flights _ _ _ _ Hinv) as Hfls. rewrite list.Forall_forall in Hfls.
  assert (f ∈ fls) as Hin by (by eapply list_elem_of_lookup_2).
  destruct (Hfls f Hin) as (_ & _ & _ & hd & Hhd & _).
  rewrite (slot_u16 _ _ _ Hqok), (Hh j f hd Hf Hhd). cbn [mbind option_bind].
  rewrite (flight_read m g q free fls f hd); [|done..|].
  - cbn [mbind option_bind].
    replace (u16 (u16 (a + Z.of_nat j) + 1)) with (u16 (a + Z.of_nat (S j)))
      by (unfold u16; rewrite Zplus_mod_idemp_l; f_equal; lia).
    rewrite (IH (S j)) by lia. cbn [mbind option_bind].
    rewrite (drop_S _ _ _ Hb), Hfl. cbn [reqs_of]. do 3 f_equal.
    unfold u16. rewrite Zplus_mod_idemp_l. f_equal. lia.
  - rewrite Hfl. rewrite list.Forall_forall in Hshort. apply Hshort. by eapply list_elem_of_lookup_2.
Qed.

(** ** Reaping *)

(** The used ring names the chains [fls], from the driver's index on; the chains
    [rest] are in flight too. *)
Record reported (m : mem) (g : vring_virtqueue) (q : virtio_queue) (free : list Z)
  (fls : list flight) (lens : list Z) (rest : list flight) : Prop := {
  re_inv : ring_inv m g free (fls ++ rest);
  re_queue : queue_of (g_vring g) q;
  re_ok : queue_ok m q;
  re_lens : length lens = length fls;
  re_range : 0 <= g_last_used_idx g < 65536;
  re_entry : forall j f hd len, fls !! j = Some f -> hd_error (fl_idx f) = Some hd ->
    lens !! j = Some len ->
    let e := used_ring_at q (slot q (g_last_used_idx g + Z.of_nat j)) in
    load 4 e m = Some hd /\ load 4 (e + 4) m = Some len;
  re_idx : load 2 (q_used q + 2) m = Some (u16 (g_last_used_idx g + Z.of_nat (length fls)));
}.

Section Reap.
Context {D : Type}.
Implicit Types h : vstate D.

Lemma reported_count m g q free fls lens rest :
  reported m g q free fls lens rest -> Z.of_nat (length fls + length rest) <= q_num q.
Proof.
  intros Hr. pose proof (re_inv _ _ _ _ _ _ _ Hr) as Hinv.
  pose proof (flights_le _ _ _ _ Hinv) as Hle. pose proof (ri_total _ _ _ _ Hinv).
  rewrite length_app in Hle. rewrite (qf_num _ _ (re_queue _ _ _ _ _ _ _ Hr)). lia.
Qed.

(** What taking buffers back writes: the descriptors and the used event. *)
Definition reap_area (r : vring) (i : Z) : Prop :=
  g_desc_area r i \/ range (vring_used_event r) 2 i.

Lemma reap_driver m r i : vring_ok m r -> reap_area r i -> driver_area r i.
Proof.
  intros Hvr%vring_ok_num [Hi|Hi]; [by left|right].
  unfold g_avail_area, vring_used_event, avail_at, range in *. lia.
Qed.

Lemma reap_one q h g free f fls len lens rest :
  reported (v_mem h) g q free (f :: fls) (len :: lens) rest ->
  exists m' g', virtqueue_get_buf (GState h g) =
      Ok ((fl_token f, Some len), GState (with_mem m' h) g') /\
    reported m' g' q (fl_idx f ++ free) fls lens rest /\
    frame (reap_area (g_vring g)) (v_mem h) m' /\ same_vq g g' /\
    g_last_used_idx g' = u16 (g_last_used_idx g + 1) /\
    g_num_added g' = g_num_added g /\ g_avail_idx_shadow g' = g_avail_idx_shadow g.
Proof.
  intros Hre. pose proof (reported_count _ _ _ _ _ _ _ Hre) as Hcount.
  destruct Hre as [Hinv Hq Hqok Hlens Hur He Hidx].
  pose proof (ri_flights _ _ _ _ Hinv) as Hfls. rewrite list.Forall_forall in Hfls.
  destruct (Hfls f) as (_ & _ & _ & hd & Hhd & _); [set_solver|].
  destruct (He 0%nat f hd len eq_refl Hhd eq_refl) as [H1 H2].
  change (Z.of_nat 0) with 0 in H1, H2. rewrite Z.add_0_r in H1, H2.
  rewrite (used_at_of _ _ Hq), (slot_of _ _ Hq) in H1, H2. rewrite (qf_used _ _ Hq) in Hidx.
  destruct (virtqueue_get_buf_ok h g free [] f (fls ++ rest) hd len _ Hinv Hhd Hidx) as
    (m' & E & Hinv' & Hf & _); [|done|done|].
  { pose proof (queue_ok_num _ _ Hqok). simpl length in Hcount |- *. unfold u16. lia. }
  set (g' := with_last_used _ _) in *.
  assert (forall n b, (forall i, range b (Z.of_nat n) i -> used_area q i) ->
    load n b m' = load n b (v_mem h)) as Hld.
  { intros n b Hb. eapply load_frame; [exact Hf|]. intros i Hi Hp. specialize (Hb i Hi).
    rewrite (used_area_of _ _ Hq) in Hb. pose proof (vo_disj _ _ (ri_vring _ _ _ _ Hinv) i) as [Hd1 Hd2].
    destruct Hp as [Hp|Hp]; [by apply Hd1 in Hp as []|]. apply Hd2 in Hb; [done|].
    pose proof (vring_ok_num _ _ (ri_vring _ _ _ _ Hinv)).
    unfold g_avail_area, vring_used_event, avail_at, range in *. lia. }
  exists m', g'. split; [exact E|]. split; [|split_and!; try done].
  pose proof (queue_ok_num _ _ Hqok) as Hnum. split; try done.
  - by eapply queue_ok_frame.
  - simpl in Hlens. lia.
  - apply u16_range.
  - intros j f' hd' len' Hj Hhd' Hl'. cbv zeta. simpl g_last_used_idx.
    destruct (He (S j) f' hd' len' Hj Hhd' Hl') as [H3 H4].
    rewrite (slot_succ _ _ _ _ Hqok). replace (1 + Z.of_nat j) with (Z.of_nat (S j)) by lia.
    pose proof (slot_range _ q (g_last_used_idx g + Z.of_nat (S j)) Hqok).
    rewrite !Hld; [done|..]; intros i Hi;
      (eapply used_cell_area; [done|unfold range in *; lia]).
  - rewrite Hld by (intros i; unfold used_area, range; lia).
    rewrite (qf_used _ _ Hq), Hidx. f_equal. simpl. unfold u16.
    rewrite Zplus_mod_idemp_l. f_equal. lia.
Qed.

Lemma reap_ok q h g free fls lens :
  reported (v_mem h) g q free fls lens [] ->
  exists m' g' free', reap (length fls) (GState h g) =
      Ok (zip_with (fun f l => (fl_token f, Some l)) fls lens, GState (with_mem m' h) g') /\
    reported m' g' q free' [] [] [] /\
    frame (driver_area (g_vring g)) (v_mem h) m' /\ same_vq g g' /\
    g_last_used_idx g' = u16 (g_last_used_idx g + Z.of_nat (length fls)) /\
    g_num_added g' = g_num_added g /\ g_avail_idx_shadow g' = g_avail_idx_shadow g.
Proof.
  revert h g free lens. induction fls as [|f fls IH]; intros h g free lens Hre.
  { assert (lens = []) as -> by (destruct lens; [done|by destruct Hre]).
    exists (v_mem h), g, free. rewrite with_mem_id. split_and!; try done.
    rewrite Z.add_0_r. symmetry. apply u16_id, (re_range _ _ _ _ _ _ _ Hre). }
  destruct lens as [|len lens]; [by destruct Hre|].
  destruct (reap_one q h g free f fls len lens [] Hre) as (m1 & g1 & E1 & Hre1 & Hf1 & Hs1 & Hu1 & Ha1 & Hi1).
  destruct (IH (with_mem m1 h) g1 _ _ Hre1) as (m2 & g2 & fr & E2 & Hre2 & Hf2 & Hs2 & Hu2 & Ha2 & Hi2).
  exists m2, g2, fr. cbn [length reap]. rewrite (bindM_ok _ _ _ _ _ E1), (bindM_ok _ _ _ _ _ E2).
  split; [done|]. split; [done|]. destruct Hs1 as [Hr1 Hs1']. rewrite Hr1 in Hf2.
  split.
  { eapply frame_trans; [|exact Hf2]. eapply frame_weaken; [|exact Hf1]. intros i.
    apply reap_driver with (v_mem h), (re_inv _ _ _ _ _ _ _ Hre). }
  split; [by eapply same_vq_trans|]. split_and!; [|congruence..].
  rewrite Hu2, Hu1. unfold u16. rewrite Zplus_mod_idemp_l. f_equal. simpl. lia.
Qed.

End Reap.

(** ** The kick *)

Section Kick.
Context {D : Type} (ops : virtio_dev_ops D) (fuel : nat).
Implicit Types h : vstate D.

Lemma vm_notify_ok index h h' :
  0 <= index < 4294967296 -> virtio_process_queue ops fuel index h = Ok (tt, h') ->
  vm_notify ops fuel index h = Ok (true, h').
Proof.
  intros Hi E. unfold vm_notify, writel, raw_write, virtio_write.
  rewrite !bindM_assoc, (bindM_ok _ _ h _ _ (eq_refl : get_dev h = Ok (v_dev h, h))).
  rewrite (word_value _ Hi).
  change (VIRTIO_MMIO_CONFIG <=? VIRTIO_MMIO_QUEUE_NOTIFY) with false. cbn iota beta zeta.
  change (negb (Z.of_nat 4 =? 4)) with false. cbn iota.
  repeat match goal with
    |- context [VIRTIO_MMIO_QUEUE_NOTIFY =? ?r] =>
      let b := eval vm_compute in (VIRTIO_MMIO_QUEUE_NOTIFY =? r) in
      change (VIRTIO_MMIO_QUEUE_NOTIFY =? r) with b; cbn iota
  end.
  unfold bindM. by rewrite E.
Qed.

(** The device asked to be notified at [a] and [k] entries were added since. *)
Lemma kick_prepare_ok a k h g :
  g_event g = true -> 0 <= a < 65536 -> 0 < k <= 32768 ->
  g_avail_idx_shadow g = u16 (a + k) -> g_num_added g = k ->
  load 2 (vring_avail_event (g_vring g)) (v_mem h) = Some a ->
  virtqueue_kick_prepare (GState h g) = Ok (true, GState h (with_num_added 0 g)).
Proof.
  intros Hev Ha Hk Hsh Hadd Hld. unfold virtqueue_kick_prepare.
  rewrite (bindM_ok _ _ _ _ _ (eq_refl : get_vq (GState h g) = Ok (g, GState h g))).
  rewrite (bindM_ok _ _ _ _ _ (eq_refl : mod_vq (with_num_added 0) (GState h g) =
    Ok (tt, GState h (with_num_added 0 g)))). rewrite Hev.
  rewrite (bindM_ok _ _ _ _ _ (host_ld_ok _ _ _ h (with_num_added 0 g) Hld)).
  assert (vring_need_event a (g_avail_idx_shadow g)
            (u16 (g_avail_idx_shadow g - g_num_added g)) = true) as ->; [|done].
  rewrite Hsh, Hadd. unfold vring_need_event, u16. apply Z.ltb_lt. lia.
Qed.

(** The kick reaches the device. *)
Lemma kick_ok a k h g h' :
  g_event g = true -> g_broken g = false -> 0 <= a < 65536 -> 0 < k <= 32768 ->
  g_avail_idx_shadow g = u16 (a + k) -> g_num_added g = k ->
  load 2 (vring_avail_event (g_vring g)) (v_mem h) = Some a ->
  0 <= g_index g < 4294967296 -> virtio_process_queue ops fuel (g_index g) h = Ok (tt, h') ->
  virtqueue_kick ops fuel (GState h g) = Ok (true, GState h' (with_num_added 0 g)).
Proof.
  intros Hev Hbr Ha Hk Hsh Hadd Hld Hi E. unfold virtqueue_kick.
  rewrite (bindM_ok _ _ _ _ _ (kick_prepare_ok a k h g Hev Ha Hk Hsh Hadd Hld)).
  unfold virtqueue_notify.
  rewrite (bindM_ok _ _ _ _ _ (eq_refl : get_vq (GState h (with_num_added 0 g)) =
    Ok (with_num_added 0 g, GState h (with_num_added 0 g)))).
  cbn [g_broken with_num_added g_index]. rewrite Hbr. unfold host at 1. unfold bindM at 1. simpl.
  by rewrite (vm_notify_ok _ _ _ Hi E).
Qed.

End Kick.

(** ** The round trip *)

Section Batch.
Context {D : Type} (ops : virtio_dev_ops D) `{!Serves ops} (fuel : nat).
Implicit Types h : vstate D.

(** Driver and device agree and nothing is in flight. *)
Record idle h (g : vring_virtqueue) (q : virtio_queue) (free : list Z) : Prop := {
  id_inv : ring_inv (v_mem h) g free [];
  id_queue : queue_of (g_vring g) q;
  id_at : queue_at (g_index g) (v_dev h) = Some q;
  id_index : 0 <= g_index g < 4294967296;
  id_ready : q_ready q <> 0;
  id_merge : q_max_merge_len q = 0;
  id_last : q_last_avail_idx q = g_avail_idx_shadow g;
  id_added : g_num_added g = 0;
  id_event : g_event g = true;
  id_used_range : 0 <= g_last_used_idx g < 65536;
  id_used : load 2 (q_used q + 2) (v_mem h) = Some (g_last_used_idx g);
  id_avail_event : load 2 (used_ring_at q (q_num q)) (v_mem h) = Some (g_avail_idx_shadow g);
}.

Lemma idle_loaded h g q free :
  idle h g q free -> loaded (v_mem h) g q (g_avail_idx_shadow g) free [].
Proof.
  intros [Hinv Hq Hat Hix Hrdy Hmm Hlast Hadd Hev Hur Hu Hae].
  pose proof (ri_avail_idx _ _ _ _ Hinv) as Hai. apply load_range in Hai.
  split; try done. simpl. rewrite Z.add_0_r, u16_id; [done|exact Hai].
Qed.

Lemma reqs_of_length qidx a bs : length (reqs_of qidx a bs) = length bs.
Proof. revert a. induction bs; intros; simpl; [done|]. by rewrite IHbs. Qed.

Lemma reqs_of_ok qidx a bs : Forall sub_ok bs -> Forall req_ok (reqs_of qidx a bs).
Proof.
  intros Hb. revert a. induction Hb as [|b bs (_ & _ & Hb) _ IH]; intros a; constructor; [|done].
  eapply Forall_impl; [|exact Hb]. unfold buf_ok. simpl. lia.
Qed.

Lemma serve_all_local (P : Z -> Prop) reqs m1 m2 x m1' x' lens :
  Forall req_ok reqs -> serve_all reqs m1 x = Some (m1', x', lens) -> agree_outside P m1 m2 ->
  (forall i, reqs_area reqs i -> ~ P i) ->
  exists m2', serve_all reqs m2 x = Some (m2', x', lens) /\ agree_outside P m1' m2'.
Proof.
  revert m1 m2 x lens. induction reqs as [|r reqs IH]; intros m1 m2 x lens Hok Hs Hag Hoff.
  { simpl in *. simplify_eq. eauto. }
  inversion Hok as [|?? Hr Hrs]; subst. cbn [serve_all] in *.
  apply bind_Some in Hs as ([[m x1] len] & Hs1 & Hs). apply bind_Some in Hs as ([[n x2] ls] & Hs2 & Hs).
  injection Hs as -> -> <-.
  destruct (serve_local P _ _ _ _ _ _ _ Hr Hs1 Hag) as (m2a & E1 & Hag1).
  { intros i Hi. apply Hoff. exists r. split; [set_solver|done]. }
  destruct (IH m m2a x1 ls Hrs Hs2 Hag1) as (m2b & E2 & Hag2).
  { intros i (r' & Hr' & Hi). apply Hoff. exists r'. split; [set_solver|done]. }
  exists m2b. rewrite E1. cbn [mbind option_bind]. rewrite E2. done.
Qed.

Lemma serve_all_length reqs m x m' x' lens :
  serve_all reqs m x = Some (m', x', lens) -> length lens = length reqs.
Proof.
  revert m x lens. induction reqs as [|r reqs IH]; intros m x lens Hs; [by simplify_eq/=|].
  cbn [serve_all] in Hs. apply bind_Some in Hs as ([[? x1] len] & Hs1 & Hs).
  apply bind_Some in Hs as ([[n x2] ls] & Hs2 & Hs). simplify_eq/=. f_equal. eauto.
Qed.

Lemma reqs_of_lookup qidx a bs j :
  0 <= a < 65536 -> (j < length bs)%nat ->
  exists req, reqs_of qidx a bs !! j = Some req /\ rq_idx req = u16 (a + Z.of_nat j).
Proof.
  revert a j. induction bs as [|b bs IH]; intros a j Ha Hj; [simpl in Hj; lia|].
  destruct j as [|j]; simpl.
  - eexists. split; [done|]. simpl. by rewrite Z.add_0_r, u16_id.
  - destruct (IH (u16 (a + 1)) j) as (req & E & Hi); [apply u16_range|simpl in Hj; lia|].
    exists req. split; [done|]. rewrite Hi. unfold u16. rewrite Zplus_mod_idemp_l. f_equal. lia.
Qed.

(** What the device served and reported is what the driver will reap. *)
Lemma served_reported m1 g q a free fls bs lens h h2 :
  loaded m1 g q a free fls -> length fls = length bs -> length lens = length bs ->
  0 <= g_last_used_idx g < 65536 ->
  Forall (off_rings q) (reqs_of (g_index g) a bs) ->
  served (g_index g) q (g_last_used_idx g) (reqs_of (g_index g) a bs) lens (with_mem m1 h) h2 ->
  reported (v_mem h2) (with_num_added 0 g) q free fls lens [].
Proof.
  intros Hlo Hfb Hlens Hur Hoff [Hf Hu He _ _ _ _].
  pose proof (loaded_queue_ok _ _ _ _ _ _ Hlo) as Hqok.
  destruct Hlo as [Hinv Hq Hh Hsh Hadd [Hlast Ha]]. simpl v_mem in Hf.
  assert (forall i, written_area q (g_last_used_idx g) (reqs_of (g_index g) a bs) i ->
    ~ desc_area q i /\ ~ avail_area q i) as Hw by (intros i; by apply (written_off_driver m1)).
  split; try done.
  - rewrite app_nil_r. cut (ring_inv (v_mem h2) g free fls); [intros []; by split|].
    eapply ring_inv_frame; [exact Hinv|exact Hf|..].
    + intros i Hi%Hw. rewrite <- (desc_area_of _ _ Hq). apply Hi.
    + intros i Hi Hi2%Hw. apply Hi2, (avail_area_of _ _ Hq).
      pose proof (vring_ok_num _ _ (ri_vring _ _ _ _ Hinv)). unfold g_avail_area, range in *. lia.
  - by eapply queue_ok_frame.
  - congruence.
  - intros j f hd len Hj Hhd Hl. cbv zeta. cbn [g_last_used_idx with_num_added].
    destruct (reqs_of_lookup (g_index g) a bs j Ha) as (req & Hr & Hi).
    { apply lookup_lt_Some in Hj. lia. }
    destruct (He j req len Hr Hl) as [H1 H2]. split; [|exact H2]. rewrite H1, Hi.
    rewrite (slot_u16 _ _ _ Hqok). by apply (Hh j f).
  - rewrite Hu, reqs_of_length, Hfb. done.
Qed.

Lemma zip_tokens fls bs lens :
  Forall2 flight_of fls bs ->
  zip_with (fun f l => (fl_token f, Some l)) fls lens =
  zip_with (fun b (l : Z) => (sub_token b, Some l)) bs lens.
Proof.
  intros H. revert lens. induction H as [|f b fls bs [_ Ht] _ IH]; intros [|l lens]; [done..|].
  simpl. by rewrite Ht, IH.
Qed.

(** The driver is back where it was. *)
Lemma reported_idle h3 g3 q q2 free aidx :
  reported (v_mem h3) g3 q free [] [] [] -> queue_at (g_index g3) (v_dev h3) = Some q2 ->
  same_layout q q2 -> q_last_avail_idx q2 = aidx -> g_avail_idx_shadow g3 = aidx ->
  load 2 (used_ring_at q (q_num q)) (v_mem h3) = Some aidx ->
  0 <= g_index g3 < 4294967296 -> q_ready q <> 0 -> q_max_merge_len q = 0 ->
  g_num_added g3 = 0 -> g_event g3 = true -> idle h3 g3 q2 free.
Proof.
  intros [Hinv Hq Hqok _ Hur _ Hu] Hat Hl Hla Hsh Hae Hix Hrdy Hmm Hadd Hev.
  pose proof (queue_of_layout _ _ _ Hq Hl) as Hq2. pose proof (same_layout_eq _ _ Hl) as Heq.
  split; try done; try congruence.
  - rewrite Heq. done.
  - rewrite Heq. done.
  - rewrite Heq. simpl. simpl length in Hu. rewrite Z.add_0_r, u16_id in Hu by done. done.
  - rewrite Heq, Hsh. exact Hae.
Qed.

Lemma agree_rings (m2 m3 m' m'' : mem) (q : virtio_queue) (r : vring) :
  queue_of r q -> agree_outside (driver_area r) m' m'' -> agree_outside (used_area q) m'' m2 ->
  frame (driver_area r) m2 m3 -> agree_outside (rings_area q) m' m3.
Proof.
  intros Hq H1 H2 H3. assert (forall i, driver_area r i -> rings_area q i) as Hd.
  { intros i [Hi|Hi]; [left; by apply (desc_area_of _ _ Hq)|right; left; by apply (avail_area_of _ _ Hq)]. }
  eapply frame_trans; [eapply frame_weaken; [|exact H1]; done|].
  eapply frame_trans; eapply frame_weaken; [|exact H2| |exact H3]; [|done].
  intros i Hi. by do 2 right.
Qed.

(** The driver has published [fls] since the device last looked. *)
Record queued h (g : vring_virtqueue) (q : virtio_queue) (a : Z) (free : list Z)
  (fls : list flight) : Prop := {
  qd_loaded : loaded (v_mem h) g q a free fls;
  qd_at : queue_at (g_index g) (v_dev h) = Some q;
  qd_index : 0 <= g_index g < 4294967296;
  qd_ready : q_ready q <> 0;
  qd_merge : q_max_merge_len q = 0;
  qd_event : g_event g = true;
  qd_used_range : 0 <= g_last_used_idx g < 65536;
  qd_used : load 2 (q_used q + 2) (v_mem h) = Some (g_last_used_idx g);
  qd_avail_event : load 2 (used_ring_at q (q_num q)) (v_mem h) = Some a;
}.

Lemma idle_queued h g q free :
  idle h g q free -> queued h g q (g_avail_idx_shadow g) free [].
Proof. intros Hid. pose proof (idle_loaded _ _ _ _ Hid). destruct Hid. by split. Qed.

(** The driver's writes do not touch the used ring. *)
Lemma driver_off_used m r q i :
  vring_ok m r -> queue_of r q -> driver_area r i -> used_area q i -> False.
Proof.
  intros Hvr Hq Hd Hu%(used_area_of _ _ Hq). destruct (vo_disj _ _ Hvr i) as [H1 H2].
  destruct Hd as [Hd|Hd]; [by apply H1 in Hd as []|by apply H2 in Hd].
Qed.

(** What was published stays published when the driver publishes more. *)
Lemma queued_driver h g q a free fls m' g' free' fls' :
  queued h g q a free fls -> loaded m' g' q a free' fls' ->
  frame (driver_area (g_vring g)) (v_mem h) m' -> same_vq g g' ->
  g_last_used_idx g' = g_last_used_idx g -> queued (with_mem m' h) g' q a free' fls'.
Proof.
  intros Hqd Hlo Hf (Hr & Hix & Hev & _) Hu. pose proof (loaded_queue_ok _ _ _ _ _ _ Hlo) as Hqok.
  destruct Hqd as [Hlo0 Hat Hi Hrdy Hmm He Hur Hld Hae].
  pose proof (lo_inv _ _ _ _ _ _ Hlo0) as Hinv. pose proof (lo_queue _ _ _ _ _ _ Hlo0) as Hq.
  pose proof (queue_ok_num _ _ Hqok).
  assert (forall b, (forall i, range b (Z.of_nat 2) i -> used_area q i) ->
    load 2 b m' = load 2 b (v_mem h)) as Hsame.
  { intros b Hb. eapply load_frame; [exact Hf|]. intros i Hi2 Hd.
    by eapply driver_off_used; [apply Hinv|exact Hq|exact Hd|apply Hb]. }
  split; try done; rewrite ?Hix, ?Hu, ?Hev; try done; cbn [v_mem with_mem]; rewrite Hsame; try done.
  - intros i. unfold used_area, range. lia.
  - intros i Hi2. apply event_cell_used; [lia|exact Hi2].
Qed.

(** Publishing one more request. *)
Lemma queued_add b h g q a free fls :
  queued h g q a free fls -> sub_ok b -> (length (sub_bufs b) <= length free)%nat ->
  exists m' g' f, virtqueue_add ops fuel (sub_out b) (sub_in b) (sub_token b) None (GState h g) =
      Ok (0, GState (with_mem m' h) g') /\
    queued (with_mem m' h) g' q a (drop (length (sub_bufs b)) free) (fls ++ [f]) /\
    flight_of f b /\ frame (driver_area (g_vring g)) (v_mem h) m' /\ same_vq g g' /\
    g_last_used_idx g' = g_last_used_idx g.
Proof.
  intros Hqd Hok Hlen.
  destruct (submit_one ops fuel b q a h g free fls (qd_loaded _ _ _ _ _ _ Hqd) Hok Hlen)
    as (m' & g' & f & E & Hlo & Hfl & Hf & Hs & Hu).
  exists m', g', f. split_and!; try done. by eapply queued_driver.
Qed.

(** One kick: the device serves everything that was published. *)
Lemma queued_kick bs h g q a free fls m' x' lens :
  queued h g q a free fls -> Forall2 flight_of fls bs -> bs <> [] ->
  acquire_queue ops = None -> release_queue ops = None ->
  Forall (fun b => (length (sub_bufs b) <= 19)%nat) bs ->
  let reqs := reqs_of (g_index g) a bs in
  Forall (off_rings q) reqs -> serve_all reqs (v_mem h) (v_ext h) = Some (m', x', lens) ->
  (length bs < fuel)%nat ->
  exists h2, virtqueue_kick ops fuel (GState h g) = Ok (true, GState h2 (with_num_added 0 g)) /\
    reported (v_mem h2) (with_num_added 0 g) q free fls lens [] /\ v_ext h2 = x' /\
    agree_outside (used_area q) m' (v_mem h2) /\
    served (g_index g) q (g_last_used_idx g) reqs lens h h2 /\
    signalled (g_index g) q (u16 (g_last_used_idx g + Z.of_nat (length bs)))
      (g_avail_idx_shadow g) h h2.
Proof.
  intros Hqd Hfb Hne Hacq Hrel Hshort reqs Hoff Hsa Hfuel.
  destruct Hqd as [Hlo Hat Hi Hrdy Hmm Hev Hur Hu Hae].
  pose proof (Forall2_length Hfb) as Hlfb. pose proof (loaded_queue_ok _ _ _ _ _ _ Hlo) as Hqok.
  pose proof Hlo as [Hinv Hq _ Hsh Hadd [Hlast Ha]].
  pose proof (flights_le _ _ _ _ Hinv) as Hle. pose proof (ri_total _ _ _ _ Hinv) as Htot.
  pose proof (vring_ok_num _ _ (ri_vring _ _ _ _ Hinv)) as Hnum.
  assert (0 < length bs)%nat as Hpos by (destruct bs; [done|simpl; lia]).
  pose proof (serve_all_length _ _ _ _ _ _ Hsa) as Hlens.
  assert (length reqs = length bs) as Hrl by apply reqs_of_length. rewrite Hrl in Hlens.
  assert (at_queue (g_index g) q (g_last_used_idx g) (g_avail_idx_shadow g) h) as Hatq.
  { split; try done. rewrite (qf_avail _ _ Hq). apply Hinv. }
  destruct (process_loop_ok ops fuel reqs (g_index g) q (g_last_used_idx g) (g_avail_idx_shadow g)
    h (v_mem h) m' x' lens) as (h2 & E2 & Hsv & Hx & Hag2 & _ & Hsig); try done.
  { rewrite Hrl, Hlast, Hsh, Hlfb. unfold u16. lia. }
  { rewrite Hrl, (qf_num _ _ Hq). lia. }
  { rewrite Hrl, Hlast.
    pose proof (loaded_pending _ _ _ _ _ _ bs (g_index g) (length bs) 0 Hlo Hfb Hshort eq_refl) as Hp.
    change (Z.of_nat 0) with 0 in Hp. rewrite Z.add_0_r, u16_id in Hp by done. exact Hp. }
  { by rewrite Hrl. }
  exists h2. split; [|split_and!; try done].
  - eapply (kick_ok _ _ a (Z.of_nat (length bs))); try done; try lia.
    + apply Hinv.
    + by rewrite Hsh, Hlfb.
    + unfold vring_avail_event. by rewrite <- (used_at_of _ _ Hq), <- (qf_num _ _ Hq).
    + eapply process_queue_enter; [apply Hatq|done..].
  - eapply (served_reported _ _ _ _ _ _ bs lens h); try done. by rewrite with_mem_id.
  - assert (reqs <> []) as Hr by (unfold reqs; by destruct bs).
    specialize (Hsig Hr). by rewrite Hrl in Hsig.
Qed.

(** Submitting and kicking: the device has served the whole batch. *)
Lemma submit_kick_ok bs h g q free m' x' lens :
  idle h g q free -> acquire_queue ops = None -> release_queue ops = None -> bs <> [] ->
  Forall sub_ok bs -> Forall (fun b => (length (sub_bufs b) <= 19)%nat) bs ->
  (descs_of bs <= length free)%nat ->
  let reqs := reqs_of (g_index g) (g_avail_idx_shadow g) bs in
  Forall (off_rings q) reqs -> serve_all reqs (v_mem h) (v_ext h) = Some (m', x', lens) ->
  (length bs < fuel)%nat ->
  exists h1 g1 h2 fls m'', submit_all ops fuel bs (GState h g) =
      Ok (replicate (length bs) 0, GState h1 g1) /\
    virtqueue_kick ops fuel (GState h1 g1) = Ok (true, GState h2 (with_num_added 0 g1)) /\
    Forall2 flight_of fls bs /\ same_vq g g1 /\
    reported (v_mem h2) (with_num_added 0 g1) q (drop (descs_of bs) free) fls lens [] /\
    v_ext h2 = x' /\ agree_outside (driver_area (g_vring g)) m' m'' /\
    agree_outside (used_area q) m'' (v_mem h2) /\
    g_avail_idx_shadow g1 = u16 (g_avail_idx_shadow g + Z.of_nat (length bs)) /\
    served (g_index g) q (g_last_used_idx g) reqs lens h1 h2 /\ v_irqs h1 = v_irqs h /\
    signalled (g_index g) q (u16 (g_last_used_idx g + Z.of_nat (length bs)))
      (g_avail_idx_shadow g1) h1 h2.
Proof.
  intros Hid Hacq Hrel Hne Hok Hshort Hdesc reqs Hoff Hsa Hfuel.
  pose proof (idle_queued _ _ _ _ Hid) as Hqd0.
  destruct (submit_all_ok ops fuel bs q _ h g free [] (idle_loaded _ _ _ _ Hid) Hok Hdesc)
    as (m1 & g1 & fls & E1 & Hlo & Hfb & Hf1 & Hsame & Hu1). cbn [app] in Hlo.
  pose proof (queued_driver _ _ _ _ _ _ _ _ _ _ Hqd0 Hlo Hf1 Hsame Hu1) as Hqd.
  pose proof Hsame as (Hr1 & Hix1 & _). pose proof (id_queue _ _ _ _ Hid) as Hq.
  destruct (serve_all_local (driver_area (g_vring g)) reqs _ m1 _ _ _ _
    (reqs_of_ok _ _ _ Hok) Hsa Hf1) as (m'' & Hsa1 & Hag).
  { intros i Hi Hd. apply (reqs_off_rings _ _ _ Hoff Hi). destruct Hd as [Hd|Hd].
    - left. by apply (desc_area_of _ _ Hq).
    - right. left. by apply (avail_area_of _ _ Hq). }
  destruct (queued_kick bs (with_mem m1 h) g1 q _ _ fls m'' x' lens Hqd Hfb Hne Hacq Hrel Hshort)
    as (h2 & E2 & Hre & Hx & Hag2 & Hsv & Hsig); try (rewrite ?Hix1; done).
  rewrite Hix1, Hu1 in Hsv, Hsig.
  exists (with_mem m1 h), g1, h2, fls, m''. split_and!; try done.
  rewrite (lo_shadow _ _ _ _ _ _ Hlo). by rewrite (Forall2_length Hfb).
Qed.

End Batch.

(** ** Creation *)

Lemma pow2_test n : 0 < n < 4294967296 -> Z.land n (u32 (n - 1)) = 0 -> n = 2 ^ Z.log2 n.
Proof.
  intros Hn H. rewrite u32_id in H by lia. pose proof (Z.log2_spec n ltac:(lia)) as [Hlo Hhi].
  destruct (decide (n = 2 ^ Z.log2 n)) as [|Hne]; [done|].
  pose proof (Z.log2_nonneg n).
  assert (Z.log2 (n - 1) = Z.log2 n) as Hl by (apply Z.log2_unique; lia).
  assert (Z.testbit (Z.land n (n - 1)) (Z.log2 n) = true) as Hb.
  { rewrite Z.land_spec, Z.bit_log2 by lia. rewrite <- Hl. by rewrite Z.bit_log2 by lia. }
  by rewrite H, Z.bits_0 in Hb.
Qed.

(** The search settles on a halving of the requested size. *)
Lemma shrink_num_ok n alloc num align j :
  0 <= j -> num = 2 ^ j ->
  let '(num', q) := shrink_num n alloc num align in
  (num' = 0 \/ exists j', 0 <= j' <= j /\ num' = 2 ^ j') /\
  (forall p, q = Some p -> alloc (vring_size num' align) = Some p /\ num' <> 0).
Proof.
  revert num j. induction n as [|n IH]; intros num j Hj Hnum; cbn [shrink_num].
  { split; [right; exists j; done|done]. }
  assert (0 < num) by (subst; apply Z.pow_pos_nonneg; lia).
  destruct ((num =? 0) || _) eqn:Hc; [split; [right; exists j; split; [lia|done]|done]|].
  destruct (alloc (vring_size num align)) as [p|] eqn:Ha.
  { split; [right; exists j; split; [lia|done]|]. intros p' [= <-]. split; [done|lia]. }
  destruct (decide (j = 0)) as [->|Hj0].
  { subst num. change (2 ^ 0 / 2) with 0. destruct n; simpl; split; auto; done. }
  assert (num / 2 = 2 ^ (j - 1)) as Hh.
  { subst num. replace j with (1 + (j - 1)) at 1 by lia. rewrite Z.pow_add_r by lia.
    rewrite Z.mul_comm. apply Z.div_mul. lia. }
  specialize (IH (num / 2) (j - 1) ltac:(lia) Hh). destruct (shrink_num n alloc (num / 2) align).
  destruct IH as [[->|(j' & Hj' & ->)] H2]; (split; [|done]); [by left|].
  right. exists j'. split; [lia|done].
Qed.

Lemma shrink_num_first n alloc num align :
  0 < num -> is_Some (alloc (vring_size num align)) ->
  let '(num', q) := shrink_num (S n) alloc num align in num' = num /\
    (q = None \/ q = alloc (vring_size num align)).
Proof.
  intros Hn [p Hp]. cbn [shrink_num]. destruct (_ || _); [auto|]. rewrite Hp. auto.
Qed.

(** What [vring_alloc_queue] promises: zeroed pages. *)
Definition zeroed (m : mem) (a n : Z) : Prop := forall i, range a n i -> m !! i = Some 0.

Definition alloc_ok (m : mem) (align : Z) (alloc : Z -> option Z) : Prop :=
  forall size p, alloc size = Some p -> p mod align = 0 /\ zeroed m p size.

Lemma zeroed_mapped m a n : zeroed m a n -> mapped m a n.
Proof. intros Hz i Hi. rewrite (Hz i) by done. eauto. Qed.

Lemma zeroed_load2 m a n b : zeroed m a n -> a <= b -> b + 2 <= a + n -> load 2 b m = Some 0.
Proof.
  intros Hz H1 H2. unfold load. cbn [load_bytes].
  rewrite (Hz b), (Hz (b + 1)) by (unfold range; lia). done.
Qed.

Section CreateIdle.
Context {D : Type}.
Implicit Types h : vstate D.

(** A queue fresh from [vring_create_virtqueue] and a device queue set up for
    it are idle. *)
Definition fresh_idle h (g : vring_virtqueue) : Prop :=
  forall q, queue_of (g_vring g) q -> queue_at (g_index g) (v_dev h) = Some q ->
    0 <= g_index g < 4294967296 -> q_ready q <> 0 -> q_max_merge_len q = 0 ->
    q_last_avail_idx q = 0 -> idle h g q (seqZ 0 (vr_num (g_vring g))).

Lemma new_queue_ok index num p k j features callback h :
  0 <= k -> 0 <= j <= 15 -> num = 2 ^ j -> p mod 2 ^ k = 0 ->
  zeroed (v_mem h) p (vring_size num (2 ^ k)) ->
  virtio_test_bit features VIRTIO_RING_F_INDIRECT_DESC = false ->
  virtio_test_bit features VIRTIO_RING_F_EVENT_IDX = true ->
  exists m' g, vring_new_virtqueue index (vring_init num p (2 ^ k)) features callback true h =
      Ok (Some g, with_mem m' h) /\
    ring_inv m' g (seqZ 0 num) [] /\ g_vring g = vring_init num p (2 ^ k) /\ g_index g = index /\
    frame (range p (vring_size num (2 ^ k))) (v_mem h) m' /\ fresh_idle (with_mem m' h) g.
Proof.
  intros Hk Hj Hnum Hp Hz Hind Hev. assert (0 < num) by (subst; apply Z.pow_pos_nonneg; lia).
  pose proof (vring_init_ok (v_mem h) num p k j Hk Hp Hj Hnum (zeroed_mapped _ _ _ Hz)) as Hvr.
  destruct (vring_init_layout num p k Hk Hp) as (L1 & L2 & L3 & L4 & L5); [done|].
  set (r := vring_init num p (2 ^ k)) in *.
  assert (forall b, p <= b -> b + 2 <= p + vring_size num (2 ^ k) -> load 2 b (v_mem h) = Some 0)
    as Hz2 by (intros b; by eapply zeroed_load2).
  destruct (vring_new_virtqueue_ok index r features callback h Hvr) as
    (m' & g & E & Hinv & Hf & Hr & Hix & Hge & Hlu & Hsh & Hna); [apply Hz2; lia|done|done|].
  exists m', g. rewrite L1 in Hinv. split; [exact E|]. split; [exact Hinv|]. split; [done|].
  split; [done|]. split.
  { eapply frame_weaken; [|exact Hf]. intros i. unfold g_desc_area, range. lia. }
  intros q Hq Hat Hi Hrdy Hmm Hla. rewrite Hr in Hq |- *. rewrite L1.
  assert (forall b, p + 16 * num <= b -> b + 2 <= p + vring_size num (2 ^ k) ->
    load 2 b m' = Some 0) as Hz3.
  { intros b H1 H2. rewrite <- (Hz2 b) by lia. eapply load_frame; [exact Hf|].
    intros i. unfold g_desc_area, range. simpl. lia. }
  pose proof Hq as [Q1 Q2 Q3 Q4].
  split; rewrite ?Hr, ?Hlu, ?Hsh; try done; try lia.
  - cbn [v_mem with_mem]. rewrite Q4. apply Hz3; lia.
  - cbn [v_mem with_mem]. unfold used_ring_at. rewrite Q1, Q4, L1. apply Hz3; lia.
Qed.

End CreateIdle.

(** ** Properties *)

(** C2: driver and device over shared rings.  A driver that adds any batch of
    requests that fits its free descriptors and kicks once has every add
    accepted, the kick delivered, and reaps exactly its tokens, in order, each
    with the length the device reported for that request.  The backend and all
    memory outside the rings are what serving the requests in order gives, an
    interrupt was raised, and driver and device are idle again, so the next
    batch behaves the same. *)
Theorem batch_roundtrip {D} (ops : virtio_dev_ops D) `{!Serves ops} fuel bs h g q free m' x' lens :
  idle h g q free -> acquire_queue ops = None -> release_queue ops = None -> bs <> [] ->
  Forall sub_ok bs -> Forall (fun b => (length (sub_bufs b) <= 19)%nat) bs ->
  (descs_of bs <= length free)%nat ->
  Forall (off_rings q) (reqs_of (g_index g) (g_avail_idx_shadow g) bs) ->
  serve_all (reqs_of (g_index g) (g_avail_idx_shadow g) bs) (v_mem h) (v_ext h) = Some (m', x', lens) ->
  (length bs < fuel)%nat ->
  exists h' g' q' free', batch ops fuel bs (GState h g) =
      Ok ((replicate (length bs) 0, true,
           zip_with (fun b l => (sub_token b, Some l)) bs lens), GState h' g') /\
    idle h' g' q' free' /\ v_ext h' = x' /\ agree_outside (rings_area q) m' (v_mem h') /\
    (length (v_irqs h) < length (v_irqs h'))%nat.
Proof.
  intros Hid Hacq Hrel Hne Hok Hshort Hdesc Hoff Hsa Hfuel.
  destruct (submit_kick_ok ops fuel bs h g q free m' x' lens Hid Hacq Hrel Hne Hok Hshort Hdesc Hoff
    Hsa Hfuel) as (h1 & g1 & h2 & fls & m'' & E1 & E2 & Hfb & (Hr1 & Hix1 & Hev1 & _) & Hre & Hx & Hag1 &
    Hag2 & Hsh & Hsv & Hirq & [Hsg1 _ _ Hsg2]).
  destruct (reap_ok q h2 _ _ _ _ Hre) as (m3 & g3 & free3 & E3 & Hre3 & Hf3 & (Hr3 & Hix3 & Hev3 & _) &
    Hu3 & Ha3 & Hs3). cbn [with_num_added g_vring g_index g_event g_num_added g_avail_idx_shadow] in *.
  destruct (sv_queue _ _ _ _ _ _ _ Hsv) as (q2 & Hat2 & Hl2 & Hla2).
  pose proof (Forall2_length Hfb) as Hlfb. rewrite Hlfb in E3. rewrite Hr1 in Hf3.
  pose proof (re_queue _ _ _ _ _ _ _ Hre) as Hq. cbn [with_num_added g_vring] in Hq. rewrite Hr1 in Hq.
  exists (with_mem m3 h2), g3, q2, free3. split; [|split; [|split_and!]].
  - unfold batch. rewrite (bindM_ok _ _ _ _ _ E1), (bindM_ok _ _ _ _ _ E2), (bindM_ok _ _ _ _ _ E3).
    by rewrite (zip_tokens _ _ _ Hfb).
  - apply (reported_idle _ _ q _ _ (g_avail_idx_shadow g1)); try done.
    + by rewrite Hix3, Hix1.
    + rewrite Hla2, Hsh, reqs_of_length. by rewrite (id_last _ _ _ _ Hid).
    + rewrite <- Hsg2. eapply load_frame; [exact Hf3|]. intros i Hi Hd.
      pose proof (re_ok _ _ _ _ _ _ _ Hre) as Hqok. pose proof (queue_ok_num _ _ Hqok).
      apply event_cell_used in Hi; [|lia].
      destruct Hd as [Hd|Hd].
      * by apply (qo_disj_desc _ _ Hqok i Hi), (desc_area_of _ _ Hq).
      * by apply (qo_disj_avail _ _ Hqok i Hi), (avail_area_of _ _ Hq).
    + rewrite Hix3, Hix1. apply Hid.
    + apply Hid.
    + apply Hid.
    + rewrite Hev3, Hev1. apply Hid.
  - done.
  - by eapply agree_rings.
  - simpl. by rewrite <- Hirq.
Qed.

(** C35: creating a queue of up to 32768 entries.  Whatever sizes the allocator
    refuses, the call ends either with no queue and nothing changed or with a
    queue of a halving of the requested size whose descriptors are all free, in
    order, and which is idle as soon as the device is programmed with its
    rings.  A requested size that is a power of two and that the allocator
    grants is the size of the queue. *)
Theorem vring_create_ok {D} index num k features callback alloc (h : vstate D) :
  0 <= k -> 0 < num <= 32768 -> alloc_ok (v_mem h) (2 ^ k) alloc ->
  virtio_test_bit features VIRTIO_RING_F_INDIRECT_DESC = false ->
  virtio_test_bit features VIRTIO_RING_F_EVENT_IDX = true ->
  exists o h', vring_create_virtqueue index num (2 ^ k) features callback true alloc h = Ok (o, h') /\
    (o = None -> h' = h) /\
    (forall g, o = Some g -> exists j, 0 <= j <= Z.log2 num /\ vr_num (g_vring g) = 2 ^ j /\
       g_index g = index /\ ring_inv (v_mem h') g (seqZ 0 (2 ^ j)) [] /\ fresh_idle h' g) /\
    (num = 2 ^ Z.log2 num -> is_Some (alloc (vring_size num (2 ^ k))) ->
     exists g, o = Some g /\ vr_num (g_vring g) = num).
Proof.
  intros Hk Hn Halloc Hind Hev. unfold vring_create_virtqueue.
  destruct (Z.land num (u32 (num - 1)) =? 0) eqn:Hp2; cbn [negb].
  2:{ exists None, h. split_and!; try done. intros He. apply Z.eqb_neq in Hp2. exfalso. apply Hp2.
      rewrite u32_id by lia. rewrite He at 1 2. rewrite land_pow2_mask by apply Z.log2_nonneg.
      apply Z.mod_same. pose proof (Z.pow_pos_nonneg 2 (Z.log2 num)). pose proof (Z.log2_nonneg num). lia. }
  apply Z.eqb_eq, pow2_test in Hp2; [|lia].
  pose proof (shrink_num_ok 33 alloc num (2 ^ k) (Z.log2 num) (Z.log2_nonneg _) Hp2) as Hsh.
  pose proof (shrink_num_first 32 alloc num (2 ^ k)) as Hfst.
  change (S 32) with 33%nat in Hfst.
  destruct (shrink_num 33 alloc num (2 ^ k)) as [num' queue]. destruct Hsh as [Hnum' Hq].
  destruct (Z.eqb_spec num' 0) as [->|Hne].
  { exists None, h. split_and!; try done. intros _ Hs. destruct (Hfst ltac:(lia) Hs) as [? _]. lia. }
  destruct Hnum' as [?|(j & Hj & Hnum')]; [done|].
  set (o := match queue with Some q => Some q | None => alloc (vring_size num' (2 ^ k)) end).
  assert (forall p, o = Some p -> alloc (vring_size num' (2 ^ k)) = Some p) as Ho.
  { intros p. unfold o. destruct queue as [q0|] eqn:Hqq; [|done]. intros [= <-]. by apply (Hq q0). }
  assert (Z.log2 num <= 15) by (apply (Z.log2_le_mono num 32768); lia).
  destruct o as [p|] eqn:Hop.
  2:{ exists None, h. split_and!; try done. intros _ Hs. destruct (Hfst ltac:(lia) Hs) as [-> Hs'].
      unfold o in Hop. destruct queue; [done|]. rewrite Hop in Hs. by destruct Hs. }
  destruct (Halloc _ _ (Ho p eq_refl)) as [Hal Hz].
  destruct (new_queue_ok index num' p k j features callback h Hk ltac:(lia) Hnum' Hal Hz Hind Hev)
    as (m' & g & E & Hinv & Hr & Hix & _ & Hid).
  exists (Some g), (with_mem m' h). split; [exact E|]. split; [done|]. split.
  - intros g' [= <-]. exists j. rewrite Hr, <- Hnum'. done.
  - intros _ Hs. exists g. split; [done|]. rewrite Hr. by destruct (Hfst ltac:(lia) Hs) as [-> _].
Qed.

(** a queue without room refuses a request with -ENOSPC and keeps the queue
    as it was; if the request has buffers for the device to read, the device is
    notified first so that it makes room. *)
Theorem virtqueue_add_enospc {D} (ops : virtio_dev_ops D) fuel out inn data kmalloc h g free fls :
  ring_inv (v_mem h) g free fls -> data <> 0 ->
  (length free < length out + length inn)%nat ->
  Z.of_nat (length out + length inn) <= vr_num (g_vring g) ->
  virtqueue_add ops fuel out inn data kmalloc (GState h g) =
    match out with
    | [] => Ok (- ENOSPC, GState h g)
    | _ => match vm_notify ops fuel (g_index g) h with
           | Ok (_, h') => Ok (- ENOSPC, GState h' g)
           | Fail e => Fail e
           end
    end.
Proof.
  intros [_ Hbr Hind _ _ _ Hnf _ _ _ _ _ _ _] Hd Hlt Hle. unfold virtqueue_add.
  rewrite (proj2 (Z.eqb_neq _ _) Hd).
  rewrite (bindM_ok _ _ _ _ _ (eq_refl : get_vq (GState h g) = Ok (g, GState h g))).
  rewrite Hbr, (proj2 (Z.ltb_ge _ _)), (proj2 (Z.eqb_neq _ 0)) by lia. cbn [orb]. rewrite Hind.
  cbn [andb]. rewrite (bindM_ok _ _ _ _ _ (eq_refl : retM None (GState h g) = Ok (None, GState h g))).
  cbn beta iota. rewrite Hnf, (proj2 (Z.ltb_lt _ _)) by lia.
  destruct out as [|b out]; [done|]. cbn [length Nat.eqb negb]. unfold bindM, host. simpl.
  by destruct (vm_notify ops fuel (g_index g) h) as [[? ?]|].
Qed.


(** A used entry that names no chain in flight (an id past the table, or one
    without a token) breaks the queue and nothing else changes; from then on
    nothing is returned and every add is refused with -EIO. *)
Theorem virtqueue_get_buf_bad_id {D} (ops : virtio_dev_ops D) fuel h g free fls uidx id len :
  let r := g_vring g in
  let u := used_at r (g_last_used_idx g mod vr_num r) in
  let s' := GState h (with_g_broken true g) in
  ring_inv (v_mem h) g free fls ->
  load 2 (vr_used r + 2) (v_mem h) = Some uidx -> g_last_used_idx g <> uidx ->
  load 4 u (v_mem h) = Some id -> load 4 (u + 4) (v_mem h) = Some len ->
  (forall f, f ∈ fls -> hd_error (fl_idx f) <> Some id) ->
  virtqueue_get_buf (GState h g) = Ok ((0, Some len), s') /\
  virtqueue_get_buf s' = Ok ((0, None), s') /\
  (forall out inn data kmalloc, data <> 0 ->
     virtqueue_add ops fuel out inn data kmalloc s' = Ok (- EIO, s')).
Proof.
  intros r u s' Hinv Hui Hne Hid Hlen Hbad. pose proof Hinv as [Hvr Hbr _ _ _ _ _ _ _ _ Hdl Hdat _ _].
  split; [|split; [done|]].
  2:{ intros out inn data kmalloc Hd. unfold virtqueue_add. by rewrite (proj2 (Z.eqb_neq _ _) Hd). }
  unfold virtqueue_get_buf, more_used.
  rewrite (bindM_ok _ _ _ _ _ (eq_refl : get_vq (GState h g) = Ok (g, GState h g))). fold r.
  rewrite Hbr, bindM_assoc.
  rewrite (bindM_ok _ _ _ _ _ (eq_refl : get_vq (GState h g) = Ok (g, GState h g))). fold r.
  rewrite bindM_assoc, (bindM_ok _ _ _ _ _ (host_ld_ok _ _ _ h g Hui)).
  rewrite (bindM_ok _ _ _ _ _ (eq_refl : retM _ (GState h g) = Ok (_, _))).
  rewrite (proj2 (Z.eqb_neq _ _) Hne). cbn [negb]. rewrite (g_mask _ _ _ Hvr). fold u.
  rewrite (bindM_ok _ _ _ _ _ (host_ld_ok _ _ _ h g Hid)).
  rewrite (bindM_ok _ _ _ _ _ (host_ld_ok _ _ _ h g Hlen)).
  destruct (Z.leb_spec (vr_num r) id) as [Hge|Hlt]; [done|].
  apply load_range in Hid.
  destruct (lookup_lt_is_Some_2 (g_data g) (Z.to_nat id)) as [t Ht]; [unfold r in *; lia|].
  rewrite Ht. unfold someM. rewrite (bindM_ok _ _ _ _ _ (eq_refl : retM t (GState h g) = Ok (t, GState h g))).
  destruct (Z.eqb_spec t 0) as [->|Ht0]; [done|].
  destruct (Hdat _ _ Ht Ht0) as (f & Hf & Hhd). rewrite Z2Nat.id in Hhd by lia. by apply Hbad in Hf.
Qed.

(** ** A disk driver at work *)

Module GuestDemo.

Definition m0 : mem :=
  put_bytes 4096 (replicate 326 0)
  (put_bytes 7168 (Demo.header 1 1) (put_bytes 7200 [10; 20; 30; 40] (put_bytes 7216 [255]
  (put_bytes 7424 (Demo.header 0 1) (put_bytes 7456 [0; 0; 0; 0; 0; 0] (put_bytes 7472 [255] ∅)))))).

Definition q0 : virtio_queue := VirtioQueue 32 8 1 0 4096 4224 4352 0 0.

Definition h0 : vstate hfile :=
  VState m0 (VirtioDev 2 0 0x120000000 0 0x120000000 0 0 [q0] 0 0 0 1 [] 0 0x80 0) [] Demo.f0.

Definition features : Z := 0x120000000.

(** The driver's queue as [vring_new_virtqueue] makes it. *)
Definition start : vstate hfile * vring_virtqueue :=
  match vring_new_virtqueue 0 (vring_init 8 4096 (2 ^ 8)) features true true h0 with
  | Ok (Some g, h) => (h, g)
  | _ => (h0, VringVirtqueue (Vring 0 0 0 0) 0 false false false false 0 0 0 0 0 0 [] [])
  end.

Definition h1 : vstate hfile := start.1.
Definition g1 : vring_virtqueue := start.2.

Definition zeroed_b (m : mem) (a n : Z) : bool :=
  forallb (fun k => bool_decide (m !! (a + Z.of_nat k) = Some 0)) (seq 0 (Z.to_nat n)).

Lemma zeroed_b_ok m a n : zeroed_b m a n = true -> zeroed m a n.
Proof.
  unfold zeroed_b. rewrite forallb_forall. intros H i Hi.
  specialize (H (Z.to_nat (i - a))). rewrite in_seq in H. unfold range in Hi.
  specialize (H ltac:(lia)). apply bool_decide_eq_true in H.
  by replace (a + Z.of_nat (Z.to_nat (i - a))) with i in H by lia.
Qed.

Lemma ring_zeroed : zeroed m0 4096 (vring_size 8 (2 ^ 8)).
Proof. apply zeroed_b_ok. vm_compute. reflexivity. Qed.

Lemma idle1 : idle h1 g1 q0 (seqZ 0 8).
Proof.
  destruct (new_queue_ok 0 8 4096 8 3 features true h0) as (m' & g & E & _ & Hr & Hi & _ & Hid);
    [lia|lia|reflexivity|reflexivity|exact ring_zeroed|reflexivity|reflexivity|].
  unfold h1, g1, start. rewrite E. cbn [fst snd].
  specialize (Hid q0). rewrite Hr, Hi in Hid. apply Hid; [split; reflexivity|reflexivity|lia|simpl; lia|done|done].
Qed.

(** A write of four bytes and a read of the same sector. *)
Definition bs : list submission :=
  [Submission [Iovec 7168 16; Iovec 7200 4] [Iovec 7216 1] 0x1000;
   Submission [Iovec 7424 16] [Iovec 7456 2; Iovec 7460 2; Iovec 7472 1] 0x2000].

Lemma bs_ok : Forall sub_ok bs.
Proof.
  unfold bs, sub_ok, buf_ok. simpl.
  repeat first [apply Forall_nil | apply Forall_cons | split]; simpl; first [done | lia].
Qed.

Lemma bs_off : Forall (off_rings q0) (reqs_of (g_index g1) (g_avail_idx_shadow g1) bs).
Proof.
  change (g_index g1) with 0. change (g_avail_idx_shadow g1) with 0.
  unfold bs. cbn [reqs_of]. repeat first [apply Forall_nil | apply Forall_cons | split];
    intros i Hi; unfold sub_bufs in Hi; cbn [rq_buf sub_out sub_in app] in Hi; Demo.each_buf.
Qed.

(** The queue with one chain of one buffer in flight. *)
Definition full : vstate hfile * vring_virtqueue :=
  match virtqueue_add (blk_ops posix_blk_ops) 3 [] [Iovec 7200 4] 0x1000 None (GState h1 g1) with
  | Ok (_, s) => (g_host s, g_vq s)
  | Fail _ => (h1, g1)
  end.

Definition h_full : vstate hfile := full.1.
Definition g_full : vring_virtqueue := full.2.

Lemma full_inv : ring_inv (v_mem h_full) g_full (seqZ 1 7) [Flight [0] [Iovec 7200 4] 0x1000].
Proof.
  pose proof (id_inv _ _ _ _ idle1) as Hinv.
  destruct (virtqueue_add_ok (blk_ops posix_blk_ops) 3 [] [Iovec 7200 4] 0x1000 None h1 g1 (seqZ 0 8) []
    Hinv) as (m' & hd & fh & E & _ & Hinv' & _); [lia| |vm_compute; lia|vm_compute; discriminate|].
  { apply Forall_cons; [|apply Forall_nil]. unfold buf_ok. simpl. lia. }
  unfold h_full, g_full, full. rewrite E. exact Hinv'.
Qed.

(** A device that reports id 9 on a queue of 8. *)
Lemma bad_inv :
  ring_inv (put_bytes 4354 (le_bytes 2 1 ++ le_bytes 4 9 ++ le_bytes 4 5) (v_mem h1)) g1 (seqZ 0 8) [].
Proof.
  eapply (ring_inv_frame (range 4354 10)); [exact (id_inv _ _ _ _ idle1)| | |].
  - refine (put_bytes_frame 4354 (le_bytes 2 1 ++ le_bytes 4 9 ++ le_bytes 4 5) (v_mem h1) _).
    apply mapped_b_ok. vm_compute. reflexivity.
  - intros x. change (g_vring g1) with (vring_init 8 4096 (2 ^ 8)).
    unfold g_desc_area, range. vm_compute (vr_desc _). vm_compute (vr_num _). lia.
  - intros x. change (g_vring g1) with (vring_init 8 4096 (2 ^ 8)).
    unfold range. vm_compute (vr_avail _). lia.
Qed.

End GuestDemo.

Lemma batch_roundtrip_witness :
  exists h' g' q' free',
    batch (blk_ops posix_blk_ops) 3 GuestDemo.bs (GState GuestDemo.h1 GuestDemo.g1) =
      Ok (([0; 0], true, [(0x1000, Some 0); (0x2000, Some 0)]), GState h' g') /\
    idle h' g' q' free' /\ f_data (v_ext h') = file_write 512 [10; 20; 30; 40] (replicate 600 7).
Proof.
  set (r := serve_all (ops := blk_ops posix_blk_ops) (reqs_of 0 0 GuestDemo.bs)
              (v_mem GuestDemo.h1) Demo.f0).
  set (m' := match r with Some (m, _, _) => m | None => ∅ end).
  set (x' := match r with Some (_, x, _) => x | None => Demo.f0 end).
  destruct (batch_roundtrip (blk_ops posix_blk_ops) 3 GuestDemo.bs GuestDemo.h1 GuestDemo.g1
    GuestDemo.q0 (seqZ 0 8) m' x' [0; 0]) as (h' & g' & q' & free' & E & Hid & Hx & _).
  - exact GuestDemo.idle1.
  - reflexivity.
  - reflexivity.
  - done.
  - exact GuestDemo.bs_ok.
  - repeat constructor.
  - vm_compute. lia.
  - exact GuestDemo.bs_off.
  - vm_compute. reflexivity.
  - simpl. lia.
  - exists h', g', q', free'. split; [exact E|]. split; [exact Hid|]. rewrite Hx.
    vm_compute. reflexivity.
Defined.

Lemma vring_create_ok_witness :
  exists g h', vring_create_virtqueue 0 8 (2 ^ 8) GuestDemo.features true true
      (fun size => if size =? 326 then Some 4096 else None) GuestDemo.h0 = Ok (Some g, h') /\
    vr_num (g_vring g) = 8.
Proof.
  destruct (vring_create_ok 0 8 8 GuestDemo.features true
    (fun size => if size =? 326 then Some 4096 else None) GuestDemo.h0) as (o & h' & E & _ & _ & H).
  - lia.
  - lia.
  - intros size p. destruct (Z.eqb_spec size 326) as [->|]; [|done]. intros [= <-].
    split; [reflexivity|exact GuestDemo.ring_zeroed].
  - reflexivity.
  - reflexivity.
  - destruct H as (g & -> & Hn); [reflexivity|vm_compute; eauto|]. exists g, h'. split; [exact E|exact Hn].
Defined.

Lemma virtqueue_add_enospc_witness :
  virtqueue_add (blk_ops posix_blk_ops) 3 [] (replicate 8 (Iovec 7216 1)) 1 None
      (GState GuestDemo.h_full GuestDemo.g_full) =
    Ok (- ENOSPC, GState GuestDemo.h_full GuestDemo.g_full).
Proof.
  refine (virtqueue_add_enospc (blk_ops posix_blk_ops) 3 [] (replicate 8 (Iovec 7216 1)) 1 None
    GuestDemo.h_full GuestDemo.g_full (seqZ 1 7) [Flight [0] [Iovec 7200 4] 0x1000] _ _ _ _).
  - exact GuestDemo.full_inv.
  - done.
  - vm_compute. lia.
  - vm_compute. done.
Defined.

Lemma virtqueue_get_buf_bad_id_witness :
  let h := with_mem (put_bytes 4354 (le_bytes 2 1 ++ le_bytes 4 9 ++ le_bytes 4 5)
             (v_mem GuestDemo.h1)) GuestDemo.h1 in
  virtqueue_get_buf (GState h GuestDemo.g1) =
    Ok ((0, Some 5), GState h (with_g_broken true GuestDemo.g1)).
Proof.
  intros h.
  refine (proj1 (virtqueue_get_buf_bad_id (blk_ops posix_blk_ops) 3 h GuestDemo.g1
    (seqZ 0 8) [] 1 9 5 _ _ _ _ _ _)).
  - exact GuestDemo.bad_inv.
  - vm_compute. reflexivity.
  - vm_compute. discriminate.
  - vm_compute. reflexivity.
  - vm_compute. reflexivity.
  - intros f Hf. by apply not_elem_of_nil in Hf.
Defined.
