(* ===== verification/BlkGuest.v ===== *)
(** * BlkGuest

    drivers/block/virtio_blk.c, the kernel's driver of the virtio disks: a
    request of the block layer becomes a header, the data and a status byte on
    the virtqueue ([virtio_queue_rq]); the interrupt ([vm_interrupt] of
    virtio_mmio.c) runs [virtblk_done], which takes the buffers back and ends
    the requests with the error the status stands for.  The device works inside
    the driver's notification, on the driver's thread, so its interrupt comes in
    the middle of that work when interrupts are enabled, and afterwards when
    they are not.

    The block layer around the driver is the table of its requests and the log
    of the requests that were ended; it hands over nothing new from inside the
    interrupt.  Queue, device, block class and disk are
    the models of the other files, run on the same memory. *)

From S2P Require Import Prelude Memory Irq Virtio VirtioRing VirtioQueue VirtioBlk PosixHost JsDisk VirtioMmio GuestRing GuestInv GuestDriver.

(** ** Constants *)

Definition VIRTIO_BLK_T_IN : Z := 0.
Definition VIRTIO_BLK_T_OUT : Z := 1.
Definition VIRTIO_BLK_T_SCSI_CMD : Z := 2.
Definition VIRTIO_BLK_T_FLUSH : Z := 4.
Definition VIRTIO_BLK_T_GET_ID : Z := 8.
Definition VIRTIO_BLK_S_OK : Z := 0.
Definition VIRTIO_BLK_S_UNSUPP : Z := 2.
Definition SCSI_SENSE_BUFFERSIZE : Z := 96.
Definition ENOTTY : Z := 25.
Definition BLK_MQ_RQ_QUEUE_OK : Z := 0.
Definition BLK_MQ_RQ_QUEUE_BUSY : Z := 1.
Definition BLK_MQ_RQ_QUEUE_ERROR : Z := 2.
Definition VIRTIO_MMIO_INT_CONFIG : Z := 2.
Definition IRQ_NONE : Z := 0.
Definition IRQ_HANDLED : Z := 1.

(** ** Requests *)

Inductive cmd_type := REQ_TYPE_FS | REQ_TYPE_BLOCK_PC | REQ_TYPE_DRV_PRIV.

(** struct request as the driver uses it: [r_pdu] is blk_mq_rq_to_pdu, [r_sg]
    the segments blk_rq_map_sg finds, [r_flush] says that the operation is
    REQ_OP_FLUSH and [r_write] that the data goes to the device. *)
Record mq_request := MqRequest {
  r_pdu : Z;
  r_flush : bool;
  r_cmd_type : cmd_type;
  r_pos : Z;
  r_ioprio : Z;
  r_write : bool;
  r_nr_phys_segments : Z;
  r_sg : list iovec;
  r_cmd : iovec;
  r_sense : Z;
  r_errors : Z;
  r_resid_len : Z;
  r_sense_len : Z;
}.

Definition with_results errors resid sense r := MqRequest (r_pdu r) (r_flush r) (r_cmd_type r)
  (r_pos r) (r_ioprio r) (r_write r) (r_nr_phys_segments r) (r_sg r) (r_cmd r) (r_sense r)
  errors resid sense.

(** struct virtblk_req at [vbr]: the request, the header, struct
    virtio_scsi_inhdr and the status. *)
Definition vbr_req (vbr : Z) : Z := vbr.
Definition out_hdr (vbr : Z) : Z := vbr + 8.
Definition hdr_type (vbr : Z) : Z := out_hdr vbr.
Definition hdr_ioprio (vbr : Z) : Z := out_hdr vbr + 4.
Definition hdr_sector (vbr : Z) : Z := out_hdr vbr + 8.
Definition in_hdr (vbr : Z) : Z := vbr + 24.
Definition vbr_status (vbr : Z) : Z := vbr + 40.
Definition SIZEOF_OUTHDR : Z := 16.
Definition SIZEOF_INHDR : Z := 16.

(** The queue and the device below it, the block layer's requests by address,
    the requests that were ended, with their errors, whether the hardware
    queue is stopped, and whether the configuration work is queued. *)
Record bstate (D : Type) := BState {
  b_ring : gstate D;
  b_rqs : gmap Z mq_request;
  b_ended : list (Z * Z);
  b_stopped : bool;
  b_work : bool;
}.
Arguments BState {D} _ _ _ _ _.
Arguments b_ring {D} _.
Arguments b_rqs {D} _.
Arguments b_ended {D} _.
Arguments b_stopped {D} _.
Arguments b_work {D} _.

Section Driver.
Context {D : Type} (ops : virtio_dev_ops D) (fuel : nat).
Abbreviation BM := (M (bstate D)).

Definition ring {A} (c : M (gstate D) A) : BM A :=
  fun s => match c (b_ring s) with
           | Ok (a, g) => Ok (a, BState g (b_rqs s) (b_ended s) (b_stopped s) (b_work s))
           | Fail e => Fail e
           end.

Definition bld (n : nat) (a : Z) : BM Z := ring (host (ld n a)).
Definition bst (n : nat) (a v : Z) : BM unit := ring (host (st n a v)).

Definition get_rq (rq : Z) : BM mq_request :=
  fun s => match b_rqs s !! rq with Some r => Ok (r, s) | None => Fail Segv end.
Definition set_rq (rq : Z) (r : mq_request) : BM unit :=
  fun s => Ok (tt, BState (b_ring s) (<[rq := r]> (b_rqs s)) (b_ended s) (b_stopped s) (b_work s)).
Definition blk_mq_end_request (rq error : Z) : BM unit :=
  fun s => Ok (tt, BState (b_ring s) (b_rqs s) (b_ended s ++ [(rq, error)]) (b_stopped s) (b_work s)).
Definition set_stopped (v : bool) : BM unit :=
  fun s => Ok (tt, BState (b_ring s) (b_rqs s) (b_ended s) v (b_work s)).

(** ** Submission *)

Definition virtblk_add_req (vbr : Z) (req : mq_request) (data_sg : list iovec)
  (kmalloc : option Z) : BM Z :=
  let have_data := negb (length data_sg =? 0)%nat in
  let* type := bld 4 (hdr_type vbr) in
  let scsi := Z.ldiff type VIRTIO_BLK_T_OUT =? VIRTIO_BLK_T_SCSI_CMD in
  let to_device := have_data && negb (Z.land type VIRTIO_BLK_T_OUT =? 0) in
  let out := [Iovec (out_hdr vbr) SIZEOF_OUTHDR] ++ (if scsi then [r_cmd req] else []) ++
             (if to_device then data_sg else []) in
  let inn := (if have_data && negb to_device then data_sg else []) ++
             (if scsi then [Iovec (r_sense req) SCSI_SENSE_BUFFERSIZE;
                            Iovec (in_hdr vbr) SIZEOF_INHDR] else []) ++
             [Iovec (vbr_status vbr) 1] in
  ring (virtqueue_add ops fuel out inn vbr kmalloc).

Definition write_header (vbr type sector ioprio : Z) : BM unit :=
  bst 4 (hdr_type vbr) type ;;;
  bst 8 (hdr_sector vbr) sector ;;;
  bst 4 (hdr_ioprio vbr) ioprio.

(** ** Completion *)

Definition virtblk_result (status : Z) : Z :=
  if status =? VIRTIO_BLK_S_OK then 0
  else if status =? VIRTIO_BLK_S_UNSUPP then - ENOTTY
  else - EIO.

(** The block layer runs it for [blk_mq_complete_request], on the only CPU. *)
Definition virtblk_request_done (rq : Z) : BM unit :=
  let* req := get_rq rq in
  let vbr := r_pdu req in
  let* status := bld 1 (vbr_status vbr) in
  let error := virtblk_result status in
  match r_cmd_type req with
  | REQ_TYPE_BLOCK_PC =>
      let* residual := bld 4 (in_hdr vbr + 12) in
      let* sense_len := bld 4 (in_hdr vbr + 8) in
      let* errors := bld 4 (in_hdr vbr) in
      set_rq rq (with_results errors residual sense_len req)
  | REQ_TYPE_DRV_PRIV =>
      set_rq rq (with_results (if error =? 0 then 0 else 1) (r_resid_len req) (r_sense_len req) req)
  | REQ_TYPE_FS => retM tt
  end ;;;
  blk_mq_end_request rq error.

(** The inner loop of [virtblk_done]: whether a request was done. *)
Fixpoint complete_all (n : nat) (req_done : bool) : BM bool :=
  match n with
  | O => failM NoFuel
  | S n' =>
      let* '(vbr, _) := ring virtqueue_get_buf in
      if vbr =? 0 then retM req_done
      else
        let* rq := bld 8 (vbr_req vbr) in
        virtblk_request_done rq ;;;
        complete_all n' true
  end.

(** The outer loop. *)
Fixpoint done_loop (n : nat) (req_done : bool) : BM bool :=
  match n with
  | O => failM NoFuel
  | S n' =>
      ring virtqueue_disable_cb ;;;
      let* req_done := complete_all n req_done in
      let* vq := ring get_vq in
      if g_broken vq then retM req_done
      else
        let* enabled := ring virtqueue_enable_cb in
        if enabled then retM req_done else done_loop n' req_done
  end.

Definition virtblk_done (n : nat) : BM unit :=
  let* req_done := done_loop n false in
  if req_done then set_stopped false else retM tt.

(** ** Interrupts *)

Definition virtblk_config_changed : BM unit :=
  fun s => Ok (tt, BState (b_ring s) (b_rqs s) (b_ended s) (b_stopped s) true).

(** vm_interrupt of virtio_mmio.c, for a device with one queue, with the
    callback of vring_interrupt. *)
Definition vm_interrupt (n : nat) : BM Z :=
  let* status := ring (host (readl VIRTIO_MMIO_INTERRUPT_STATUS)) in
  ring (host (writel ops fuel status VIRTIO_MMIO_INTERRUPT_ACK)) ;;;
  let* ret := (if Z.land status VIRTIO_MMIO_INT_CONFIG =? 0 then retM IRQ_NONE
               else virtblk_config_changed ;;; retM IRQ_HANDLED) in
  if Z.land status VIRTIO_MMIO_INT_VRING =? 0 then retM ret
  else
    let* '(handled, callback) := ring vring_interrupt in
    (if callback then virtblk_done n else retM tt) ;;;
    retM (Z.lor ret (if handled then IRQ_HANDLED else IRQ_NONE)).

End Driver.

(** ** Submission to a device that interrupts *)

(** The kernel's side of a [bstate]. *)
Record bguest := BGuest {
  bg_vq : vring_virtqueue;
  bg_rqs : gmap Z mq_request;
  bg_ended : list (Z * Z);
  bg_stopped : bool;
  bg_work : bool;
}.

Section Submit.
Context {D : Type}.

(** The device's code runs on the kernel's state: what its interrupt changes
    there is what it continues with. *)
Definition b_pack (s : bstate D) : vstate (D * bguest) :=
  let h := g_host (b_ring s) in
  VState (v_mem h) (v_dev h) (v_irqs h)
    (v_ext h, BGuest (g_vq (b_ring s)) (b_rqs s) (b_ended s) (b_stopped s) (b_work s)).

Definition b_unpack (v : vstate (D * bguest)) : bstate D :=
  let b := (v_ext v).2 in
  BState (GState (VState (v_mem v) (v_dev v) (v_irqs v) (v_ext v).1) (bg_vq b))
    (bg_rqs b) (bg_ended b) (bg_stopped b) (bg_work b).

Definition on_device {A} (c : M (vstate (D * bguest)) A) : M (bstate D) A :=
  fun s => match c (b_pack s) with
           | Ok (a, v) => Ok (a, b_unpack v)
           | Fail e => Fail e
           end.

(** The disk, next to the kernel's state. *)
Definition lift_disk (disk : lkl_dev_blk_ops D) : lkl_dev_blk_ops (D * bguest) :=
  LklDevBlkOps
    (fun x => match get_capacity disk x.1 with
              | Some (d, ret, res) => Some ((d, x.2), ret, res)
              | None => None
              end)
    (fun r m x => match request disk r m x.1 with
                  | Some (m, d, st) => Some (m, (d, x.2), st)
                  | None => None
                  end).

(** lkl_trigger_irq, called by the thread that owns the CPU: with interrupts
    enabled the handler runs before the call returns, else the interrupt is
    left pending. *)
Definition trigger_irq_owner (ops : virtio_dev_ops D) (fuel n : nat) (irqs_enabled : bool) :
    Trigger (D * bguest) := fun irq v =>
  if (irq =? 0) || (NR_IRQS <? irq) then Ok (tt, v)
  else if negb irqs_enabled then record_irq irq v
  else match vm_interrupt ops fuel n (b_unpack v) with
       | Ok (_, s) => Ok (tt, b_pack s)
       | Fail e => Fail e
       end.

Context (disk : lkl_dev_blk_ops D) (fuel n : nat).
Abbreviation ops := (blk_ops disk).
Abbreviation BM := (M (bstate D)).

(** The class of the disk, on a device whose interrupts reach the kernel so. *)
Definition owner_ops (irqs_enabled : bool) : virtio_dev_ops (D * bguest) :=
  blk_ops (T := trigger_irq_owner ops fuel n irqs_enabled) (lift_disk disk).

(** virtqueue_notify, outside the lock. *)
Definition virtqueue_notify_irq (irqs_enabled : bool) : BM bool :=
  let* vq := ring get_vq in
  if g_broken vq then retM false
  else
    let* ok := on_device (vm_notify (owner_ops irqs_enabled) fuel (g_index vq)) in
    if negb ok then ring (mod_vq (with_g_broken true)) ;;; retM false
    else retM true.

(** The interrupts left pending so far. *)
Definition irqs_raised : BM nat := fun s => Ok (length (v_irqs (g_host (b_ring s))), s).

(** arch_local_irq_restore of [flags], [before] the interrupts that were pending
    when interrupts were disabled: run_irqs runs the handler once, however
    often the interrupt was raised. *)
Definition irq_restore (flags : bool) (before : nat) : BM unit :=
  let* now := irqs_raised in
  if flags && negb (now =? before)%nat then let* _ := vm_interrupt ops fuel n in retM tt
  else retM tt.

(** [last] is bd->last, [kmalloc] what an indirect table would get,
    [irqs_enabled] the state of the caller.  Without the [default:] of the
    source's switch, which no [cmd_type] reaches. *)
Definition virtio_queue_rq (irqs_enabled : bool) (sg_elems rq : Z) (last : bool)
    (kmalloc : option Z) : BM Z :=
  let* req := get_rq rq in
  let vbr := r_pdu req in
  if sg_elems <? u32 (r_nr_phys_segments req + 2) then failM Panicked
  else
    bst 8 (vbr_req vbr) rq ;;;
    (if r_flush req then write_header vbr VIRTIO_BLK_T_FLUSH 0 (r_ioprio req)
     else match r_cmd_type req with
          | REQ_TYPE_FS => write_header vbr 0 (r_pos req) (r_ioprio req)
          | REQ_TYPE_BLOCK_PC => write_header vbr VIRTIO_BLK_T_SCSI_CMD 0 (r_ioprio req)
          | REQ_TYPE_DRV_PRIV => write_header vbr VIRTIO_BLK_T_GET_ID 0 (r_ioprio req)
          end) ;;;
    let num := length (r_sg req) in
    (if (num =? 0)%nat then retM tt
     else
       let* type := bld 4 (hdr_type vbr) in
       bst 4 (hdr_type vbr)
         (Z.lor type (if r_write req then VIRTIO_BLK_T_OUT else VIRTIO_BLK_T_IN))) ;;;
    let* before := irqs_raised in
    let* err := virtblk_add_req ops fuel vbr req (r_sg req) kmalloc in
    if negb (err =? 0) then
      let* _ := ring (virtqueue_kick ops fuel) in
      set_stopped true ;;;
      irq_restore irqs_enabled before ;;;
      retM (if (err =? - ENOMEM) || (err =? - ENOSPC) then BLK_MQ_RQ_QUEUE_BUSY
            else BLK_MQ_RQ_QUEUE_ERROR)
    else
      let* notify := (if last then ring virtqueue_kick_prepare else retM false) in
      irq_restore irqs_enabled before ;;;
      (if notify then let* _ := virtqueue_notify_irq irqs_enabled in retM tt else retM tt) ;;;
      retM BLK_MQ_RQ_QUEUE_OK.

(** The loop of __blk_mq_run_hw_queue over the requests it has collected: the
    number it could hand over and the requests that have to wait.  Only the last
    one asks for the notification. *)
Fixpoint dispatch (irqs_enabled : bool) (sg_elems : Z) (queued : nat) (rq_list : list Z) :
    BM (nat * list Z) :=
  match rq_list with
  | [] => retM (queued, [])
  | rq :: rest =>
      let* ret := virtio_queue_rq irqs_enabled sg_elems rq (if rest is [] then true else false) None in
      if ret =? BLK_MQ_RQ_QUEUE_OK then dispatch irqs_enabled sg_elems (S queued) rest
      else if ret =? BLK_MQ_RQ_QUEUE_BUSY then retM (queued, rq :: rest)
      else
        let* req := get_rq rq in
        set_rq rq (with_results (- EIO) (r_resid_len req) (r_sense_len req) req) ;;;
        blk_mq_end_request rq (- EIO) ;;;
        dispatch irqs_enabled sg_elems queued rest
  end.

(** __blk_mq_run_hw_queue. *)
Definition run_hw_queue (irqs_enabled : bool) (sg_elems : Z) (rq_list : list Z) : BM (nat * list Z) :=
  fun s => if b_stopped s then Ok ((O, rq_list), s)
           else dispatch irqs_enabled sg_elems O rq_list s.

(** The thread that runs the hardware queue, up to the moment it enables
    interrupts again if it had disabled them. *)
Definition run_batch (irqs_enabled : bool) (sg_elems : Z) (rq_list : list Z) : BM (nat * list Z) :=
  let* before := irqs_raised in
  let* r := run_hw_queue irqs_enabled sg_elems rq_list in
  irq_restore (negb irqs_enabled) before ;;;
  retM r.

End Submit.
