(* ===== verification/BlkDriver.v ===== *)
(** * BlkDriver

    The steps of a block request's path: how the kernel's driver puts a request
    on the virtqueue, what the device and the disk do with it, how the interrupt
    ends it, and two ways in which the path loses what was asked for.  [BlkBatch]
    puts the steps together. *)

From S2P Require Import Prelude Memory Irq Virtio VirtioRing VirtioQueue VirtioBlk PosixHost JsDisk VirtioMmio GuestRing GuestInv GuestDriver BlkGuest.

(** ** Memory off the rings *)

Section Frames.
Context {D : Type}.
Implicit Types h : vstate D.

Lemma avail_idx_area m r i : vring_ok m r -> range (vr_avail r + 2) 2 i -> g_avail_area r i.
Proof. intros Hvr. pose proof (vring_ok_num _ _ Hvr). unfold g_avail_area, range. lia. Qed.

Lemma ring_inv_off P m m' g q free fls :
  ring_inv m g free fls -> queue_of (g_vring g) q -> frame P m m' ->
  (forall i, P i -> ~ rings_area q i) -> ring_inv m' g free fls.
Proof.
  intros Hinv Hq Hf HP. eapply ring_inv_frame; [exact Hinv|exact Hf|..].
  - intros i Hi Hd. apply (HP i Hi). left. by apply (desc_area_of _ _ Hq).
  - intros i Hi Hp. apply (HP i Hp). right. left. apply (avail_area_of _ _ Hq).
    eapply avail_idx_area; [apply Hinv|exact Hi].
Qed.

Lemma loaded_off P m m' g q a free fls :
  loaded m g q a free fls -> frame P m m' -> (forall i, P i -> ~ rings_area q i) ->
  loaded m' g q a free fls.
Proof.
  intros Hlo Hf HP. pose proof (loaded_queue_ok _ _ _ _ _ _ Hlo) as Hqok.
  destruct Hlo as [Hinv Hq Hh Hsh Hadd Hlast]. split; try done.
  - by eapply ring_inv_off.
  - intros j f hd Hj Hhd. rewrite <- (Hh j f hd Hj Hhd). eapply load_frame; [exact Hf|].
    intros i Hi Hp. apply (HP i Hp). right. left.
    pose proof (slot_range _ q (a + Z.of_nat j) Hqok). eapply avail_cell_area; [|exact Hi]. lia.
Qed.

Lemma queued_off P h g q a free fls m' :
  queued h g q a free fls -> frame P (v_mem h) m' -> (forall i, P i -> ~ rings_area q i) ->
  queued (with_mem m' h) g q a free fls.
Proof.
  intros [Hlo Hat Hi Hrdy Hmm He Hur Hld Hae] Hf HP.
  pose proof (loaded_queue_ok _ _ _ _ _ _ Hlo) as Hqok. pose proof (queue_ok_num _ _ Hqok).
  assert (forall b, (forall i, range b (Z.of_nat 2) i -> used_area q i) ->
    load 2 b m' = load 2 b (v_mem h)) as Hsame.
  { intros b Hb. eapply load_frame; [exact Hf|]. intros i Hi2 Hp. apply (HP i Hp).
    right. right. by apply Hb. }
  split; try done; cbn [v_mem with_mem]; rewrite ?Hsame; try done.
  - by eapply loaded_off.
  - intros i. unfold used_area, range. lia.
  - intros i Hi2. apply event_cell_used; [lia|exact Hi2].
Qed.

End Frames.

(** ** States *)

Section States.
Context {D : Type}.
Implicit Types s : bstate D.

Definition set_ring (g : gstate D) s : bstate D :=
  BState g (b_rqs s) (b_ended s) (b_stopped s) (b_work s).

Definition set_mem (m : mem) s : bstate D :=
  set_ring (GState (with_mem m (g_host (b_ring s))) (g_vq (b_ring s))) s.

Definition b_mem s : mem := v_mem (g_host (b_ring s)).

Lemma ring_ok {A} (c : M (gstate D) A) s a g :
  c (b_ring s) = Ok (a, g) -> ring c s = Ok (a, set_ring g s).
Proof. intros E. unfold ring. by rewrite E. Qed.

Lemma bld_ok n a v s : load n a (b_mem s) = Some v -> bld n a s = Ok (v, s).
Proof.
  intros H. destruct s as [[h g] rqs e st w].
  exact (ring_ok _ (BState (GState h g) rqs e st w) _ _ (host_ld_ok n a v h g H)).
Qed.

Lemma bst_ok n a v s : mapped (b_mem s) a (Z.of_nat n) ->
  exists m, store n a v (b_mem s) = Some m /\ bst n a v s = Ok (tt, set_mem m s).
Proof.
  intros H. destruct s as [[h g] rqs e st w].
  destruct (host_st_ok n a v h g H) as (m & Hs & E). exists m. split; [done|].
  exact (ring_ok _ (BState (GState h g) rqs e st w) _ _ E).
Qed.

Lemma set_mem_mem m m' s : set_mem m (set_mem m' s) = set_mem m s.
Proof. done. Qed.

End States.

(** ** The header *)

(** The driver's part of struct virtblk_req, up to the status. *)
Definition pdu_area (vbr : Z) : Z -> Prop := range vbr 41.

Definition header_at (m : mem) (vbr rq type sector : Z) : Prop :=
  load 8 (vbr_req vbr) m = Some rq /\ load 4 (hdr_type vbr) m = Some type /\
  is_Some (load 4 (hdr_ioprio vbr) m) /\ load 8 (hdr_sector vbr) m = Some sector.

Lemma header_at_frame P m m' vbr rq type sector :
  frame P m m' -> (forall i, range vbr 24 i -> ~ P i) ->
  header_at m vbr rq type sector -> header_at m' vbr rq type sector.
Proof.
  intros Hf HP (H1 & H2 & H3 & H4).
  assert (forall n a, vbr <= a -> a + Z.of_nat n <= vbr + 24 -> load n a m' = load n a m) as Hl.
  { intros n a Ha Hn. eapply load_frame; [exact Hf|]. intros i Hi. apply HP.
    unfold range in *. lia. }
  unfold header_at, vbr_req, hdr_type, hdr_ioprio, hdr_sector, out_hdr in *.
  rewrite !Hl by lia. done.
Qed.

Definition direction (write : bool) : Z := if write then VIRTIO_BLK_T_OUT else VIRTIO_BLK_T_IN.

Section Header.
Context {D : Type}.
Implicit Types s : bstate D.

(** A store inside the area of a struct virtblk_req. *)
Lemma bst_pdu vbr n a v s :
  mapped (b_mem s) vbr 41 -> vbr <= a -> a + Z.of_nat n <= vbr + 41 ->
  exists m, bst n a v s = Ok (tt, set_mem m s) /\ frame (pdu_area vbr) (b_mem s) m /\
    frame (range a (Z.of_nat n)) (b_mem s) m /\ mapped m vbr 41 /\
    load n a m = Some (v mod 256 ^ Z.of_nat n).
Proof.
  intros Hm Ha Hn. destruct (bst_ok n a v s) as (m & Hs & E).
  { eapply mapped_sub; [exact Hm|lia|lia]. }
  pose proof (store_frame _ _ _ _ _ Hs) as Hf. exists m. split_and!; try done.
  - eapply frame_weaken; [|exact Hf]. intros i. unfold pdu_area, range. lia.
  - by eapply mapped_frame.
  - by eapply load_store_eq.
Qed.

Lemma fs_header_ok vbr rq sector ioprio write s :
  mapped (b_mem s) vbr 41 -> 0 <= rq < 2 ^ 64 -> 0 <= sector < 2 ^ 64 ->
  exists m, (forall A (k : M (bstate D) A),
      (bst 8 (vbr_req vbr) rq ;;; write_header vbr 0 sector ioprio ;;;
       (let* type := bld 4 (hdr_type vbr) in
        bst 4 (hdr_type vbr) (Z.lor type (direction write))) ;;; k) s = k (set_mem m s)) /\
    frame (pdu_area vbr) (b_mem s) m /\ header_at m vbr rq (direction write) sector.
Proof.
  intros Hm Hrq Hsec. unfold write_header, hdr_type, hdr_sector, hdr_ioprio, vbr_req, out_hdr.
  destruct (bst_pdu vbr 8 vbr rq s Hm) as (m1 & E1 & F1 & G1 & M1 & L1); [lia|lia|].
  destruct (bst_pdu vbr 4 (vbr + 8) 0 (set_mem m1 s) M1) as (m2 & E2 & F2 & G2 & M2 & L2); [lia|lia|].
  destruct (bst_pdu vbr 8 (vbr + 8 + 8) sector (set_mem m2 s) M2) as (m3 & E3 & F3 & G3 & M3 & L3);
    [lia|lia|].
  destruct (bst_pdu vbr 4 (vbr + 8 + 4) ioprio (set_mem m3 s) M3) as (m4 & E4 & F4 & G4 & M4 & L4);
    [lia|lia|].
  destruct (bst_pdu vbr 4 (vbr + 8) (direction write) (set_mem m4 s) M4)
    as (m5 & E5 & F5 & G5 & M5 & L5); [lia|lia|].
  change (b_mem (set_mem ?x s)) with x in *. exists m5.
  assert (load 4 (vbr + 8) m4 = Some 0) as Ht.
  { rewrite (load_frame 4 (vbr + 8) _ _ _ G4), (load_frame 4 (vbr + 8) _ _ _ G3), L2;
      [done|unfold range; lia..]. }
  unfold header_at, hdr_type, hdr_sector, hdr_ioprio, vbr_req, out_hdr. split_and!.
  - intros A k. rewrite (bindM_ok _ _ _ _ _ E1), !bindM_assoc, (bindM_ok _ _ _ _ _ E2).
    rewrite ?bindM_assoc, (bindM_ok _ _ _ _ _ E3), ?bindM_assoc, (bindM_ok _ _ _ _ _ E4).
    rewrite ?bindM_assoc, (bindM_ok _ _ _ _ _ (bld_ok 4 (vbr + 8) 0 (set_mem m4 s) Ht)).
    by rewrite (bindM_ok _ _ _ _ _ E5).
  - do 4 (eapply frame_trans; [eassumption|]). eassumption.
  - rewrite (load_frame 8 vbr _ _ _ G5), (load_frame 8 vbr _ _ _ G4), (load_frame 8 vbr _ _ _ G3),
      (load_frame 8 vbr _ _ _ G2), L1 by (unfold range; lia). f_equal. by apply Z.mod_small.
  - rewrite L5. by destruct write.
  - rewrite (load_frame 4 (vbr + 8 + 4) _ _ _ G5), L4 by (unfold range; lia). eauto.
  - rewrite (load_frame 8 (vbr + 8 + 8) _ _ _ G5), (load_frame 8 (vbr + 8 + 8) _ _ _ G4), L3
      by (unfold range; lia). f_equal. by apply Z.mod_small.
Qed.

End Header.

(** ** Handing over one request *)

Definition data_of (r : mq_request) : iovec := default (Iovec 0 0) (list.head (r_sg r)).

Definition data_area (r : mq_request) : Z -> Prop := range (iov_base (data_of r)) (iov_len (data_of r)).

Definition req_area (r : mq_request) (i : Z) : Prop := pdu_area (r_pdu r) i \/ data_area r i.

(** A read or write of one segment, as the block layer hands it over. *)
Record rq_ok (m : mem) (q : virtio_queue) (rq : Z) (r : mq_request) : Prop := {
  ro_flush : r_flush r = false;
  ro_type : r_cmd_type r = REQ_TYPE_FS;
  ro_sg : r_sg r = [data_of r];
  ro_segs : r_nr_phys_segments r = 1;
  ro_addr : 0 <= rq < 2 ^ 64;
  ro_pos : 0 <= r_pos r < 4294967296;
  ro_pdu : 0 < r_pdu r < 2 ^ 64 - 48;
  ro_data : buf_ok (data_of r) /\ bufs_ok [data_of r];
  ro_mapped : mapped m (r_pdu r) 41 /\ mapped m (iov_base (data_of r)) (iov_len (data_of r));
  ro_disj : forall i, pdu_area (r_pdu r) i -> ~ data_area r i;
  ro_off : forall i, req_area r i -> ~ rings_area q i;
}.

Lemma rq_ok_frame P m m' q rq r : frame P m m' -> rq_ok m q rq r -> rq_ok m' q rq r.
Proof. intros Hf []. split; try done. split; eapply mapped_frame; try exact Hf; naive_solver. Qed.

(** What [virtio_queue_rq] puts on the queue. *)
Definition sub_of (r : mq_request) : submission :=
  let hdr := Iovec (out_hdr (r_pdu r)) SIZEOF_OUTHDR in
  let status := Iovec (vbr_status (r_pdu r)) 1 in
  if r_write r then Submission [hdr; data_of r] [status] (r_pdu r)
  else Submission [hdr] [data_of r; status] (r_pdu r).

Lemma sub_of_bufs r : sub_bufs (sub_of r) =
  [Iovec (out_hdr (r_pdu r)) SIZEOF_OUTHDR; data_of r; Iovec (vbr_status (r_pdu r)) 1].
Proof. unfold sub_of. by destruct (r_write r). Qed.

Lemma sub_of_token r : sub_token (sub_of r) = r_pdu r.
Proof. unfold sub_of. by destruct (r_write r). Qed.

Lemma sub_of_ok m q rq r : rq_ok m q rq r -> sub_ok (sub_of r).
Proof.
  intros [_ _ _ _ _ _ Hp [Hb _] _ _ _]. unfold sub_ok. rewrite sub_of_bufs, sub_of_token.
  split_and!; [lia|done|]. repeat constructor; try apply Hb;
    unfold out_hdr, vbr_status, SIZEOF_OUTHDR; simpl; lia.
Qed.

Section Queue.
Context {D : Type} (disk : lkl_dev_blk_ops D) (fuel n : nat) (irqs_enabled : bool).
Implicit Types h : vstate D.

(** What follows the add, [before] the interrupts pending at the lock. *)
Definition notify_if (before : nat) (last : bool) : M (bstate D) Z :=
  let* notify := (if last then ring virtqueue_kick_prepare else retM false) in
  irq_restore disk fuel n irqs_enabled before ;;;
  (if notify then let* _ := virtqueue_notify_irq disk fuel n irqs_enabled in retM tt else retM tt) ;;;
  retM BLK_MQ_RQ_QUEUE_OK.

Lemma queue_rq_add sg_elems rq r h g q a free fls rqs e st w :
  queued h g q a free fls -> rqs !! rq = Some r -> rq_ok (v_mem h) q rq r -> 3 <= sg_elems ->
  (3 <= length free)%nat ->
  exists m' g' f, (forall last,
      virtio_queue_rq disk fuel n irqs_enabled sg_elems rq last None (BState (GState h g) rqs e st w) =
      notify_if (length (v_irqs h)) last (BState (GState (with_mem m' h) g') rqs e st w)) /\
    queued (with_mem m' h) g' q a (drop 3 free) (fls ++ [f]) /\ flight_of f (sub_of r) /\
    frame (fun i => pdu_area (r_pdu r) i \/ driver_area (g_vring g) i) (v_mem h) m' /\
    header_at m' (r_pdu r) rq (direction (r_write r)) (r_pos r) /\ same_vq g g' /\
    g_last_used_idx g' = g_last_used_idx g.
Proof.
  intros Hqd Hr Hok Hsg Hfree. pose proof (lo_queue _ _ _ _ _ _ (qd_loaded _ _ _ _ _ _ Hqd)) as Hq.
  set (s := BState (GState h g) rqs e st w).
  destruct (fs_header_ok (r_pdu r) rq (r_pos r) (r_ioprio r) (r_write r) s) as (m1 & E1 & F1 & Hh1).
  { apply Hok. } { apply Hok. } { pose proof (ro_pos _ _ _ _ Hok). lia. }
  assert (forall i, pdu_area (r_pdu r) i -> ~ rings_area q i) as Hpoff.
  { intros i Hi. apply (ro_off _ _ _ _ Hok). by left. }
  pose proof (queued_off _ _ _ _ _ _ _ m1 Hqd F1 Hpoff) as Hqd1.
  destruct (queued_add (blk_ops disk) fuel (sub_of r) _ g q a free fls Hqd1 (sub_of_ok _ _ _ _ Hok))
    as (m2 & g2 & f & E2 & Hqd2 & Hfl & F2 & Hs2 & Hu2); [by rewrite sub_of_bufs|].
  rewrite sub_of_bufs in Hqd2. exists m2, g2, f. split; [|split_and!; try done].
  - intros last. unfold virtio_queue_rq.
    rewrite (bindM_ok _ _ s r s) by (unfold get_rq; simpl; by rewrite Hr).
    rewrite (ro_segs _ _ _ _ Hok), (ro_flush _ _ _ _ Hok), (ro_type _ _ _ _ Hok).
    change (u32 (1 + 2)) with 3. rewrite (proj2 (Z.ltb_ge _ _)) by done.
    rewrite (ro_sg _ _ _ _ Hok). cbn [length Nat.eqb]. fold (direction (r_write r)). rewrite E1.
    rewrite (bindM_ok _ _ (set_mem m1 s) _ _ eq_refl).
    unfold virtblk_add_req. cbn [length Nat.eqb negb andb].
    rewrite bindM_assoc, (bindM_ok _ _ _ _ _ (bld_ok _ _ _ (set_mem m1 s) (proj1 (proj2 Hh1)))).
    assert (Z.ldiff (direction (r_write r)) VIRTIO_BLK_T_OUT =? VIRTIO_BLK_T_SCSI_CMD = false) as ->
      by (by destruct (r_write r)).
    unfold bindM at 1.
    rewrite (ring_ok _ (set_mem m1 s) 0 (GState (with_mem m2 h) g2)); [done|].
    refine (eq_trans _ E2). unfold sub_of, direction. by destruct (r_write r).
  - eapply frame_trans; eapply frame_weaken; [|exact F1| |exact F2]; [by left|by right].
  - eapply header_at_frame; [exact F2| |exact Hh1]. intros i Hi Hd. apply (Hpoff i).
    { unfold pdu_area, range in *. lia. }
    destruct Hd as [Hd|Hd]; [left; by apply (desc_area_of _ _ Hq)|right; left].
    by apply (avail_area_of _ _ Hq).
Qed.

(** A request that is not the last only leaves the lock. *)
Lemma notify_none before h g rqs e st w :
  before = length (v_irqs h) ->
  notify_if before false (BState (GState h g) rqs e st w) =
    Ok (BLK_MQ_RQ_QUEUE_OK, BState (GState h g) rqs e st w).
Proof.
  intros ->. unfold notify_if, irq_restore, irqs_raised, bindM, retM. simpl.
  by rewrite Nat.eqb_refl, andb_false_r.
Qed.

End Queue.

(** ** Handing over a batch *)

(** Requests that share no memory. *)
Fixpoint separate (l : list (Z * mq_request)) : Prop :=
  match l with
  | [] => True
  | (_, r) :: l' =>
      Forall (fun p => forall i, req_area r i -> ~ req_area p.2 i) l' /\ separate l'
  end.

Definition subs_of (l : list (Z * mq_request)) : list submission := map (fun p => sub_of p.2) l.

Definition known (rqs : gmap Z mq_request) (l : list (Z * mq_request)) : Prop :=
  Forall (fun p => rqs !! p.1 = Some p.2) l.

Definition all_ok (m : mem) (q : virtio_queue) (l : list (Z * mq_request)) : Prop :=
  Forall (fun p => rq_ok m q p.1 p.2) l.

Definition posted (m : mem) (l : list (Z * mq_request)) : Prop :=
  Forall (fun p => header_at m (r_pdu p.2) p.1 (direction (r_write p.2)) (r_pos p.2)) l.

Definition pdus_area (l : list (Z * mq_request)) (i : Z) : Prop :=
  exists p, p ∈ l /\ pdu_area (r_pdu p.2) i.

Lemma all_ok_frame P m m' q l : frame P m m' -> all_ok m q l -> all_ok m' q l.
Proof. intros Hf H. eapply Forall_impl; [|exact H]. intros p. by apply rq_ok_frame with P. Qed.

(** Where the driver writes while it hands a batch over. *)
Lemma driver_in_rings r q i : queue_of r q -> driver_area r i -> rings_area q i.
Proof.
  intros Hq [Hd|Hd]; [left; by apply (desc_area_of _ _ Hq)|right; left; by apply (avail_area_of _ _ Hq)].
Qed.

Lemma header_area r i : range (r_pdu r) 24 i -> req_area r i.
Proof. intros Hi. left. unfold pdu_area, range in *. lia. Qed.

Section HandOver.
Context {D : Type} (disk : lkl_dev_blk_ops D) (fuel n : nat) (irqs_enabled : bool).
Implicit Types h : vstate D.

Lemma dispatch_add sg_elems l k h g q a free fls rqs e st w :
  queued h g q a free fls -> l <> [] -> known rqs l -> all_ok (v_mem h) q l -> separate l ->
  3 <= sg_elems -> (3 * length l <= length free)%nat ->
  exists m' g' fls', (forall s',
      notify_if disk fuel n irqs_enabled (length (v_irqs h)) true
        (BState (GState (with_mem m' h) g') rqs e st w) = Ok (BLK_MQ_RQ_QUEUE_OK, s') ->
      dispatch disk fuel n irqs_enabled sg_elems k (map fst l) (BState (GState h g) rqs e st w) =
        Ok ((k + length l)%nat, [], s')) /\
    queued (with_mem m' h) g' q a (drop (3 * length l) free) (fls ++ fls') /\
    Forall2 flight_of fls' (subs_of l) /\
    frame (fun i => pdus_area l i \/ driver_area (g_vring g) i) (v_mem h) m' /\
    posted m' l /\ same_vq g g' /\ g_last_used_idx g' = g_last_used_idx g.
Proof.
  revert k h g free fls. induction l as [|[rq r] l IH]; intros k h g free fls Hqd Hne Hk Hok Hsep Hsg Hlen;
    [done|].
  inversion Hk as [|?? Hr Hk']; subst. inversion Hok as [|?? Hro Hok']; subst.
  destruct Hsep as [Hsr Hsep]. simpl in Hr, Hro, Hlen.
  destruct (queue_rq_add disk fuel n irqs_enabled sg_elems rq r h g q a free fls rqs e st w Hqd Hr Hro Hsg)
    as (m1 & g1 & f & E1 & Hqd1 & Hf1 & F1 & Hh1 & Hs1 & Hu1); [lia|].
  pose proof (lo_queue _ _ _ _ _ _ (qd_loaded _ _ _ _ _ _ Hqd)) as Hq.
  destruct (decide (l = [])) as [->|Hne'].
  { exists m1, g1, [f]. split_and!; try done.
    - intros s' E. cbn [map dispatch fst]. unfold bindM. rewrite (E1 true), E.
      change (BLK_MQ_RQ_QUEUE_OK =? BLK_MQ_RQ_QUEUE_OK) with true. simpl. by rewrite Nat.add_1_r.
    - by constructor.
    - eapply frame_weaken; [|exact F1]. intros i [Hi|Hi]; [left|by right].
      exists (rq, r). split; [set_solver|done].
    - by constructor. }
  destruct (IH (S k) (with_mem m1 h) g1 (drop 3 free) (fls ++ [f]) Hqd1 Hne' Hk' (all_ok_frame _ _ _ _ _ F1 Hok')
    Hsep Hsg) as (m2 & g2 & fls2 & E2 & Hqd2 & Hfl2 & F2 & Hp2 & Hs2 & Hu2).
  { rewrite length_drop. lia. }
  rewrite <- app_assoc, drop_drop in Hqd2. exists m2, g2, (f :: fls2). split_and!; try done.
  - intros s' E. cbn [map dispatch fst]. unfold bindM at 1.
    replace (match map fst l with [] => true | _ => false end) with false by (by destruct l).
    rewrite (E1 false), notify_none by done. cbn beta iota.
    change (BLK_MQ_RQ_QUEUE_OK =? BLK_MQ_RQ_QUEUE_OK) with true. cbn iota. rewrite (E2 s' E). simpl. by rewrite Nat.add_succ_r.
  - replace (3 * length ((rq, r) :: l))%nat with (3 + 3 * length l)%nat by (simpl; lia). exact Hqd2.
  - by constructor.
  - destruct Hs1 as [Hr1 _]. rewrite Hr1 in F2.
    eapply frame_trans; eapply frame_weaken; [|exact F1| |exact F2].
    + intros i [Hi|Hi]; [left|by right]. exists (rq, r). split; [set_solver|done].
    + intros i [(p & Hp & Hi)|Hi]; [left|by right]. exists p. split; [set_solver|done].
  - constructor; [|exact Hp2]. eapply header_at_frame; [exact F2| |exact Hh1].
    intros i Hi%header_area [(p & Hp & Hi2)|Hd].
    + rewrite list.Forall_forall in Hsr. apply (Hsr p Hp i Hi). by left.
    + destruct Hs1 as [Hr1 _]. rewrite Hr1 in Hd. by apply (ro_off _ _ _ _ Hro i Hi), (driver_in_rings _ _ _ Hq).
  - by eapply same_vq_trans.
  - congruence.
Qed.

End HandOver.

(** ** What the device does with a batch *)

(** The bytes of the data of a request. *)
Definition data_bytes (m : mem) (r : mq_request) : list Z :=
  default [] (load_bytes (Z.to_nat (iov_len (data_of r))) (iov_base (data_of r)) m).

(** A file after the writes of a batch, in order. *)
Fixpoint disk_after (m : mem) (l : list (Z * mq_request)) (data : list Z) : list Z :=
  match l with
  | [] => data
  | (_, r) :: l' =>
      disk_after m l' (if r_write r then file_write (512 * r_pos r) (data_bytes m r) data else data)
  end.

(** What the device writes for a batch: the statuses, and the data of reads. *)
Definition answer_area (r : mq_request) (i : Z) : Prop :=
  range (vbr_status (r_pdu r)) 1 i \/ r_write r = false /\ data_area r i.

Definition answers_area (l : list (Z * mq_request)) (i : Z) : Prop :=
  exists p, p ∈ l /\ answer_area p.2 i.

Lemma answer_in_req r i : answer_area r i -> req_area r i.
Proof. intros [Hi|[_ Hi]]; [left|by right]. unfold pdu_area, vbr_status, range in *. lia. Qed.

Definition in_disk (size : Z) (l : list (Z * mq_request)) : Prop :=
  Forall (fun p => 512 * r_pos p.2 + iov_len (data_of p.2) <= size) l.

Lemma length_file_write_le off bs data : 0 <= off ->
  Z.of_nat (length data) <= Z.of_nat (length (file_write off bs data)).
Proof.
  intros Ho. destruct bs as [|b bs]; [done|]. rewrite length_file_write by done. lia.
Qed.

(** The request as the block class wants it. *)
Lemma posted_req_at m q rq r len qidx a :
  rq_ok m q rq r -> header_at m (r_pdu r) rq (direction (r_write r)) (r_pos r) ->
  blk_req_at m (VirtioReq (sub_bufs (sub_of r)) len qidx a) (direction (r_write r)) (r_pos r)
    [data_of r] (vbr_status (r_pdu r)).
Proof.
  intros Hok (_ & Ht & Hp & Hs). pose proof (ro_disj _ _ _ _ Hok) as Hd.
  destruct (ro_data _ _ _ _ Hok) as [Hb Hb2]. destruct (ro_mapped _ _ _ _ Hok) as [Hm1 Hm2].
  rewrite sub_of_bufs. destruct Hb as [_ Hbl].
  assert (forall a n, r_pdu r <= a -> 0 < n -> a + n <= r_pdu r + 41 ->
    disjoint_ranges a n (iov_base (data_of r)) (iov_len (data_of r))) as Hdis.
  { intros x n H1 H2 H3. unfold disjoint_ranges.
    destruct (decide (x + n <= iov_base (data_of r))); [lia|].
    destruct (decide (iov_base (data_of r) + iov_len (data_of r) <= x)); [lia|].
    exfalso. apply (Hd (Z.max x (iov_base (data_of r)))); unfold pdu_area, data_area, range; lia. }
  split.
  - exists (out_hdr (r_pdu r)). done.
  - done.
  - cbn [rq_buf bufs_disjoint]. split; [|split; [|done]];
      repeat (apply Forall_cons_2 || apply Forall_nil_2); simpl.
    + apply Hdis; unfold out_hdr, SIZEOF_OUTHDR; lia.
    + unfold disjoint_ranges, out_hdr, vbr_status, SIZEOF_OUTHDR. lia.
    + specialize (Hdis (vbr_status (r_pdu r)) 1). unfold disjoint_ranges, vbr_status in *. lia.
  - cbn [rq_buf]. repeat constructor; simpl; [|done|]; (eapply mapped_sub; [exact Hm1|..]);
      unfold out_hdr, vbr_status, SIZEOF_OUTHDR; lia.
Qed.

Lemma elem_of_take_in {A} k (l : list A) p : p ∈ take k l -> p ∈ l.
Proof. intros (i & Hi & _)%elem_of_take. by eapply list_elem_of_lookup_2. Qed.

(** A request's data is untouched by the answers to the others. *)
Lemma data_bytes_frame P m m' q rq r :
  rq_ok m q rq r -> frame P m m' -> (forall i, data_area r i -> ~ P i) ->
  data_bytes m' r = data_bytes m r.
Proof.
  intros Hok Hf HP. unfold data_bytes. erewrite load_bytes_frame; [done|exact Hf|].
  intros i Hi. apply HP. destruct (ro_data _ _ _ _ Hok) as [[_ Hl] _]. unfold data_area, range in *. lia.
Qed.

Lemma disk_after_frame P m m' q l data :
  all_ok m q l -> frame P m m' -> (forall p i, p ∈ l -> data_area p.2 i -> ~ P i) ->
  disk_after m' l data = disk_after m l data.
Proof.
  intros Hok Hf. revert data. induction Hok as [|[rq r] l Hr Hok IH]; intros data HP; [done|].
  cbn [disk_after]. rewrite (data_bytes_frame P m m' q rq r Hr Hf) by (intros i; apply (HP (rq, r)); set_solver).
  apply IH. intros p i Hp. apply HP. set_solver.
Qed.

Section Serve.
Context {D : Type} (disk : lkl_dev_blk_ops D) `{!BlkBackend disk, !FileBackend disk}.

(** One request, read or write. *)
Lemma serve_posted m q rq r len qidx a x :
  rq_ok m q rq r -> header_at m (r_pdu r) rq (direction (r_write r)) (r_pos r) -> fb_ready x ->
  512 * r_pos r + iov_len (data_of r) <= Z.of_nat (length (fb_data x)) ->
  exists m' x', blk_serve disk (VirtioReq (sub_bufs (sub_of r)) len qidx a) m x = Some (m', x', 0) /\
    fb_ready x' /\ frame (answer_area r) m m' /\
    load 1 (vbr_status (r_pdu r)) m' = Some LKL_DEV_BLK_STATUS_OK /\
    fb_data x' = (if r_write r then file_write (512 * r_pos r) (data_bytes m r) (fb_data x)
                  else fb_data x) /\
    (r_write r = false -> data_bytes m' r =
       map u8 (file_bytes (512 * r_pos r) (iov_len (data_of r)) (fb_data x))).
Proof.
  intros Hok Hh Hx Hsz. pose proof (posted_req_at _ _ _ _ len qidx a Hok Hh) as Hat.
  destruct (blk_serve_ok disk m _ _ _ _ _ x Hat) as [prio Hs].
  pose proof (ro_pos _ _ _ _ Hok) as Hpos. rewrite u32_id in Hs by lia.
  destruct (ro_data _ _ _ _ Hok) as [Hb Hb2]. destruct (ro_mapped _ _ _ _ Hok) as [_ Hm].
  pose proof (proj2 Hb) as Hlen. unfold data_bytes. unfold direction in Hs. destruct (r_write r) eqn:Hw.
  - destruct (load_bytes_some (Z.to_nat (iov_len (data_of r))) (iov_base (data_of r)) m) as [bs Hbs].
    { by rewrite Z2Nat.id by lia. }
    destruct (fb_write prio (r_pos r) (data_of r) m x bs Hx Hpos Hb2 Hbs) as (x' & E & Hx' & Hd).
    destruct (Hs _ _ _ E) as (m' & E' & Hf & Hl). exists m', x'. rewrite Hbs. split_and!; try done.
    eapply frame_weaken; [|exact Hf]. by left.
  - destruct (fb_read prio (r_pos r) (data_of r) m x Hx Hpos Hb2 Hm Hsz) as (m1 & x' & E & Hx' & Hd & Hst).
    destruct (Hs _ _ _ E) as (m' & E' & Hf & Hl). exists m', x'.
    pose proof (store_bytes_frame _ _ _ _ Hst) as Hf1.
    pose proof (length_file_bytes_eq (512 * r_pos r) (iov_len (data_of r)) (fb_data x)) as Hfl.
    split_and!; try done.
    + eapply frame_trans; eapply frame_weaken; [|exact Hf1| |exact Hf]; [|by left].
      intros i Hi. right. split; [done|]. unfold data_area, range in *. lia.
    + intros _. rewrite (load_bytes_frame _ _ _ _ _ Hf).
      * apply load_store_bytes in Hst. replace (Z.to_nat (iov_len (data_of r)))
          with (length (file_bytes (512 * r_pos r) (iov_len (data_of r)) (fb_data x))) by lia.
        by rewrite Hst.
      * intros i Hi Hs2. apply (ro_disj _ _ _ _ Hok i); unfold pdu_area, data_area, vbr_status, range in *; lia.
Qed.

End Serve.

(** ** Completion *)

Section Callbacks.
Context {D : Type}.
Implicit Types h : vstate D.

Lemma reported_flags m g q free fls lens rest f :
  reported m g q free fls lens rest -> reported m (with_flags_shadow f g) q free fls lens rest.
Proof. intros [Hinv Hq Hqok Hlens Hur He Hidx]. split; try done. destruct Hinv. by split. Qed.

Lemma disable_cb_ok h g : g_event g = true ->
  exists f, virtqueue_disable_cb (GState h g) = Ok (tt, GState h (with_flags_shadow f g)).
Proof.
  intros Hev. unfold virtqueue_disable_cb, bindM, get_vq, mod_vq. simpl. rewrite Hev.
  destruct (_ =? _); [by eexists|]. exists (g_avail_flags_shadow g). by destruct g.
Qed.

Lemma get_vq_ok h g : get_vq (GState h g) = Ok (g, GState h g).
Proof. done. Qed.

(** Nothing is left to take back. *)
Lemma get_buf_none h g q free rest :
  reported (v_mem h) g q free [] [] rest -> virtqueue_get_buf (GState h g) = Ok ((0, None), GState h g).
Proof.
  intros [Hinv Hq _ _ Hur _ Hidx]. rewrite (qf_used _ _ Hq) in Hidx. simpl in Hidx.
  rewrite Z.add_0_r, u16_id in Hidx by done.
  unfold virtqueue_get_buf, more_used. rewrite (bindM_ok _ _ _ _ _ (get_vq_ok h g)).
  rewrite (ri_broken _ _ _ _ Hinv), !bindM_assoc, (bindM_ok _ _ _ _ _ (get_vq_ok h g)).
  rewrite bindM_assoc, (bindM_ok _ _ _ _ _ (host_ld_ok _ _ _ h g Hidx)).
  unfold bindM, retM. by rewrite Z.eqb_refl.
Qed.

Lemma clear_ok h g : g_event g = true ->
  exists f, clear_no_interrupt (GState h g) = Ok (tt, GState h (with_flags_shadow f g)).
Proof.
  intros Hev. unfold clear_no_interrupt, bindM, get_vq, mod_vq. simpl. rewrite Hev.
  destruct (_ =? _); [exists (g_avail_flags_shadow g); by destruct g|by eexists].
Qed.

(** Callbacks are enabled again: nothing was missed. *)
Lemma enable_cb_ok h g q free rest :
  reported (v_mem h) g q free [] [] rest -> g_event g = true ->
  exists m' f, virtqueue_enable_cb (GState h g) =
      Ok (true, GState (with_mem m' h) (with_flags_shadow f g)) /\
    reported m' (with_flags_shadow f g) q free [] [] rest /\
    frame (reap_area (g_vring g)) (v_mem h) m'.
Proof.
  intros Hre Hev. destruct (clear_ok h g Hev) as [f E1]. set (g1 := with_flags_shadow f g) in *.
  pose proof (reported_flags _ _ _ _ _ _ _ f Hre) as Hre1. fold g1 in Hre1.
  pose proof (re_inv _ _ _ _ _ _ _ Hre1) as Hinv. pose proof (ri_vring _ _ _ _ Hinv) as Hvr.
  change (g_vring g1) with (g_vring g) in Hvr. pose proof (vring_ok_num _ _ Hvr) as Hnum.
  assert (forall i, range (vring_used_event (g_vring g)) 2 i -> g_avail_area (g_vring g) i) as Hev1.
  { intros i Hi. unfold g_avail_area, vring_used_event, avail_at, range in *. lia. }
  destruct (host_st_ok 2 (vring_used_event (g_vring g)) (g_last_used_idx g) h g1) as (m & Hs & E2).
  { eapply mapped_sub; [apply (vo_avail _ _ Hvr)|..]; unfold vring_used_event, avail_at; lia. }
  pose proof (store_frame _ _ _ _ _ Hs) as Hf.
  assert (frame (driver_area (g_vring g)) (v_mem h) m) as Hfd.
  { eapply frame_weaken; [|exact Hf]. intros i Hi. right. by apply Hev1. }
  destruct Hre1 as [_ Hq Hqok Hlens Hur He Hidx].
  assert (load 2 (q_used q + 2) m = Some (g_last_used_idx g)) as Hidx2.
  { rewrite (load_frame 2 _ _ _ _ Hfd).
    - rewrite Hidx. simpl. rewrite Z.add_0_r. f_equal. by apply u16_id.
    - intros i Hi Hd. eapply driver_off_used; [exact Hvr|exact Hq|exact Hd|].
      pose proof (queue_ok_num _ _ Hqok). unfold used_area, range in *. lia. }
  exists m, f. split; [|split; [|eapply frame_weaken; [|exact Hf]; by right]].
  - unfold virtqueue_enable_cb, virtqueue_enable_cb_prepare, virtqueue_poll.
    rewrite !bindM_assoc, (bindM_ok _ _ _ _ _ E1), bindM_assoc.
    rewrite (bindM_ok _ _ _ _ _ (get_vq_ok h g1)), bindM_assoc.
    change (g_vring g1) with (g_vring g). change (g_last_used_idx g1) with (g_last_used_idx g).
    rewrite (bindM_ok _ _ _ _ _ E2). unfold bindM at 1. cbn [retM].
    rewrite bindM_assoc, (bindM_ok _ _ _ _ _ (get_vq_ok (with_mem m h) g1)), bindM_assoc.
    change (g_vring g1) with (g_vring g) in *. rewrite <- (qf_used _ _ Hq).
    rewrite (bindM_ok _ _ _ _ _ (host_ld_ok 2 (q_used q + 2) _ (with_mem m h) g1 Hidx2)).
    unfold bindM, retM. by rewrite u16_id, Z.eqb_refl.
  - split; try done.
    + eapply ring_inv_frame; [exact Hinv|exact Hf|..]; intros i.
      * intros Hi%Hev1 Hd. by apply (vo_disj _ _ Hvr i) in Hd as [].
      * unfold vring_used_event, avail_at, range. simpl. lia.
    + by eapply queue_ok_frame.
    + rewrite Hidx2. simpl. rewrite Z.add_0_r. f_equal. symmetry. by apply u16_id.
Qed.

End Callbacks.

(** The buffer of [f] is that of request [p.1], and the device left the status
    [p.2] in it, away from the rings the driver writes. *)
Definition finished (rv : vring) (m : mem) (rqs : gmap Z mq_request) (f : flight)
  (p : Z * mq_request * Z) : Prop :=
  fl_token f = r_pdu p.1.2 /\ r_pdu p.1.2 <> 0 /\ rqs !! p.1.1 = Some p.1.2 /\
  r_cmd_type p.1.2 = REQ_TYPE_FS /\ load 8 (vbr_req (r_pdu p.1.2)) m = Some p.1.1 /\
  load 1 (vbr_status (r_pdu p.1.2)) m = Some p.2 /\
  (forall i, pdu_area (r_pdu p.1.2) i -> ~ driver_area rv i).

Lemma finished_frame rv m m' rqs f p :
  frame (driver_area rv) m m' -> finished rv m rqs f p -> finished rv m' rqs f p.
Proof.
  intros Hf (H1 & H2 & H3 & H4 & H5 & H6 & Hoff).
  assert (forall n a, r_pdu p.1.2 <= a -> a + Z.of_nat n <= r_pdu p.1.2 + 41 ->
    load n a m' = load n a m) as Hl.
  { intros n a Ha Hn. eapply load_frame; [exact Hf|]. intros i Hi. apply Hoff.
    unfold pdu_area, range in *. lia. }
  unfold finished, vbr_req, vbr_status in *. rewrite !Hl by lia. done.
Qed.

(** How the requests of a batch end. *)
Definition ends (l : list (Z * mq_request * Z)) : list (Z * Z) :=
  map (fun p => (p.1.1, virtblk_result p.2)) l.

Section Complete.
Context {D : Type} (ops : virtio_dev_ops D) (fuel : nat).
Implicit Types h : vstate D.

Lemma reap_frame m g q free fls lens rest m0 m' :
  reported m g q free fls lens rest -> frame (reap_area (g_vring g)) m0 m' ->
  frame (driver_area (g_vring g)) m0 m'.
Proof.
  intros Hre. apply frame_weaken. intros i.
  apply reap_driver with m, (re_inv _ _ _ _ _ _ _ Hre).
Qed.

Lemma request_done_ok rv h g rqs e st w f p :
  finished rv (v_mem h) rqs f p ->
  virtblk_request_done p.1.1 (BState (GState h g) rqs e st w) =
    Ok (tt, BState (GState h g) rqs (e ++ [(p.1.1, virtblk_result p.2)]) st w).
Proof.
  intros (_ & _ & Hr & Hty & _ & Hst & _). unfold virtblk_request_done.
  set (s := BState (GState h g) rqs e st w).
  rewrite (bindM_ok _ _ s p.1.2 s) by (unfold get_rq; simpl; by rewrite Hr).
  rewrite (bindM_ok _ _ _ _ _ (bld_ok 1 _ p.2 s Hst)), Hty. done.
Qed.

Lemma complete_all_ok n q h g free fls lens rest rqs l e st w rd :
  reported (v_mem h) g q free fls lens rest ->
  Forall2 (finished (g_vring g) (v_mem h) rqs) fls l -> (length fls < n)%nat ->
  exists m' g' free', complete_all n rd (BState (GState h g) rqs e st w) =
      Ok (rd || negb (length fls =? 0)%nat, BState (GState (with_mem m' h) g') rqs (e ++ ends l) st w) /\
    reported m' g' q free' [] [] rest /\ frame (reap_area (g_vring g)) (v_mem h) m' /\ same_vq g g' /\
    g_num_added g' = g_num_added g /\ g_avail_idx_shadow g' = g_avail_idx_shadow g.
Proof.
  revert n h g free lens l e rd. induction fls as [|f fls IH]; intros n h g free lens l e rd Hre Hfin Hn;
    destruct n as [|n]; [lia| |simpl in Hn; lia|]; cbn [complete_all].
  { inversion Hfin; subst. assert (lens = []) as -> by (destruct lens; [done|by destruct Hre]).
    exists (v_mem h), g, free. rewrite with_mem_id, app_nil_r. unfold bindM at 1.
    rewrite (ring_ok _ (BState (GState h g) rqs e st w) _ _ (get_buf_none h g q free rest Hre)).
    split_and!; try done. simpl. by rewrite orb_false_r. }
  inversion Hfin as [|? p ? l' Hf Hfs]; subst.
  destruct lens as [|len lens]; [by destruct Hre|].
  destruct (reap_one q h g free f fls len lens rest Hre) as (m1 & g1 & E1 & Hre1 & F1 & Hs1 & Hu1 & Ha1 & Hi1).
  pose proof Hs1 as [Hr1 _]. pose proof Hf as (Htok & Hnz & _).
  pose proof (reap_frame _ _ _ _ _ _ _ _ _ Hre F1) as D1.
  pose proof (finished_frame _ _ _ _ _ _ D1 Hf) as Hf1. pose proof Hf1 as (_ & _ & _ & _ & Hld & _).
  destruct (IH n (with_mem m1 h) g1 _ _ l' (e ++ [(p.1.1, virtblk_result p.2)]) true Hre1)
    as (m2 & g2 & fr & E2 & Hre2 & F2 & Hs2 & Ha2 & Hi2).
  { rewrite Hr1. eapply Forall2_impl; [|exact Hfs]. intros ? ?. by apply finished_frame. }
  { simpl in Hn. lia. }
  rewrite Hr1 in F2. exists m2, g2, fr. split_and!; try done.
  - unfold bindM at 1. rewrite (ring_ok _ (BState (GState h g) rqs e st w) _ _ E1). cbn beta iota.
    rewrite Htok, (proj2 (Z.eqb_neq _ _)) by done.
    set (s1 := set_ring _ _).
    rewrite (bindM_ok _ _ s1 _ _ (bld_ok 8 (vbr_req (r_pdu p.1.2)) p.1.1 s1 Hld)).
    change s1 with (BState (GState (with_mem m1 h) g1) rqs e st w).
    rewrite (bindM_ok _ _ _ _ _ (request_done_ok _ (with_mem m1 h) g1 rqs e st w f p Hf1)).
    rewrite E2. simpl. rewrite <- app_assoc. by destruct rd.
  - by eapply frame_trans.
  - by eapply same_vq_trans.
  - congruence.
  - congruence.
Qed.

(** The callback of the queue. *)
Lemma virtblk_done_ok n q h g free fls lens rest rqs l e st w :
  reported (v_mem h) g q free fls lens rest -> g_event g = true -> fls <> [] ->
  Forall2 (finished (g_vring g) (v_mem h) rqs) fls l -> (length fls < n)%nat ->
  exists m' g' free', virtblk_done n (BState (GState h g) rqs e st w) =
      Ok (tt, BState (GState (with_mem m' h) g') rqs (e ++ ends l) false w) /\
    reported m' g' q free' [] [] rest /\ frame (reap_area (g_vring g)) (v_mem h) m' /\ same_vq g g' /\
    g_num_added g' = g_num_added g /\ g_avail_idx_shadow g' = g_avail_idx_shadow g.
Proof.
  intros Hre Hev Hne Hfin Hn. destruct n as [|n]; [lia|].
  destruct (disable_cb_ok h g Hev) as [f1 E1]. set (g1 := with_flags_shadow f1 g) in *.
  destruct (complete_all_ok (S n) q h g1 free fls lens rest rqs l e st w false
    (reported_flags _ _ _ _ _ _ _ f1 Hre) Hfin Hn) as (m2 & g2 & fr & E2 & Hre2 & F2 & Hs2 & Ha2 & Hi2).
  change (g_vring g1) with (g_vring g) in *. pose proof Hs2 as (Hr2 & Hx2 & Hev2 & Hc2).
  change (g_vring g1) with (g_vring g) in Hr2. change (g_event g1) with (g_event g) in Hev2.
  destruct (enable_cb_ok (with_mem m2 h) g2 q fr rest Hre2) as (m3 & f3 & E3 & Hre3 & F3); [congruence|].
  exists m3, (with_flags_shadow f3 g2), fr. split_and!; try done.
  - unfold virtblk_done. cbn [done_loop]. rewrite bindM_assoc.
    rewrite (bindM_ok _ _ _ _ _ (ring_ok _ (BState (GState h g) rqs e st w) _ _ E1)).
    rewrite bindM_assoc. change (set_ring _ _) with (BState (GState h g1) rqs e st w).
    rewrite (bindM_ok _ _ _ _ _ E2), bindM_assoc. set (s2 := BState _ _ _ _ _).
    rewrite (bindM_ok _ _ _ _ _ (ring_ok _ s2 _ _ (get_vq_ok _ g2))).
    rewrite (ri_broken _ _ _ _ (re_inv _ _ _ _ _ _ _ Hre2)), bindM_assoc.
    rewrite (bindM_ok _ _ _ _ _ (ring_ok _ (set_ring _ s2) _ _ E3)). by destruct fls.
  - rewrite Hr2 in F3. by eapply frame_trans.
Qed.

End Complete.

(** ** The interrupt *)

Section Interrupt.
Context {D : Type} (ops : virtio_dev_ops D) (fuel : nat).
Implicit Types h : vstate D.

Definition acked h : vstate D := set_dev (with_int_status 0 (v_dev h)) h.

Lemma read_int_status h :
  readl VIRTIO_MMIO_INTERRUPT_STATUS h = Ok (u32 (d_int_status (v_dev h)), h).
Proof.
  unfold readl, raw_read, bindM.
  change (virtio_read VIRTIO_MMIO_INTERRUPT_STATUS (Z.of_nat 4) h)
    with (@Ok (Z * list Z * vstate D) (0, le_bytes 4 (d_int_status (v_dev h)), h)).
  unfold retM. cbn beta iota. by rewrite le_value_bytes.
Qed.

Lemma ack_int_status v h : 0 <= v < 4294967296 ->
  writel ops fuel v VIRTIO_MMIO_INTERRUPT_ACK h = Ok (tt, acked h).
Proof. intros Hv. unfold acked. by apply (writel_dev ops fuel VIRTIO_MMIO_INTERRUPT_ACK v). Qed.

Lemma host_ok {A} (c : M (vstate D) A) h g a h' :
  c h = Ok (a, h') -> host c (GState h g) = Ok (a, GState h' g).
Proof. intros E. unfold host. simpl. by rewrite E. Qed.

(** The device has something for the driver. *)
Lemma more_used_ok h g q free fls lens rest :
  reported (v_mem h) g q free fls lens rest -> fls <> [] ->
  vring_interrupt (GState h g) = Ok ((true, g_callback g), GState h g).
Proof.
  intros Hre Hne. pose proof (reported_count _ _ _ _ _ _ _ Hre) as Hc.
  destruct Hre as [Hinv Hq Hqok _ Hur _ Hidx]. rewrite (qf_used _ _ Hq) in Hidx.
  unfold vring_interrupt, more_used. rewrite !bindM_assoc, (bindM_ok _ _ _ _ _ (get_vq_ok h g)).
  rewrite bindM_assoc, (bindM_ok _ _ _ _ _ (host_ld_ok _ _ _ h g Hidx)).
  assert (g_last_used_idx g <> u16 (g_last_used_idx g + Z.of_nat (length fls))) as Hd.
  { pose proof (queue_ok_num _ _ Hqok). destruct fls; [done|]. simpl length in *. unfold u16. lia. }
  unfold bindM, retM. cbn beta iota. rewrite (proj2 (Z.eqb_neq _ _)) by done. simpl.
  by rewrite (ri_broken _ _ _ _ Hinv).
Qed.

Lemma vm_interrupt_ok n q h g free fls lens rest rqs l e st w :
  reported (v_mem h) g q free fls lens rest -> g_event g = true -> g_callback g = true -> fls <> [] ->
  Z.testbit (d_int_status (v_dev h)) 0 = true ->
  Forall2 (finished (g_vring g) (v_mem h) rqs) fls l -> (length fls < n)%nat ->
  exists m' g' free' w', vm_interrupt ops fuel n (BState (GState h g) rqs e st w) =
      Ok (IRQ_HANDLED, BState (GState (with_mem m' (acked h)) g') rqs (e ++ ends l) false w') /\
    reported m' g' q free' [] [] rest /\ frame (reap_area (g_vring g)) (v_mem h) m' /\ same_vq g g' /\
    g_num_added g' = g_num_added g /\ g_avail_idx_shadow g' = g_avail_idx_shadow g.
Proof.
  intros Hre Hev Hcb Hne Hst Hfin Hn. set (status := u32 (d_int_status (v_dev h))).
  assert (Z.land status VIRTIO_MMIO_INT_VRING =? 0 = false) as Hv.
  { apply Z.eqb_neq. intros H0. apply (f_equal (fun z => Z.testbit z 0)) in H0.
    rewrite Z.land_spec, Z.bits_0 in H0. unfold status, u32 in H0.
    change 4294967296 with (2 ^ 32) in H0. rewrite Z.mod_pow2_bits_low, Hst in H0 by lia. done. }
  set (w' := if Z.land status VIRTIO_MMIO_INT_CONFIG =? 0 then w else true).
  destruct (virtblk_done_ok n q (acked h) g free fls lens rest rqs l e st w' Hre Hev Hne Hfin Hn)
    as (m' & g' & fr & E & Hre' & F & Hs & Ha & Hi).
  exists m', g', fr, w'. split_and!; try done. unfold vm_interrupt.
  set (s := BState (GState h g) rqs e st w).
  rewrite (bindM_ok _ _ _ _ _ (ring_ok _ s _ _ (host_ok _ h g _ _ (read_int_status h)))).
  fold status. set (s0 := set_ring _ s).
  rewrite (bindM_ok _ _ _ _ _ (ring_ok _ s0 _ _ (host_ok _ h g _ _
    (ack_int_status status h (u32_range _))))).
  set (s1 := set_ring _ s0). set (s2 := BState (GState (acked h) g) rqs e st w') in E.
  rewrite (bindM_ok _ _ s1 (if Z.land status VIRTIO_MMIO_INT_CONFIG =? 0 then IRQ_NONE else IRQ_HANDLED) s2)
    by (unfold s2, w'; by destruct (Z.land status VIRTIO_MMIO_INT_CONFIG =? 0)).
  rewrite Hv.
  rewrite (bindM_ok _ _ _ _ _ (ring_ok _ s2 _ _ (more_used_ok (acked h) g q free fls lens rest Hre Hne))), Hcb.
  change (set_ring _ s2) with s2. rewrite (bindM_ok _ _ _ _ _ E).
  by destruct (Z.land status VIRTIO_MMIO_INT_CONFIG =? 0).
Qed.

End Interrupt.

(** ** The whole path *)

Lemma separate_elem l p p' : separate l -> p ∈ l -> p' ∈ l ->
  p = p' \/ forall i, req_area p.2 i -> ~ req_area p'.2 i.
Proof.
  induction l as [|[rq r] l IH]; intros Hs Hp Hp'; [set_solver|]. destruct Hs as [Hr Hs].
  rewrite list.Forall_forall in Hr.
  apply elem_of_cons in Hp as [->|Hp], Hp' as [->|Hp']; [by left| | |by apply IH]; right.
  - by apply Hr.
  - intros i Hi Hi'. by apply (Hr p Hp i).
Qed.

(** Data is no struct virtblk_req, and neither overlaps the rings. *)
Lemma data_off_pdus m q l p i :
  all_ok m q l -> separate l -> p ∈ l -> data_area p.2 i -> ~ pdus_area l i.
Proof.
  intros Hok Hs Hp Hi (p' & Hp' & Hi'). unfold all_ok in Hok. rewrite list.Forall_forall in Hok.
  destruct (separate_elem _ _ _ Hs Hp Hp') as [<-|Hd].
  - by apply (ro_disj _ _ _ _ (Hok p Hp) i).
  - apply (Hd i); [by right|by left].
Qed.

Lemma header_off_answers m q l p i :
  all_ok m q l -> separate l -> p ∈ l -> range (r_pdu p.2) 24 i -> ~ answers_area l i.
Proof.
  intros Hok Hs Hp Hi (p' & Hp' & Ha). unfold all_ok in Hok. rewrite list.Forall_forall in Hok.
  destruct (separate_elem _ _ _ Hs Hp Hp') as [<-|Hd].
  - destruct Ha as [Ha|[_ Ha]]; [unfold vbr_status, range in *; lia|].
    apply (ro_disj _ _ _ _ (Hok p Hp) i); [|done]. unfold pdu_area, range in *. lia.
  - apply (Hd i); [by apply header_area|by apply answer_in_req].
Qed.

Lemma subs_off_rings m q l qidx a :
  all_ok m q l -> Forall (off_rings q) (reqs_of qidx a (subs_of l)).
Proof.
  intros Hok. revert a. induction Hok as [|p l Hr Hok IH]; intros a; constructor; [|apply IH].
  intros i (b & Hb & Hi). apply (ro_off _ _ _ _ Hr). cbn [rq_buf] in Hb. rewrite sub_of_bufs in Hb.
  unfold req_area, pdu_area, data_area.
  rewrite !elem_of_cons, elem_of_nil in Hb. destruct Hb as [->|[->|[->|[]]]];
    unfold out_hdr, vbr_status, SIZEOF_OUTHDR, range in *; simpl in *; try (left; lia). by right.
Qed.

(** ** Properties *)

(** C39: Sectors are cut to 32 bits.  A write to any sector number is accepted and
    completed with the status of a success, and lands at the number modulo 2^32:
    what is written past 2 TiB replaces other data of the disk. *)
Theorem write_sector_wraps {D} (disk : lkl_dev_blk_ops D) `{!BlkBackend disk, !FileBackend disk}
    q s req sec b t bs :
  blk_req_at (v_mem s) req LKL_DEV_BLK_TYPE_WRITE sec [b] t -> fb_ready (v_ext s) ->
  load_bytes (Z.to_nat (iov_len b)) (iov_base b) (v_mem s) = Some bs ->
  exists m' x',
    blk_enqueue disk q req s = (virtio_req_complete req 0 ;;; retM 0) (VState m' (v_dev s) (v_irqs s) x') /\
    load 1 t m' = Some LKL_DEV_BLK_STATUS_OK /\
    fb_data x' = file_write (512 * (sec mod 4294967296)) bs (fb_data (v_ext s)).
Proof.
  intros Hreq Hx Hbs. destruct (blk_serve_ok disk _ req _ _ _ _ (v_ext s) Hreq) as [prio Hs].
  destruct (ba_data _ _ _ _ _ _ Hreq) as [_ Hb].
  destruct (fb_write prio (u32 sec) b (v_mem s) (v_ext s) bs Hx (u32_range sec) Hb Hbs) as (x' & E & _ & Hd).
  destruct (Hs _ _ _ E) as (m' & E' & _ & Hl). exists m', x'. split; [|done].
  by apply blk_enqueue_serve.
Qed.

(** What a read whose promise is rejected with [e] leaves in the status byte. *)
Definition rejected_status (e : jsval) : Z := u8 (request_done [if truthy e then e else JObject]).

Lemma rejected_status_error e : (forall z, e <> JNumber z) -> rejected_status e = LKL_DEV_BLK_STATUS_OK.
Proof. intros He. destruct e as [| |z|]; try done. by destruct (He z). Qed.

(** C40: Errors of a disk object are lost.  When the promise of [disk.read] is
    rejected, whatever it wrote into the Buffer before, the request is completed
    with the low byte of the reason converted to a number as its status: that is
    the status of a success for every reason that is not a number, an Error in
    particular, and the driver then ends the request without an error, so the
    kernel takes for the sector what the Buffer holds. *)
Theorem js_read_error_lost {D} (disk : js_disk D) q s req sec b t old x' bs e :
  blk_req_at (v_mem s) req LKL_DEV_BLK_TYPE_READ sec [b] t ->
  load_bytes (Z.to_nat (iov_len b)) (iov_base b) (v_mem s) = Some old ->
  jd_read disk old (512 * u32 sec) (v_ext s) = (x', bs, Rejected e) ->
  exists m',
    blk_enqueue (lkl_js_disk_ops disk) q req s =
      (virtio_req_complete req 0 ;;; retM 0) (VState m' (v_dev s) (v_irqs s) x') /\
    load 1 t m' = Some (rejected_status e) /\
    load_bytes (Z.to_nat (iov_len b)) (iov_base b) m' = Some (map u8 (buf_put old bs)) /\
    ((forall z, e <> JNumber z) -> virtblk_result (rejected_status e) = 0).
Proof.
  intros Hreq Hold Hrej.
  destruct (blk_serve_ok (lkl_js_disk_ops disk) _ req _ _ _ _ (v_ext s) Hreq) as [prio Hs].
  destruct (ba_data _ _ _ _ _ _ Hreq) as [_ Hb]. inversion Hb as [|?? Hb1 _]; subst.
  destruct (blk_req_data_ok _ _ _ _ _ _ Hreq) as [_ Hm]. inversion Hm as [|?? Hm1 _]; subst.
  pose proof (load_bytes_length _ _ _ _ Hold) as Hlen.
  destruct (store_bytes_some (iov_base b) (buf_put old bs) (v_mem s)) as [m1 Hm2].
  { rewrite length_buf_put, Hlen. by rewrite Z2Nat.id by lia. }
  destruct (Hs m1 x' (request_done [if truthy e then e else JObject])) as (m' & E & Hf & Hl).
  { cbn [request lkl_js_disk_ops]. unfold js_request_entry, js_request, DiskWrapper_request.
    cbn [br_type br_sector br_buf LKL_DEV_BLK_TYPE_READ Z.eqb].
    pose proof (u32_range sec). rewrite u64_id by lia. rewrite (Z.mul_comm (u32 sec)).
    rewrite Hold. cbn [mbind option_bind]. by rewrite Hrej, Hm2. }
  exists m'. split; [by apply blk_enqueue_serve|]. split; [done|]. split.
  - rewrite (load_bytes_frame _ _ _ _ _ Hf).
    + replace (Z.to_nat (iov_len b)) with (length (buf_put old bs)) by (by rewrite length_buf_put).
      apply (load_store_bytes _ _ _ _ Hm2).
    + intros i Hi. eapply blk_req_data_off; [exact Hreq|]. exists b. split; [set_solver|].
      unfold range in *. lia.
  - intros He. by rewrite rejected_status_error.
Qed.

(** ** A batch on a disk of the addon

    A write of four bytes to sector 1 and a read of the same sector, on a queue
    of 8 entries. *)
Module BlkDemo.

Definition m0 : mem :=
  put_bytes 4096 (replicate 326 0)
  (put_bytes 8192 (replicate 48 0) (put_bytes 8448 [10; 20; 30; 40]
  (put_bytes 8704 (replicate 48 0) (put_bytes 8960 [0; 0; 0; 0] ∅)))).

Definition h0 : vstate (list Z) :=
  VState m0 (VirtioDev 2 0 0x120000000 0 0x120000000 0 0 [GuestDemo.q0] 0 0 0 1 [] 0 0x80 0) []
    (replicate 600 7).

Definition start : vstate (list Z) * vring_virtqueue :=
  match vring_new_virtqueue 0 (vring_init 8 4096 (2 ^ 8)) GuestDemo.features true true h0 with
  | Ok (Some g, h) => (h, g)
  | _ => (h0, GuestDemo.g1)
  end.

Definition h1 : vstate (list Z) := start.1.
Definition g1 : vring_virtqueue := start.2.

Lemma blk_idle1 : idle h1 g1 GuestDemo.q0 (seqZ 0 8).
Proof.
  destruct (new_queue_ok 0 8 4096 8 3 GuestDemo.features true h0) as (m' & g & E & _ & Hr & Hi & _ & Hid);
    [lia|lia|reflexivity|reflexivity|apply GuestDemo.zeroed_b_ok; vm_compute; reflexivity
    |reflexivity|reflexivity|].
  unfold h1, g1, start. rewrite E. cbn [fst snd].
  specialize (Hid GuestDemo.q0). rewrite Hr, Hi in Hid.
  apply Hid; [split; reflexivity|reflexivity|lia|simpl; lia|done|done].
Qed.

Definition rw : mq_request :=
  MqRequest 8192 false REQ_TYPE_FS 1 0 true 1 [Iovec 8448 4] (Iovec 0 0) 0 0 0 0.
Definition rr : mq_request :=
  MqRequest 8704 false REQ_TYPE_FS 1 0 false 1 [Iovec 8960 4] (Iovec 0 0) 0 0 0 0.

Definition l : list (Z * mq_request) := [(0x1000, rw); (0x2000, rr)].
Definition rqs : gmap Z mq_request := {[ 0x1000 := rw; 0x2000 := rr ]}.

Lemma rq_ok_demo rq r : (rq, r) ∈ l -> rq_ok (v_mem h1) GuestDemo.q0 rq r.
Proof.
  intros Hin. unfold l in Hin. rewrite !elem_of_cons, elem_of_nil in Hin.
  destruct Hin as [[= -> ->]|[[= -> ->]|[]]]; (split; [done|done|done|done|lia|simpl; lia|simpl; lia| | | |]).
  1, 5: split; [unfold buf_ok; simpl; lia|apply Forall_cons; [|apply Forall_nil]; simpl; lia].
  1, 4: split; apply mapped_b_ok; vm_compute; reflexivity.
  all: intros i; unfold req_area, pdu_area, data_area, rings_area, desc_area, avail_area, used_area, range;
    simpl; lia.
Qed.

(** A disk whose reads fail after two bytes, and a read of four bytes. *)
Definition failing : js_disk unit :=
  JsDisk _ (fun _ _ x => (x, [7; 8], Rejected JObject)) (fun _ _ x => (x, Rejected JObject))
    (fun x => (x, Rejected JObject)) (fun x => (x, Rejected JObject)).

Definition rreq : virtio_req := VirtioReq [Iovec 7424 16; Iovec 7456 4; Iovec 7472 1] 21 0 1.

(** A device over a memory and a disk. *)
Definition with_disk {D} (m : mem) (x : D) : vstate D :=
  VState m (VirtioDev 2 0 0x120000000 0 0x120000000 0 0 [GuestDemo.q0] 0 0 0 1 [] 0 0x80 0) [] x.

End BlkDemo.

Lemma write_sector_wraps_witness :
  exists m' f',
    blk_enqueue posix_blk_ops 0 Demo.rw (BlkDemo.with_disk (put_bytes 7176 (le_bytes 8 4294967297) Demo.m0) Demo.f0) =
      (virtio_req_complete Demo.rw 0 ;;; retM 0) (BlkDemo.with_disk m' f') /\
    f_data f' = file_write 512 [10; 20; 30; 40] (replicate 600 7).
Proof.
  destruct (write_sector_wraps posix_blk_ops 0
    (BlkDemo.with_disk (put_bytes 7176 (le_bytes 8 4294967297) Demo.m0) Demo.f0) Demo.rw
    4294967297 (Iovec 7200 4) 7216 [10; 20; 30; 40]) as (m' & f' & E & _ & Hd).
  - split; [exists 7168; split_and!; vm_compute; eauto|split; [done|by repeat constructor]|Demo.disj|].
    repeat constructor; apply mapped_b_ok; vm_compute; reflexivity.
  - by repeat constructor.
  - vm_compute. reflexivity.
  - exists m', f'. split; [exact E|exact Hd].
Defined.

Lemma js_read_error_lost_witness :
  exists m',
    blk_enqueue (lkl_js_disk_ops BlkDemo.failing) 0 BlkDemo.rreq (BlkDemo.with_disk Demo.m0 tt) =
      (virtio_req_complete BlkDemo.rreq 0 ;;; retM 0) (BlkDemo.with_disk m' tt) /\
    load 1 7472 m' = Some 0 /\ virtblk_result 0 = 0 /\
    load_bytes 4 7456 m' = Some [7; 8; 0; 0].
Proof.
  destruct (js_read_error_lost BlkDemo.failing 0 (BlkDemo.with_disk Demo.m0 tt) BlkDemo.rreq 1
    (Iovec 7456 4) 7472 [0; 0; 0; 0] tt [7; 8] JObject) as (m' & E & H1 & H2 & H3).
  - split; [exists 7424; split_and!; vm_compute; eauto|split; [done|by repeat constructor]|Demo.disj|].
    repeat constructor; apply mapped_b_ok; vm_compute; reflexivity.
  - vm_compute. reflexivity.
  - done.
  - exists m'. split_and!; [exact E|exact H1|by apply H3|]. etransitivity; [exact H2|].
    vm_compute. reflexivity.
Defined.
