(* ===== verification/BlkBatch.v ===== *)
(** * BlkBatch

    The whole path of a batch of block requests.  The driver's notification
    runs the device on the driver's thread; each completion may run the
    driver's interrupt handler before the device continues, or leave the
    interrupt pending, and in both cases the batch does to the disk and to the
    data buffers what reading and writing a file in order does. *)

From S2P Require Import Prelude Memory Irq Virtio VirtioRing VirtioQueue VirtioBlk PosixHost JsDisk VirtioMmio GuestRing GuestInv GuestDriver BlkGuest BlkDriver.

(** ** The disk next to the kernel's state *)

Section Lift.
Context {D : Type} (disk : lkl_dev_blk_ops D) `{!BlkBackend disk}.

#[export] Instance lift_backend : BlkBackend (lift_disk disk).
Proof.
  split.
  - intros r m [x b] m' x' st Hb. simpl.
    destruct (request disk r m x) as [[[m1 x1] st1]|] eqn:E; [|done].
    intros [= <- _ _]. by eapply request_frame.
  - intros P r m1 m2 [x b] m1' x' st Hb. simpl.
    destruct (request disk r m1 x) as [[[n1 x1] st1]|] eqn:E; [|done].
    intros [= <- <- <-] Hag HP.
    destruct (request_local P r m1 m2 x n1 x1 st1 Hb E Hag HP) as (m2' & -> & H). eauto.
Qed.

Lemma lift_serve req m x b m' x' len :
  blk_serve disk req m x = Some (m', x', len) ->
  blk_serve (lift_disk disk) req m (x, b) = Some (m', (x', b), len).
Proof.
  unfold blk_serve. destruct (_ <? _)%nat; [by intros [= <- <- <-]|].
  intros H. apply bind_Some in H as (b0 & -> & H). apply bind_Some in H as (bt & -> & H).
  apply bind_Some in H as (m1 & Hm1 & H). cbn [mbind option_bind]. rewrite Hm1. cbn [mbind option_bind].
  destruct (_ || _); [by injection H as <- <- <-|].
  apply bind_Some in H as (ty & -> & H). apply bind_Some in H as (pr & -> & H).
  apply bind_Some in H as (se & -> & H). cbn [mbind option_bind].
  apply bind_Some in H as ([[m2 x2] stt] & Hrq & H). simpl. rewrite Hrq. simpl.
  apply bind_Some in H as (m3 & -> & H). by injection H as <- <- <-.
Qed.

End Lift.

(** ** One round of the device *)

Section Round.
Context {D : Type} {T : Trigger D} (ops : virtio_dev_ops D) {SV : Serves ops}.
Implicit Types s : vstate D.

(** The queue of layout [q] at available index [a]. *)
Definition cursor (q : virtio_queue) (a sg : Z) : virtio_queue :=
  with_last_avail_idx a (with_last_used_idx_signaled sg q).

(** What follows a request in the loop of virtio_process_queue. *)
Definition round_tail (fuel : nat) (qidx : Z) : M (vstate D) unit :=
  let* q := get_queue qidx in
  let* aidx := get_avail_idx q in
  (if q_last_avail_idx q =? aidx then virtio_set_avail_event q aidx else retM tt) ;;;
  process_loop ops fuel qidx.

Lemma round_run fuel qidx q u aidx head bufs m1 x1 len s :
  at_queue qidx q u aidx s ->
  let a := q_last_avail_idx q in
  let req := VirtioReq bufs (u32 (sum_len bufs)) qidx a in
  a <> aidx ->
  load 2 (avail_ring_at q (slot q a)) (v_mem s) = Some head ->
  read_chain (Z.to_nat VIRTIO_REQ_MAX_BUFS) (v_mem s) q head = Some bufs ->
  off_rings q req ->
  serve req (v_mem s) (v_ext s) = Some (m1, x1, len) ->
  exists m2 (due : bool),
    process_loop ops (S fuel) qidx s =
      ((if due then trigger_irq (d_irq (v_dev s)) else retM tt) ;;; round_tail fuel qidx)
        (VState m2 (completed_dev qidx (u16 (a + 1)) (u16 (u + 1)) due (v_dev s)) (v_irqs s) x1) /\
    (u16 (a + 1) = aidx -> due = true) /\
    frame (fun i => entries_area q u 1 i \/ range (q_used q + 2) 2 i) m1 m2 /\
    load 2 (q_used q + 2) m2 = Some (u16 (u + 1)) /\
    load 4 (used_ring_at q (slot q u)) m2 = Some head /\
    load 4 (used_ring_at q (slot q u) + 4) m2 = Some len.
Proof.
  intros [Hqa Hq Hmm Hu Haidx] a req Hne Hh Hc Hoff Hs.
  destruct (process_one_run ops qidx q u aidx head bufs m1 x1 len s) as (m2 & due & E & H); try done.
  exists m2, due. split; [|done].
  cbn [process_loop]. rewrite (bindM_ok _ _ _ _ _ (get_queue_ok _ _ _ Hqa)).
  unfold get_avail_idx. rewrite (bindM_ok _ _ _ _ _ (ld_ok _ _ _ _ Haidx)).
  fold a. rewrite (proj2 (Z.eqb_neq _ _) Hne). unfold bindM at 1. rewrite E.
  set (c := if due then _ else _). set (s2 := VState m2 _ _ _). fold a.
  change (completed_dev _ _ _ _ _) with (v_dev s2). unfold bindM. fold a in s2.
  by destruct (c s2) as [[[] s3]|].
Qed.

Lemma round_tail_ok fuel qidx q aidx s :
  queue_at qidx (v_dev s) = Some q -> queue_ok (v_mem s) q ->
  load 2 (q_avail q + 2) (v_mem s) = Some aidx ->
  exists m, round_tail fuel qidx s = process_loop ops fuel qidx (VState m (v_dev s) (v_irqs s) (v_ext s)) /\
    frame (range (used_ring_at q (q_num q)) 2) (v_mem s) m /\
    (q_last_avail_idx q = aidx -> load 2 (used_ring_at q (q_num q)) m = Some aidx).
Proof.
  intros Hqa Hq Ha. destruct (avail_event_ok q (q_last_avail_idx q) aidx s Hq Ha) as (m & E & H).
  exists m. split; [|done]. unfold round_tail, get_avail_idx.
  rewrite (bindM_ok _ _ _ _ _ (get_queue_ok _ _ _ Hqa)), (bindM_ok _ _ _ _ _ (ld_ok _ _ _ _ Ha)).
  by rewrite (bindM_ok _ _ _ _ _ E).
Qed.

End Round.

Lemma used_idx_used m q i : queue_ok m q -> range (q_used q + 2) 2 i -> used_area q i.
Proof. intros Hq%queue_ok_num. unfold used_area, range. lia. Qed.

(** One more chain is in the used ring. *)
Lemma reported_more P m m2 g q free fw lens f hd len ft :
  reported m g q free fw lens (f :: ft) -> hd_error (fl_idx f) = Some hd ->
  let u := u16 (g_last_used_idx g + Z.of_nat (length fw)) in
  frame P m m2 ->
  (forall i, P i -> rings_area q i -> entries_area q u 1 i \/ range (q_used q + 2) 2 i) ->
  load 2 (q_used q + 2) m2 = Some (u16 (u + 1)) ->
  load 4 (used_ring_at q (slot q u)) m2 = Some hd ->
  load 4 (used_ring_at q (slot q u) + 4) m2 = Some len ->
  reported m2 g q free (fw ++ [f]) (lens ++ [len]) ft.
Proof.
  intros Hre Hhd u Hf HP Hidx Hid Hlen. pose proof (reported_count _ _ _ _ _ _ _ Hre) as Hcount.
  simpl in Hcount. destruct Hre as [Hinv Hq Hqok Hlens Hur He _].
  assert (forall i, P i -> desc_area q i \/ avail_area q i -> False) as Hoff.
  { intros i Hi Hda. destruct (HP i Hi) as [Hx|Hx]; [unfold rings_area; tauto|..];
      [apply (entries_used_area _ _ _ _ _ Hqok) in Hx|apply (used_idx_used _ _ _ Hqok) in Hx];
      (destruct Hda; [by eapply qo_disj_desc|by eapply qo_disj_avail]). }
  split; try done.
  - rewrite <- app_assoc. eapply ring_inv_frame; [exact Hinv|exact Hf|..].
    + intros i Hi Hd. apply (Hoff i Hi). left. by apply (desc_area_of _ _ Hq).
    + intros i Hi Hp. apply (Hoff i Hp). right. apply (avail_area_of _ _ Hq).
      eapply avail_idx_area; [apply Hinv|exact Hi].
  - by eapply queue_ok_frame.
  - rewrite !length_app. simpl. lia.
  - intros j f' hd' len' Hj Hhd' Hl'. cbv zeta. apply lookup_app_Some in Hj as [Hj|[Hge Hj]].
    + pose proof (lookup_lt_Some _ _ _ Hj) as Hlt. rewrite lookup_app_l in Hl' by lia.
      destruct (He j f' hd' len' Hj Hhd' Hl') as [H1 H2]. rewrite <- H1, <- H2.
      pose proof (slot_range _ q (g_last_used_idx g + Z.of_nat j) Hqok) as Hsr.
      assert (forall i, range (used_ring_at q (slot q (g_last_used_idx g + Z.of_nat j))) 8 i -> ~ P i) as Hn.
      { intros i Hi Hp. destruct (HP i Hp) as [(k & Hk & Hx)|Hx].
        - right. right. by eapply used_cell_area.
        - assert (k = 0) as -> by lia. rewrite Z.add_0_r in Hx.
          unfold u in Hx. rewrite (slot_u16 _ _ _ Hqok) in Hx.
          assert (slot q (g_last_used_idx g + Z.of_nat j) =
                  slot q (g_last_used_idx g + Z.of_nat (length fw))) as Heq
            by (unfold used_ring_at, range in *; lia).
          apply (slot_inj _ _ _ _ _ Hqok) in Heq; lia.
        - unfold used_ring_at, range in *. lia. }
      split; (eapply load_frame; [exact Hf|]; intros i Hi; apply Hn; unfold range in *; lia).
    + apply list_lookup_singleton_Some in Hj as [Hj <-]. rewrite Hhd in Hhd'. injection Hhd' as <-.
      assert (j = length fw) as -> by lia. rewrite <- (slot_u16 _ _ _ Hqok). fold u.
      rewrite lookup_app_r, Hlens, Nat.sub_diag in Hl' by lia. by injection Hl' as <-.
  - rewrite Hidx. unfold u, u16. rewrite Zplus_mod_idemp_l, length_app. simpl. do 2 f_equal. lia.
Qed.

(** The available event is no part of the report. *)
Lemma reported_event m m' g q free fls lens rest :
  reported m g q free fls lens rest -> frame (range (used_ring_at q (q_num q)) 2) m m' ->
  reported m' g q free fls lens rest.
Proof.
  intros [Hinv Hq Hqok Hlens Hur He Hidx] Hf. pose proof (queue_ok_num _ _ Hqok).
  assert (forall i, range (used_ring_at q (q_num q)) 2 i -> used_area q i) as Hu.
  { intros i Hi. apply event_cell_used; [lia|done]. }
  split; try done.
  - eapply ring_inv_frame; [exact Hinv|exact Hf|..].
    + intros i Hi%Hu Hd. apply (qo_disj_desc _ _ Hqok i Hi). by apply (desc_area_of _ _ Hq).
    + intros i Hi Hp%Hu. apply (qo_disj_avail _ _ Hqok i Hp). apply (avail_area_of _ _ Hq).
      eapply avail_idx_area; [apply Hinv|exact Hi].
  - by eapply queue_ok_frame.
  - intros j f hd len Hj Hhd Hl. destruct (He j f hd len Hj Hhd Hl) as [H1 H2]. cbv zeta. rewrite <- H1, <- H2.
    pose proof (slot_range _ q (g_last_used_idx g + Z.of_nat j) Hqok).
    split; (eapply load_frame; [exact Hf|]; unfold used_ring_at, range; simpl; lia).
  - rewrite <- Hidx. eapply load_frame; [exact Hf|]. unfold used_ring_at, range. simpl. lia.
Qed.

(** ** What the disk and the buffers hold *)

Lemma separate_app l1 l2 p p' i :
  separate (l1 ++ l2) -> p ∈ l1 -> p' ∈ l2 -> req_area p.2 i -> ~ req_area p'.2 i.
Proof.
  induction l1 as [|[rq r] l1 IH]; intros Hs Hp Hp'; [set_solver|]. destruct Hs as [Hr Hs].
  apply elem_of_cons in Hp as [->|Hp]; [|by apply IH].
  rewrite list.Forall_forall in Hr. apply (Hr p'). set_solver.
Qed.

Lemma disk_after_app m l1 l2 data :
  disk_after m (l1 ++ l2) data = disk_after m l2 (disk_after m l1 data).
Proof. revert data. induction l1 as [|[rq r] l1 IH]; intros data; [done|apply IH]. Qed.

Lemma disk_after_le m q l data : all_ok m q l ->
  Z.of_nat (length data) <= Z.of_nat (length (disk_after m l data)).
Proof.
  intros Hok. revert data. induction Hok as [|[rq r] l Hr _ IH]; intros data; [done|]. cbn [disk_after].
  pose proof (ro_pos _ _ _ _ Hr). etransitivity; [|apply IH].
  destruct (r_write r); [|done]. apply length_file_write_le. simpl in *. lia.
Qed.

(** Every read of [l] got the bytes the disk held at its turn. *)
Definition reads_done (m m' : mem) (l : list (Z * mq_request)) (data : list Z) : Prop :=
  forall k p, l !! k = Some p -> r_write p.2 = false -> data_bytes m' p.2 =
    map u8 (file_bytes (512 * r_pos p.2) (iov_len (data_of p.2)) (disk_after m (take k l) data)).

(** Where a batch writes. *)
Definition batch_area (q : virtio_queue) (l : list (Z * mq_request)) (i : Z) : Prop :=
  pdus_area l i \/ answers_area l i \/ rings_area q i.

Section Stored.
Context {D : Type} (disk : lkl_dev_blk_ops D) `{!BlkBackend disk, !FileBackend disk}.
Context (q : virtio_queue) (m0 : mem) (data0 : list Z) (l : list (Z * mq_request)).
Context (Hok : all_ok m0 q l) (Hsep : separate l) (Hpost : posted m0 l)
  (Hin : in_disk (Z.of_nat (length data0)) l).

(** The device has served [sv], the first requests of [l]. *)
Record stored (sv : list (Z * mq_request)) (m : mem) (x : D) : Prop := {
  sd_frame : frame (fun i => answers_area sv i \/ rings_area q i) m0 m;
  sd_status : Forall (fun p => load 1 (vbr_status (r_pdu p.2)) m = Some LKL_DEV_BLK_STATUS_OK) sv;
  sd_ready : fb_ready x;
  sd_data : fb_data x = disk_after m0 sv data0;
  sd_reads : reads_done m0 m sv data0;
}.

Lemma batch_rq_ok p : p ∈ l -> rq_ok m0 q p.1 p.2.
Proof. unfold all_ok in Hok. rewrite list.Forall_forall in Hok. apply Hok. Qed.

(** Writes that spare the requests served so far change nothing. *)
Lemma stored_kept (P : Z -> Prop) sv m m' x :
  stored sv m x -> (forall p, p ∈ sv -> p ∈ l) -> frame P m m' ->
  (forall p i, p ∈ sv -> req_area p.2 i -> ~ P i) ->
  Forall (fun p => load 1 (vbr_status (r_pdu p.2)) m' = Some LKL_DEV_BLK_STATUS_OK) sv /\
  reads_done m0 m' sv data0.
Proof.
  intros [Hf Hst _ _ Hrd] Hsub HP Hoff. split.
  - rewrite list.Forall_forall in Hst |- *. intros p Hp. rewrite <- (Hst p Hp).
    eapply load_frame; [exact HP|]. intros i Hi. apply (Hoff p i Hp). left.
    unfold pdu_area, vbr_status, range in *. lia.
  - intros k p Hk Hw. rewrite <- (Hrd k p Hk Hw).
    assert (p ∈ sv) as Hp by (by eapply list_elem_of_lookup_2).
    eapply data_bytes_frame; [eapply rq_ok_frame; [exact Hf|by apply batch_rq_ok, Hsub]|exact HP|].
    intros i Hi. apply (Hoff p i Hp). by right.
Qed.

Lemma stored_rings sv m m' x :
  stored sv m x -> (forall p, p ∈ sv -> p ∈ l) -> frame (rings_area q) m m' -> stored sv m' x.
Proof.
  intros Hsd Hsub Hf. destruct (stored_kept (rings_area q) sv m m' x Hsd Hsub Hf) as [H1 H2].
  { intros p i Hp Hi. by apply (ro_off _ _ _ _ (batch_rq_ok p (Hsub p Hp))). }
  destruct Hsd as [Hf0 _ Hr Hd _]. split; try done.
  eapply frame_trans; [exact Hf0|]. eapply frame_weaken; [|exact Hf]. by right.
Qed.

(** The next request. *)
Lemma stored_serve sv p todo m x len qidx a :
  l = sv ++ p :: todo -> stored sv m x ->
  exists m1 x1, blk_serve disk (VirtioReq (sub_bufs (sub_of p.2)) len qidx a) m x = Some (m1, x1, 0) /\
    frame (answer_area p.2) m m1 /\ stored (sv ++ [p]) m1 x1.
Proof.
  intros Hl Hsd. pose proof Hsd as [Hf Hst Hr Hd Hrd].
  assert (p ∈ l) as Hp by set_solver. assert (forall p', p' ∈ sv -> p' ∈ l) as Hsub by set_solver.
  pose proof (batch_rq_ok p Hp) as Hrq.
  assert (forall p' i, p' ∈ sv -> req_area p'.2 i -> ~ req_area p.2 i) as Hoff.
  { intros p' i Hp'. apply (separate_app sv (p :: todo)); [by rewrite <- Hl|done|set_solver]. }
  assert (forall i, req_area p.2 i -> ~ (answers_area sv i \/ rings_area q i)) as Hpoff.
  { intros i Hi [(p' & Hp' & Ha%answer_in_req)|Hx]; [by apply (Hoff p' i)|]. by apply (ro_off _ _ _ _ Hrq i). }
  destruct (serve_posted disk m q p.1 p.2 len qidx a x) as (m1 & x1 & E & Hr1 & F1 & Hs1 & Hd1 & Hrd1).
  { by eapply rq_ok_frame. }
  { eapply header_at_frame; [exact Hf|intros i Hi%header_area; by apply Hpoff|].
    unfold posted in Hpost. rewrite list.Forall_forall in Hpost. by apply Hpost. }
  { done. }
  { unfold in_disk in Hin. rewrite list.Forall_forall in Hin. etransitivity; [by apply Hin|].
    rewrite Hd. eapply disk_after_le. apply list.Forall_forall. intros p' Hp'. by apply batch_rq_ok, Hsub. }
  destruct (stored_kept (answer_area p.2) sv m m1 x Hsd Hsub F1) as [H1 H2].
  { intros p' i Hp' Hi Ha%answer_in_req. by apply (Hoff p' i). }
  exists m1, x1. split; [exact E|]. split; [exact F1|]. split.
  - eapply frame_trans; eapply frame_weaken; [|exact Hf| |exact F1]; intros i.
    + intros [(p' & Hp' & Hi)|Hi]; [left; exists p'; split; [set_solver|done]|by right].
    + intros Hi. left. exists p. split; [set_solver|done].
  - apply Forall_app_2; [exact H1|by repeat constructor].
  - done.
  - rewrite disk_after_app, Hd1, Hd. destruct p as [rq r]. cbn [disk_after snd].
    erewrite data_bytes_frame; [done|exact Hrq|exact Hf|]. intros i Hi. apply Hpoff. by right.
  - intros k p' Hk Hw. apply lookup_app_Some in Hk as [Hk|[Hge Hk]].
    + rewrite take_app_le by (apply lookup_lt_Some in Hk; lia). by apply H2.
    + apply list_lookup_singleton_Some in Hk as [Hk <-]. rewrite (Hrd1 Hw), Hd.
      rewrite take_app_length' by lia. done.
Qed.

(** The states of served requests, as the interrupt finds them. *)
Lemma all_finished rv rqs sv wait m x fls :
  queue_of rv q -> known rqs l -> (forall p, p ∈ sv -> p ∈ l) -> (forall p, p ∈ wait -> p ∈ sv) ->
  Forall2 flight_of fls (subs_of wait) -> stored sv m x ->
  Forall2 (finished rv m rqs) fls (map (fun p => (p, LKL_DEV_BLK_STATUS_OK)) wait).
Proof.
  intros Hq Hk Hsub Hw Hfl [Hf Hst _ _ _]. unfold known, posted in *.
  rewrite list.Forall_forall in Hk, Hst. rewrite list.Forall_forall in Hpost.
  apply Forall2_same_length_lookup. split.
  { rewrite (Forall2_length Hfl). unfold subs_of. by rewrite !length_map. }
  intros j f [p st] Hj Hl. rewrite list_lookup_fmap_Some in Hl. destruct Hl as (p' & [= -> ->] & Hl).
  assert (p' ∈ wait) as Hpw by (by eapply list_elem_of_lookup_2). pose proof (Hsub p' (Hw p' Hpw)) as Hp.
  pose proof (batch_rq_ok p' Hp) as Hr.
  destruct (Forall2_lookup_lr _ _ _ _ f (sub_of p'.2) Hfl Hj) as [_ Htok].
  { unfold subs_of. by rewrite list_lookup_fmap, Hl. }
  unfold finished. cbn [fst snd]. rewrite sub_of_token in Htok. split_and!; try done.
  - pose proof (ro_pdu _ _ _ _ Hr). lia.
  - by apply Hk.
  - apply Hr.
  - rewrite (load_frame 8 _ _ _ _ Hf); [apply (Hpost p' Hp)|]. intros i Hi [(p2 & Hp2 & Ha)|Hx].
    + eapply (header_off_answers _ _ _ p' i Hok Hsep Hp); [unfold vbr_req, range in *; lia|].
      exists p2. split; [by apply Hsub|done].
    + apply (ro_off _ _ _ _ Hr i); [|done]. left. unfold pdu_area, vbr_req, range in *. lia.
  - by apply Hst, Hw.
  - intros i Hi Hd. apply (ro_off _ _ _ _ Hr i); [by left|by eapply driver_in_rings].
Qed.

End Stored.

(** ** The device at work, with the driver's interrupts *)

Section Serving.
Context {D : Type} (disk : lkl_dev_blk_ops D) `{!BlkBackend disk, !FileBackend disk}.
Context (fuel n : nat) (irqs_enabled : bool).
Context (q : virtio_queue) (g : vring_virtqueue) (rqs : gmap Z mq_request) (e0 : list (Z * Z)).
Context (m0 : mem) (data0 : list Z) (l : list (Z * mq_request)).
Context (Hq : queue_of (g_vring g) q) (Hmm : q_max_merge_len q = 0).
Context (Hev : g_event g = true) (Hcb : g_callback g = true) (Hn : (length l < n)%nat).
Context (Hk : known rqs l) (Hok : all_ok m0 q l) (Hsep : separate l) (Hpost : posted m0 l).
Context (Hin : in_disk (Z.of_nat (length data0)) l).

#[local] Instance owner_trigger : Trigger (D * bguest) :=
  trigger_irq_owner (blk_ops disk) fuel n irqs_enabled.

Abbreviation ops := (owner_ops disk fuel n irqs_enabled).
Implicit Types v : vstate (D * bguest).

Definition kern v : bguest := (v_ext v).2.

(** The requests [ended] are ended, [wait] are in the used ring and [todo] in the
    available ring, from index [a] on; [fw] and [ft] are their chains. *)
Record serving (ended wait todo : list (Z * mq_request)) (fw ft : list flight) (a : Z) v : Prop := {
  sn_split : l = ended ++ wait ++ todo;
  sn_stored : stored disk q m0 data0 (ended ++ wait) (v_mem v) (v_ext v).1;
  sn_ended : bg_ended (kern v) = e0 ++ map (fun p => (p.1, 0)) ended;
  sn_rqs : bg_rqs (kern v) = rqs;
  sn_stopped : ended <> [] -> bg_stopped (kern v) = false;
  sn_vq : same_vq g (bg_vq (kern v)) /\ g_num_added (bg_vq (kern v)) = 0;
  sn_shadow : g_avail_idx_shadow (bg_vq (kern v)) = u16 (a + Z.of_nat (length todo));
  sn_idx : 0 <= a < 65536;
  sn_at : exists sg, queue_at (g_index g) (v_dev v) = Some (cursor q a sg);
  sn_rep : exists free, reported (v_mem v) (bg_vq (kern v)) q free fw (replicate (length fw) 0) ft;
  sn_waiting : Forall2 flight_of fw (subs_of wait);
  sn_flights : Forall2 flight_of ft (subs_of todo);
  sn_heads : heads_at (v_mem v) q a ft;
  sn_irq : 0 < d_irq (v_dev v) <= NR_IRQS;
}.

Lemma serving_at ended wait todo fw ft a v :
  serving ended wait todo fw ft a v ->
  exists sg, at_queue (g_index g) (cursor q a sg)
    (u16 (g_last_used_idx (bg_vq (kern v)) + Z.of_nat (length fw))) (u16 (a + Z.of_nat (length todo))) v.
Proof.
  intros Hs. destruct (sn_at _ _ _ _ _ _ _ Hs) as [sg Hat].
  destruct (sn_rep _ _ _ _ _ _ _ Hs) as [free Hre]. exists sg. split; try done.
  - destruct (re_ok _ _ _ _ _ _ _ Hre). split; try done. apply (sn_idx _ _ _ _ _ _ _ Hs).
  - apply (re_idx _ _ _ _ _ _ _ Hre).
  - rewrite <- (sn_shadow _ _ _ _ _ _ _ Hs). change (q_avail (cursor q a sg)) with (q_avail q).
    rewrite (qf_avail _ _ Hq), <- (proj1 (proj1 (sn_vq _ _ _ _ _ _ _ Hs))).
    apply (re_inv _ _ _ _ _ _ _ Hre).
Qed.

(** Heads stay where they are as long as the available ring does. *)
Lemma heads_kept (P : Z -> Prop) m m' a fls :
  queue_ok m q -> heads_at m q a fls -> frame P m m' ->
  (forall s i, 0 <= s < q_num q -> range (avail_ring_at q s) 2 i -> ~ P i) -> heads_at m' q a fls.
Proof.
  intros Hqok Hh Hf HP j f hd Hj Hhd. rewrite <- (Hh j f hd Hj Hhd).
  eapply load_frame; [exact Hf|]. intros i. apply HP. by eapply slot_range.
Qed.

Lemma heads_tail m a f fls : queue_ok m q -> heads_at m q a (f :: fls) -> heads_at m q (u16 (a + 1)) fls.
Proof.
  intros Hqok Hh j f' hd Hj Hhd. rewrite (slot_succ _ _ _ _ Hqok).
  replace (1 + Z.of_nat j) with (Z.of_nat (S j)) by lia. by apply (Hh (S j) f').
Qed.

(** The state once the next request is in the used ring. *)
Lemma serving_next ended wait p todo fw f ft a v hd m1 x1 m2 (due : bool) :
  serving ended wait (p :: todo) fw (f :: ft) a v -> hd_error (fl_idx f) = Some hd ->
  frame (answer_area p.2) (v_mem v) m1 -> stored disk q m0 data0 ((ended ++ wait) ++ [p]) m1 x1 ->
  let u := u16 (g_last_used_idx (bg_vq (kern v)) + Z.of_nat (length fw)) in
  frame (fun i => entries_area q u 1 i \/ range (q_used q + 2) 2 i) m1 m2 ->
  load 2 (q_used q + 2) m2 = Some (u16 (u + 1)) -> load 4 (used_ring_at q (slot q u)) m2 = Some hd ->
  load 4 (used_ring_at q (slot q u) + 4) m2 = Some 0 ->
  serving ended (wait ++ [p]) todo (fw ++ [f]) ft (u16 (a + 1))
    (VState m2 (completed_dev (g_index g) (u16 (a + 1)) (u16 (u + 1)) due (v_dev v)) (v_irqs v) (x1, kern v)).
Proof.
  intros [Hl Hsd He Hr Hstp Hvq Hsh Hidx [sg Hat] [free Hre] Hfw Hft Hh Hirq] Hhd F1 Hsd1 u F2 Hu2 Hid2 Hlen2.
  change (subs_of (p :: todo)) with (sub_of p.2 :: subs_of todo) in Hft.
  apply Forall2_cons_1 in Hft as [Hf Hft]. pose proof (re_ok _ _ _ _ _ _ _ Hre) as Hqok.
  assert (l = ((ended ++ wait) ++ [p]) ++ todo) as Hl' by (rewrite Hl, <- !app_assoc; done).
  assert (rq_ok m0 q p.1 p.2) as Hrq.
  { apply (batch_rq_ok q m0 l Hok). rewrite Hl. do 2 (apply elem_of_app; right). left. }
  assert (forall i, answer_area p.2 i -> ~ rings_area q i) as Hpo.
  { intros i Hi%answer_in_req. by apply (ro_off _ _ _ _ Hrq). }
  set (P := fun i => answer_area p.2 i \/ entries_area q u 1 i \/ range (q_used q + 2) 2 i).
  assert (frame P (v_mem v) m2) as F12.
  { eapply frame_trans; eapply frame_weaken; [|exact F1| |exact F2]; unfold P; tauto. }
  assert (forall i, entries_area q u 1 i \/ range (q_used q + 2) 2 i -> used_area q i) as Hused.
  { intros i [Hi|Hi]; [by eapply entries_used_area|by eapply used_idx_used]. }
  destruct (completed_dev_queue (g_index g) (u16 (a + 1)) (u16 (u + 1)) due (v_dev v) _ Hat)
    as (q2 & Hat2 & Hlay2%same_layout_eq & Hla2 & _).
  split; cbn [v_dev v_mem v_ext v_irqs fst snd kern]; try done.
  - by rewrite <- app_assoc.
  - rewrite app_assoc. eapply stored_rings; [exact Hok|exact Hsd1| |].
    + intros p' Hp'. rewrite Hl'. apply elem_of_app. by left.
    + eapply frame_weaken; [|exact F2]. intros i Hi. do 2 right. by apply Hused.
  - rewrite Hsh. unfold u16. rewrite Zplus_mod_idemp_l. f_equal. simpl length. lia.
  - apply u16_range.
  - exists (q_last_used_idx_signaled q2). by rewrite Hat2, Hlay2, Hla2.
  - exists free. rewrite length_app, replicate_add. eapply (reported_more P); try done.
    unfold P. intros i [Hi|Hi]; [|tauto]. intros Hx. by apply Hpo in Hx.
  - unfold subs_of. rewrite map_app. apply Forall2_app; [done|]. by apply Forall2_cons_2.
  - apply (heads_tail _ _ f); [eapply queue_ok_frame; [exact F12|exact Hqok]|].
    eapply heads_kept; [exact Hqok|exact Hh|exact F12|].
    intros s i Hsr Hi. apply (avail_cell_area q) in Hi; [|lia]. unfold P. intros [Hp|Hp%Hused].
    + apply Hpo in Hp. apply Hp. right. by left.
    + by apply (qo_disj_avail _ _ Hqok i).
  - by rewrite completed_dev_irq.
Qed.

(** The device serves the next request, up to its interrupt. *)
Lemma serving_round k ended wait p todo fw ft a v :
  serving ended wait (p :: todo) fw ft a v ->
  exists v2 (due : bool) f ft', ft = f :: ft' /\
    process_loop ops (S k) (g_index g) v =
      ((if due then trigger_irq (d_irq (v_dev v2)) else retM tt) ;;; round_tail ops k (g_index g)) v2 /\
    serving ended (wait ++ [p]) todo (fw ++ [f]) ft' (u16 (a + 1)) v2 /\
    (todo = [] -> due = true) /\ (due = true -> Z.testbit (d_int_status (v_dev v2)) 0 = true) /\
    v_irqs v2 = v_irqs v.
Proof.
  intros Hs. destruct (serving_at _ _ _ _ _ _ _ Hs) as [sg Haq].
  pose proof Hs as [Hl Hsd _ _ _ Hvq _ Hidx _ [free Hre] _ Hft Hh _].
  change (subs_of (p :: todo)) with (sub_of p.2 :: subs_of todo) in Hft.
  apply Forall2_cons_inv_r in Hft as (f & ft' & [Hfb _] & Hft' & ->).
  pose proof (re_ok _ _ _ _ _ _ _ Hre) as Hqok. pose proof (reported_count _ _ _ _ _ _ _ Hre) as Hcount.
  pose proof (queue_ok_num _ _ Hqok) as Hnum. pose proof (re_inv _ _ _ _ _ _ _ Hre) as Hinv.
  pose proof (Forall2_length Hft') as Hlen. unfold subs_of in Hlen. rewrite length_map in Hlen.
  pose proof (ri_flights _ _ _ _ Hinv) as Hfls. rewrite list.Forall_forall in Hfls.
  assert (f ∈ fw ++ f :: ft') as Hfin by (apply elem_of_app; right; left).
  destruct (Hfls f Hfin) as (_ & _ & _ & hd & Hhd & _).
  assert (l = (ended ++ wait) ++ p :: todo) as Hl' by (by rewrite <- app_assoc).
  destruct (stored_serve disk q m0 data0 l Hok Hsep Hpost Hin _ p todo (v_mem v) (v_ext v).1
    (u32 (sum_len (sub_bufs (sub_of p.2)))) (g_index g) a Hl' Hsd) as (m1 & x1 & E1 & F1 & Hsd1).
  pose proof (Hh 0%nat f hd eq_refl Hhd) as Hhead. rewrite Z.add_0_r in Hhead.
  destruct (round_run ops k (g_index g) _ _ _ hd (sub_bufs (sub_of p.2)) m1 (x1, kern v) 0 v Haq)
    as (m2 & due & E2 & Hdue & F2 & Hu2 & Hid2 & Hlen2).
  { cbn [cursor q_last_avail_idx with_last_avail_idx length]. simpl in Hcount. unfold u16. lia. }
  { exact Hhead. }
  { rewrite (read_chain_layout _ _ q) by done. rewrite <- Hfb.
    eapply flight_read; [done|exact Hinv|by rewrite (proj1 (proj1 Hvq))|done|done|].
    rewrite Hfb, sub_of_bufs. simpl. lia. }
  { assert (all_ok m0 q [p]) as Hp1.
    { apply Forall_cons_2; [|apply Forall_nil_2]. apply (batch_rq_ok q m0 l Hok). rewrite Hl'.
      apply elem_of_app. right. left. }
    apply (subs_off_rings _ _ _ (g_index g) a), Forall_cons_1 in Hp1. apply Hp1. }
  { cbn [serve blk_serves]. destruct (v_ext v) as [x b] eqn:Ev. unfold kern. rewrite Ev. by apply lift_serve. }
  cbn [cursor q_last_avail_idx with_last_avail_idx] in *. eexists _, due, f, ft'. split; [done|].
  split; [|split; [by eapply serving_next|]]; cbn [v_dev v_irqs].
  - rewrite completed_dev_irq. exact E2.
  - split; [|split; [|done]]; intros ->; [by apply Hdue|apply completed_dev_int_status].
Qed.

(** The handler ends every request in the used ring. *)
Lemma serving_interrupt ended wait todo fw ft a v :
  serving ended wait todo fw ft a v -> wait <> [] -> Z.testbit (d_int_status (v_dev v)) 0 = true ->
  exists z s, vm_interrupt (blk_ops disk) fuel n (b_unpack v) = Ok (z, s) /\
    serving (ended ++ wait) [] todo [] ft a (b_pack s) /\
    frame (reap_area (g_vring g)) (v_mem v) (b_mem s) /\ v_irqs (b_pack s) = v_irqs v.
Proof.
  intros [Hl Hsd He Hr Hstp [Hvq Hadd] Hsh Hidx Hat [free Hre] Hfw Hft Hh Hirq] Hne Hst.
  destruct v as [m d irqs [x [vq rq e st w]]]. cbn [kern v_mem v_dev v_irqs v_ext fst snd bg_vq bg_rqs bg_ended
    bg_stopped bg_work] in *. subst rq. pose proof Hvq as (Hrv & Hix & Hev' & Hcb').
  pose proof (Forall2_length Hfw) as Hlen. unfold subs_of in Hlen. rewrite length_map in Hlen.
  assert (forall p, p ∈ ended ++ wait -> p ∈ l) as Hsub.
  { intros p Hp. rewrite Hl, app_assoc. apply elem_of_app. by left. }
  destruct (vm_interrupt_ok (blk_ops disk) fuel n q (VState m d irqs x) vq free fw _ ft rqs
    (map (fun p => (p, LKL_DEV_BLK_STATUS_OK)) wait) e st w Hre)
    as (m3 & g3 & fr3 & w' & E & Hre3 & F3 & Hs3 & Ha3 & Hi3); try done; try congruence.
  { by destruct fw, wait. }
  { rewrite Hrv. eapply (all_finished disk); try done. intros p Hp. apply elem_of_app. by right. }
  { rewrite Hl, !length_app in Hn. lia. }
  exists IRQ_HANDLED. eexists. split; [exact E|]. rewrite Hrv in F3. split; [|done].
  assert (frame (driver_area (g_vring g)) m m3) as F3d.
  { rewrite <- Hrv in *. by eapply reap_frame. }
  split; cbn [kern b_pack b_ring b_rqs b_ended b_stopped b_work g_host g_vq v_mem v_dev v_irqs v_ext fst snd
    bg_vq bg_rqs bg_ended bg_stopped bg_work with_mem acked set_dev]; try done; try congruence.
  - by rewrite <- app_assoc.
  - rewrite app_nil_r. eapply stored_rings; [exact Hok|exact Hsd|exact Hsub|].
    eapply frame_weaken; [|exact F3d]. intros i. by apply driver_in_rings.
  - unfold ends. rewrite He, map_map, map_app, app_assoc. done.
  - split; [by eapply same_vq_trans|congruence].
  - eauto.
  - eapply heads_kept; [apply Hre|exact Hh|exact F3|]. intros s i Hs Hi Hp.
    pose proof (re_inv _ _ _ _ _ _ _ Hre) as Hinv. pose proof (ri_vring _ _ _ _ Hinv) as Hvr. rewrite Hrv in Hvr.
    destruct Hp as [Hp|Hp].
    + apply (vo_disj _ _ Hvr i) in Hp as [Hp _]. apply Hp, (avail_area_of _ _ Hq).
      by eapply avail_cell_area; [|exact Hi]; lia.
    + unfold vring_used_event in Hp. rewrite <- (avail_at_of _ _ Hq), <- (qf_num _ _ Hq) in Hp.
      unfold avail_ring_at, range in *. lia.
Qed.

(** The interrupt of a completion: handled at once, or left pending. *)
Lemma serving_irq (due : bool) ended wait todo fw ft a v :
  serving ended wait todo fw ft a v -> wait <> [] ->
  (due = true -> Z.testbit (d_int_status (v_dev v)) 0 = true) ->
  exists v' ended' wait' fw', (if due then trigger_irq (d_irq (v_dev v)) else retM tt) v = Ok (tt, v') /\
    serving ended' wait' todo fw' ft a v' /\
    (irqs_enabled = true -> v_irqs v' = v_irqs v) /\ (length (v_irqs v) <= length (v_irqs v'))%nat /\
    (due = true -> if irqs_enabled then wait' = []
                   else (length (v_irqs v) < length (v_irqs v'))%nat /\ wait' <> [] /\
                        Z.testbit (d_int_status (v_dev v')) 0 = true).
Proof.
  intros Hs Hne Hst. destruct due; [specialize (Hst eq_refl)|by exists v, ended, wait, fw].
  pose proof (sn_irq _ _ _ _ _ _ _ Hs) as Hirq.
  unfold trigger_irq, owner_trigger, trigger_irq_owner.
  rewrite (proj2 (Z.eqb_neq _ _)), (proj2 (Z.ltb_ge _ _)) by lia. cbn [orb].
  destruct irqs_enabled; cbn [negb].
  - destruct (serving_interrupt _ _ _ _ _ _ _ Hs Hne Hst) as (z & s & -> & Hs' & _ & Hv).
    exists (b_pack s), (ended ++ wait), [], []. rewrite Hv. done.
  - eexists _, ended, wait, fw. split; [done|]. cbn [v_irqs v_dev]. rewrite length_app. simpl.
    split; [by destruct Hs|]. split; [done|]. split; [lia|]. intros _. split; [lia|done].
Qed.

Lemma serving_tail k ended wait todo fw ft a v :
  serving ended wait todo fw ft a v ->
  exists v', round_tail ops k (g_index g) v = process_loop ops k (g_index g) v' /\
    serving ended wait todo fw ft a v' /\ v_irqs v' = v_irqs v /\ v_dev v' = v_dev v /\
    (todo = [] -> load 2 (used_ring_at q (q_num q)) (v_mem v') = Some a).
Proof.
  intros Hs. destruct (serving_at _ _ _ _ _ _ _ Hs) as [sg [Hat Hqk _ _ Hav]].
  destruct (round_tail_ok ops k _ _ _ v Hat Hqk Hav) as (m & E & Hf & Hl).
  exists (VState m (v_dev v) (v_irqs v) (v_ext v)). split; [exact E|].
  destruct Hs as [Hl0 Hsd He Hr Hstp Hvq Hsh Hidx Hat' [free Hre] Hfw Hft Hh Hirq].
  pose proof (re_ok _ _ _ _ _ _ _ Hre) as Hqok. pose proof (queue_ok_num _ _ Hqok) as Hnum.
  assert (forall i, range (used_ring_at q (q_num q)) 2 i -> used_area q i) as Hu.
  { intros i Hi. apply event_cell_used; [lia|done]. }
  split_and!; try done.
  - split; try done.
    + eapply stored_rings; [exact Hok|exact Hsd| |].
      * intros p Hp. rewrite Hl0, app_assoc. apply elem_of_app. by left.
      * eapply frame_weaken; [|exact Hf]. intros i Hi%Hu. by do 2 right.
    + exists free. by eapply reported_event.
    + eapply heads_kept; [exact Hqok|exact Hh|exact Hf|]. intros s i Hs Hi Hp%Hu.
      apply (qo_disj_avail _ _ Hqok i Hp). eapply avail_cell_area; [|exact Hi]. lia.
  - intros ->. simpl length in Hl. rewrite Z.add_0_r, u16_id in Hl by done. by apply Hl.
Qed.

(** The device drains the queue. *)
Lemma serving_loop todo k ended wait fw ft a v :
  todo <> [] -> serving ended wait todo fw ft a v -> (length todo < k)%nat ->
  let a' := u16 (a + Z.of_nat (length todo)) in
  exists v' ended' wait' fw', process_loop ops k (g_index g) v = Ok (tt, v') /\
    serving ended' wait' [] fw' [] a' v' /\
    load 2 (used_ring_at q (q_num q)) (v_mem v') = Some a' /\
    (if irqs_enabled then v_irqs v' = v_irqs v /\ wait' = []
     else (length (v_irqs v) < length (v_irqs v'))%nat /\ wait' <> [] /\
          Z.testbit (d_int_status (v_dev v')) 0 = true).
Proof.
  revert k ended wait fw ft a v. induction todo as [|p todo IH]; intros k ended wait fw ft a v Hne Hs Hk0 a'; [done|].
  destruct k as [|k]; [simpl in Hk0; lia|].
  destruct (serving_round k _ _ _ _ _ _ _ _ Hs) as (v2 & due & f & ft' & -> & E & Hs2 & Hdue & Hst & Hv2).
  destruct (serving_irq due _ _ _ _ _ _ _ Hs2) as (v3 & d3 & w3 & f3 & E3 & Hs3 & Hv3 & Hle3 & Hd3);
    [by destruct wait|exact Hst|].
  destruct (serving_tail k _ _ _ _ _ _ _ Hs3) as (v4 & E4 & Hs4 & Hv4 & Hdv4 & Hev4).
  rewrite E, (bindM_ok _ _ _ _ _ E3), E4.
  assert (u16 (u16 (a + 1) + Z.of_nat (length todo)) = a') as Ha'.
  { unfold a', u16. rewrite Zplus_mod_idemp_l. f_equal. simpl length. lia. }
  destruct todo as [|p' todo].
  - specialize (Hdue eq_refl). subst due. simpl in Ha'. rewrite Z.add_0_r, u16_id in Ha' by apply u16_range.
    rewrite Ha' in *. pose proof (Forall2_nil_inv_r _ _ (sn_flights _ _ _ _ _ _ _ Hs4)) as ->.
    exists v4, d3, w3, f3. destruct (serving_at _ _ _ _ _ _ _ Hs4) as [sg Haq].
    split; [|split; [done|split; [by apply Hev4|]]].
    + destruct k as [|k]; [simpl in Hk0; lia|]. simpl length in Haq.
      rewrite Z.add_0_r, (u16_id a') in Haq by apply (sn_idx _ _ _ _ _ _ _ Hs4). exact (process_loop_idle ops k _ (cursor q a' sg) _ v4 Haq).
    + specialize (Hd3 eq_refl). rewrite Hv4, Hdv4. destruct irqs_enabled; [|by rewrite <- Hv2].
      split; [|done]. by rewrite Hv3.
  - destruct (IH k d3 w3 f3 ft' (u16 (a + 1)) v4) as (v' & d' & w' & f' & E' & Hs' & Hev' & Ht); [done|done|simpl in *; lia|].
    rewrite Ha' in *. exists v', d', w', f'. split; [exact E'|]. split; [done|]. split; [done|].
    rewrite Hv4 in Ht. rewrite Hv2 in Hv3, Hle3. destruct irqs_enabled; [|split; [lia|apply Ht]].
    destruct Ht as [-> ->]. split; [by apply Hv3|done].
Qed.

End Serving.

(** ** The whole path *)

Section Path.
Context {D : Type} (disk : lkl_dev_blk_ops D) `{!BlkBackend disk, !FileBackend disk}.
Context (fuel n : nat) (irqs_enabled : bool) (sg_elems : Z).
Implicit Types h : vstate D.

(** A batch the driver can take: known requests, apart from each other, that
    fit the free descriptors and the disk. *)
Record batch_ok h (q : virtio_queue) (free : list Z) (rqs : gmap Z mq_request)
  (l : list (Z * mq_request)) : Prop := {
  bo_ne : l <> [];
  bo_known : known rqs l;
  bo_ok : all_ok (v_mem h) q l;
  bo_sep : separate l;
  bo_free : (3 * length l <= length free)%nat;
  bo_in : in_disk (Z.of_nat (length (fb_data (v_ext h)))) l;
}.

(** A batch on the queue, before the notification. *)
Lemma serving_start l h g g1 q a free fls rqs e st w :
  queued h g1 q a free fls -> same_vq g g1 -> Forall2 flight_of fls (subs_of l) -> fb_ready (v_ext h) ->
  0 < d_irq (v_dev h) <= NR_IRQS ->
  serving disk q g rqs e (v_mem h) (fb_data (v_ext h)) l [] [] l [] fls a
    (b_pack (BState (GState h (with_num_added 0 g1)) rqs e st w)).
Proof.
  intros [Hlo Hat Hi Hrdy Hmm He Hur Hld Hae] Hs Hfl Hx Hirq. pose proof (loaded_queue_ok _ _ _ _ _ _ Hlo) as Hqok.
  destruct Hlo as [Hinv Hq Hh Hsh Hadd [Hlast Ha]]. pose proof Hs as (Hr & Hix & _).
  pose proof (Forall2_length Hfl) as Hlen. unfold subs_of in Hlen. rewrite length_map in Hlen.
  split; try done.
  - cbn [map]. by rewrite app_nil_r.
  - simpl. by rewrite Hsh, Hlen.
  - exists (q_last_used_idx_signaled q). rewrite <- Hix, <- Hlast. simpl. rewrite Hat. by destruct q.
  - exists free. split; try done.
    + destruct Hinv. by split.
    + simpl. by rewrite Z.add_0_r, u16_id.
Qed.

(** The notification of the last request. *)
Lemma notify_batch l h g g1 q a free fls rqs e st w :
  queued h g1 q a free fls -> same_vq g g1 -> Forall2 flight_of fls (subs_of l) -> l <> [] ->
  known rqs l -> all_ok (v_mem h) q l -> separate l -> posted (v_mem h) l -> fb_ready (v_ext h) ->
  in_disk (Z.of_nat (length (fb_data (v_ext h)))) l -> 0 < d_irq (v_dev h) <= NR_IRQS ->
  g_callback g = true -> (length l < fuel)%nat -> (length l < n)%nat ->
  let a' := u16 (a + Z.of_nat (length l)) in
  exists v ended wait fw, notify_if disk fuel n irqs_enabled (length (v_irqs h)) true
        (BState (GState h g1) rqs e st w) = Ok (BLK_MQ_RQ_QUEUE_OK, b_unpack v) /\
    serving disk q g rqs e (v_mem h) (fb_data (v_ext h)) l ended wait [] fw [] a' v /\
    load 2 (used_ring_at q (q_num q)) (v_mem v) = Some a' /\
    (if irqs_enabled then v_irqs v = v_irqs h /\ wait = []
     else (length (v_irqs h) < length (v_irqs v))%nat /\ wait <> [] /\
          Z.testbit (d_int_status (v_dev v)) 0 = true).
Proof.
  intros Hqd Hs Hfl Hne Hk Hok Hsep Hp Hx Hin Hirq Hcb Hf Hn a'. pose proof Hs as (Hr & Hix & Hev & _).
  pose proof (serving_start l h g g1 q a free fls rqs e st w Hqd Hs Hfl Hx Hirq) as Hst.
  pose proof (Forall2_length Hfl) as Hlen. unfold subs_of in Hlen. rewrite length_map in Hlen.
  destruct Hqd as [Hlo Hat Hi Hrdy Hmm He Hur Hld Hae]. pose proof Hlo as [Hinv Hq _ Hsh Hadd [_ Ha]].
  pose proof (flights_le _ _ _ _ Hinv) as Hle. pose proof (ri_total _ _ _ _ Hinv) as Htot.
  pose proof (vring_ok_num _ _ (ri_vring _ _ _ _ Hinv)) as Hnum.
  assert (0 < length l)%nat as Hpos by (destruct l; [done|simpl; lia]).
  assert (queue_of (g_vring g) q) as Hq' by (by rewrite <- Hr).
  destruct (serving_loop disk fuel n irqs_enabled q g rqs e (v_mem h) (fb_data (v_ext h)) l Hq' Hmm
    ltac:(congruence) Hcb Hn Hk Hok Hsep Hp Hin l fuel _ _ _ _ _ _ Hne Hst Hf)
    as (v & ed & wt & fw & E & Hsv & Hev' & Ht).
  exists v, ed, wt, fw. split; [|done]. unfold notify_if.
  assert (virtqueue_kick_prepare (GState h g1) = Ok (true, GState h (with_num_added 0 g1))) as Ek.
  { apply (kick_prepare_ok a (Z.of_nat (length fls))); try done; [lia|].
    unfold vring_avail_event. by rewrite <- (used_at_of _ _ Hq), <- (qf_num _ _ Hq). }
  rewrite (bindM_ok _ _ _ _ _ (ring_ok _ (BState (GState h g1) rqs e st w) _ _ Ek)).
  set (s1 := set_ring _ _).
  rewrite (bindM_ok _ _ s1 tt s1)
    by (unfold irq_restore, irqs_raised, bindM, retM; simpl; by rewrite Nat.eqb_refl, andb_false_r).
  rewrite bindM_assoc. unfold virtqueue_notify_irq. rewrite !bindM_assoc.
  rewrite (bindM_ok _ _ _ _ _ (ring_ok _ s1 _ _ (get_vq_ok h (with_num_added 0 g1)))).
  cbn [g_broken with_num_added g_index]. rewrite (ri_broken _ _ _ _ Hinv), !bindM_assoc.
  change (set_ring _ s1) with s1.
  rewrite (bindM_ok _ _ s1 true (b_unpack v)); [done|]. unfold on_device.
  rewrite (vm_notify_ok (owner_ops disk fuel n irqs_enabled) fuel (g_index g1) (b_pack s1) v); [done|done|].
  rewrite <- Hix in E. eapply process_queue_enter; [exact Hat|done..|exact E].
Qed.

(** Everything is ended: driver and device are idle. *)
Lemma serving_idle l q g rqs e m0 data0 ended a (s : bstate D) :
  queue_of (g_vring g) q -> q_ready q <> 0 -> q_max_merge_len q = 0 -> g_event g = true ->
  0 <= g_index g < 4294967296 ->
  serving disk q g rqs e m0 data0 l ended [] [] [] [] a (b_pack s) ->
  load 2 (used_ring_at q (q_num q)) (b_mem s) = Some a ->
  exists q' free', idle (g_host (b_ring s)) (g_vq (b_ring s)) q' free' /\ ended = l.
Proof.
  intros Hq Hrdy Hmm Hev Hi [Hl _ _ _ _ [Hvq Hadd] Hsh Hidx [sg Hat] [free Hre] _ _ _ _] Hae.
  destruct Hvq as (Hr & Hix & Hev' & _). rewrite !app_nil_r in Hl.
  simpl in Hat, Hre, Hsh, Hr, Hix, Hev', Hadd. rewrite Z.add_0_r, u16_id in Hsh by done.
  exists (cursor q a sg), free. split; [|done].
  apply (reported_idle _ _ q _ _ a); try done; congruence.
Qed.

(** The batch up to the notification, which serves it. *)
Lemma batch_served l h g q free rqs e st w :
  idle h g q free -> g_callback g = true -> batch_ok h q free rqs l -> 3 <= sg_elems ->
  fb_ready (v_ext h) -> 0 < d_irq (v_dev h) <= NR_IRQS -> (length l < fuel)%nat -> (length l < n)%nat ->
  exists m1 a v ended wait fw,
    dispatch disk fuel n irqs_enabled sg_elems 0 (map fst l) (BState (GState h g) rqs e st w) =
      Ok (length l, [], b_unpack v) /\
    frame (fun i => pdus_area l i \/ driver_area (g_vring g) i) (v_mem h) m1 /\
    all_ok m1 q l /\ posted m1 l /\
    serving disk q g rqs e m1 (fb_data (v_ext h)) l ended wait [] fw [] a v /\
    load 2 (used_ring_at q (q_num q)) (v_mem v) = Some a /\
    (if irqs_enabled then v_irqs v = v_irqs h /\ wait = []
     else (length (v_irqs h) < length (v_irqs v))%nat /\ wait <> [] /\
          Z.testbit (d_int_status (v_dev v)) 0 = true).
Proof.
  intros Hid Hcb [Hne Hk Hok Hsep Hfree Hin] Hsg Hx Hirq Hf Hn.
  destruct (dispatch_add disk fuel n irqs_enabled sg_elems l 0 h g q _ free [] rqs e st w
    (idle_queued _ _ _ _ Hid) Hne Hk Hok Hsep Hsg Hfree) as (m1 & g1 & fls & E1 & Hqd & Hfl & F1 & Hp & Hs & _).
  cbn [app] in Hqd. pose proof (all_ok_frame _ _ _ _ _ F1 Hok) as Hok1.
  destruct (notify_batch l (with_mem m1 h) g g1 q _ _ fls rqs e st w Hqd Hs Hfl Hne Hk Hok1 Hsep Hp Hx Hin
    Hirq Hcb Hf Hn) as (v & ed & wt & fw & E2 & Hsv & Hev & Ht).
  exists m1. eexists _, v, ed, wt, fw. split_and!; try done. exact (E1 _ E2).
Qed.

(** Nothing waits any more once interrupts are enabled. *)
Lemma batch_settled l h g q rqs e m1 a v ended wait fw before :
  queue_of (g_vring g) q -> g_event g = true -> g_callback g = true -> (length l < n)%nat ->
  known rqs l -> all_ok m1 q l -> separate l -> posted m1 l ->
  serving disk q g rqs e m1 (fb_data (v_ext h)) l ended wait [] fw [] a v ->
  load 2 (used_ring_at q (q_num q)) (v_mem v) = Some a ->
  (if irqs_enabled then v_irqs v = v_irqs h /\ wait = []
   else (before < length (v_irqs v))%nat /\ wait <> [] /\ Z.testbit (d_int_status (v_dev v)) 0 = true) ->
  exists s, irq_restore disk fuel n (negb irqs_enabled) before (b_unpack v) = Ok (tt, s) /\
    serving disk q g rqs e m1 (fb_data (v_ext h)) l (ended ++ wait) [] [] [] [] a (b_pack s) /\
    load 2 (used_ring_at q (q_num q)) (b_mem s) = Some a /\
    (irqs_enabled = true -> v_irqs (b_pack s) = v_irqs h).
Proof.
  intros Hq Hev Hcb Hn Hk Hok Hsep Hp Hsv Hae Ht. unfold irq_restore.
  rewrite (bindM_ok _ _ _ _ _ (eq_refl : irqs_raised (b_unpack v) = Ok _)).
  destruct irqs_enabled; cbn [negb andb].
  - destruct Ht as [Hv ->]. exists (b_unpack v). rewrite app_nil_r.
    pose proof (Forall2_nil_inv_r _ _ (sn_waiting _ _ _ _ _ _ _ _ _ _ _ _ _ _ _ Hsv)) as ->.
    destruct v as [m d irqs [x []]]. done.
  - destruct Ht as (Hlt & Hne & Hst). simpl length. rewrite (proj2 (Nat.eqb_neq _ _)) by (simpl; lia). cbn [negb].
    destruct (serving_interrupt disk fuel n q g rqs e m1 (fb_data (v_ext h)) l Hq Hev Hcb Hn Hk Hok Hsep Hp
      _ _ _ _ _ _ _ Hsv Hne Hst) as (z & s & E & Hs & F & _).
    exists s. rewrite (bindM_ok _ _ _ _ _ E). split_and!; try done. rewrite <- Hae.
    eapply load_frame; [exact F|]. intros i Hi Hr.
    destruct (sn_rep _ _ _ _ _ _ _ _ _ _ _ _ _ _ _ Hsv) as [fr Hre].
    destruct (sn_vq _ _ _ _ _ _ _ _ _ _ _ _ _ _ _ Hsv) as [[Hrv _] _].
    pose proof (re_ok _ _ _ _ _ _ _ Hre) as Hqok. pose proof (queue_ok_num _ _ Hqok).
    pose proof (ri_vring _ _ _ _ (re_inv _ _ _ _ _ _ _ Hre)) as Hvr. rewrite Hrv in Hvr.
    eapply driver_off_used; [exact Hvr|exact Hq|by eapply reap_driver|apply event_cell_used; [lia|done]].
Qed.

(** What is done on the way to [m1] does not show in the disk. *)
Lemma disk_before_notify l q rv m m1 data :
  queue_of rv q -> all_ok m q l -> separate l ->
  frame (fun i => pdus_area l i \/ driver_area rv i) m m1 ->
  forall k, disk_after m1 (take k l) data = disk_after m (take k l) data.
Proof.
  intros Hq Hok Hsep F1 k. eapply disk_after_frame; [by apply Forall_take|exact F1|].
  intros p i Hp%elem_of_take_in Hi [Hi'|Hi']; [by eapply data_off_pdus|].
  unfold all_ok in Hok. rewrite list.Forall_forall in Hok.
  apply (ro_off _ _ _ _ (Hok p Hp) i); [by right|by eapply driver_in_rings].
Qed.

End Path.

(** ** Properties *)

(** C1: From the block layer to the disk and back.  A batch of reads and writes,
    each of one segment, that fits the queue and the disk is accepted by a
    hardware queue that is not stopped, and every request of it is ended, in
    order and without an error.  This is so whether the thread that submits it has interrupts enabled, in
    which case the handler runs inside the notification, between two requests
    the device serves, as often as the event index asks for it, and nothing is
    left pending; or disabled, in which case it runs once, when they are
    enabled again.  The disk then holds what writing a file in that order gives,
    every read got the bytes the disk held at its turn, no other memory of the
    kernel was written, and driver and device are idle again, so the next batch
    starts from there.  The disk may be any that behaves like a file: a file of
    the host, or a disk object of the addon. *)
Theorem block_batch {D} (disk : lkl_dev_blk_ops D) `{!BlkBackend disk, !FileBackend disk}
    fuel n irqs_enabled sg_elems l h g q free rqs e w :
  idle h g q free -> g_callback g = true -> batch_ok disk h q free rqs l -> 3 <= sg_elems ->
  fb_ready (v_ext h) -> 0 < d_irq (v_dev h) <= NR_IRQS -> (length l < fuel)%nat -> (length l < n)%nat ->
  exists h' g' q' free' w',
    run_batch disk fuel n irqs_enabled sg_elems (map fst l) (BState (GState h g) rqs e false w) =
      Ok (length l, [],
          BState (GState h' g') rqs (e ++ map (fun p => (p.1, 0)) l) false w') /\
    idle h' g' q' free' /\ g_callback g' = true /\ fb_ready (v_ext h') /\
    fb_data (v_ext h') = disk_after (v_mem h) l (fb_data (v_ext h)) /\
    reads_done (v_mem h) (v_mem h') l (fb_data (v_ext h)) /\
    frame (batch_area q l) (v_mem h) (v_mem h') /\
    (irqs_enabled = true -> v_irqs h' = v_irqs h).
Proof.
  intros Hid Hcb Hbo Hsg Hx Hirq Hf Hn. pose proof (id_queue _ _ _ _ Hid) as Hq.
  pose proof Hbo as [Hne Hk Hok Hsep _ Hin].
  destruct (batch_served disk fuel n irqs_enabled sg_elems l h g q free rqs e false w Hid Hcb Hbo Hsg Hx Hirq Hf Hn)
    as (m1 & a & v & ed & wt & fw & E & F1 & Hok1 & Hp1 & Hsv & Hev & Ht).
  destruct (batch_settled disk fuel n irqs_enabled l h g q rqs e m1 a v ed wt fw (length (v_irqs h)))
    as (s & E' & Hs & Hev' & Hv); try done; [apply Hid|].
  destruct (serving_idle disk l q g rqs e m1 _ _ a s Hq (id_ready _ _ _ _ Hid) (id_merge _ _ _ _ Hid)
    (id_event _ _ _ _ Hid) (id_index _ _ _ _ Hid) Hs Hev') as (q' & fr & Hidl & Hed).
  rewrite Hed in Hs. destruct Hs as [_ [F2 _ Hr2 Hd2 Hrd2] He2 Hq2 Hst2 [(_ & _ & _ & Hcb2) _] _ _ _ _ _ _ _ _].
  pose proof (disk_before_notify l q _ _ _ (fb_data (v_ext h)) Hq Hok Hsep F1) as Hda.
  destruct s as [[h' g'] rqs' e' st' w']. simpl in *. rewrite app_nil_r in *. subst rqs' e'.
  rewrite (Hst2 Hne) in E'. exists h', g', q', fr, w'. split_and!; try done.
  - unfold run_batch. set (s := BState (GState h g) rqs e false w) in *.
    rewrite (bindM_ok _ _ _ _ _ (eq_refl : irqs_raised s = Ok _)).
    by rewrite (bindM_ok _ _ s _ _ (E : run_hw_queue disk fuel n irqs_enabled sg_elems (map fst l) s = Ok _)),
      (bindM_ok _ _ _ _ _ E').
  - congruence.
  - rewrite Hd2. rewrite <- (take_ge l (length l)) at 1 2 by lia. apply Hda.
  - intros k p Hkp Hw. rewrite <- Hda. by apply Hrd2.
  - eapply frame_trans; eapply frame_weaken; [|exact F1| |exact F2]; unfold batch_area.
    + intros i [Hi|Hi]; [by left|]. right. right. by eapply driver_in_rings.
    + tauto.
Qed.

(** ** The batch of [BlkDemo]

    A write of four bytes to sector 1 and a read of the same sector. *)
Module BatchDemo.

Lemma batch_ok_demo : batch_ok (lkl_js_disk_ops JsDemo.list_disk) BlkDemo.h1 GuestDemo.q0 (seqZ 0 8)
  BlkDemo.rqs BlkDemo.l.
Proof.
  split.
  - done.
  - repeat (apply Forall_cons_2 || apply Forall_nil_2); reflexivity.
  - apply list.Forall_forall. intros [rq r]. apply BlkDemo.rq_ok_demo.
  - split; [|split; [apply Forall_nil_2|done]]. apply Forall_cons_2; [|apply Forall_nil_2].
    intros i. unfold req_area, pdu_area, data_area, range. simpl. lia.
  - vm_compute. lia.
  - repeat (apply Forall_cons_2 || apply Forall_nil_2); vm_compute; done.
Qed.

Definition run (irqs_enabled : bool) :=
  run_batch (lkl_js_disk_ops JsDemo.list_disk) 3 3 irqs_enabled 3 [0x1000; 0x2000]
    (BState (GState BlkDemo.h1 BlkDemo.g1) BlkDemo.rqs [] false false).

(** The interrupts that were left for later. *)
Definition left_pending (irqs_enabled : bool) : option nat :=
  match run irqs_enabled with
  | Ok (_, s) => Some (length (v_irqs (g_host (b_ring s))))
  | Fail _ => None
  end.

(** Both completions raise one: with interrupts enabled the handler has run
    between the two requests. *)
Example pending_only_when_disabled : left_pending true = Some 0%nat /\ left_pending false = Some 2%nat.
Proof. split; vm_compute; reflexivity. Qed.

End BatchDemo.

Lemma block_batch_witness :
  (exists h' g' q' free' w', BatchDemo.run true =
      Ok ((2%nat, []), BState (GState h' g') BlkDemo.rqs [(0x1000, 0); (0x2000, 0)] false w') /\
    idle h' g' q' free' /\ v_ext h' = file_write 512 [10; 20; 30; 40] (replicate 600 7) /\
    data_bytes (v_mem h') BlkDemo.rr = [10; 20; 30; 40] /\ v_irqs h' = []) /\
  (exists h' g' q' free' w', BatchDemo.run false =
      Ok ((2%nat, []), BState (GState h' g') BlkDemo.rqs [(0x1000, 0); (0x2000, 0)] false w') /\
    idle h' g' q' free' /\ v_ext h' = file_write 512 [10; 20; 30; 40] (replicate 600 7) /\
    data_bytes (v_mem h') BlkDemo.rr = [10; 20; 30; 40]).
Proof.
  split.
  - destruct (block_batch (lkl_js_disk_ops JsDemo.list_disk) 3 3 true 3 BlkDemo.l BlkDemo.h1 BlkDemo.g1
      GuestDemo.q0 (seqZ 0 8) BlkDemo.rqs [] false BlkDemo.blk_idle1 eq_refl BatchDemo.batch_ok_demo
      ltac:(lia) I ltac:(vm_compute; done) ltac:(simpl; lia) ltac:(simpl; lia))
      as (h' & g' & q' & free' & w' & E & Hid & _ & _ & Hd & Hr & _ & Hi).
    exists h', g', q', free', w'. split; [exact E|]. split; [exact Hid|]. split; [|split].
    + etransitivity; [exact Hd|]. vm_compute. reflexivity.
    + etransitivity; [exact (Hr 1%nat (0x2000, BlkDemo.rr) eq_refl eq_refl)|]. vm_compute. reflexivity.
    + etransitivity; [exact (Hi eq_refl)|]. vm_compute. reflexivity.
  - destruct (block_batch (lkl_js_disk_ops JsDemo.list_disk) 3 3 false 3 BlkDemo.l BlkDemo.h1 BlkDemo.g1
      GuestDemo.q0 (seqZ 0 8) BlkDemo.rqs [] false BlkDemo.blk_idle1 eq_refl BatchDemo.batch_ok_demo
      ltac:(lia) I ltac:(vm_compute; done) ltac:(simpl; lia) ltac:(simpl; lia))
      as (h' & g' & q' & free' & w' & E & Hid & _ & _ & Hd & Hr & _).
    exists h', g', q', free', w'. split; [exact E|]. split; [exact Hid|]. split.
    + etransitivity; [exact Hd|]. vm_compute. reflexivity.
    + etransitivity; [exact (Hr 1%nat (0x2000, BlkDemo.rr) eq_refl eq_refl)|]. vm_compute. reflexivity.
Defined.
