(* ===== verification/BlkProbe.v ===== *)
(** * BlkProbe

    drivers/block/virtio_blk.c, [virtblk_probe] and [virtblk_remove]: how the
    kernel sets up a disk from the device's features and configuration, and
    how it takes it down.  The services of the kernel it calls are answers of
    an environment; what they hand out is kept in a list, so that the error
    paths can be checked to give it back. *)

From S2P Require Import Prelude Memory Virtio VirtioRing VirtioQueue VirtioMmio.

(** ** Constants and the configuration structure *)

Definition VIRTIO_BLK_F_SIZE_MAX : Z := 1.
Definition VIRTIO_BLK_F_SEG_MAX : Z := 2.
Definition VIRTIO_BLK_F_GEOMETRY : Z := 4.
Definition VIRTIO_BLK_F_RO : Z := 5.
Definition VIRTIO_BLK_F_BLK_SIZE : Z := 6.
Definition VIRTIO_BLK_F_FLUSH : Z := 9.
Definition VIRTIO_BLK_F_TOPOLOGY : Z := 10.
Definition VIRTIO_BLK_F_CONFIG_WCE : Z := 11.
Definition VIRTIO_BLK_F_MQ : Z := 12.
Definition PART_BITS : Z := 4.
Definition DISK_NAME_LEN : Z := 32.

(** The driver's feature table. *)
Definition features : list Z :=
  [VIRTIO_BLK_F_SEG_MAX; VIRTIO_BLK_F_SIZE_MAX; VIRTIO_BLK_F_GEOMETRY; VIRTIO_BLK_F_RO;
   VIRTIO_BLK_F_BLK_SIZE; VIRTIO_BLK_F_FLUSH; VIRTIO_BLK_F_TOPOLOGY; VIRTIO_BLK_F_CONFIG_WCE;
   VIRTIO_BLK_F_MQ].

(** A member of struct virtio_blk_config: its offset and its size. *)
Record member := Member { mb_off : Z; mb_size : nat }.
Definition capacity : member := Member 0 8.
Definition size_max : member := Member 8 4.
Definition seg_max : member := Member 12 4.
Definition blk_size : member := Member 20 4.
Definition physical_block_exp : member := Member 24 1.
Definition alignment_offset : member := Member 25 1.
Definition min_io_size : member := Member 26 2.
Definition opt_io_size : member := Member 28 4.
Definition wce : member := Member 32 1.
Definition num_queues : member := Member 34 2.

(** ** Names of disks *)

(** The letters of [index], the last one first written; [room] is the distance
    from [begin] to [p]. *)
Fixpoint name_letters (room : nat) (index : Z) (p : list Z) : option (list Z) :=
  match room with
  | O => None
  | S room' =>
      let p := (97 + index mod 26) :: p in
      let index := index / 26 - 1 in
      if 0 <=? index then name_letters room' index p else Some p
  end.

(** The name without its terminator, or -EINVAL. *)
Definition virtblk_name_format (prefix : list Z) (index buflen : Z) : Z + list Z :=
  match name_letters (Z.to_nat (buflen - 1 - Z.of_nat (length prefix))) index [] with
  | None => inl (- EINVAL)
  | Some letters => inr (prefix ++ letters)
  end.

Definition index_to_minor (index : Z) : Z := Z.shiftl index PART_BITS.
Definition minor_to_index (minor : Z) : Z := Z.shiftr minor PART_BITS.

(** ** The environment *)

(** What the probe gets from the kernel and has to give back. *)
Inductive resource :=
  | RIndex | RVblk | RVqArray | RNames | RCallbacks | RVqs | RVirtqueues | RDisk | RTagSet | RQueue | RGendisk.

#[export] Instance resource_eq_dec : EqDecision resource.
Proof. solve_decision. Defined.

(** Calls that configure the disk. *)
Inductive setting :=
  | SNumQueues (n : Z) | SQueueDepth (n : Z) | SName (name : list Z) | SFirstMinor (minor : Z) | SWriteCache (wc : Z) | SReadOnly
  | SCapacity (sectors : Z) | SMaxSegments (n : Z) | SBounceAny | SMaxHwSectors (n : Z) | SMaxSegmentSize (n : Z)
  | SLogicalBlockSize (n : Z) | SPhysicalBlockSize (n : Z) | SAlignmentOffset (n : Z)
  | SIoMin (n : Z) | SIoOpt (n : Z).

(** The answers of the kernel: the index (negative: an error), whether the
    allocations succeed, the results of find_vqs, blk_mq_alloc_tag_set and
    device_create_file, the free descriptors of the first queue and the block
    size of a new queue. *)
Record env := Env {
  e_index : Z;
  e_vblk : bool;
  e_vq_array : bool;
  e_names : bool;
  e_callbacks : bool;
  e_vqs : bool;
  e_find_vqs : Z;
  e_alloc_disk : bool;
  e_tag_set : Z;
  e_init_queue : bool;
  e_serial : Z;
  e_cache_type : Z;
  e_num_free : Z;
  e_block_size : Z;
}.

(** The device, what is held, the settings of the disk, newest last, and the
    static [virtblk_queue_depth]. *)
Record pstate (D : Type) := PState {
  p_host : vstate D;
  p_held : list resource;
  p_settings : list setting;
  p_queue_depth : Z;
}.
Arguments PState {D} _ _ _ _.
Arguments p_host {D} _.
Arguments p_held {D} _.
Arguments p_settings {D} _.
Arguments p_queue_depth {D} _.

Fixpoint remove_first (r : resource) (l : list resource) : option (list resource) :=
  match l with
  | [] => None
  | r' :: l' => if decide (r = r') then Some l' else l'' ← remove_first r l'; Some (r' :: l'')
  end.

Section Probe.
Context {D : Type} (ops : virtio_dev_ops D) (fuel : nat) (version : Z).
Abbreviation PM := (M (pstate D)).

Definition dev {A} (c : M (vstate D) A) : PM A :=
  fun s => match c (p_host s) with
           | Ok (a, h) => Ok (a, PState h (p_held s) (p_settings s) (p_queue_depth s))
           | Fail e => Fail e
           end.

Definition hold (r : resource) : PM unit :=
  fun s => Ok (tt, PState (p_host s) (r :: p_held s) (p_settings s) (p_queue_depth s)).

(** Giving back what is not held is an error of the driver. *)
Definition give_back (r : resource) : PM unit :=
  fun s => match remove_first r (p_held s) with
           | Some l => Ok (tt, PState (p_host s) l (p_settings s) (p_queue_depth s))
           | None => Fail Panicked
           end.

Definition set (x : setting) : PM unit :=
  fun s => Ok (tt, PState (p_host s) (p_held s) (p_settings s ++ [x]) (p_queue_depth s)).

(** ** Configuration accesses *)

(** __virtio_cread_many for one field: read again until the generation is the
    same before and after. *)
Fixpoint cread_many (n : nat) (offset : Z) (bytes : nat) (gen : Z) : PM Z :=
  match n with
  | O => failM NoFuel
  | S n' =>
      let* buf := dev (vm_get version offset bytes) in
      let* gen' := dev (vm_generation version) in
      if gen' =? gen then retM (le_value buf) else cread_many n' offset bytes gen'
  end.

Definition virtio_cread (m : member) : PM Z :=
  if (mb_size m =? 8)%nat then
    let* gen := dev (vm_generation version) in
    cread_many fuel (mb_off m) 8 gen
  else
    let* buf := dev (vm_get version (mb_off m) (mb_size m)) in retM (le_value buf).

(** virtio_cread_feature: [None] is -ENOENT. *)
Definition virtio_cread_feature (feats fbit : Z) (m : member) : PM (option Z) :=
  if virtio_test_bit feats fbit then let* v := virtio_cread m in retM (Some v) else retM None.

(** ** Set-up *)

(** kmalloc and kfree, which takes NULL too; [ok] says that the allocation succeeds. *)
Definition kmalloc (ok : bool) (r : resource) : PM unit := if ok then hold r else retM tt.
Definition kfree (ok : bool) (r : resource) : PM unit := if ok then give_back r else retM tt.

(** The error and the number of queues; allocating an array of no entry at all
    gives a pointer that is not NULL. *)
Definition init_vq (e : env) (feats : Z) : PM (Z * Z) :=
  let* num := virtio_cread_feature feats VIRTIO_BLK_F_MQ num_queues in
  let num_vqs := default 1 num in
  if negb (e_vq_array e) then retM (- ENOMEM, num_vqs)
  else
    hold RVqArray ;;;
    kmalloc (e_names e) RNames ;;;
    kmalloc (e_callbacks e) RCallbacks ;;;
    kmalloc (e_vqs e) RVqs ;;;
    let err := if negb (e_names e) || negb (e_callbacks e) || negb (e_vqs e) then - ENOMEM else e_find_vqs e in
    (if err =? 0 then hold RVirtqueues ;;; set (SNumQueues num_vqs) else retM tt) ;;;
    kfree (e_vqs e) RVqs ;;;
    kfree (e_callbacks e) RCallbacks ;;;
    kfree (e_names e) RNames ;;;
    (if negb (err =? 0) then give_back RVqArray else retM tt) ;;;
    retM (err, num_vqs).

Definition virtblk_get_cache_mode (feats : Z) : PM Z :=
  let* writeback := virtio_cread_feature feats VIRTIO_BLK_F_CONFIG_WCE wce in
  retM (match writeback with
        | Some v => v
        | None => if virtio_test_bit feats VIRTIO_BLK_F_FLUSH then 1 else 0
        end).

Definition virtblk_update_cache_mode (feats : Z) : PM unit :=
  let* writeback := virtblk_get_cache_mode feats in set (SWriteCache writeback).

Definition virtio_device_ready : PM unit :=
  let* status := dev vm_get_status in
  if negb (Z.land status VIRTIO_CONFIG_S_DRIVER_OK =? 0) then failM Panicked
  else dev (vm_set_status ops fuel (Z.lor status VIRTIO_CONFIG_S_DRIVER_OK)).

(** The capacity as a sector_t: 64 bits, so the source's truncation is none. *)
Definition set_capacity : PM unit := let* cap := virtio_cread capacity in set (SCapacity cap).

(** A limit that is set when the host gives one that is not 0. *)
Definition optional_limit (feats : Z) (m : member) (f : Z -> setting) : PM unit :=
  let* v := virtio_cread_feature feats VIRTIO_BLK_F_TOPOLOGY m in
  match v with
  | Some v => if v =? 0 then retM tt else set (f v)
  | None => retM tt
  end.

(** The part of the probe between the queue and the disk's announcement. *)
Definition set_limits (e : env) (feats sg_elems : Z) : PM unit :=
  set (SMaxSegments (u32 (sg_elems - 2))) ;;;
  set SBounceAny ;;;
  set (SMaxHwSectors 0xffffffff) ;;;
  let* v := virtio_cread_feature feats VIRTIO_BLK_F_SIZE_MAX size_max in
  set (SMaxSegmentSize (default 0xffffffff v)) ;;;
  let* bs := virtio_cread_feature feats VIRTIO_BLK_F_BLK_SIZE blk_size in
  match bs with Some v => set (SLogicalBlockSize v) | None => retM tt end ;;;
  let size := default (e_block_size e) bs in
  optional_limit feats physical_block_exp (fun x => SPhysicalBlockSize (u32 (size * Z.shiftl 1 x))) ;;;
  optional_limit feats alignment_offset (fun x => SAlignmentOffset (u32 (size * x))) ;;;
  optional_limit feats min_io_size (fun x => SIoMin (u32 (size * x))) ;;;
  optional_limit feats opt_io_size (fun x => SIoOpt (u32 (size * x))).

(** The gotos of the error path, in the order they fall through. *)
Definition out_free_index (err : Z) : PM Z := give_back RIndex ;;; retM err.
Definition out_free_vblk (err : Z) : PM Z := give_back RVblk ;;; out_free_index err.
Definition out_free_vq (err : Z) : PM Z := give_back RVirtqueues ;;; out_free_vblk err.
Definition out_put_disk (err : Z) : PM Z := give_back RDisk ;;; out_free_vq err.
Definition out_free_tags (err : Z) : PM Z := give_back RTagSet ;;; out_put_disk err.
Definition out_del_disk (err : Z) : PM Z :=
  give_back RGendisk ;;; give_back RQueue ;;; out_free_tags err.

(** Default queue sizing: it fills the ring, with two descriptors per request.
    [vblk->vqs[0].vq] of no queue at all is a wild pointer. *)
Definition size_queue (e : env) (feats num_vqs : Z) : PM unit := fun s =>
  if negb (p_queue_depth s =? 0) then Ok (tt, s)
  else if num_vqs =? 0 then Fail Segv
  else Ok (tt, PState (p_host s) (p_held s) (p_settings s)
    (if virtio_test_bit feats VIRTIO_RING_F_INDIRECT_DESC then e_num_free e else e_num_free e / 2)).

Definition set_queue_depth : PM unit := fun s => set (SQueueDepth (p_queue_depth s)) s.

(** What is set before the driver announces itself. *)
Definition describe_disk (e : env) (feats index sg_elems : Z) : PM unit :=
  match virtblk_name_format [118; 100] index DISK_NAME_LEN with
  | inr name => set (SName name)
  | inl _ => retM tt
  end ;;;
  set (SFirstMinor (index_to_minor index)) ;;;
  virtblk_update_cache_mode feats ;;;
  (if virtio_test_bit feats VIRTIO_BLK_F_RO then set SReadOnly else retM tt) ;;;
  set_capacity ;;;
  set_limits e feats sg_elems.

(** From the disk on. *)
Definition probe_disk (e : env) (feats index sg_elems num_vqs : Z) : PM Z :=
  if negb (e_alloc_disk e) then out_free_vq (- ENOMEM)
  else
    hold RDisk ;;;
    size_queue e feats num_vqs ;;;
    set_queue_depth ;;;
    if negb (e_tag_set e =? 0) then out_put_disk (e_tag_set e)
    else
      hold RTagSet ;;;
      if negb (e_init_queue e) then out_free_tags (- ENOMEM)
      else
        hold RQueue ;;;
        describe_disk e feats index sg_elems ;;;
        virtio_device_ready ;;;
        hold RGendisk ;;;
        if negb (e_serial e =? 0) then out_del_disk (e_serial e)
        else if negb (e_cache_type e =? 0) then out_del_disk (e_cache_type e)
        else retM 0.

(** [config->get] of the transport is never NULL. *)
Definition virtblk_probe (e : env) (feats : Z) : PM Z :=
  if e_index e <? 0 then retM (e_index e)
  else
    hold RIndex ;;;
    let* seg := virtio_cread_feature feats VIRTIO_BLK_F_SEG_MAX seg_max in
    let sg_elems := match seg with Some v => if v =? 0 then 1 else v | None => 1 end in
    let sg_elems := u32 (sg_elems + 2) in
    if negb (e_vblk e) then out_free_index (- ENOMEM)
    else
      hold RVblk ;;;
      let* r := init_vq e feats in
      let (err, num_vqs) := r : Z * Z in
      if negb (err =? 0) then out_free_vblk err
      else probe_disk e feats (e_index e) sg_elems num_vqs.

(** ** Removal; [refc] is the reference count of the disk. *)
Definition virtblk_remove (refc : Z) : PM unit :=
  give_back RGendisk ;;;
  give_back RQueue ;;;
  give_back RTagSet ;;;
  dev (vm_reset ops fuel) ;;;
  give_back RDisk ;;;
  give_back RVirtqueues ;;;
  give_back RVqArray ;;;
  give_back RVblk ;;;
  if refc =? 1 then give_back RIndex else retM tt.

End Probe.

(** ** Names *)

(** The number a name stands for: "a" is 1, "z" 26, "aa" 27. *)
Definition letters_value (l : list Z) : Z := fold_left (fun n c => 26 * n + (c - 96)) l 0.

Definition letter (c : Z) : Prop := 97 <= c <= 122.

Lemma letters_value_snoc l c : letters_value (l ++ [c]) = 26 * letters_value l + (c - 96).
Proof. unfold letters_value. by rewrite fold_left_app. Qed.

Lemma name_letters_ok room index p :
  0 <= index -> index + 1 < 26 ^ Z.of_nat room ->
  exists l, name_letters room index p = Some (l ++ p) /\ letters_value l = index + 1 /\
    Forall letter l /\ (length l <= room)%nat.
Proof.
  revert index p. induction room as [|room IH]; intros index p H0 Hi; [simpl in Hi; lia|].
  cbn [name_letters]. pose proof (Z.mod_pos_bound index 26). pose proof (Z_div_mod_eq_full index 26).
  assert (letter (97 + index mod 26)) by (unfold letter; lia).
  destruct (Z.leb_spec 0 (index / 26 - 1)) as [Hq|Hq].
  - destruct (IH (index / 26 - 1) ((97 + index mod 26) :: p)) as (l & -> & Hv & Hl & Hn).
    { done. }
    { rewrite Nat2Z.inj_succ, Z.pow_succ_r in Hi by lia.
      assert (index / 26 < 26 ^ Z.of_nat room) by (apply Z.div_lt_upper_bound; lia). lia. }
    exists (l ++ [97 + index mod 26]). rewrite <- app_assoc, letters_value_snoc, Hv, length_app.
    split_and!; [done|lia| |simpl; lia]. apply Forall_app. split; [done|]. by apply Forall_singleton.
  - exists [97 + index mod 26]. split_and!; [done| |by apply Forall_singleton|simpl; lia].
    unfold letters_value. cbn [fold_left]. assert (0 <= index / 26) by (apply Z.div_pos; lia). lia.
Qed.

Lemma name_format_ok prefix index :
  (length prefix <= 2)%nat -> 0 <= index < 2 ^ 31 ->
  exists l, virtblk_name_format prefix index DISK_NAME_LEN = inr (prefix ++ l) /\
    letters_value l = index + 1 /\ Forall letter l /\
    (length (prefix ++ l) < Z.to_nat DISK_NAME_LEN)%nat.
Proof.
  intros Hp Hi. unfold virtblk_name_format. set (room := Z.to_nat (DISK_NAME_LEN - 1 - _)).
  assert (29 <= room)%nat as Hr by (unfold room, DISK_NAME_LEN; lia).
  destruct (name_letters_ok room index []) as (l & -> & Hv & Hl & Hn).
  { lia. }
  { apply Z.lt_le_trans with (26 ^ 29); [|apply Z.pow_le_mono_r; lia].
    apply Z.le_lt_trans with (2 ^ 31); [lia|]. vm_compute. reflexivity. }
  rewrite app_nil_r. exists l. split_and!; try done. rewrite length_app.
  unfold room, DISK_NAME_LEN in *. lia.
Qed.

(** ** Running the probe *)

Section Run.
Context {D : Type} (ops : virtio_dev_ops D) (fuel : nat) (Hfuel : (0 < fuel)%nat).
Implicit Types s : pstate D.

Definition add_settings (ss : list setting) s : pstate D :=
  PState (p_host s) (p_held s) (p_settings s ++ ss) (p_queue_depth s).

(** The configuration structure is there. *)
Definition conf_ok (h : vstate D) : Prop := config_ok (v_dev h) /\ 36 <= d_config_len (v_dev h).

Definition member_ok (m : member) : Prop :=
  0 <= mb_off m /\ mb_off m + Z.of_nat (mb_size m) <= 36 /\ mb_size m ∈ [1; 2; 4; 8]%nat.

(** The value of a member. *)
Definition field (h : vstate D) (m : member) : Z :=
  le_value (config_bytes (v_dev h) (mb_off m) (mb_size m)).

Lemma dev_ok {A} (c : M (vstate D) A) s a h :
  c (p_host s) = Ok (a, h) ->
  dev c s = Ok (a, PState h (p_held s) (p_settings s) (p_queue_depth s)).
Proof. intros E. unfold dev. by rewrite E. Qed.

Lemma dev_same {A} (c : M (vstate D) A) s a : c (p_host s) = Ok (a, p_host s) -> dev c s = Ok (a, s).
Proof. intros E. rewrite (dev_ok _ _ _ _ E). by destruct s. Qed.

Lemma generation_ok (h : vstate D) : exists g, vm_generation 2 h = Ok (g, h).
Proof.
  eexists. unfold vm_generation. cbn [Z.eqb Pos.eqb]. unfold readl, raw_read, bindM.
  change (virtio_read VIRTIO_MMIO_CONFIG_GENERATION (Z.of_nat 4) h)
    with (@Ok (Z * list Z * vstate D) (0, le_bytes 4 (d_config_gen (v_dev h)), h)). done.
Qed.

Lemma cread_ok m s : conf_ok (p_host s) -> member_ok m ->
  virtio_cread fuel 2 m s = Ok (field (p_host s) m, s).
Proof.
  intros [Hc Hl] (Ho & Hn & Hs).
  assert (dev (vm_get 2 (mb_off m) (mb_size m)) s =
    Ok (config_bytes (v_dev (p_host s)) (mb_off m) (mb_size m), s)) as E.
  { apply dev_same, vm_get_config; [done|done|done|lia]. }
  unfold virtio_cread. destruct (Nat.eqb_spec (mb_size m) 8) as [H8|_].
  - destruct (generation_ok (p_host s)) as [g Hg]. pose proof (dev_same _ _ _ Hg) as Eg.
    rewrite (bindM_ok _ _ _ _ _ Eg). destruct fuel as [|n]; [lia|]. cbn [cread_many].
    rewrite H8 in E. rewrite (bindM_ok _ _ _ _ _ E), (bindM_ok _ _ _ _ _ Eg), Z.eqb_refl.
    unfold field. by rewrite H8.
  - by rewrite (bindM_ok _ _ _ _ _ E).
Qed.

Lemma cread_feature_ok feats fbit m s : conf_ok (p_host s) -> member_ok m ->
  virtio_cread_feature fuel 2 feats fbit m s =
    Ok (if virtio_test_bit feats fbit then Some (field (p_host s) m) else None, s).
Proof.
  intros Hc Hm. unfold virtio_cread_feature. destruct (virtio_test_bit feats fbit); [|done].
  by rewrite (bindM_ok _ _ _ _ _ (cread_ok m s Hc Hm)).
Qed.

Lemma set_ok x s : set x s = Ok (tt, add_settings [x] s).
Proof. done. Qed.

Lemma add_settings_app s a b : add_settings b (add_settings a s) = add_settings (a ++ b) s.
Proof. unfold add_settings. simpl. by rewrite app_assoc. Qed.

Lemma add_settings_nil s : add_settings [] s = s.
Proof. unfold add_settings. rewrite app_nil_r. by destruct s. Qed.

(** [c] only adds settings: those of [f]. *)
Definition adds (c : M (pstate D) unit) (f : vstate D -> list setting) : Prop :=
  forall s, conf_ok (p_host s) -> c s = Ok (tt, add_settings (f (p_host s)) s).

Lemma adds_seq c1 c2 f1 f2 : adds c1 f1 -> adds c2 f2 ->
  adds (c1 ;;; c2) (fun h => f1 h ++ f2 h).
Proof.
  intros H1 H2 s Hc. rewrite (bindM_ok _ _ _ _ _ (H1 s Hc)), (H2 (add_settings _ s) Hc).
  by rewrite add_settings_app.
Qed.

Lemma adds_set x : adds (set x) (fun _ => [x]).
Proof. by intros s _. Qed.

Lemma adds_none : adds (retM tt) (fun _ => []).
Proof. intros s _. unfold retM. by rewrite add_settings_nil. Qed.

Lemma adds_read {A} (c : M (pstate D) A) (v : vstate D -> A) k f :
  (forall s, conf_ok (p_host s) -> c s = Ok (v (p_host s), s)) ->
  (forall x, adds (k x) (f x)) -> adds (bindM c k) (fun h => f (v h) h).
Proof. intros Hc Hk s Hs. rewrite (bindM_ok _ _ _ _ _ (Hc s Hs)). by apply Hk. Qed.

Definition opt_field (feats fbit : Z) (m : member) (h : vstate D) : option Z :=
  if virtio_test_bit feats fbit then Some (field h m) else None.

Lemma adds_feature feats fbit m k f : member_ok m -> (forall x, adds (k x) (f x)) ->
  adds (bindM (virtio_cread_feature fuel 2 feats fbit m) k)
    (fun h => f (opt_field feats fbit m h) h).
Proof. intros Hm Hk. apply adds_read; [|done]. intros s Hs. by apply cread_feature_ok. Qed.

Definition opt_setting (v : option Z) (f : Z -> setting) : list setting :=
  match v with Some v => if v =? 0 then [] else [f v] | None => [] end.

Lemma adds_optional feats m f : member_ok m ->
  adds (optional_limit fuel 2 feats m f)
    (fun h => opt_setting (opt_field feats VIRTIO_BLK_F_TOPOLOGY m h) f).
Proof.
  intros Hm. unfold optional_limit. apply (adds_feature _ _ _ _ (fun v _ => opt_setting v f) Hm).
  intros [v|]; [|apply adds_none]. unfold opt_setting. destruct (v =? 0); [apply adds_none|apply adds_set].
Qed.

Ltac member_ok := unfold member_ok; simpl; split_and!; [lia|lia|set_solver].

(** The limits that come after the block size [bs] of the host. *)
Definition block_limits (e : env) (feats : Z) (bs : option Z) (h : vstate D) : list setting :=
  let size := default (e_block_size e) bs in
  let topology m f := opt_setting (opt_field feats VIRTIO_BLK_F_TOPOLOGY m h) f in
  match bs with Some v => [SLogicalBlockSize v] | None => [] end ++
  topology physical_block_exp (fun x => SPhysicalBlockSize (u32 (size * Z.shiftl 1 x))) ++
  topology alignment_offset (fun x => SAlignmentOffset (u32 (size * x))) ++
  topology min_io_size (fun x => SIoMin (u32 (size * x))) ++
  topology opt_io_size (fun x => SIoOpt (u32 (size * x))).

(** The limits of the request queue. *)
Definition limits (e : env) (feats sg_elems : Z) (h : vstate D) : list setting :=
  [SMaxSegments (u32 (sg_elems - 2))] ++ [SBounceAny] ++ [SMaxHwSectors 0xffffffff] ++
  [SMaxSegmentSize (default 0xffffffff (opt_field feats VIRTIO_BLK_F_SIZE_MAX size_max h))] ++
  block_limits e feats (opt_field feats VIRTIO_BLK_F_BLK_SIZE blk_size h) h.

Lemma adds_limits e feats sg_elems : adds (set_limits fuel 2 e feats sg_elems) (limits e feats sg_elems).
Proof.
  unfold set_limits, limits.
  do 3 (apply (adds_seq _ _ (fun _ => [_])); [apply adds_set|]).
  apply (adds_feature _ _ _ _ (fun v h => [SMaxSegmentSize (default 0xffffffff v)] ++
    block_limits e feats (opt_field feats VIRTIO_BLK_F_BLK_SIZE blk_size h) h)); [member_ok|].
  intros v. apply (adds_seq _ _ (fun _ => [_])); [apply adds_set|].
  apply (adds_feature _ _ _ _ (block_limits e feats)); [member_ok|].
  intros bs. apply (adds_seq _ _ (fun _ => match bs with Some v => [SLogicalBlockSize v] | None => [] end)).
  { destruct bs; [apply adds_set|apply adds_none]. }
  do 3 (eapply adds_seq; [apply adds_optional; member_ok|]). apply adds_optional. member_ok.
Qed.

(** The driver is announced. *)
Lemma device_ready_ok s :
  0 <= d_status (v_dev (p_host s)) < 256 ->
  Z.land (d_status (v_dev (p_host s))) VIRTIO_CONFIG_S_DRIVER_OK = 0 ->
  exists d', virtio_device_ready ops fuel s =
    Ok (tt, PState (set_dev d' (p_host s)) (p_held s) (p_settings s) (p_queue_depth s)).
Proof.
  intros Hr Hn. unfold virtio_device_ready.
  rewrite (bindM_ok _ _ _ _ _ (dev_same _ s _ (vm_get_status_ok _ Hr))), Hn. cbn [Z.eqb negb].
  pose proof (add_status_ok ops fuel VIRTIO_CONFIG_S_DRIVER_OK (p_host s) Hr) as E.
  unfold add_status in E. rewrite (bindM_ok _ _ _ _ _ (vm_get_status_ok _ Hr)) in E.
  eexists. apply dev_ok. apply E. unfold VIRTIO_CONFIG_S_DRIVER_OK. lia.
Qed.

Definition cache_mode (feats : Z) (h : vstate D) : Z :=
  match opt_field feats VIRTIO_BLK_F_CONFIG_WCE wce h with
  | Some v => v
  | None => if virtio_test_bit feats VIRTIO_BLK_F_FLUSH then 1 else 0
  end.

(** What the probe tells the block layer. *)
Definition configured (e : env) (feats index sg_elems : Z) (h : vstate D) : list setting :=
  match virtblk_name_format [118; 100] index DISK_NAME_LEN with inr name => [SName name] | inl _ => [] end ++
  [SFirstMinor (index_to_minor index)] ++
  [SWriteCache (cache_mode feats h)] ++
  (if virtio_test_bit feats VIRTIO_BLK_F_RO then [SReadOnly] else []) ++
  [SCapacity (field h capacity)] ++
  limits e feats sg_elems h.

Lemma adds_describe e feats index sg_elems :
  adds (describe_disk fuel 2 e feats index sg_elems) (configured e feats index sg_elems).
Proof.
  unfold describe_disk, configured.
  apply (adds_seq _ _ (fun _ => match virtblk_name_format [118; 100] index DISK_NAME_LEN with
    inr name => [SName name] | inl _ => [] end)).
  { destruct (virtblk_name_format _ _ _); [apply adds_none|apply adds_set]. }
  apply (adds_seq _ _ (fun _ => [_])); [apply adds_set|].
  apply (adds_seq _ _ (fun h => [SWriteCache (cache_mode feats h)])).
  { unfold virtblk_update_cache_mode, virtblk_get_cache_mode. intros s Hc. rewrite bindM_assoc.
    rewrite (bindM_ok _ _ _ _ _ (cread_feature_ok feats VIRTIO_BLK_F_CONFIG_WCE wce s Hc ltac:(member_ok))).
    done. }
  apply (adds_seq _ _ (fun _ => if virtio_test_bit feats VIRTIO_BLK_F_RO then [SReadOnly] else [])).
  { destruct (virtio_test_bit _ _); [apply adds_set|apply adds_none]. }
  apply (adds_seq _ _ (fun h => [SCapacity (field h capacity)])); [|apply adds_limits].
  intros s Hc. unfold set_capacity.
  by rewrite (bindM_ok _ _ _ _ _ (cread_ok capacity s Hc ltac:(member_ok))).
Qed.

(** The result of [init_vq]. *)
Definition vq_error (e : env) : Z :=
  if negb (e_vq_array e) || (negb (e_names e) || negb (e_callbacks e) || negb (e_vqs e)) then - ENOMEM
  else e_find_vqs e.

Definition num_vqs_of (feats : Z) (h : vstate D) : Z :=
  default 1 (opt_field feats VIRTIO_BLK_F_MQ num_queues h).

Definition vq_settings (feats : Z) (h : vstate D) : list setting := [SNumQueues (num_vqs_of feats h)].

Lemma init_vq_ok e feats s : conf_ok (p_host s) ->
  init_vq fuel 2 e feats s =
    Ok (vq_error e, num_vqs_of feats (p_host s), if vq_error e =? 0
      then PState (p_host s) (RVirtqueues :: RVqArray :: p_held s)
             (p_settings s ++ vq_settings feats (p_host s)) (p_queue_depth s)
      else s).
Proof.
  intros Hc. unfold init_vq.
  rewrite (bindM_ok _ _ _ _ _ (cread_feature_ok feats VIRTIO_BLK_F_MQ num_queues s Hc ltac:(member_ok))).
  fold (opt_field feats VIRTIO_BLK_F_MQ num_queues (p_host s)). fold (num_vqs_of feats (p_host s)).
  unfold vq_error, vq_settings, kmalloc, kfree. destruct s as [h l ss depth]. cbn [p_host].
  generalize (num_vqs_of feats h) as n. intros n.
  destruct (e_vq_array e); [|done]. cbn [negb orb].
  destruct (e_names e), (e_callbacks e), (e_vqs e); try done. cbn [negb orb].
  destruct (e_find_vqs e =? 0) eqn:He; unfold bindM, hold, set, give_back; cbn; rewrite ?He; done.
Qed.

(** Whether the virtqueues were set up, and the result of the probe. *)
Definition vqs_set_up (e : env) : bool :=
  (0 <=? e_index e) && e_vblk e && (vq_error e =? 0).

Definition disk_result (e : env) : Z :=
  if negb (e_alloc_disk e) then - ENOMEM
  else if negb (e_tag_set e =? 0) then e_tag_set e
  else if negb (e_init_queue e) then - ENOMEM
  else if negb (e_serial e =? 0) then e_serial e
  else e_cache_type e.

Definition probe_result (e : env) : Z :=
  if e_index e <? 0 then e_index e
  else if negb (e_vblk e) then - ENOMEM
  else if negb (vq_error e =? 0) then vq_error e
  else disk_result e.

(** Everything a disk in use holds. *)
Definition in_use : list resource :=
  [RGendisk; RQueue; RTagSet; RDisk; RVirtqueues; RVqArray; RVblk; RIndex].

Definition depth_after (e : env) (feats depth : Z) : Z :=
  if depth =? 0 then
    if virtio_test_bit feats VIRTIO_RING_F_INDIRECT_DESC then e_num_free e else e_num_free e / 2
  else depth.

(** Whether the probe reads the free descriptors of a queue that is not there. *)
Definition no_first_queue (e : env) (feats depth : Z) (h : vstate D) : bool :=
  vqs_set_up e && e_alloc_disk e && (depth =? 0) && (num_vqs_of feats h =? 0).

Lemma probe_disk_ok e feats index sg_elems num_vqs h l ss depth :
  conf_ok h -> e_alloc_disk e && (depth =? 0) && (num_vqs =? 0) = false -> 0 <= d_status (v_dev h) < 256 ->
  Z.land (d_status (v_dev h)) VIRTIO_CONFIG_S_DRIVER_OK = 0 ->
  exists h' ss' depth', probe_disk ops fuel 2 e feats index sg_elems num_vqs
      (PState h (RVirtqueues :: RVqArray :: RVblk :: RIndex :: l) ss depth) =
    Ok (disk_result e, PState h' (if disk_result e =? 0 then in_use ++ l else RVqArray :: l) ss' depth') /\
    (disk_result e = 0 -> ss' = ss ++ [SQueueDepth (depth_after e feats depth)] ++
       configured e feats index sg_elems h).
Proof.
  intros Hc Hq Hr Hn. unfold probe_disk, disk_result.
  destruct (e_alloc_disk e); [|by do 3 eexists]. cbn [negb andb] in *.
  set (s1 := PState h (RDisk :: RVirtqueues :: RVqArray :: RVblk :: RIndex :: l)
    (ss ++ [SQueueDepth (depth_after e feats depth)]) (depth_after e feats depth)).
  assert (forall A (k : M (pstate D) A),
    (hold RDisk ;;; size_queue e feats num_vqs ;;; set_queue_depth ;;; k)
      (PState h (RVirtqueues :: RVqArray :: RVblk :: RIndex :: l) ss depth) = k s1) as ->.
  { intros A k. unfold bindM, hold, size_queue, set_queue_depth, set, s1, depth_after. cbn.
    destruct (depth =? 0); [|done]. cbn [negb andb] in *. by rewrite Hq. }
  destruct (e_tag_set e =? 0) eqn:Ht; cbn [negb].
  2:{ do 3 eexists. split; [unfold s1; by rewrite Ht|]. intros H0. by rewrite H0 in Ht. }
  destruct (e_init_queue e); cbn [negb]; [|by do 3 eexists].
  set (s2 := PState h (RQueue :: RTagSet :: RDisk :: RVirtqueues :: RVqArray :: RVblk :: RIndex :: l)
    (ss ++ [SQueueDepth (depth_after e feats depth)]) (depth_after e feats depth)).
  rewrite (bindM_ok (hold RTagSet) _ s1 tt (PState h (RTagSet :: p_held s1) (p_settings s1) (p_queue_depth s1)))
    by done.
  rewrite (bindM_ok (hold RQueue) _ _ tt s2) by done.
  rewrite (bindM_ok _ _ _ _ _ (adds_describe e feats index sg_elems s2 Hc)).
  destruct (device_ready_ok (add_settings (configured e feats index sg_elems h) s2) Hr Hn) as [d' E].
  change (p_host s2) with h. rewrite (bindM_ok _ _ _ _ _ E).
  unfold bindM at 1, hold. cbn [p_host p_held p_settings p_queue_depth add_settings s2].
  destruct (e_serial e =? 0) eqn:Hs; cbn [negb].
  2:{ do 3 eexists. split; [by rewrite Hs|]. intros H0. by rewrite H0 in Hs. }
  destruct (e_cache_type e =? 0) eqn:Hct; cbn [negb].
  - apply Z.eqb_eq in Hct. rewrite Hct. do 3 eexists. split; [done|]. intros _. by rewrite app_assoc.
  - do 3 eexists. split; [done|]. intros H0. by rewrite H0 in Hct.
Qed.

(** The scatterlist entries a request may need. *)
Definition sg_elems_of (feats : Z) (h : vstate D) : Z :=
  u32 (match opt_field feats VIRTIO_BLK_F_SEG_MAX seg_max h with
       | Some v => if v =? 0 then 1 else v
       | None => 1
       end + 2).

(** Up to the virtqueues. *)
Lemma probe_prefix e feats h l ss depth :
  conf_ok h ->
  virtblk_probe ops fuel 2 e feats (PState h l ss depth) =
    if e_index e <? 0 then Ok (e_index e, PState h l ss depth)
    else if negb (e_vblk e) then Ok (- ENOMEM, PState h l ss depth)
    else if negb (vq_error e =? 0) then Ok (vq_error e, PState h l ss depth)
    else probe_disk ops fuel 2 e feats (e_index e) (sg_elems_of feats h) (num_vqs_of feats h)
           (PState h (RVirtqueues :: RVqArray :: RVblk :: RIndex :: l) (ss ++ vq_settings feats h) depth).
Proof.
  intros Hc. unfold virtblk_probe. destruct (e_index e <? 0); [done|].
  set (s1 := PState h (RIndex :: l) ss depth).
  rewrite (bindM_ok (hold RIndex) _ _ tt s1) by done.
  rewrite (bindM_ok _ _ _ _ _ (cread_feature_ok feats VIRTIO_BLK_F_SEG_MAX seg_max s1 Hc ltac:(member_ok))).
  change (if virtio_test_bit feats VIRTIO_BLK_F_SEG_MAX then Some (field (p_host s1) seg_max) else None)
    with (opt_field feats VIRTIO_BLK_F_SEG_MAX seg_max h). fold (sg_elems_of feats h).
  destruct (e_vblk e); [|done]. cbn [negb].
  set (s2 := PState h (RVblk :: RIndex :: l) ss depth).
  rewrite (bindM_ok (hold RVblk) _ _ tt s2) by done.
  rewrite (bindM_ok _ _ _ _ _ (init_vq_ok e feats s2 Hc)). by destruct (vq_error e =? 0).
Qed.

Lemma probe_crashes e feats h l ss depth :
  conf_ok h -> no_first_queue e feats depth h = true ->
  virtblk_probe ops fuel 2 e feats (PState h l ss depth) = Fail Segv.
Proof.
  intros Hc Hq. rewrite (probe_prefix _ _ _ _ _ _ Hc). unfold no_first_queue, vqs_set_up in Hq.
  rewrite !andb_true_iff in Hq. destruct Hq as (((((Hi & Hv) & He) & Ha) & Hd) & Hn).
  rewrite (proj2 (Z.ltb_ge _ _)) by (by apply Z.leb_le). rewrite Hv, He. cbn [negb].
  unfold probe_disk. rewrite Ha. unfold bindM, hold, size_queue. cbn. by rewrite Hd, Hn.
Qed.

Lemma probe_ok e feats h l ss depth :
  conf_ok h -> no_first_queue e feats depth h = false -> 0 <= d_status (v_dev h) < 256 ->
  Z.land (d_status (v_dev h)) VIRTIO_CONFIG_S_DRIVER_OK = 0 ->
  exists h' ss' depth', virtblk_probe ops fuel 2 e feats (PState h l ss depth) =
    Ok (probe_result e, PState h' (if probe_result e =? 0 then in_use ++ l
                                   else if vqs_set_up e then RVqArray :: l else l) ss' depth') /\
    (probe_result e = 0 -> ss' = ss ++ vq_settings feats h ++
       [SQueueDepth (depth_after e feats depth)] ++
       configured e feats (e_index e) (sg_elems_of feats h) h).
Proof.
  intros Hc Hq Hr Hn. rewrite (probe_prefix _ _ _ _ _ _ Hc).
  unfold no_first_queue, probe_result, vqs_set_up in *.
  destruct (Z.ltb_spec (e_index e) 0) as [Hi|Hi].
  { rewrite (proj2 (Z.eqb_neq _ 0)), (proj2 (Z.leb_gt _ _)) by lia. do 3 eexists. split; [done|lia]. }
  rewrite (proj2 (Z.leb_le _ _)) in * by done. cbn [andb] in *.
  destruct (e_vblk e); cbn [negb andb] in *; [|by do 3 eexists].
  destruct (vq_error e =? 0) eqn:Hv; cbn [negb andb] in *.
  2:{ do 3 eexists. rewrite Hv. split; [done|]. intros H0. by rewrite H0 in Hv. }
  destruct (probe_disk_ok e feats (e_index e) (sg_elems_of feats h) (num_vqs_of feats h) h l
    (ss ++ vq_settings feats h) depth Hc Hq Hr Hn) as (h' & ss' & depth' & E & Hss).
  exists h', ss', depth'. split; [exact E|]. intros H0. rewrite (Hss H0), <- app_assoc. done.
Qed.

Lemma reset_ok h : exists h', vm_reset ops fuel h = Ok (tt, h').
Proof. eexists. by apply (writel_dev ops fuel VIRTIO_MMIO_STATUS 0). Qed.

Lemma give_back_head r (h : vstate D) l ss depth :
  give_back r (PState h (r :: l) ss depth) = Ok (tt, PState h l ss depth).
Proof. unfold give_back. cbn. by rewrite decide_True. Qed.

Lemma remove_ok refc h l ss depth :
  exists h', virtblk_remove ops fuel refc (PState h (in_use ++ l) ss depth) =
    Ok (tt, PState h' (if refc =? 1 then l else RIndex :: l) ss depth).
Proof.
  destruct (reset_ok h) as [h' E]. exists h'. unfold virtblk_remove, in_use. cbn [app].
  do 3 rewrite (bindM_ok _ _ _ _ _ (give_back_head _ h _ ss depth)).
  rewrite (bindM_ok _ _ _ _ _ (dev_ok _ (PState h _ ss depth) _ _ E)). cbn [p_held p_settings p_queue_depth].
  do 4 rewrite (bindM_ok _ _ _ _ _ (give_back_head _ h' _ ss depth)).
  destruct (refc =? 1); [apply give_back_head|done].
Qed.

End Run.

(** ** Properties *)

(** The disk the kernel sees.  When a device offers none of the block
    features, as the disks of this library do, a probe that succeeds announces
    one queue, a name and the minor numbers of its index, a disk without a
    write cache, the capacity of the configuration, and a limit of one segment
    per request. *)
Theorem probe_one_segment {D} (ops : virtio_dev_ops D) fuel e feats h l ss depth :
  (0 < fuel)%nat -> conf_ok h -> 0 <= d_status (v_dev h) < 256 ->
  Z.land (d_status (v_dev h)) VIRTIO_CONFIG_S_DRIVER_OK = 0 ->
  Forall (fun b => virtio_test_bit feats b = false) features ->
  probe_result e = 0 -> 0 <= e_index e < 2 ^ 31 ->
  exists h' depth' name,
    virtblk_probe ops fuel 2 e feats (PState h l ss depth) =
      Ok (0, PState h' (in_use ++ l)
        (ss ++ [SNumQueues 1; SQueueDepth (depth_after e feats depth); SName name;
                SFirstMinor (16 * e_index e); SWriteCache 0; SCapacity (field h capacity);
                SMaxSegments 1; SBounceAny; SMaxHwSectors 0xffffffff;
                SMaxSegmentSize 0xffffffff]) depth') /\
    virtblk_name_format [118; 100] (e_index e) DISK_NAME_LEN = inr name.
Proof.
  intros Hf Hc Hr Hn Hplain H0 Hi.
  assert (no_first_queue e feats depth h = false) as Hq.
  { rewrite list.Forall_forall in Hplain. unfold no_first_queue, num_vqs_of, opt_field.
    rewrite Hplain by (unfold features; set_solver). apply andb_false_r. }
  destruct (probe_ok ops fuel Hf e feats h l ss depth Hc Hq Hr Hn) as (h' & ss' & depth' & E & Hss).
  rewrite H0 in E. cbn [Z.eqb] in E. rewrite (Hss H0) in E.
  destruct (name_format_ok [118; 100] (e_index e)) as (lt & Hname & _); [simpl; lia|done|].
  exists h', depth', ([118; 100] ++ lt). split; [|done]. rewrite E. do 3 f_equal.
  rewrite list.Forall_forall in Hplain.
  unfold vq_settings, num_vqs_of, configured, limits, block_limits, sg_elems_of, cache_mode, opt_field.
  rewrite !Hplain by (unfold features; set_solver). rewrite Hname.
  unfold index_to_minor, PART_BITS. rewrite Z.shiftl_mul_pow2 by lia. change (2 ^ 4) with 16.
  rewrite Z.mul_comm. done.
Qed.

(** C23: What a probe holds.  A probe that succeeds holds everything it asked for,
    and the removal of the disk gives all of it back, the index excepted when
    the disk still has other users.  A probe that fails before the virtqueues
    are there gives back what it got; one that fails later, for want of a disk,
    of tags or of an attribute, keeps the array of the virtqueues: the error
    path does not free it.  A host that offers VIRTIO_BLK_F_MQ with no queue at
    all crashes the first probe that gets as far as the queue depth. *)
Theorem probe_holds {D} (ops : virtio_dev_ops D) fuel e feats h l ss depth :
  (0 < fuel)%nat -> conf_ok h -> 0 <= d_status (v_dev h) < 256 ->
  Z.land (d_status (v_dev h)) VIRTIO_CONFIG_S_DRIVER_OK = 0 ->
  if no_first_queue e feats depth h then
    virtblk_probe ops fuel 2 e feats (PState h l ss depth) = Fail Segv
  else
    exists s', virtblk_probe ops fuel 2 e feats (PState h l ss depth) = Ok (probe_result e, s') /\
    if probe_result e =? 0 then
      p_held s' = in_use ++ l /\
      forall refc, exists s'', virtblk_remove ops fuel refc s' = Ok (tt, s'') /\
        p_held s'' = if refc =? 1 then l else RIndex :: l
    else p_held s' = if vqs_set_up e then RVqArray :: l else l.
Proof.
  intros Hf Hc Hr Hn. destruct (no_first_queue e feats depth h) eqn:Hq; [by apply probe_crashes|].
  destruct (probe_ok ops fuel Hf e feats h l ss depth Hc Hq Hr Hn) as (h' & ss' & depth' & E & _).
  eexists. split; [exact E|]. destruct (probe_result e =? 0); [|done]. split; [done|]. intros refc.
  destruct (remove_ok ops fuel refc h' l ss' depth') as [h'' E']. eexists. by split; [exact E'|].
Qed.

(** Disks have different names: the name of every index below 2^31 is the
    prefix followed by lower-case letters, fits the buffer with its terminator,
    and determines the index. *)
Theorem disk_names_distinct prefix i j :
  (length prefix <= 2)%nat -> 0 <= i < 2 ^ 31 -> 0 <= j < 2 ^ 31 ->
  exists li lj,
    virtblk_name_format prefix i DISK_NAME_LEN = inr (prefix ++ li) /\
    virtblk_name_format prefix j DISK_NAME_LEN = inr (prefix ++ lj) /\
    Forall letter li /\ (length (prefix ++ li) < Z.to_nat DISK_NAME_LEN)%nat /\
    (prefix ++ li = prefix ++ lj -> i = j).
Proof.
  intros Hp Hi Hj. destruct (name_format_ok prefix i Hp Hi) as (li & Ei & Vi & Li & Ni).
  destruct (name_format_ok prefix j Hp Hj) as (lj & Ej & Vj & _ & _).
  exists li, lj. split_and!; try done. intros Heq. apply app_inv_head in Heq as ->. lia.
Qed.

(** ** A disk of the library *)

Module ProbeDemo.

(** 2048 sectors, and features VERSION_1 and EVENT_IDX. *)
Definition h0 : vstate unit :=
  VState ∅ (VirtioDev 2 0 0x120000000 0 0x120000000 0 0 [] 0 11 0 1
    (le_bytes 8 2048 ++ replicate 28 0) 36 0x80 0) [] tt.

Definition ops : virtio_dev_ops unit := VirtioDevOps (fun _ => 0) (fun _ _ => retM 0) None None.

Definition env0 : env := Env 27 true true true true true 0 true 0 true 0 0 32 512.

Definition no_disk : env := Env 27 true true true true true 0 false 0 true 0 0 32 512.

Lemma conf0 : conf_ok h0.
Proof.
  split; [split|vm_compute; discriminate]; [reflexivity|].
  apply (bool_decide_unpack (Forall is_byte _)). vm_compute. exact I.
Qed.

End ProbeDemo.

Lemma probe_one_segment_witness :
  exists h' depth',
    virtblk_probe ProbeDemo.ops 1 2 ProbeDemo.env0 0x120000000 (PState ProbeDemo.h0 [] [] 0) =
      Ok (0, PState h' in_use
        [SNumQueues 1; SQueueDepth 16; SName [118; 100; 97; 98]; SFirstMinor 432; SWriteCache 0;
         SCapacity 2048; SMaxSegments 1; SBounceAny; SMaxHwSectors 0xffffffff;
         SMaxSegmentSize 0xffffffff] depth').
Proof.
  destruct (probe_one_segment ProbeDemo.ops 1 ProbeDemo.env0 0x120000000 ProbeDemo.h0 [] [] 0)
    as (h' & depth' & name & E & Hname).
  - lia.
  - exact ProbeDemo.conf0.
  - simpl. lia.
  - reflexivity.
  - repeat (apply Forall_cons_2 || apply Forall_nil_2); vm_compute; reflexivity.
  - reflexivity.
  - simpl. lia.
  - exists h', depth'. vm_compute in Hname. injection Hname as <-. exact E.
Defined.

Lemma probe_holds_witness :
  exists s', virtblk_probe ProbeDemo.ops 1 2 ProbeDemo.no_disk 0x120000000
      (PState ProbeDemo.h0 [] [] 0) = Ok (- ENOMEM, s') /\ p_held s' = [RVqArray].
Proof.
  pose proof (probe_holds ProbeDemo.ops 1 ProbeDemo.no_disk 0x120000000 ProbeDemo.h0 [] [] 0) as H.
  destruct H as (s' & E & Hh); [lia|exact ProbeDemo.conf0|simpl; lia|reflexivity|].
  exists s'. split; [exact E|exact Hh].
Defined.

Lemma disk_names_distinct_witness :
  exists li lj, virtblk_name_format [118; 100] 26 DISK_NAME_LEN = inr ([118; 100] ++ li) /\
    virtblk_name_format [118; 100] 701 DISK_NAME_LEN = inr ([118; 100] ++ lj) /\ li <> lj.
Proof.
  destruct (disk_names_distinct [118; 100] 26 701) as (li & lj & Ei & Ej & _ & _ & Hd);
    [simpl; lia|lia|lia|].
  exists li, lj. split; [exact Ei|]. split; [exact Ej|]. intros ->. by specialize (Hd eq_refl).
Defined.
