(* ===== verification/Cpu.v ===== *)
(** * Cpu

    arch/lkl/kernel/cpu.c: the "LKL CPU", the lock that lets one host thread at
    a time run kernel code, with its users in arch/lkl: [lkl_trigger_irq]
    (irq.c), [__switch_to] and [switch_to_host_task] (threads.c) and
    [lkl_start_kernel] (setup.c).

    Host threads interleave at the atomic actions of the source: a mutex or
    semaphore operation, an atomic addition to the gate, a section under the
    lock, an access to the bitmap of pending interrupts, a call of an interrupt
    handler.  Each thread has a program counter; [exec] is one action of one
    thread.  What the kernel decides on its own (which call it makes next, when
    it reschedules and to whom, which interrupts a handler raises) is an
    argument of [exec]. *)

From S2P Require Import Prelude Irq.

(** ** State *)

Definition MAX_THREADS : Z := 1000000.

(** struct lkl_cpu.  [c_lock] is the holder of the mutex, a semaphore is its
    count, [c_freed] says that [lkl_cpu_cleanup] freed the lock and the
    semaphores.  [c_irq] are the variables of irq.c, [c_init_sem] is the
    semaphore of setup.c.  [c_late] is ghost data: the interrupts whose last
    raise came from a handler that ran with interrupts disabled before it. *)
Record lkl_cpu := LklCpu {
  c_lock : option Z;
  c_freed : bool;
  c_shutdown_gate : Z;
  c_irqs_pending : bool;
  c_sleepers : Z;
  c_count : Z;
  c_owner : Z;
  c_sem : Z;
  c_idle_sem : Z;
  c_idle_pending : bool;
  c_shutdown_sem : Z;
  c_irq : irq_state;
  c_init_sem : Z;
  c_late : gset Z;
}.

Definition with_lock v c := LklCpu v (c_freed c) (c_shutdown_gate c) (c_irqs_pending c) (c_sleepers c)
  (c_count c) (c_owner c) (c_sem c) (c_idle_sem c) (c_idle_pending c) (c_shutdown_sem c) (c_irq c) (c_init_sem c) (c_late c).
Definition with_gate v c := LklCpu (c_lock c) (c_freed c) v (c_irqs_pending c) (c_sleepers c)
  (c_count c) (c_owner c) (c_sem c) (c_idle_sem c) (c_idle_pending c) (c_shutdown_sem c) (c_irq c) (c_init_sem c) (c_late c).
Definition with_irqs_pending v c := LklCpu (c_lock c) (c_freed c) (c_shutdown_gate c) v (c_sleepers c)
  (c_count c) (c_owner c) (c_sem c) (c_idle_sem c) (c_idle_pending c) (c_shutdown_sem c) (c_irq c) (c_init_sem c) (c_late c).
Definition with_sleepers v c := LklCpu (c_lock c) (c_freed c) (c_shutdown_gate c) (c_irqs_pending c) v
  (c_count c) (c_owner c) (c_sem c) (c_idle_sem c) (c_idle_pending c) (c_shutdown_sem c) (c_irq c) (c_init_sem c) (c_late c).
Definition with_count v c := LklCpu (c_lock c) (c_freed c) (c_shutdown_gate c) (c_irqs_pending c) (c_sleepers c)
  v (c_owner c) (c_sem c) (c_idle_sem c) (c_idle_pending c) (c_shutdown_sem c) (c_irq c) (c_init_sem c) (c_late c).
Definition with_owner v c := LklCpu (c_lock c) (c_freed c) (c_shutdown_gate c) (c_irqs_pending c) (c_sleepers c)
  (c_count c) v (c_sem c) (c_idle_sem c) (c_idle_pending c) (c_shutdown_sem c) (c_irq c) (c_init_sem c) (c_late c).
Definition with_sem v c := LklCpu (c_lock c) (c_freed c) (c_shutdown_gate c) (c_irqs_pending c) (c_sleepers c)
  (c_count c) (c_owner c) v (c_idle_sem c) (c_idle_pending c) (c_shutdown_sem c) (c_irq c) (c_init_sem c) (c_late c).
Definition with_idle_sem v c := LklCpu (c_lock c) (c_freed c) (c_shutdown_gate c) (c_irqs_pending c) (c_sleepers c)
  (c_count c) (c_owner c) (c_sem c) v (c_idle_pending c) (c_shutdown_sem c) (c_irq c) (c_init_sem c) (c_late c).
Definition with_idle_pending v c := LklCpu (c_lock c) (c_freed c) (c_shutdown_gate c) (c_irqs_pending c) (c_sleepers c)
  (c_count c) (c_owner c) (c_sem c) (c_idle_sem c) v (c_shutdown_sem c) (c_irq c) (c_init_sem c) (c_late c).
Definition with_irq v c := LklCpu (c_lock c) (c_freed c) (c_shutdown_gate c) (c_irqs_pending c) (c_sleepers c)
  (c_count c) (c_owner c) (c_sem c) (c_idle_sem c) (c_idle_pending c) (c_shutdown_sem c) v (c_init_sem c) (c_late c).
Definition with_init_sem v c := LklCpu (c_lock c) (c_freed c) (c_shutdown_gate c) (c_irqs_pending c) (c_sleepers c)
  (c_count c) (c_owner c) (c_sem c) (c_idle_sem c) (c_idle_pending c) (c_shutdown_sem c) (c_irq c) v (c_late c).
Definition with_late v c := LklCpu (c_lock c) (c_freed c) (c_shutdown_gate c) (c_irqs_pending c) (c_sleepers c)
  (c_count c) (c_owner c) (c_sem c) (c_idle_sem c) (c_idle_pending c) (c_shutdown_sem c) (c_irq c) (c_init_sem c) v.

(** Who called [__cpu_try_get_lock]. *)
Inductive caller := CGet | CIrq (irq : Z).

(** What follows a put or a switch: back to the caller, or the sleep of the
    idle thread, or the wait for the task's turn. *)
Inductive after := ARet | AIdle | APark.

(** The calls on the stack of a thread that delivers interrupts, innermost
    first: [run_irqs] before it takes the index word, its loop over the words
    [w] still to do, the loop of [check_irq_status] over the bits [v] of word
    [i] still to do, a call of [run_irq], and the assignment that ends
    [arch_local_irq_restore]. *)
Inductive iframe :=
| FTake | FWords (w : Z) | FBits (i v : Z) | FRun (irq : Z) | FSet (flags : bool).

(** Who delivers: [lkl_cpu_put], [lkl_trigger_irq], kernel code that enables
    interrupts, or [arch_cpu_idle]. *)
Inductive icont := KPut (a : after) | KTrigger | KRun | KIdle.

(** Program counters.  [d] is how many times the thread holds the CPU. *)
Inductive pc :=
| Out                                       (* host code *)
| Run (d : Z)                               (* kernel code *)
| TryAdd (n : Z) (k : caller) (d : Z)       (* __cpu_try_get_lock: the gate *)
| TryLock (k : caller) (d : Z)              (* mutex_lock *)
| TryBody (k : caller) (d : Z)              (* under the lock *)
| TryRet (ret : Z) (k : caller) (d : Z)     (* back in the caller with the result *)
| TryMark (irq d : Z)                       (* set_irq_pending, half way *)
| SemDown                                   (* lkl_cpu_get: sem_down(cpu.sem) *)
| Leave (ret : Z) (k : caller) (d : Z)      (* __cpu_try_get_unlock: the gate *)
| IrqRun (irq d : Z)                        (* lkl_trigger_irq, CPU acquired *)
| PutLock (d : Z) (a : after)
| PutCheck (d : Z) (a : after)
| PutBody (d : Z) (a : after)
| Irqs (fs : list iframe) (d : Z) (k : icont) (* delivering interrupts *)
| PutRelock (d : Z) (a : after)
| SwLock (u : Z) (a : after) (d : Z)        (* lkl_cpu_change_owner(u) *)
| SwBody (u : Z) (a : after) (d : Z)
| SwWake (u : Z) (a : after)                (* sem_up of the next thread *)
| Parked                                    (* sem_down(sched_sem) *)
| IdleParked                                (* sem_down(idle_sem) *)
| IdleLock | IdleWake | CleanSpin           (* arch_cpu_idle at shutdown *)
| BootWait | BootLock | BootBody            (* lkl_start_kernel *)
| Dead                                      (* thread_exit of the idle thread *)
| Exited.

(** A thread: its program counter and its [sched_sem]. *)
Record thread := Thread { t_pc : pc; t_sched : Z }.

Record mstate := MState { m_cpu : lkl_cpu; m_threads : gmap Z thread }.

(** What the kernel (or the host code) does next. *)
Inductive action :=
| DoGet | DoTrigger (irq : Z) | DoPut | DoSwitch (u : Z) | DoIdle | DoShutdown
| DoIrqSave | DoIrqRestore (flags : bool) | DoBootDone.

(** The kernel's choices: its next action, [need_resched()], [in_interrupt()],
    the thread [schedule()] picks, and the interrupts that the handler called
    by [run_irq] raises itself. *)
Record env := Env {
  e_act : action; e_resched : bool; e_in_interrupt : bool; e_next : Z; e_raise : list Z }.

(** One action: [Blocked] waits, [Crash] touches freed memory or leaves an
    array, [Bug] is [lkl_bug].  [Up u] also ups the [sched_sem] of [u]. *)
Inductive outcome :=
| Next (p : pc) (c : lkl_cpu)
| Up (u : Z) (p : pc) (c : lkl_cpu)
| Blocked | Crash | Bug.

(** ** Actions *)

(** The ghost data after a handler raised [l]: with interrupts enabled before
    ([flags]), [run_irq] looks at the bitmap once more. *)
Definition late_after (st : irq_state) (late : gset Z) (flags : bool) (l : list Z) : gset Z :=
  if flags then late ∖ list_to_set l
  else late ∪ list_to_set (filter (fun j => pending st j = false) l).

Section Exec.
Context (t : Z) (e : env) (c : lkl_cpu).

(** mutex_lock / mutex_unlock of [cpu.lock]. *)
Definition lock_then (p : pc) : outcome :=
  if c_freed c then Crash
  else match c_lock c with None => Next p (with_lock (Some t) c) | Some _ => Blocked end.

Definition unlock (c : lkl_cpu) : lkl_cpu := with_lock None c.

(** Where a thread that holds the CPU [d] times goes back to. *)
Definition back (d : Z) : pc := if d =? 0 then Out else Run d.

Definition after_pc (a : after) : pc :=
  match a with ARet => Out | AIdle => IdleParked | APark => Parked end.

(** __cpu_try_get_lock: the atomic addition. *)
Definition try_add (n : Z) (k : caller) (d : Z) : outcome :=
  let old := c_shutdown_gate c in
  let c' := with_gate (u32 (old + n)) c in
  if MAX_THREADS <=? old then Next (Leave (-2) k d) c' else Next (TryLock k d) c'.

(** __cpu_try_get_lock: under the lock. *)
Definition try_body (k : caller) (d : Z) : outcome :=
  if MAX_THREADS <=? c_shutdown_gate c then Next (TryRet (-1) k d) c
  else if negb (c_owner c =? 0) && negb (c_owner c =? t) then Next (TryRet 0 k d) c
  else Next (TryRet 1 k d) (with_count (u32 (c_count c + 1)) (with_owner t c)).

(** lkl_cpu_get and lkl_cpu_try_run_irq after __cpu_try_get_lock returned,
    up to the mutex_unlock of __cpu_try_get_unlock. *)
Definition try_ret (ret : Z) (k : caller) (d : Z) : outcome :=
  if c_freed c then Crash
  else match k with
  | CGet =>
      if ret =? 0 then Next SemDown (unlock (with_sleepers (u32 (c_sleepers c + 1)) c))
      else Next (Leave ret k d) (unlock c)
  | CIrq irq =>
      if ret =? 0 then
        match or_irq_status irq (c_irq c) with
        | Ok st => Next (TryMark irq d) (with_late (c_late c ∖ {[irq]}) (with_irq st c))
        | Fail _ => Crash
        end
      else Next (Leave ret k d) (unlock c)
  end.

(** The second half of [set_irq_pending] in lkl_cpu_try_run_irq, the flag, and
    the mutex_unlock of __cpu_try_get_unlock. *)
Definition try_mark (irq d : Z) : outcome :=
  if c_freed c then Crash
  else Next (Leave 0 (CIrq irq) d)
    (unlock (with_irqs_pending true (with_irq (or_irq_index_status irq (c_irq c)) c))).

(** sem_down(cpu.sem) and the retry of lkl_cpu_get. *)
Definition sem_down : outcome :=
  if c_freed c then Crash
  else if 0 <? c_sem c then Next (TryAdd 0 CGet 0) (with_sem (c_sem c - 1) c) else Blocked.

(** __cpu_try_get_unlock: the atomic subtraction, and the return to the
    caller of lkl_cpu_get or into lkl_trigger_irq. *)
Definition leave (ret : Z) (k : caller) (d : Z) : outcome :=
  let c' := with_gate (u32 (c_shutdown_gate c - 1)) c in
  if ret =? 1 then
    match k with
    | CGet => Next (Run (d + 1)) c'
    | CIrq irq => Next (IrqRun irq (d + 1)) c'
    end
  else Next (back d) c'.

(** The guard of lkl_trigger_irq. *)
Definition trigger_guard (irq : Z) : bool := (irq =? 0) || (NR_IRQS <? irq).

(** What follows the delivery of interrupts. *)
Definition irqs_done (d : Z) (k : icont) (c : lkl_cpu) : outcome :=
  match k with
  | KPut a => Next (PutRelock d a) c
  | KTrigger => Next (PutLock d ARet) c
  | KRun => Next (Run d) c
  | KIdle =>
      if e_resched e then Next (Run d) c
      else Next (PutLock d AIdle) (with_idle_pending true c)
  end.

(** arch_local_irq_restore, called by the kernel or by arch_cpu_idle. *)
Definition irq_restore (flags : bool) (d : Z) (k : icont) : outcome :=
  if flags && negb (irqs_enabled (c_irq c)) && (hardirq_count (c_irq c) =? 0)
  then Next (Irqs [FTake; FSet flags] d k) c
  else irqs_done d k (with_irq (set_enabled flags (c_irq c)) c).

(** run_irq, up to the test of arch_local_irq_restore. *)
Definition irq_handle (irq : Z) (fs : list iframe) (d : Z) (k : icont) : outcome :=
  let flags := irqs_enabled (c_irq c) in
  let st1 := set_enabled false (c_irq c) in
  let st2 := set_hardirq (hardirq_count st1 + 1) st1 in
  match raise_all (e_raise e) (log_delivery irq st2) with
  | Ok st3 =>
      let st4 := set_hardirq (hardirq_count st3 - 1) st3 in
      let c' := with_late (late_after (c_irq c) (c_late c) flags (e_raise e)) (with_irq st4 c) in
      if flags && negb (irqs_enabled st4) && (hardirq_count st4 =? 0)
      then Next (Irqs (FTake :: FSet flags :: fs) d k) c'
      else Next (Irqs fs d k) (with_irq (set_enabled flags st4) c')
  | Fail _ => Crash
  end.

(** One step of the delivery: run_irqs, check_irq_status, deliver_irq, run_irq
    and the end of arch_local_irq_restore. *)
Definition irq_step (fs : list iframe) (d : Z) (k : icont) : outcome :=
  match fs with
  | [] => irqs_done d k c
  | FTake :: fs' =>
      let (w, st) := test_and_clear_irq_index_status (c_irq c) in
      Next (Irqs (FWords w :: fs') d k) (with_irq st c)
  | FWords w :: fs' =>
      match head (ones w) with
      | None => Next (Irqs fs' d k) c
      | Some i =>
          match test_and_clear_irq_status i (c_irq c) with
          | Ok (v, st) => Next (Irqs (FBits i v :: FWords (Z.clearbit w i) :: fs') d k) (with_irq st c)
          | Fail _ => Crash
          end
      end
  | FBits i v :: fs' =>
      match head (ones v) with
      | None => Next (Irqs fs' d k) c
      | Some b => Next (Irqs (FRun (i * IRQ_STATUS_BITS + b) :: FBits i (Z.clearbit v b) :: fs') d k) c
      end
  | FRun irq :: fs' => irq_handle irq fs' d k
  | FSet flags :: fs' => Next (Irqs fs' d k) (with_irq (set_enabled flags (c_irq c)) c)
  end.

(** lkl_trigger_irq once the CPU is held. *)
Definition irq_run (irq d : Z) : outcome :=
  if negb (irqs_enabled (c_irq c)) then
    match set_irq_pending irq (c_irq c) with
    | Ok st => Next (PutLock d ARet) (with_late (c_late c ∖ {[irq]}) (with_irq st c))
    | Fail _ => Crash
    end
  else Next (Irqs [FRun irq] d KTrigger) c.

(** lkl_cpu_put. *)
Definition put_check (d : Z) (a : after) : outcome :=
  if (c_count c =? 0) || (c_owner c =? 0) || negb (c_owner c =? t) then Bug
  else Next (PutBody d a) c.

Definition put_body (d : Z) (a : after) : outcome :=
  if c_freed c then Crash
  else if c_irqs_pending c && irqs_enabled (c_irq c) then
    Next (Irqs [FTake] d (KPut a)) (unlock (with_irqs_pending false c))
  else if e_resched e && (c_count c =? 1) then
    if e_in_interrupt e then Bug else Next (SwLock (e_next e) a d) (unlock c)
  else
    let c1 := with_count (u32 (c_count c - 1)) c in
    if 0 <? c_count c1 then Next (Run (d - 1)) (unlock c1)
    else
      let c2 := if c_sleepers c1 =? 0 then c1
                else with_sem (c_sem c1 + 1) (with_sleepers (u32 (c_sleepers c1 - 1)) c1) in
      Next (after_pc a) (unlock (with_owner 0 c2)).

(** lkl_cpu_change_owner. *)
Definition change_owner (u : Z) (p : pc) : outcome :=
  if c_freed c then Crash
  else if 1 <? c_count c then Bug else Next p (unlock (with_owner u c)).

(** The end of __switch_to: wake the next thread, then longjmp or wait. *)
Definition switch_wake (idle u : Z) (a : after) : outcome :=
  if (u =? idle) && c_idle_pending c then
    if c_freed c then Crash else Next (after_pc a) (with_idle_sem (c_idle_sem c + 1) c)
  else Up u (after_pc a) c.

(** arch_cpu_idle. *)
Definition idle (d : Z) : outcome :=
  if MAX_THREADS <=? c_shutdown_gate c then Next IdleLock c else irq_restore true d KIdle.

Definition idle_down : outcome :=
  if c_freed c then Crash
  else if 0 <? c_idle_sem c then
    Next (Run 1) (with_idle_pending false (with_idle_sem (c_idle_sem c - 1) c))
  else Blocked.

(** [while (cpu.sleepers--) sem_up(cpu.sem)] leaves the counter at -1. *)
Definition idle_wake : outcome :=
  if c_freed c then Crash
  else Next CleanSpin (unlock (with_sleepers (u32 (-1)) (with_sem (c_sem c + c_sleepers c) c))).

(** lkl_cpu_cleanup(true). *)
Definition lkl_cpu_cleanup : outcome :=
  if MAX_THREADS <? c_shutdown_gate c then Blocked
  else if c_freed c then Crash
  else Next Dead (LklCpu (c_lock c) true (c_shutdown_gate c) (c_irqs_pending c) (c_sleepers c)
    (c_count c) (c_owner c) (c_sem c) (c_idle_sem c) (c_idle_pending c) (c_shutdown_sem c + 1)
    (c_irq c) (c_init_sem c) (c_late c)).

Definition lkl_cpu_shutdown : lkl_cpu :=
  with_gate (u32 (c_shutdown_gate c + MAX_THREADS)) c.

(** The end of the boot: the init thread leaves the CPU to the thread that
    waits in lkl_start_kernel. *)
Definition boot_done : outcome := Next Exited (with_init_sem (c_init_sem c + 1) c).

Definition boot_down : outcome :=
  if 0 <? c_init_sem c then Next BootLock (with_init_sem (c_init_sem c - 1) c) else Blocked.

(** Kernel code of a thread that holds the CPU [d] times. *)
Definition run (d : Z) : outcome :=
  match e_act e with
  | DoGet => Next (TryAdd 1 CGet d) c
  | DoTrigger irq => if trigger_guard irq then Next (Run d) c else Next (TryAdd 1 (CIrq irq) d) c
  | DoPut => Next (PutLock d ARet) c
  | DoSwitch u => Next (SwLock u APark d) c
  | DoIdle => idle d
  | DoShutdown => Next (Run d) lkl_cpu_shutdown
  | DoIrqSave => Next (Run d) (with_irq (set_enabled false (c_irq c)) c)
  | DoIrqRestore flags => irq_restore flags d KRun
  | DoBootDone => boot_done
  end.

(** Host code. *)
Definition host_call : outcome :=
  match e_act e with
  | DoGet => Next (TryAdd 1 CGet 0) c
  | DoTrigger irq => if trigger_guard irq then Next Out c else Next (TryAdd 1 (CIrq irq) 0) c
  | _ => Blocked
  end.

Definition exec (idle_tid : Z) (th : thread) : outcome :=
  match t_pc th with
  | Out => host_call
  | Run d => run d
  | TryAdd n k d => try_add n k d
  | TryLock k d => lock_then (TryBody k d)
  | TryBody k d => try_body k d
  | TryRet ret k d => try_ret ret k d
  | TryMark irq d => try_mark irq d
  | SemDown => sem_down
  | Leave ret k d => leave ret k d
  | IrqRun irq d => irq_run irq d
  | PutLock d a => lock_then (PutCheck d a)
  | PutCheck d a => put_check d a
  | PutBody d a => put_body d a
  | Irqs fs d k => irq_step fs d k
  | PutRelock d a => lock_then (PutBody d a)
  | SwLock u a d => lock_then (SwBody u a d)
  | SwBody u a d => change_owner u (SwWake u a)
  | SwWake u a => switch_wake idle_tid u a
  | Parked => if 0 <? t_sched th then Next (Run 1) c else Blocked
  | IdleParked => idle_down
  | IdleLock => lock_then IdleWake
  | IdleWake => idle_wake
  | CleanSpin => lkl_cpu_cleanup
  | BootWait => boot_down
  | BootLock => lock_then BootBody
  | BootBody => change_owner t (Run 1)
  | Dead | Exited => Blocked
  end.

End Exec.

(** ** Interleaving *)

(** The thread [u] waits to be scheduled: [__switch_to] may hand the CPU to it.
    [t] is the thread that switches and [a] where it goes itself. *)
Definition wakeable (idle_tid : Z) (s : mstate) (t : Z) (a : after) (u : Z) : Prop :=
  if (u =? idle_tid) && c_idle_pending (m_cpu s) then
    (u = t /\ a = AIdle) \/ exists n, m_threads s !! u = Some (Thread IdleParked n)
  else
    (u = t /\ a = APark) \/ exists n, m_threads s !! u = Some (Thread Parked n).

(** What the code relies on of its callers: interrupt numbers come from
    [lkl_get_free_irq]; [schedule()] picks a thread that waits for its turn; a
    thread nests its acquisitions less than 2^32 deep; the idle loop and the
    end of the boot hold the CPU once; the shutdown runs once. *)
Definition env_ok (idle_tid : Z) (s : mstate) (t : Z) (th : thread) (e : env) : Prop :=
  let c := m_cpu s in
  match t_pc th with
  | Out => match e_act e with DoTrigger irq => 0 <= irq < NR_IRQS | _ => True end
  | Run d =>
      match e_act e with
      | DoTrigger irq => 0 <= irq < NR_IRQS /\ d < 4294967295
      | DoSwitch u => wakeable idle_tid s t APark u
      | DoIdle => d = 1 /\ t = idle_tid
      | DoShutdown => c_shutdown_gate c < MAX_THREADS
      | DoBootDone => d = 1
      | DoGet => d < 4294967295
      | _ => True
      end
  | Irqs _ _ _ => Forall (fun irq => 0 <= irq < NR_IRQS) (e_raise e)
  | PutBody d a =>
      c_count c = 1 -> e_resched e = true -> e_in_interrupt e = false ->
      wakeable idle_tid s t a (e_next e)
  | _ => True
  end.

(** The waiting thread takes the count of its semaphore. *)
Definition sched_after (th : thread) : Z :=
  match t_pc th with Parked => t_sched th - 1 | _ => t_sched th end.

Definition sem_up_sched (u : Z) (ts : gmap Z thread) : gmap Z thread :=
  alter (fun th => Thread (t_pc th) (t_sched th + 1)) u ts.

Inductive mstep (idle_tid : Z) : mstate -> mstate -> Prop :=
| mstep_next s t th e p c :
    m_threads s !! t = Some th -> env_ok idle_tid s t th e ->
    exec t e (m_cpu s) idle_tid th = Next p c ->
    mstep idle_tid s (MState c (<[t := Thread p (sched_after th)]> (m_threads s)))
| mstep_up s t th e u p c :
    m_threads s !! t = Some th -> env_ok idle_tid s t th e ->
    exec t e (m_cpu s) idle_tid th = Up u p c ->
    mstep idle_tid s
      (MState c (sem_up_sched u (<[t := Thread p (sched_after th)]> (m_threads s)))).

(** [lkl_cpu_init] with all allocations granted. *)
Definition lkl_cpu_init : lkl_cpu :=
  LklCpu None false 0 false 0 0 0 0 0 false 0 irq_init 0 ∅.

(** Before the boot no thread runs kernel code. *)
Definition minit (idle_tid : Z) (s : mstate) : Prop :=
  m_cpu s = lkl_cpu_init /\ m_threads s !! 0 = None /\ Z.of_nat (size (m_threads s)) < MAX_THREADS /\
  forall t th, m_threads s !! t = Some th ->
    t_sched th = 0 /\ (t_pc th = Out \/ t_pc th = Parked \/ t_pc th = BootWait).
