(* ===== verification/CpuInv.v ===== *)
(** * CpuInv

    The ownership invariant of the LKL CPU ([Cpu]): at every moment at most one
    thread holds the CPU or is being handed it, the recorded owner and count are
    that thread's, and the gate counts the threads inside the access functions. *)

From S2P Require Import Prelude Irq Cpu.

(** ** Sums over the threads *)

Definition wsum (w : thread -> Z) (ts : gmap Z thread) : Z :=
  map_fold (fun _ th n => w th + n) 0 ts.

Lemma wsum_insert_new w t th ts :
  ts !! t = None -> wsum w (<[t := th]> ts) = w th + wsum w ts.
Proof. intros Ht. unfold wsum. rewrite map_fold_insert_L; [done|lia|done]. Qed.

Lemma wsum_delete w t th ts : ts !! t = Some th -> wsum w ts = w th + wsum w (delete t ts).
Proof.
  intros Ht. rewrite <- (insert_delete_id ts t th Ht) at 1.
  apply wsum_insert_new, lookup_delete_eq.
Qed.

Lemma wsum_insert w t th th' ts :
  ts !! t = Some th -> wsum w (<[t := th']> ts) = wsum w ts - w th + w th'.
Proof.
  intros Ht. rewrite <- insert_delete_eq, wsum_insert_new by apply lookup_delete_eq.
  rewrite (wsum_delete w t th ts Ht). lia.
Qed.

Lemma wsum_nonneg w ts : (forall t th, ts !! t = Some th -> 0 <= w th) -> 0 <= wsum w ts.
Proof.
  revert ts. refine (map_ind _ _ _); [done|]. intros t th ts Ht IH H.
  rewrite wsum_insert_new by done. specialize (H t th (lookup_insert_eq _ _ _)) as Hw.
  enough (0 <= wsum w ts) by lia. apply IH. intros t' th' Ht'. apply (H t').
  rewrite lookup_insert_ne; [done|]. congruence.
Qed.

Lemma wsum_le_size w ts : (forall t th, ts !! t = Some th -> w th <= 1) -> wsum w ts <= Z.of_nat (size ts).
Proof.
  revert ts. refine (map_ind _ _ _); [done|]. intros t th ts Ht IH H.
  rewrite wsum_insert_new, map_size_insert_None by done.
  specialize (H t th (lookup_insert_eq _ _ _)) as Hw.
  enough (wsum w ts <= Z.of_nat (size ts)) by lia. apply IH. intros t' th' Ht'. apply (H t').
  rewrite lookup_insert_ne; [done|]. congruence.
Qed.

(** A thread other than [t] weighs nothing when [t] has all the weight. *)
Lemma wsum_other w ts t th t' th' :
  (forall t th, ts !! t = Some th -> 0 <= w th) ->
  ts !! t = Some th -> ts !! t' = Some th' -> t <> t' -> wsum w ts <= w th -> w th' = 0.
Proof.
  intros Hw Ht Ht' Hne Hs. rewrite (wsum_delete w t th ts Ht) in Hs.
  assert (delete t ts !! t' = Some th') as Hd by (by rewrite lookup_delete_ne).
  rewrite (wsum_delete w t' th' _ Hd) in Hs.
  assert (0 <= wsum w (delete t' (delete t ts))).
  { apply wsum_nonneg. intros x y Hx. apply (Hw x). apply lookup_delete_Some in Hx as [_ Hx].
    by apply lookup_delete_Some in Hx as [_ Hx]. }
  specialize (Hw t' th' Ht'). lia.
Qed.

Lemma wsum_pos w ts :
  (forall t th, ts !! t = Some th -> 0 <= w th) -> 0 < wsum w ts ->
  exists t th, ts !! t = Some th /\ 0 < w th.
Proof.
  revert ts. refine (map_ind _ _ _); [unfold wsum; rewrite map_fold_empty; lia|].
  intros t th ts Ht IH H. rewrite wsum_insert_new by done. intros Hs.
  pose proof (H t th (lookup_insert_eq _ _ _)) as Hw.
  destruct (decide (w th = 0)).
  - destruct IH as (t' & th' & H1 & H2); [|lia|].
    + intros t' th' Ht'. apply (H t'). rewrite lookup_insert_ne; [done|]. congruence.
    + exists t', th'. rewrite lookup_insert_ne; [done|]. congruence.
  - exists t, th. rewrite lookup_insert_eq. split; [done|lia].
Qed.

Lemma wsum_ge w ts t th :
  (forall t th, ts !! t = Some th -> 0 <= w th) -> ts !! t = Some th -> w th <= wsum w ts.
Proof.
  intros Hw Ht. rewrite (wsum_delete w t th ts Ht).
  enough (0 <= wsum w (delete t ts)) by lia. apply wsum_nonneg.
  intros x y Hx. apply lookup_delete_Some in Hx as [_ Hx]. eauto.
Qed.

(** ** The invariant *)

(** How many times the thread counts on holding the CPU. *)
Definition depth (th : thread) : option Z :=
  match t_pc th with
  | Run d | IrqRun _ d | PutLock d _ | PutCheck d _ | PutBody d _ | Irqs _ d _ | PutRelock d _
  | SwLock _ _ d | SwBody _ _ d => Some d
  | TryAdd _ _ d | TryLock _ d | TryBody _ d | TryMark _ d => if d =? 0 then None else Some d
  | TryRet ret _ d | Leave ret _ d =>
      if ret =? 1 then Some (d + 1) else if d =? 0 then None else Some d
  | SwWake _ _ | IdleLock | IdleWake | CleanSpin | Dead | BootLock | BootBody => Some 1
  | Parked => if 0 <? t_sched th then Some 1 else None
  | Out | SemDown | IdleParked | BootWait | Exited => None
  end.

Definition weight (th : thread) : Z := match depth th with Some _ => 1 | None => 0 end.

(** The owner the thread counts on; [None] while the boot hands over. *)
Definition claimed (t : Z) (th : thread) : option Z :=
  match t_pc th with SwWake u _ => Some u | BootLock | BootBody => None | _ => Some t end.

Definition hold_ok (c : lkl_cpu) (t : Z) (th : thread) : Prop :=
  forall d, depth th = Some d ->
    1 <= d < 4294967296 /\ c_count c = d /\
    match claimed t th with Some o => c_owner c = o | None => c_owner c <> 0 end.

(** Threads counted by the gate, threads asleep on [cpu.sem], and the threads
    inside a section of [cpu.lock]. *)
Definition inside (th : thread) : Z :=
  match t_pc th with
  | TryAdd n _ _ => 1 - n
  | TryLock _ _ | TryBody _ _ | TryRet _ _ _ | TryMark _ _ | SemDown | Leave _ _ _ => 1
  | _ => 0
  end.

Definition asleep (th : thread) : Z := match t_pc th with SemDown => 1 | _ => 0 end.

Definition locking (th : thread) : bool :=
  match t_pc th with
  | TryBody _ _ | TryRet _ _ _ | TryMark _ _ | PutCheck _ _ | PutBody _ _ | SwBody _ _ _
  | IdleWake | BootBody => true
  | _ => false
  end.

Definition booting (th : thread) : bool :=
  match t_pc th with BootLock | BootBody => true | _ => false end.

(** The idle thread is past the point where it wakes everybody. *)
Definition dying (th : thread) : bool :=
  match t_pc th with CleanSpin | Dead => true | _ => false end.

(** What a program counter carries. *)
Definition after_ok (idle_tid t : Z) (a : after) (d : Z) : Prop := a = AIdle -> t = idle_tid /\ d = 1.

Definition caller_ok (k : caller) : Prop :=
  match k with CGet => True | CIrq irq => 0 <= irq < NR_IRQS end.

Definition frame_ok (f : iframe) : Prop :=
  match f with
  | FTake => True
  | FWords w => word_ok w
  | FBits i v => 0 <= i < 64 /\ word_ok v
  | FRun irq => 0 <= irq < NR_IRQS
  | FSet flags => flags = true
  end.

Definition cont_ok (idle_tid t : Z) (k : icont) (d : Z) : Prop :=
  match k with
  | KPut a => after_ok idle_tid t a d
  | KIdle => t = idle_tid /\ d = 1
  | KTrigger | KRun => True
  end.

Definition shape_ok (idle_tid t : Z) (th : thread) : Prop :=
  (t_pc th <> Parked -> t_sched th = 0) /\
  match t_pc th with
  | TryAdd n k d => caller_ok k /\ 0 <= d < 4294967295 /\ (n = 1 \/ (n = 0 /\ k = CGet /\ d = 0))
  | TryLock k d | TryBody k d => caller_ok k /\ 0 <= d < 4294967295
  | TryRet ret k d => caller_ok k /\ 0 <= d < 4294967295 /\ -1 <= ret <= 1 /\ (ret = 0 -> d = 0)
  | Leave ret k d =>
      caller_ok k /\ 0 <= d < 4294967295 /\ -2 <= ret <= 1 /\ (ret = 0 -> exists irq, k = CIrq irq)
  | TryMark irq d => 0 <= irq < NR_IRQS /\ d = 0
  | IrqRun irq d => 0 <= irq < NR_IRQS
  | Irqs fs d k => cont_ok idle_tid t k d
  | PutLock d a | PutCheck d a | PutBody d a | PutRelock d a | SwLock _ a d | SwBody _ a d =>
      after_ok idle_tid t a d
  | SwWake u a => after_ok idle_tid t a 1
  | IdleParked | IdleLock | IdleWake | CleanSpin | Dead => t = idle_tid
  | Parked => t_sched th = 0 \/ t_sched th = 1
  | _ => True
  end.

(** Where the thread is going to hand the CPU. *)
Definition target_ok (idle_tid : Z) (s : mstate) (t : Z) (th : thread) : Prop :=
  match t_pc th with
  | SwLock u a _ | SwBody u a _ | SwWake u a => wakeable idle_tid s t a u
  | _ => True
  end.

(** Program counters that need the lock or a semaphore of [cpu]. *)
Definition needs_lock (th : thread) : bool :=
  match t_pc th with
  | TryLock _ _ | TryBody _ _ | TryRet _ _ _ | TryMark _ _ | SemDown => true
  | _ => false
  end.

Record own_inv (idle_tid : Z) (s : mstate) : Prop := {
  ci_tids : m_threads s !! 0 = None;
  ci_size : Z.of_nat (size (m_threads s)) < MAX_THREADS;
  ci_gate : exists b : bool, c_shutdown_gate (m_cpu s) =
    wsum inside (m_threads s) + (if b then MAX_THREADS else 0);
  ci_lock : forall t th, m_threads s !! t = Some th ->
    locking th = true <-> c_lock (m_cpu s) = Some t;
  ci_holder : forall t, c_lock (m_cpu s) = Some t -> is_Some (m_threads s !! t);
  ci_total : wsum weight (m_threads s) + c_idle_sem (m_cpu s) + c_init_sem (m_cpu s) =
    if c_owner (m_cpu s) =? 0 then 0 else 1;
  ci_sems : 0 <= c_idle_sem (m_cpu s) /\ 0 <= c_init_sem (m_cpu s);
  ci_free : c_owner (m_cpu s) = 0 -> c_count (m_cpu s) = 0;
  ci_hold : forall t th, m_threads s !! t = Some th -> hold_ok (m_cpu s) t th;
  ci_idle_sem : 0 < c_idle_sem (m_cpu s) -> c_owner (m_cpu s) = idle_tid /\ c_count (m_cpu s) = 1 /\
    exists n, m_threads s !! idle_tid = Some (Thread IdleParked n);
  ci_init_sem : 0 < c_init_sem (m_cpu s) -> c_count (m_cpu s) = 1;
  ci_boot : 0 < c_init_sem (m_cpu s) \/ (exists t th, m_threads s !! t = Some th /\ booting th = true) ->
    exists n, m_threads s !! c_owner (m_cpu s) = Some (Thread Exited n);
  ci_shape : forall t th, m_threads s !! t = Some th -> shape_ok idle_tid t th;
  ci_target : forall t th, m_threads s !! t = Some th -> target_ok idle_tid s t th;
}.

Lemma weight_01 th : weight th = 0 \/ weight th = 1.
Proof. unfold weight. destruct (depth th); auto. Qed.

Lemma weight_depth th : weight th = 1 <-> exists d, depth th = Some d.
Proof. unfold weight. destruct (depth th); naive_solver. Qed.

Lemma inside_01 idle_tid t th : shape_ok idle_tid t th -> 0 <= inside th <= 1.
Proof. unfold shape_ok, inside. destruct (t_pc th); lia || naive_solver lia. Qed.

Section Facts.
Context (idle_tid : Z) (s : mstate) (Hinv : own_inv idle_tid s).

Lemma weights_nonneg t th : m_threads s !! t = Some th -> 0 <= weight th.
Proof. intros _. destruct (weight_01 th) as [-> | ->]; lia. Qed.

(** A thread that holds the CPU is the only one. *)
Lemma holder_alone t th :
  m_threads s !! t = Some th -> weight th = 1 ->
  c_owner (m_cpu s) <> 0 /\ c_idle_sem (m_cpu s) = 0 /\ c_init_sem (m_cpu s) = 0 /\
  forall t' th', t' <> t -> m_threads s !! t' = Some th' -> weight th' = 0.
Proof.
  intros Ht Hw. destruct Hinv as [_ _ _ _ _ Htot [H1 H2] _ _ _ _ _ _ _].
  pose proof (wsum_ge weight _ _ _ weights_nonneg Ht) as Hge.
  destruct (Z.eqb_spec (c_owner (m_cpu s)) 0); [lia|]. split_and!; [done|lia|lia|].
  intros t' th' Hne Ht'. eapply (wsum_other weight); [exact weights_nonneg|exact Ht|exact Ht'|done|lia].
Qed.

(** Nobody holds a free CPU. *)
Lemma free_none :
  c_owner (m_cpu s) = 0 -> c_idle_sem (m_cpu s) = 0 /\ c_init_sem (m_cpu s) = 0 /\
  forall t th, m_threads s !! t = Some th -> weight th = 0.
Proof.
  intros Ho. destruct Hinv as [_ _ _ _ _ Htot [H1 H2] _ _ _ _ _ _ _]. rewrite Ho in Htot. simpl in Htot.
  pose proof (wsum_nonneg weight _ weights_nonneg). split_and!; [lia|lia|].
  intros t th Ht. pose proof (wsum_ge weight _ _ _ weights_nonneg Ht).
  pose proof (weights_nonneg t th Ht). lia.
Qed.

(** A token in a semaphore is the only claim. *)
Lemma token_alone :
  0 < c_idle_sem (m_cpu s) \/ 0 < c_init_sem (m_cpu s) ->
  c_owner (m_cpu s) <> 0 /\ c_idle_sem (m_cpu s) + c_init_sem (m_cpu s) = 1 /\
  forall t th, m_threads s !! t = Some th -> weight th = 0.
Proof.
  intros Ho. destruct Hinv as [_ _ _ _ _ Htot [H1 H2] _ _ _ _ _ _ _].
  pose proof (wsum_nonneg weight _ weights_nonneg).
  destruct (Z.eqb_spec (c_owner (m_cpu s)) 0); [lia|]. split_and!; [done|lia|].
  intros t th Ht. pose proof (wsum_ge weight _ _ _ weights_nonneg Ht).
  pose proof (weights_nonneg t th Ht). lia.
Qed.

(** The recorded owner either holds the CPU or waits for it to be handed over. *)
Lemma owner_waits t th :
  m_threads s !! t = Some th -> c_owner (m_cpu s) = t ->
  weight th = 1 \/ t_pc th = Parked \/ t_pc th = IdleParked \/ t_pc th = Exited.
Proof.
  intros Ht Ho. assert (t <> 0) as Hne by (intros ->; rewrite (ci_tids _ _ Hinv) in Ht; done).
  pose proof (ci_total _ _ Hinv) as Htot. rewrite Ho, (proj2 (Z.eqb_neq _ _) Hne) in Htot.
  pose proof (ci_sems _ _ Hinv) as (H1 & H2).
  destruct (decide (0 < c_idle_sem (m_cpu s))) as [Hi|Hi].
  { destruct (ci_idle_sem _ _ Hinv Hi) as (E & _ & n & Hl). rewrite <- Ho, E, Hl in Ht.
    simplify_eq. auto. }
  destruct (decide (0 < c_init_sem (m_cpu s))) as [Hb|Hb].
  { destruct (ci_boot _ _ Hinv (or_introl Hb)) as (n & Hl). rewrite Ho, Ht in Hl. simplify_eq. auto. }
  destruct (wsum_pos weight (m_threads s) weights_nonneg) as (h & hh & Hh & Hw); [lia|].
  destruct (decide (h = t)) as [->|Hht].
  { rewrite Ht in Hh. simplify_eq. destruct (weight_01 hh); [lia|auto]. }
  assert (weight hh = 1) as [d Hd]%weight_depth by (destruct (weight_01 hh); lia).
  destruct (ci_hold _ _ Hinv h hh Hh d Hd) as (_ & _ & Hcl).
  pose proof (ci_target _ _ Hinv h hh Hh) as Htg. unfold claimed, target_ok in *.
  destruct (t_pc hh) eqn:Hp; try (congruence).
  - unfold wakeable in Htg. rewrite Ho in Hcl. subst u.
    destruct (_ && _); destruct Htg as [[? _]|[n Hn]]; try congruence;
      rewrite Ht in Hn; simplify_eq; auto.
  - destruct (ci_boot _ _ Hinv) as (n & Hl); [right; exists h, hh; unfold booting; by rewrite Hp|].
    rewrite Ho, Ht in Hl. simplify_eq. auto.
  - destruct (ci_boot _ _ Hinv) as (n & Hl); [right; exists h, hh; unfold booting; by rewrite Hp|].
    rewrite Ho, Ht in Hl. simplify_eq. auto.
Qed.

Lemma inside_sum : 0 <= wsum inside (m_threads s) < MAX_THREADS.
Proof.
  split.
  - apply wsum_nonneg. intros t th Ht.
    by apply (inside_01 idle_tid t), (ci_shape _ _ Hinv).
  - eapply Z.le_lt_trans; [|apply (ci_size _ _ Hinv)]. apply wsum_le_size.
    intros t th Ht. by apply (inside_01 idle_tid t), (ci_shape _ _ Hinv).
Qed.

Lemma gate_range : 0 <= c_shutdown_gate (m_cpu s) < 2 * MAX_THREADS.
Proof.
  destruct (ci_gate _ _ Hinv) as [b ->]. pose proof inside_sum. unfold MAX_THREADS in *.
  destruct b; lia.
Qed.

End Facts.

(** ** One step *)

#[global] Arguments ones : simpl never.
#[global] Arguments raise_all : simpl never.
#[global] Arguments set_irq_pending : simpl never.
#[global] Arguments Z.clearbit : simpl never.

Ltac exec_unfold H :=
  unfold exec in H; cbn [t_pc t_sched] in H;
  unfold host_call, run, idle, irq_step, irq_handle, irq_restore, irqs_done, try_add, lock_then, try_body,
    try_ret, try_mark, sem_down, leave, irq_run, put_check, put_body, change_owner, switch_wake, idle_down, idle_wake, lkl_cpu_cleanup, lkl_cpu_shutdown, boot_done,
    boot_down in H.

(** All the ways an action can go. *)
Ltac exec_cases H :=
  exec_unfold H;
  repeat match type of H with
  | context [match ?x with _ => _ end] => first [is_var x; destruct x | destruct x eqn:?]
  end; try discriminate H; try (injection H as <- <-); simpl in *.

(** Program counters chosen by [back] and [after_pc]. *)
Ltac pc_cases :=
  unfold back, after_pc in *;
  repeat match goal with
  | |- context [if ?d =? 0 then Out else _] => destruct (Z.eqb_spec d 0)
  | |- context [match ?a with ARet => Out | _ => _ end] => is_var a; destruct a
  end; simpl in *.

Section Step.
Context (idle_tid : Z) (s : mstate) (Hinv : own_inv idle_tid s).
Context (t : Z) (th : thread) (e : env) (p : pc) (c' : lkl_cpu).
Context (Ht : m_threads s !! t = Some th) (Henv : env_ok idle_tid s t th e).
Abbreviation c := (m_cpu s).
Abbreviation th' := (Thread p (sched_after th)).
Context (Hex : exec t e c idle_tid th = Next p c').

Lemma step_lock :
  (c_lock c' = c_lock c /\ locking th' = locking th) \/
  (c_lock c = None /\ c_lock c' = Some t /\ locking th' = true) \/
  (locking th = true /\ c_lock c' = None /\ locking th' = false).
Proof using Hex.
  clear -Hex. destruct th as [q n]. unfold sched_after, locking in *. simpl in *.
  destruct q; exec_cases Hex; pc_cases; auto 10.
Qed.

Lemma step_gate : exists b : bool,
  c_shutdown_gate c' - inside th' = c_shutdown_gate c - inside th + (if b then MAX_THREADS else 0) /\
  (b = true -> c_shutdown_gate c < MAX_THREADS).
Proof using Hinv Ht Henv Hex.
  pose proof (gate_range _ _ Hinv) as Hg. pose proof (ci_shape _ _ Hinv t th Ht) as [_ Hsh].
  pose proof (wsum_ge inside (m_threads s) t th) as Hge.
  destruct (ci_gate _ _ Hinv) as [b0 Hb0].
  assert (inside th <= c_shutdown_gate c) as Hin.
  { rewrite Hb0. assert (inside th <= wsum inside (m_threads s)).
    { apply Hge; [|done]. intros t0 th0 H0. by apply (inside_01 idle_tid t0), (ci_shape _ _ Hinv). }
    unfold MAX_THREADS. destruct b0; lia. }
  clear Hge Hb0. unfold env_ok in Henv. unfold inside, MAX_THREADS in *.
  destruct th as [q n]. unfold sched_after in *. simpl in *.
  destruct q; exec_cases Hex; pc_cases; unfold u32, MAX_THREADS in *;
    first [exists false; split; [lia|done] | exists true; split; [lia|done]].
Qed.

Lemma tid_nonzero : t <> 0.
Proof using Hinv Ht. clear Henv Hex. intros ->. rewrite (ci_tids _ _ Hinv) in Ht. done. Qed.

Lemma target_nonzero a u : wakeable idle_tid s t a u -> u <> 0.
Proof using Hinv Ht.
  pose proof tid_nonzero. clear Henv Hex. unfold wakeable. intros Hw ->.
  pose proof (ci_tids _ _ Hinv) as H0.
  destruct (_ && _); destruct Hw as [[? _]|[n Hn]]; congruence.
Qed.

(** The claims of the thread itself, case by case on its nesting. *)
Ltac hold_cases Hh :=
  repeat match type of Hh with context [?x =? ?y] => destruct (Z.eqb_spec x y) end;
  try match type of Hh with
  | forall d, Some _ = Some d -> _ => specialize (Hh _ eq_refl)
  end.

Lemma step_hold :
  hold_ok c' t th' /\
  weight th' + c_idle_sem c' + c_init_sem c' - (if c_owner c' =? 0 then 0 else 1) =
    weight th + c_idle_sem c + c_init_sem c - (if c_owner c =? 0 then 0 else 1) /\
  ((c_owner c' = c_owner c /\ c_count c' = c_count c) \/ weight th = 1 \/ c_owner c = 0) /\
  (c_owner c' = 0 -> c_count c' = 0).
Proof using Hinv Ht Henv Hex.
  pose proof (ci_hold _ _ Hinv t th Ht) as Hh. pose proof (ci_shape _ _ Hinv t th Ht) as [Hs1 Hs2].
  pose proof (owner_waits _ _ Hinv t th Ht) as How. pose proof (ci_free _ _ Hinv) as Hfree.
  pose proof (ci_idle_sem _ _ Hinv) as His. pose proof (ci_init_sem _ _ Hinv) as Hbs.
  pose proof (token_alone _ _ Hinv) as Htok. pose proof (ci_target _ _ Hinv t th Ht) as Htg.
  pose proof tid_nonzero as Hne. pose proof (target_nonzero) as Hnz.
  pose proof (free_none _ _ Hinv) as Hfn.
  unfold target_ok in Htg. unfold env_ok in Henv. unfold weight in *.
  destruct th as [q n]. unfold hold_ok, sched_after, depth, claimed in *. simpl in *.
  destruct q; exec_cases Hex; pc_cases; try (specialize (Hs1 ltac:(discriminate)); subst n);
    try pose proof (Hnz _ _ Htg); hold_cases Hh; unfold u32 in *; clear Hnz Htg;
    repeat match goal with
    | |- context [?x =? ?y] => destruct (Z.eqb_spec x y)
    | |- context [0 <? ?y] => destruct (Z.ltb_spec 0 y)
    end; simpl in *;
    (split; [intros ? [= <-] || intros ? [=]; split_and!|split; [|split]]);
    try done; try congruence; try lia;
    destruct (Z.eqb_spec (c_owner c) t); try discriminate; destruct How as [?|[?|[?|?]]]; done || lia.
Qed.

Abbreviation s' := (MState c' (<[t := th']> (m_threads s))).

Lemma step_shape : shape_ok idle_tid t th'.
Proof using Hinv Ht Henv Hex.
  pose proof (ci_shape _ _ Hinv t th Ht) as [Hs1 Hs2]. pose proof (ci_hold _ _ Hinv t th Ht) as Hh.
  pose proof (owner_waits _ _ Hinv t th Ht) as How.
  unfold env_ok in Henv. destruct th as [q n].
  unfold shape_ok, sched_after, after_ok, caller_ok, weight, hold_ok, depth in *. simpl in *.
  destruct q; exec_cases Hex; pc_cases; hold_cases Hh;
    try (specialize (Hs1 ltac:(discriminate)); subst n); split; try done; try lia;
    repeat case_match; naive_solver lia.
Qed.

(** Only the idle thread and the switch to it touch the idle state. *)
Lemma step_idle_pending :
  c_idle_pending c' = c_idle_pending c \/ weight th = 1 \/ 0 < c_idle_sem c.
Proof using Hex.
  clear -Hex. unfold weight, depth. destruct th as [q n]. simpl in *.
  destruct q; exec_cases Hex; auto; right; right; lia.
Qed.

(** A waiting thread moves only when it is woken. *)
Lemma step_waiting :
  (t_pc th = Parked -> weight th = 1) /\ (t_pc th = IdleParked -> 0 < c_idle_sem c) /\
  t_pc th <> Exited.
Proof using Hex.
  clear -Hex. unfold weight, depth. destruct th as [q n]. simpl in *.
  destruct q; split_and!; intros; try done; exec_cases Hex; simplify_eq; auto; lia.
Qed.

Lemma step_target : target_ok idle_tid s' t th'.
Proof using Hinv Ht Henv Hex.
  pose proof (ci_target _ _ Hinv t th Ht) as Htg. unfold env_ok in Henv.
  pose proof (ci_hold _ _ Hinv t th Ht) as Hh. unfold hold_ok, depth in Hh.
  assert (forall a u, t_pc th <> Parked -> t_pc th <> IdleParked -> c_idle_pending c' = c_idle_pending c ->
    wakeable idle_tid s t a u -> wakeable idle_tid s' t a u) as Hw.
  { intros a u H1 H2 Hp. unfold wakeable. simpl. rewrite Hp.
    destruct (_ && _); intros [?|[n Hn]]; auto; right; exists n; rewrite lookup_insert_ne; auto;
      intros ->; rewrite Ht in Hn; simplify_eq; done. }
  unfold target_ok, sched_after in *. destruct th as [q n]. simpl in *.
  destruct q; exec_cases Hex; pc_cases; try done; try (by apply Hw).
  apply Hw; [done..|]. apply Henv; [lia|by destruct (e_resched e)|done].
Qed.

Lemma step_target_other t' th2 :
  t' <> t -> m_threads s !! t' = Some th2 -> target_ok idle_tid s' t' th2.
Proof using Hinv Ht Hex.
  clear Henv. intros Hne Ht'. pose proof (ci_target _ _ Hinv t' th2 Ht') as Htg.
  destruct step_waiting as (Hw1 & Hw2 & _).
  assert (forall u a, weight th2 = 1 -> wakeable idle_tid s t' a u -> wakeable idle_tid s' t' a u) as Hw.
  { intros u a H1. destruct (holder_alone _ _ Hinv t' th2 Ht' H1) as (_ & Hi & _ & Ho).
    specialize (Ho t th ltac:(auto) Ht).
    destruct step_idle_pending as [Hp|[Hp|Hp]]; [|lia|lia].
    unfold wakeable. simpl. rewrite Hp.
    destruct (_ && _); intros [?|[n Hn]]; auto; right; exists n; rewrite lookup_insert_ne; auto;
      intros ->; rewrite Ht in Hn; injection Hn as Hn; rewrite Hn in *; simpl in *;
      [specialize (Hw2 eq_refl) | specialize (Hw1 eq_refl)]; lia. }
  unfold target_ok in *. unfold weight, depth in Hw.
  destruct (t_pc th2) eqn:E; try done; apply Hw; done.
Qed.

Lemma step_sem : 0 <= c_sem c -> 0 <= c_sleepers c -> 0 <= c_sem c'.
Proof using Hex.
  clear -Hex. intros Hs. destruct th as [q n]. simpl in *. destruct q; exec_cases Hex; lia.
Qed.

(** The hand-over semaphores after the step. *)
Lemma step_tokens :
  (c_idle_sem c' = c_idle_sem c \/
   (t_pc th = IdleParked /\ 0 < c_idle_sem c /\ c_idle_sem c' = c_idle_sem c - 1) \/
   (exists a, t_pc th = SwWake idle_tid a /\ p = after_pc a /\ c' = with_idle_sem (c_idle_sem c + 1) c /\
      c_idle_pending c = true)) /\
  (c_init_sem c' = c_init_sem c \/
   (t_pc th = BootWait /\ p = BootLock /\ 0 < c_init_sem c /\ c_init_sem c' = c_init_sem c - 1) \/
   (exists d, t_pc th = Run d /\ d = 1 /\ p = Exited /\ c' = with_init_sem (c_init_sem c + 1) c)).
Proof using Hex Henv.
  clear -Hex Henv. unfold env_ok in Henv. destruct th as [q n]. simpl in *.
  destruct q; exec_cases Hex; try (split; left; reflexivity).
  - split; [by left|right; right]. eauto.
  - split; [|by left]. do 2 right. exists a.
    destruct (Z.eqb_spec u idle_tid) as [->|]; [|done]. done.
  - split; [|by left]. right. left. split_and!; [done|lia|done].
  - split; [by left|]. right. left. split_and!; [done|done|lia|done].
Qed.

Lemma lookup_step t2 th2 :
  <[t := th']> (m_threads s) !! t2 = Some th2 ->
  (t2 = t /\ th2 = th') \/ (t2 <> t /\ m_threads s !! t2 = Some th2).
Proof using. clear. rewrite lookup_insert_Some. naive_solver. Qed.

Lemma next_gate : exists b : bool,
  c_shutdown_gate c' = wsum inside (<[t := th']> (m_threads s)) + (if b then MAX_THREADS else 0).
Proof using Hinv Ht Henv Hex.
  destruct step_gate as (b & Hb & Hbt). destruct (ci_gate _ _ Hinv) as [b0 Hb0].
  pose proof (inside_sum _ _ Hinv). rewrite (wsum_insert inside t th th' _ Ht).
  exists (b || b0). destruct b, b0; simpl in *; lia.
Qed.

Lemma next_lock :
  (forall t2 th2, <[t := th']> (m_threads s) !! t2 = Some th2 -> locking th2 = true <-> c_lock c' = Some t2) /\
  (forall t2, c_lock c' = Some t2 -> is_Some (<[t := th']> (m_threads s) !! t2)).
Proof using Hinv Ht Hex.
  clear Henv. pose proof (ci_lock _ _ Hinv) as Hl. pose proof (ci_holder _ _ Hinv) as Hh.
  pose proof (Hl t th Ht) as Hlt. split.
  - intros t2 th2 [[-> ->]|[Hne H2]]%lookup_step.
    + destruct step_lock as [[-> ->]|[(_ & -> & ->)|(H1 & -> & ->)]]; [done..|]. split; congruence.
    + rewrite (Hl t2 th2 H2). destruct step_lock as [[-> _]|[(-> & -> & _)|(H1 & -> & _)]]; [done|..].
      * split; congruence.
      * apply Hlt in H1. rewrite H1. split; congruence.
  - intros t2 H2. destruct (decide (t2 = t)) as [->|Hne]; [rewrite lookup_insert_eq; eauto|].
    rewrite lookup_insert_ne by done. apply Hh.
    destruct step_lock as [[<- _]|[(_ & E & _)|(_ & E & _)]]; congruence.
Qed.

Lemma next_hold t2 th2 : <[t := th']> (m_threads s) !! t2 = Some th2 -> hold_ok c' t2 th2.
Proof using Hinv Ht Henv Hex.
  destruct step_hold as (Hh & _ & Ho & _). intros [[-> ->]|[Hne H2]]%lookup_step; [done|].
  pose proof (ci_hold _ _ Hinv t2 th2 H2) as Hh2. intros d Hd.
  assert (weight th2 = 1) as Hw by (apply weight_depth; eauto).
  destruct (holder_alone _ _ Hinv t2 th2 H2 Hw) as (H0 & _ & _ & Hz).
  specialize (Hz t th ltac:(auto) Ht). destruct Ho as [[-> ->]|[?|?]]; [by apply Hh2|lia|done].
Qed.

(** With a token out, the step neither moves the owner nor is the owner's. *)
Lemma token_owner :
  0 < c_idle_sem c \/ 0 < c_init_sem c -> weight th = 0 /\ c_owner c' = c_owner c /\ c_count c' = c_count c.
Proof using Hinv Ht Henv Hex.
  intros Htok. destruct (token_alone _ _ Hinv Htok) as (H0 & _ & Hz). specialize (Hz t th Ht).
  destruct step_hold as (_ & _ & [?|[?|?]] & _); [done|lia|done].
Qed.

Lemma next_idle_sem :
  0 < c_idle_sem c' -> c_owner c' = idle_tid /\ c_count c' = 1 /\
  exists n, <[t := th']> (m_threads s) !! idle_tid = Some (Thread IdleParked n).
Proof using Hinv Ht Henv Hex.
  intros Hp. destruct step_tokens as [[E|[(E1 & E2 & E3)|(a & E1 & -> & -> & E3)]] _].
  - rewrite E in Hp. destruct (ci_idle_sem _ _ Hinv Hp) as (H1 & H2 & n & Hn).
    destruct (token_owner (or_introl Hp)) as (_ & -> & ->). split_and!; [done..|].
    destruct (decide (t = idle_tid)) as [->|Hne]; [|exists n; by rewrite lookup_insert_ne].
    rewrite Ht in Hn. simplify_eq. exfalso. clear -Hex E Hp. simpl in *. exec_cases Hex. lia.
  - destruct (token_alone _ _ Hinv (or_introl E2)) as (_ & ? & _).
    pose proof (ci_sems _ _ Hinv). lia.
  - destruct (ci_hold _ _ Hinv t th Ht 1) as (_ & Hc & Ho); [unfold depth; by rewrite E1|].
    unfold claimed in Ho. rewrite E1 in Ho. simpl. split_and!; [done..|].
    pose proof (ci_target _ _ Hinv t th Ht) as Htg. unfold target_ok in Htg. rewrite E1 in Htg.
    unfold wakeable in Htg. rewrite Z.eqb_refl, E3 in Htg. simpl in Htg.
    destruct Htg as [[<- ->]|[n Hn]].
    + rewrite lookup_insert_eq. eauto.
    + exists n. rewrite lookup_insert_ne; [done|]. intros ->. rewrite Ht in Hn. simplify_eq.
Qed.

Lemma next_init_sem : 0 < c_init_sem c' -> c_count c' = 1.
Proof using Hinv Ht Henv Hex.
  intros Hp. destruct step_tokens as [_ [E|[(E1 & E2 & E3 & E4)|(d & E1 & -> & -> & ->)]]].
  - rewrite E in Hp. destruct (token_owner (or_intror Hp)) as (_ & _ & ->). by apply (ci_init_sem _ _ Hinv).
  - destruct (token_alone _ _ Hinv (or_intror E3)) as (_ & ? & _). pose proof (ci_sems _ _ Hinv). lia.
  - destruct (ci_hold _ _ Hinv t th Ht 1) as (_ & Hc & _); [unfold depth; by rewrite E1|]. done.
Qed.

Lemma next_sems : 0 <= c_idle_sem c' /\ 0 <= c_init_sem c'.
Proof using Hinv Henv Hex.
  pose proof (ci_sems _ _ Hinv). destruct step_tokens as [[E|[(_ & ? & E)|(a & _ & _ & -> & _)]]
    [E2|[(_ & _ & ? & E2)|(d & _ & _ & _ & E2)]]]; subst; simpl in *; lia.
Qed.

Lemma next_boot :
  0 < c_init_sem c' \/ (exists t2 th2, <[t := th']> (m_threads s) !! t2 = Some th2 /\ booting th2 = true) ->
  exists n, <[t := th']> (m_threads s) !! c_owner c' = Some (Thread Exited n).
Proof using Hinv Ht Henv Hex.
  intros Hb. destruct step_tokens as [_ Htk].
  assert ((exists d, t_pc th = Run d /\ p = Exited /\ c_owner c' = t) \/
    (c_owner c' = c_owner c /\ exists n, m_threads s !! c_owner c = Some (Thread Exited n)))
    as [(d & _ & -> & ->)|[-> [n Hn]]].
  - destruct Htk as [E|[(E1 & E2 & E3 & E4)|(d & E1 & -> & -> & ->)]].
    + destruct Hb as [Hb|(t2 & th2 & [[-> ->]|[Hne H2]]%lookup_step & Hb2)].
      * rewrite E in Hb. right. destruct (token_owner (or_intror Hb)) as (_ & -> & _).
        split; [done|]. apply (ci_boot _ _ Hinv). by left.
      * assert (booting th = true /\ c_owner c' = c_owner c) as [Hbt ->].
        { clear -Hex Hb2 E. unfold booting in *. destruct th as [q n]. simpl in *.
          destruct q; exec_cases Hex; revert Hb2; pc_cases; try done; lia. }
        right. split; [done|]. apply (ci_boot _ _ Hinv). right. eauto.
      * assert (weight th2 = 1) as Hw.
        { unfold weight, depth, booting in *. by destruct (t_pc th2). }
        destruct (holder_alone _ _ Hinv t2 th2 H2 Hw) as (H0 & _ & _ & Hz).
        specialize (Hz t th ltac:(auto) Ht).
        destruct step_hold as (_ & _ & [[-> _]|[?|?]] & _); [|lia|done].
        right. split; [done|]. apply (ci_boot _ _ Hinv). right. eauto.
    + right. destruct (token_owner (or_intror E3)) as (_ & -> & _).
      split; [done|]. apply (ci_boot _ _ Hinv). by left.
    + left. exists 1. split_and!; [done|done|].
      destruct (ci_hold _ _ Hinv t th Ht 1) as (_ & _ & Ho); [unfold depth; by rewrite E1|].
      unfold claimed in Ho. rewrite E1 in Ho. done.
  - rewrite lookup_insert_eq. eauto.
  - exists n. rewrite lookup_insert_ne; [done|]. intros E. rewrite <- E, Ht in Hn.
    destruct step_waiting as (_ & _ & Hx). apply Hx. by simplify_eq.
Qed.

Lemma own_inv_next : own_inv idle_tid s'.
Proof using Hinv Ht Henv Hex.
  destruct next_lock as [Hl1 Hl2]. destruct step_hold as (_ & Htot & _ & Hfree).
  split; cbn [m_cpu m_threads].
  - rewrite lookup_insert_ne by apply tid_nonzero. apply Hinv.
  - rewrite map_size_insert_Some by eauto. apply Hinv.
  - exact next_gate.
  - exact Hl1.
  - exact Hl2.
  - rewrite (wsum_insert weight t th th' _ Ht). pose proof (ci_total _ _ Hinv). lia.
  - exact next_sems.
  - exact Hfree.
  - exact next_hold.
  - exact next_idle_sem.
  - exact next_init_sem.
  - exact next_boot.
  - intros t2 th2 [[-> ->]|[Hne H2]]%lookup_step; [exact step_shape|by apply Hinv].
  - intros t2 th2 [[-> ->]|[Hne H2]]%lookup_step; [exact step_target|by apply step_target_other].
Qed.

End Step.

(** The end of a switch to a thread that waits on its [sched_sem]. *)
Section Wake.
Context (idle_tid : Z) (s : mstate) (Hinv : own_inv idle_tid s).
Context (t : Z) (th : thread) (e : env) (u : Z) (p : pc) (c' : lkl_cpu).
Context (Ht : m_threads s !! t = Some th).
Context (Hex : exec t e (m_cpu s) idle_tid th = Up u p c').
Abbreviation c := (m_cpu s).
Abbreviation ts' := (sem_up_sched u (<[t := Thread p (sched_after th)]> (m_threads s))).

Lemma wake_shape : exists a, t_pc th = SwWake u a /\ p = after_pc a /\ c' = c /\
  (u =? idle_tid) && c_idle_pending c = false.
Proof using Hex.
  clear -Hex. destruct th as [q n]. exec_unfold Hex.
  destruct q; simpl in *; repeat case_match; try done; simplify_eq. eauto.
Qed.

Lemma wake_cases :
  (u = t /\ p = Parked /\ ts' = <[t := Thread Parked 1]> (m_threads s)) \/
  (u <> t /\ m_threads s !! u = Some (Thread Parked 0) /\
   ts' = <[u := Thread Parked 1]> (<[t := Thread p 0]> (m_threads s))).
Proof using Hinv Ht Hex.
  destruct wake_shape as (a & Hp & -> & -> & Hi).
  pose proof (ci_target _ _ Hinv t th Ht) as Htg. unfold target_ok in Htg. rewrite Hp in Htg.
  unfold wakeable in Htg. rewrite Hi in Htg.
  destruct (ci_shape _ _ Hinv t th Ht) as [Hs _]. rewrite Hp in Hs. specialize (Hs ltac:(discriminate)).
  assert (sched_after th = 0) as -> by (unfold sched_after; by rewrite Hp).
  assert (weight th = 1) as Hw by (unfold weight, depth; by rewrite Hp).
  destruct (holder_alone _ _ Hinv t th Ht Hw) as (_ & _ & _ & Hz).
  destruct Htg as [[-> ->]|[n Hn]].
  - left. split_and!; [done|done|]. unfold sem_up_sched. by rewrite alter_insert_eq.
  - right. assert (u <> t) as Hne by (intros ->; rewrite Ht in Hn; by simplify_eq).
    specialize (Hz u _ Hne Hn). destruct (ci_shape _ _ Hinv u _ Hn) as [_ Hsh]. simpl in Hsh.
    assert (n = 0) as -> by (destruct Hsh as [ | -> ]; [done|by unfold weight in Hz]).
    split_and!; [done|done|]. unfold sem_up_sched.
    apply map_eq. intros i. destruct (decide (i = u)) as [->|Hiu].
    + rewrite lookup_alter_eq, lookup_insert_ne by done. by rewrite Hn, lookup_insert_eq.
    + rewrite lookup_alter_ne by done. by rewrite (lookup_insert_ne _ u i) by done.
Qed.

Lemma wake_wsum w :
  wsum w ts' = wsum w (m_threads s) - w th + w (Thread Parked 1) +
    (if decide (u = t) then 0 else w (Thread p 0) - w (Thread Parked 0)).
Proof using Hinv Ht Hex.
  destruct wake_cases as [(-> & -> & ->)|(Hne & Hn & ->)].
  - rewrite decide_True by done. rewrite (wsum_insert w t th _ _ Ht). lia.
  - rewrite decide_False by done.
    rewrite (wsum_insert w u (Thread Parked 0)) by (by rewrite lookup_insert_ne).
    rewrite (wsum_insert w t th _ _ Ht). lia.
Qed.

Lemma lookup_wake t2 th2 :
  ts' !! t2 = Some th2 ->
  (t2 = u /\ th2 = Thread Parked 1) \/ (t2 = t /\ t <> u /\ th2 = Thread p 0) \/
  (t2 <> t /\ t2 <> u /\ m_threads s !! t2 = Some th2).
Proof using Hinv Ht Hex.
  destruct wake_cases as [(-> & -> & ->)|(Hne & Hn & ->)]; rewrite !lookup_insert_Some; naive_solver.
Qed.

Lemma wake_lookup_other t2 : t2 <> t -> t2 <> u -> ts' !! t2 = m_threads s !! t2.
Proof using Hinv Ht Hex.
  intros H1 H2. destruct wake_cases as [(-> & -> & ->)|(Hne & Hn & ->)]; by rewrite !lookup_insert_ne.
Qed.

Lemma own_inv_wake : own_inv idle_tid (MState c' ts').
Proof using Hinv Ht Hex.
  destruct wake_shape as (a & Hp & Hpa & Hc' & Hi). pose proof Hinv as [H0 Hsz Hg Hl Hlh Htot Hs Hfr Hh His Hbs Hbo Hsh Htg].
  assert (weight th = 1) as Hw by (unfold weight, depth; by rewrite Hp).
  destruct (holder_alone _ _ Hinv t th Ht Hw) as (Ho & Hi0 & Hb0 & Hz).
  destruct (Hh t th Ht 1) as (_ & Hc & Hcl); [unfold depth; by rewrite Hp|].
  unfold claimed in Hcl. rewrite Hp in Hcl.
  assert (t <> 0) as Htne by (intros ->; congruence). assert (u <> 0) as Hune by congruence.
  assert (weight (Thread p 0) = 0 /\ inside (Thread p 0) = 0 /\ locking (Thread p 0) = false) as (Wp & Ip & Lp).
  { subst p. by destruct a. }
  split; cbn [m_cpu m_threads]; rewrite ?Hc'.
  - by rewrite wake_lookup_other.
  - destruct wake_cases as [(-> & _ & ->)|(Hne & Hn & ->)].
    + rewrite map_size_insert_Some by eauto. done.
    + rewrite map_size_insert_Some by (rewrite lookup_insert_ne by done; eauto).
      rewrite map_size_insert_Some by eauto. done.
  - rewrite wake_wsum. destruct Hg as [b Hb]. exists b. rewrite Hb, Ip. unfold inside at 3 4 5. rewrite Hp. simpl.
    case_decide; lia.
  - intros t2 th2 [[-> ->]|[(-> & _ & ->)|(_ & _ & H2)]]%lookup_wake; [..|by apply Hl].
    + split; [done|]. intros E. destruct wake_cases as [(-> & _)|(Hne & Hn & _)].
      * apply (Hl _ _ Ht) in E. unfold locking in E. by rewrite Hp in E.
      * apply (Hl _ _ Hn) in E. done.
    + rewrite Lp. split; [done|]. intros E%(Hl _ _ Ht). unfold locking in E. by rewrite Hp in E.
  - intros t2 E%Hlh. destruct wake_cases as [(-> & _ & ->)|(Hne & Hn & ->)]; rewrite !lookup_insert_is_Some'; auto.
  - rewrite wake_wsum, Wp, Hw, Hi0, Hb0. rewrite Hi0, Hb0 in Htot. rewrite (proj2 (Z.eqb_neq _ _) Ho) in *.
    change (weight (Thread Parked 1)) with 1. change (weight (Thread Parked 0)) with 0. case_decide; lia.
  - done.
  - done.
  - intros t2 th2 [[-> ->]|[(-> & _ & ->)|(Hn1 & _ & H2)]]%lookup_wake; [..|by apply Hh].
    + intros d [= <-]. simpl. split_and!; [lia|lia|done|done].
    + intros d Hd. unfold weight in Wp. by rewrite Hd in Wp.
  - lia.
  - lia.
  - intros [?|(t2 & th2 & [[-> ->]|[(-> & _ & ->)|(Hn1 & _ & H2)]]%lookup_wake & Hb)]; [lia|done|..].
    + subst p. by destruct a.
    + specialize (Hz t2 th2 Hn1 H2). unfold weight, depth, booting in *. by destruct (t_pc th2).
  - intros t2 th2 [[-> ->]|[(-> & _ & ->)|(Hn1 & _ & H2)]]%lookup_wake; [..|by apply Hsh].
    + split; [done|]. simpl. auto.
    + pose proof (Hsh t th Ht) as [_ H3]. rewrite Hp in H3. subst p. split; [done|].
      destruct a; simpl; auto. by apply H3.
  - intros t2 th2 [[-> ->]|[(-> & _ & ->)|(Hn1 & _ & H2)]]%lookup_wake.
    + done.
    + subst p. by destruct a.
    + specialize (Hz t2 th2 Hn1 H2). unfold weight, depth, target_ok in *. by destruct (t_pc th2).
Qed.

End Wake.

Lemma own_inv_step idle_tid s s' : own_inv idle_tid s -> mstep idle_tid s s' -> own_inv idle_tid s'.
Proof.
  intros Hinv Hst. destruct Hst; [by eapply own_inv_next|by eapply own_inv_wake].
Qed.

Lemma own_inv_init idle_tid s : minit idle_tid s -> own_inv idle_tid s.
Proof.
  intros (Hc & H0 & Hsz & Hth).
  assert (forall w, (forall th, t_sched th = 0 -> t_pc th = Out \/ t_pc th = Parked \/ t_pc th = BootWait ->
    w th = 0) -> wsum w (m_threads s) = 0) as Hsum.
  { intros w Hw. clear -Hth Hw. destruct s as [c ts]. simpl in *. revert ts Hth.
    refine (map_ind _ _ _); [done|]. intros t th ts Ht IH Hth. rewrite wsum_insert_new by done.
    destruct (Hth t th (lookup_insert_eq _ _ _)). rewrite Hw, IH; auto.
    intros t' th' H'. apply (Hth t'). rewrite lookup_insert_ne; [done|congruence]. }
  split; rewrite ?Hc; simpl; try done; try lia.
  - exists false. rewrite Hsum; [done|]. intros th _ [E|[E|E]]; unfold inside; by rewrite E.
  - intros t th Ht. destruct (Hth t th Ht) as [_ [E|[E|E]]]; unfold locking; by rewrite E.
  - rewrite Hsum; [done|]. intros th Hs [E|[E|E]]; unfold weight, depth; by rewrite E, ?Hs.
  - intros t th Ht d. destruct (Hth t th Ht) as [Hs [E|[E|E]]]; unfold depth; by rewrite E, ?Hs.
  - intros [?|(t & th & Ht & Hb)]; [lia|].
    destruct (Hth t th Ht) as [_ [E|[E|E]]]; unfold booting in Hb; by rewrite E in Hb.
  - intros t th Ht. destruct (Hth t th Ht) as [Hs [E|[E|E]]]; unfold shape_ok; rewrite E; split; auto.
  - intros t th Ht. destruct (Hth t th Ht) as [_ [E|[E|E]]]; unfold target_ok; by rewrite E.
Qed.

Lemma own_inv_reachable idle_tid s0 s :
  minit idle_tid s0 -> rtc (mstep idle_tid) s0 s -> own_inv idle_tid s.
Proof.
  intros Hi Hr. apply own_inv_init in Hi. induction Hr; [done|]. eauto using own_inv_step.
Qed.
