(* ===== verification/CpuIrq.v ===== *)
(** * CpuIrq

    The delivery of interrupts by a thread that holds the LKL CPU ([Cpu]),
    while other threads mark interrupts pending: which interrupts are sure to be
    looked at, by whom, at every point of the delivery. *)

From S2P Require Import Prelude Irq Cpu CpuInv.

Definition irq_ok (st : irq_state) : Prop := irq_wf st /\ hardirq_count st = 0.

(** Word [i] is still to be looked at by one of the calls on the stack: by a
    loop that has it in its index word, or by one that takes a fresh index. *)
Definition word_due (i : Z) (f : iframe) : bool :=
  match f with FWords w => Z.testbit w i | _ => false end.

Definition scan_due (i : Z) (f : iframe) : bool :=
  match f with FTake => true | _ => word_due i f end.

(** What a thread sees of the interrupts: irq.c, the flag of [lkl_cpu_put], its
    calls on the stack while it delivers, the interrupt it is about to announce. *)
Record iview := IView {
  v_st : irq_state;
  v_late : gset Z;
  v_flag : bool;
  v_fs : option (list iframe);
  v_mark : option Z;
}.

Definition frames (v : iview) : list iframe := default [] (v_fs v).
Definition marks (v : iview) (i : Z) : Prop := exists irq, v_mark v = Some irq /\ irq / 64 = i.
Definition dues (v : iview) (i : Z) : Prop := existsb (word_due i) (frames v) = true.
Definition scans (v : iview) (i : Z) : Prop := existsb (scan_due i) (frames v) = true.

Section Views.
(** Of the other threads: the words one of them delivers or is about to take,
    the words one of them is about to announce, whether one of them delivers. *)
Context (Odue Oscan Omark : Z -> Prop) (Oin : Prop) (Odue_scan : forall i, Odue i -> Oscan i).

Record iinv (v : iview) : Prop := {
  ii_ok : irq_ok (v_st v);
  ii_frames : Forall frame_ok (frames v);
  ii_cover : covers (fun i => Odue i \/ Omark i \/ dues v i \/ marks v i) (v_st v);
  ii_pending : forall j, pending (v_st v) j = true -> j ∉ v_late v ->
    v_flag v = true \/ Omark (j / 64) \/ Oscan (j / 64) \/ marks v (j / 64) \/ scans v (j / 64) \/
    (irqs_enabled (v_st v) = false /\ v_fs v = None /\ ~ Oin);
}.

(** The actions of [exec], as far as they touch the view. *)
Inductive imove : iview -> iview -> Prop :=
| im_same st late fl : imove (IView st late fl None None) (IView st late fl None None)
| im_or irq st st' late fl :
    0 <= irq < NR_IRQS -> or_irq_status irq st = Ok st' ->
    imove (IView st late fl None None) (IView st' (late ∖ {[irq]}) fl None (Some irq))
| im_mark irq st late fl :
    0 <= irq < NR_IRQS ->
    imove (IView st late fl None (Some irq)) (IView (or_irq_index_status irq st) late true None None)
| im_pend irq st st' late fl :
    ~ Oin -> 0 <= irq < NR_IRQS -> irqs_enabled st = false -> set_irq_pending irq st = Ok st' ->
    imove (IView st late fl None None) (IView st' (late ∖ {[irq]}) fl None None)
| im_trigger irq st late fl :
    0 <= irq < NR_IRQS -> irqs_enabled st = true ->
    imove (IView st late fl None None) (IView st late fl (Some [FRun irq]) None)
| im_loop st late fl : imove (IView st late fl None None) (IView st late false (Some [FTake]) None)
| im_restore st late fl :
    imove (IView st late fl None None) (IView st late fl (Some [FTake; FSet true]) None)
| im_set b st late fl :
    ~ Oin -> (b = true -> irqs_enabled st = true) ->
    imove (IView st late fl None None) (IView (set_enabled b st) late fl None None)
| im_done st late fl : imove (IView st late fl (Some []) None) (IView st late fl None None)
| im_take st late fl fs w st' :
    test_and_clear_irq_index_status st = (w, st') ->
    imove (IView st late fl (Some (FTake :: fs)) None) (IView st' late fl (Some (FWords w :: fs)) None)
| im_words st late fl fs w :
    head (ones w) = None ->
    imove (IView st late fl (Some (FWords w :: fs)) None) (IView st late fl (Some fs) None)
| im_word st late fl fs w i v st' :
    head (ones w) = Some i -> test_and_clear_irq_status i st = Ok (v, st') ->
    imove (IView st late fl (Some (FWords w :: fs)) None)
      (IView st' late fl (Some (FBits i v :: FWords (Z.clearbit w i) :: fs)) None)
| im_bits st late fl fs i v :
    head (ones v) = None ->
    imove (IView st late fl (Some (FBits i v :: fs)) None) (IView st late fl (Some fs) None)
| im_bit st late fl fs i v b :
    head (ones v) = Some b ->
    imove (IView st late fl (Some (FBits i v :: fs)) None)
      (IView st late fl (Some (FRun (i * IRQ_STATUS_BITS + b) :: FBits i (Z.clearbit v b) :: fs)) None)
| im_handle st late fl fs irq l st3 b :
    Forall (fun j => 0 <= j < NR_IRQS) l ->
    raise_all l (log_delivery irq (set_hardirq (hardirq_count st + 1) (set_enabled false st))) = Ok st3 ->
    b = irqs_enabled st && negb (irqs_enabled st3) && (hardirq_count st3 - 1 =? 0) ->
    imove (IView st late fl (Some (FRun irq :: fs)) None)
      (IView (set_enabled (if b then irqs_enabled st3 else irqs_enabled st)
                (set_hardirq (hardirq_count st3 - 1) st3))
         (late_after st late (irqs_enabled st) l) fl
         (Some (if b then FTake :: FSet (irqs_enabled st) :: fs else fs)) None)
| im_flags st late fl fs b :
    imove (IView st late fl (Some (FSet b :: fs)) None) (IView (set_enabled b st) late fl (Some fs) None).

Lemma covers_weaken (W W' : Z -> Prop) st :
  (forall i, W i -> W' i) -> covers W st -> covers W' st.
Proof. intros H Hc i w Hi Hnz. destruct (Hc i w Hi Hnz); auto. Qed.

(** An interrupt that is pending has its word announced. *)
Lemma covers_pending W st j :
  covers W st -> pending st j = true -> Z.testbit (irq_index_status st) (j / 64) = true \/ W (j / 64).
Proof.
  intros Hc Hp. destruct (pending_word st j Hp) as (Hj & w & Hw & Hnz).
  specialize (Hc _ _ Hw Hnz). by rewrite Z2Nat.id in Hc by lia.
Qed.

Lemma due_scan i fs : existsb (word_due i) fs = true -> existsb (scan_due i) fs = true.
Proof.
  rewrite !existsb_exists. intros (f & Hf & H). exists f. split; [done|]. by destruct f.
Qed.

Lemma head_ones_None w : word_ok w -> head (ones w) = None -> w = 0.
Proof.
  intros Hw Hh. destruct (decide (w = 0)) as [|Hnz]; [done|]. exfalso.
  assert (Z.log2 w ∈ ones w) as Hin.
  { apply elem_of_ones; [apply Hw|]. split; [apply Z.log2_nonneg|]. apply Z.bit_log2.
    destruct Hw. lia. }
  destruct (ones w); [by apply elem_of_nil in Hin|done].
Qed.

Lemma head_ones_Some w i : word_ok w -> head (ones w) = Some i -> 0 <= i < 64 /\ Z.testbit w i = true.
Proof.
  intros Hw Hh. destruct (ones w) as [|i' rest] eqn:E; simplify_eq/=. by eapply ones_head.
Qed.

Lemma or_index_wf irq st : irq_wf st -> 0 <= irq < NR_IRQS -> irq_wf (or_irq_index_status irq st).
Proof.
  intros Hwf Hi. change NR_IRQS with 4096 in Hi. apply set_index_word_wf; [done|].
  apply lor_bit_range; [apply (wf_index _ Hwf)|]. change IRQ_STATUS_BITS with 64. lia.
Qed.

Lemma or_index_covers irq W st :
  0 <= irq < NR_IRQS -> covers (fun i => W i \/ irq / 64 = i) st -> covers W (or_irq_index_status irq st).
Proof.
  intros Hi Hc i w Hw Hnz. simpl in *. change IRQ_STATUS_BITS with 64. change NR_IRQS with 4096 in Hi.
  rewrite lor_bit_test by lia. destruct (Hc i w Hw Hnz) as [->|[?|<-]]; [by left|by right|].
  left. by rewrite Z.eqb_refl, orb_true_r.
Qed.

Lemma or_status_covers irq W st st' :
  irq_wf st -> 0 <= irq < NR_IRQS -> or_irq_status irq st = Ok st' -> covers W st ->
  covers (fun i => W i \/ irq / 64 = i) st'.
Proof.
  intros Hwf Hi E Hc. destruct (or_irq_status_spec irq st Hwf Hi)
    as (st1 & E1 & _ & Hix & _ & _ & _ & _ & _ & Ho). rewrite E in E1. simplify_eq.
  change NR_IRQS with 4096 in Hi.
  intros i w Hw Hnz. rewrite Hix. destruct (decide (i = Z.to_nat (irq / 64))) as [->|Hne]; [right; right; lia|].
  rewrite Ho in Hw by done. destruct (Hc i w Hw Hnz); auto.
Qed.

Lemma take_index_spec W st w st' :
  irq_ok st -> covers W st -> test_and_clear_irq_index_status st = (w, st') ->
  irq_ok st' /\ word_ok w /\ covers (fun i => W i \/ Z.testbit w i = true) st' /\
  (forall j, pending st' j = pending st j) /\ irqs_enabled st' = irqs_enabled st /\
  (forall i, Z.testbit (irq_index_status st) i = true -> Z.testbit w i = true).
Proof.
  intros [Hwf Hh] Hc E. pose proof (wf_index _ Hwf) as Hix. unfold test_and_clear_irq_index_status in E.
  destruct (Z.eqb_spec (irq_index_status st) 0) as [Hz|Hz]; simplify_eq.
  - split_and!; try done. + eapply covers_weaken; [|exact Hc]. auto. + by rewrite Hz.
  - split_and!; try done.
    + split; [by apply set_index_word_wf|done].
    + intros i w Hw Hnz. simpl in *. destruct (Hc i w Hw Hnz); auto.
Qed.

Lemma take_word_spec (W W' : Z -> Prop) st i v st' :
  irq_ok st -> covers W st -> 0 <= i < 64 -> test_and_clear_irq_status i st = Ok (v, st') ->
  (forall k, k <> i -> W k -> W' k) ->
  irq_ok st' /\ word_ok v /\ covers W' st' /\ irqs_enabled st' = irqs_enabled st /\
  (forall j, pending st' j = pending st j && negb (j / 64 =? i)).
Proof.
  intros [Hwf Hh] Hc Hi E HW. unfold test_and_clear_irq_status in E.
  destruct (irq_status st !! Z.to_nat i) as [v'|] eqn:Hv; simplify_eq.
  assert (word_ok v) by (eapply Forall_lookup_1; [apply (wf_words _ Hwf)|done]).
  split_and!; try done.
  - split; [by apply set_status_word_wf|done].
  - intros k w Hk Hnz. simpl in *. destruct (decide (k = Z.to_nat i)) as [->|Hne].
    { rewrite list_lookup_insert_eq in Hk; [by simplify_eq|by apply lookup_lt_Some in Hv]. }
    rewrite list_lookup_insert_ne in Hk by done.
    destruct (Hc k w Hk Hnz) as [?|HWk]; [by left|right]. apply HW; [lia|done].
  - intros j. by apply pending_clear_word.
Qed.

(** Every action keeps the view consistent. *)
Lemma iinv_or irq st st' late fl :
  0 <= irq < NR_IRQS -> or_irq_status irq st = Ok st' ->
  iinv (IView st late fl None None) -> iinv (IView st' (late ∖ {[irq]}) fl None (Some irq)).
Proof.
  intros Hi E [[Hwf Hh] Hf Hc Hp].
  pose proof (or_status_covers irq _ _ _ Hwf Hi E Hc) as Hc'.
  destruct (or_irq_status_spec irq st Hwf Hi) as (st1 & E1 & Hwf1 & _ & _ & Hen & Hh1 & _ & Hp1 & _).
  rewrite E in E1. simplify_eq. split; cbn [v_st v_late v_flag v_fs v_mark] in *.
  - split; [done|congruence].
  - done.
  - eapply covers_weaken; [|exact Hc']. intros i [[?|[?|[?|[? [? _]]]]]|Hx]; [by auto..|done|].
    do 3 right. by exists irq.
  - intros j Hj Hl. rewrite Hp1, orb_true_iff, Z.eqb_eq in Hj. destruct (decide (j = irq)) as [->|Hne].
    { do 3 right. left. by exists irq. }
    destruct Hj as [Hj|]; [|done]. destruct (Hp j Hj) as [?|[?|[?|[[? [? _]]|[?|?]]]]]; auto; [set_solver|done|done|].
    rewrite Hen. auto 10.
Qed.

Lemma iinv_mark irq st late fl :
  0 <= irq < NR_IRQS -> iinv (IView st late fl None (Some irq)) ->
  iinv (IView (or_irq_index_status irq st) late true None None).
Proof.
  intros Hi [[Hwf Hh] Hf Hc Hp]. split; cbn [v_st v_late v_flag v_fs v_mark] in *.
  - split; [by apply or_index_wf|done].
  - done.
  - apply or_index_covers; [done|]. eapply covers_weaken; [|exact Hc].
    intros i [?|[?|[?|(irq' & [= <-] & ?)]]]; auto.
  - auto.
Qed.

Lemma iinv_pend irq st st' late fl :
  ~ Oin -> 0 <= irq < NR_IRQS -> irqs_enabled st = false -> set_irq_pending irq st = Ok st' ->
  iinv (IView st late fl None None) -> iinv (IView st' (late ∖ {[irq]}) fl None None).
Proof.
  intros HB Hi Hen E [[Hwf Hh] Hf Hc Hp].
  destruct (raise_all_spec _ [irq] st Hwf Hc) as (st1 & E1 & Hwf1 & Hc1 & Hp1 & Hen1 & Hh1 & _ & _).
  { by constructor. }
  unfold raise_all in E1. cbn [foldR] in E1. rewrite E in E1. simplify_eq.
  split; cbn [v_st v_late v_flag v_fs v_mark] in *.
  - split; [done|congruence].
  - done.
  - exact Hc1.
  - intros j _ _. do 5 right. split; [congruence|done].
Qed.

Lemma iinv_take st late fl fs w st' :
  test_and_clear_irq_index_status st = (w, st') ->
  iinv (IView st late fl (Some (FTake :: fs)) None) -> iinv (IView st' late fl (Some (FWords w :: fs)) None).
Proof.
  intros E [Hok Hf Hc Hp]. destruct (take_index_spec _ st w st' Hok Hc E) as (Hok' & Hw & Hc' & Hp' & Hen & Hb).
  split; cbn [v_st v_late v_flag v_fs v_mark] in *.
  - done.
  - inversion_clear Hf. by constructor.
  - eapply covers_weaken; [|exact Hc']. unfold dues. cbn [frames v_fs default from_option id existsb word_due].
    intros i [[?|[?|[Hx|[? [? _]]]]]|Hx]; auto; [|done|].
    + do 2 right. left. change (existsb (word_due i) fs = true) in Hx. by rewrite Hx, orb_true_r.
    + do 2 right. left. by rewrite Hx.
  - intros j Hj Hl. rewrite Hp' in Hj. unfold scans. cbn [frames v_fs default from_option id existsb scan_due word_due].
    destruct (covers_pending _ _ _ Hc Hj) as [Hx|[Hx|[Hx|[Hx|[? [? _]]]]]]; [|by auto using Odue_scan..| |done].
    + do 4 right. left. by rewrite (Hb _ Hx).
    + do 4 right. left. apply orb_true_iff. right. by apply due_scan.
Qed.

Lemma iinv_words st late fl fs w :
  head (ones w) = None -> iinv (IView st late fl (Some (FWords w :: fs)) None) ->
  iinv (IView st late fl (Some fs) None).
Proof.
  intros E [Hok Hf Hc Hp]. inversion_clear Hf as [|? ? Hw Hf'].
  apply (head_ones_None w Hw) in E as ->. split; cbn [v_st v_late v_flag v_fs v_mark] in *; [done..| |].
  - eapply covers_weaken; [|exact Hc]. unfold dues. cbn [frames v_fs default from_option id existsb word_due].
    intros i. by rewrite Z.bits_0.
  - intros j Hj Hl. specialize (Hp j Hj Hl). unfold scans in *.
    cbn [frames v_fs default from_option id existsb scan_due word_due] in Hp. rewrite Z.bits_0 in Hp. cbn [orb] in Hp.
    destruct Hp as [?|[?|[?|[?|[?|(_ & ? & _)]]]]]; [by auto 10..|done].
Qed.

Lemma iinv_word st late fl fs w i v st' :
  head (ones w) = Some i -> test_and_clear_irq_status i st = Ok (v, st') ->
  iinv (IView st late fl (Some (FWords w :: fs)) None) ->
  iinv (IView st' late fl (Some (FBits i v :: FWords (Z.clearbit w i) :: fs)) None).
Proof.
  intros E E1 [Hok Hf Hc Hp]. inversion_clear Hf as [|? ? Hw Hf'].
  destruct (head_ones_Some w i Hw E) as [Hi Hb].
  assert (forall k, k <> i -> Z.testbit (Z.clearbit w i) k = Z.testbit w k) as Hcl.
  { intros k Hk. rewrite clearbit_test by lia. by rewrite (proj2 (Z.eqb_neq i k)), andb_true_r by done. }
  destruct (take_word_spec _ (fun k => Odue k \/ Omark k \/
     dues (IView st' late fl (Some (FBits i v :: FWords (Z.clearbit w i) :: fs)) None) k \/
     marks (IView st' late fl (Some (FBits i v :: FWords (Z.clearbit w i) :: fs)) None) k)
     st i v st' Hok Hc Hi E1) as (Hok' & Hv & Hc' & Hen & Hp').
  { unfold dues. cbn [frames v_fs default from_option id existsb word_due orb]. intros k Hk. by rewrite Hcl. }
  split; cbn [v_st v_late v_flag v_fs v_mark] in *.
  - done.
  - constructor; [done|]. constructor; [by apply clearbit_ok|done].
  - exact Hc'.
  - intros j Hj Hl. rewrite Hp', andb_true_iff, negb_true_iff, Z.eqb_neq in Hj. destruct Hj as [Hj Hne].
    specialize (Hp j Hj Hl). unfold scans in *.
    cbn [frames v_fs default from_option id existsb scan_due word_due orb] in *. rewrite Hcl by done.
    destruct Hp as [?|[?|[?|[?|[?|(_ & ? & _)]]]]]; [by auto 10..|done].
Qed.

(** The handler raises [l]; with interrupts enabled before, the whole bitmap is
    looked at next. *)
Lemma iinv_handle st late fl fs irq l st3 b :
  Forall (fun j => 0 <= j < NR_IRQS) l ->
  raise_all l (log_delivery irq (set_hardirq (hardirq_count st + 1) (set_enabled false st))) = Ok st3 ->
  b = irqs_enabled st && negb (irqs_enabled st3) && (hardirq_count st3 - 1 =? 0) ->
  iinv (IView st late fl (Some (FRun irq :: fs)) None) ->
  iinv (IView (set_enabled (if b then irqs_enabled st3 else irqs_enabled st)
                (set_hardirq (hardirq_count st3 - 1) st3))
         (late_after st late (irqs_enabled st) l) fl
         (Some (if b then FTake :: FSet (irqs_enabled st) :: fs else fs)) None).
Proof.
  intros Hl E Eb [[Hwf Hh] Hf Hc Hp]. inversion_clear Hf as [|? ? _ Hf'].
  assert (irq_wf (log_delivery irq (set_hardirq (hardirq_count st + 1) (set_enabled false st)))) as Hwf0
    by (destruct Hwf; by split).
  destruct (raise_all_spec _ l _ Hwf0 Hc Hl)
    as (st' & E' & [W1 W2 W3 W4] & Hc1 & Hp1 & Hen1 & Hh1 & _ & _).
  rewrite E in E'. simplify_eq. change (hardirq_count st = 0) in Hh.
  cbn in Hen1, Hh1. rewrite Hh in Hh1. rewrite Hen1, Hh1 in *.
  cbn [negb] in *. change (0 + 1 - 1 =? 0) with true. rewrite !andb_true_r.
  assert (forall j, pending st' j = true -> pending st j = true \/ j ∈ l) as Hpl by (intros j Hj; by apply Hp1).
  cbn [v_st v_late v_flag v_fs v_mark] in *.
  split; cbn [v_st v_late v_flag v_fs v_mark].
  - split; [by split|done].
  - unfold frames. cbn [v_fs default from_option id]. destruct (irqs_enabled st); [|done]. by repeat constructor.
  - intros i w Hi Hnz. destruct (Hc1 i w Hi Hnz) as [?|[?|[?|[Hx|[? [? _]]]]]]; auto; [|done].
    right. do 2 right. left. change (existsb (word_due (Z.of_nat i)) fs = true) in Hx. unfold dues.
    cbn [frames v_fs default from_option id]. by destruct (irqs_enabled st).
  - intros j Hj Hlate. change (pending st' j = true) in Hj. unfold scans. cbn [frames v_fs default from_option id].
    destruct (irqs_enabled st) eqn:Hen; unfold late_after in Hlate; [by auto 10|].
    assert (pending st j = true /\ j ∉ late) as [Hj' Hlate'].
    { destruct (pending st j) eqn:Hpj; [set_solver|]. exfalso. destruct (Hpl j Hj) as [|Hin]; [congruence|].
      apply Hlate, elem_of_union. right. apply elem_of_list_to_set, list_elem_of_filter. done. }
    destruct (Hp j Hj' Hlate') as [?|[?|[?|[[? [? _]]|[Hx|(_ & ? & _)]]]]]; [by auto 10..|done|by auto 10|done].
Qed.

Lemma imove_inv v v' : imove v v' -> iinv v -> iinv v'.
Proof.
  destruct 1; intros Hv; eauto using iinv_or, iinv_mark, iinv_pend, iinv_take, iinv_words, iinv_word, iinv_handle.
  all: destruct Hv as [Hok Hf Hc Hp]; split; cbn [v_st v_late v_flag v_fs v_mark] in *; try done.
  - constructor; [done|constructor].
  - intros j Hj Hl. destruct (Hp j Hj Hl) as [?|[?|[?|[?|[?|(? & _)]]]]]; [by auto 10..|congruence].
  - by repeat constructor.
  - intros j _ _. do 4 right. by left.
  - by repeat constructor.
  - intros j _ _. do 4 right. by left.
  - destruct Hok as [[] Hh]. split; [by split|done].
  - intros j Hj Hl. destruct b.
    + destruct (Hp j Hj Hl) as [?|[?|[?|[?|[?|(He & _)]]]]]; [by auto 10..|]. rewrite H0 in He by done. done.
    + by auto 10.
  - intros j Hj Hl. destruct (Hp j Hj Hl) as [?|[?|[?|[?|[?|(_ & ? & _)]]]]]; [by auto 10..|done].
  - by inversion_clear Hf.
  - intros j Hj Hl. destruct (Hp j Hj Hl) as [?|[?|[?|[?|[?|(_ & ? & _)]]]]]; [by auto 10..|done].
  - inversion_clear Hf as [|? ? Hiv Hf']. simpl in Hiv. destruct Hiv as [Hi Hv]. destruct (head_ones_Some v b Hv H) as [Hb _].
    constructor; [simpl; change IRQ_STATUS_BITS with 64; change NR_IRQS with 4096; lia|].
    constructor; [|done]. split; [done|by apply clearbit_ok].
  - intros j Hj Hl. destruct (Hp j Hj Hl) as [?|[?|[?|[?|[?|(_ & ? & _)]]]]]; [by auto 10..|done].
  - destruct Hok as [[] Hh]. split; [by split|done].
  - by inversion_clear Hf.
  - intros j Hj Hl. destruct (Hp j Hj Hl) as [?|[?|[?|[?|[?|(_ & ? & _)]]]]]; [by auto 10..|done].
Qed.

End Views.
