(* ===== verification/CpuSafe.v ===== *)
(** * CpuSafe

    What the ownership of the LKL CPU ([Cpu], [CpuInv]) gives: mutual exclusion,
    no use of the lock after it is freed at shutdown, no lost wake-up of a
    sleeper, and no interrupt left behind on a free CPU. *)

From S2P Require Import Prelude Irq Cpu CpuInv CpuIrq.

(** ** The interrupts as a thread sees them *)

Definition view (c : lkl_cpu) (th : thread) : iview :=
  IView (c_irq c) (c_late c) (c_irqs_pending c)
    (match t_pc th with Irqs fs _ _ => Some fs | _ => None end)
    (match t_pc th with TryMark irq _ => Some irq | _ => None end).

Definition stack (th : thread) : list iframe := match t_pc th with Irqs fs _ _ => fs | _ => [] end.

(** The thread is about to look at word [i]; to announce word [i]; it delivers. *)
Definition looks_at (i : Z) (th : thread) : bool := existsb (word_due i) (stack th).
Definition scanning (i : Z) (th : thread) : bool := existsb (scan_due i) (stack th).
Definition marking (i : Z) (th : thread) : bool :=
  match t_pc th with TryMark irq _ => irq / 64 =? i | _ => false end.
Definition in_irqs (th : thread) : bool := match t_pc th with Irqs _ _ _ => true | _ => false end.

Lemma view_frames c th : frames (view c th) = stack th.
Proof. unfold frames, view, stack. simpl. by destruct (t_pc th). Qed.

Lemma view_marks c th i : marks (view c th) i <-> marking i th = true.
Proof.
  unfold marks, view, marking. simpl. destruct (t_pc th); try (split; [by intros (? & ? & _)|done]).
  rewrite Z.eqb_eq. split; [by intros (? & [= <-] & ?)|eauto].
Qed.

Lemma view_in_irqs c th : v_fs (view c th) = None <-> in_irqs th = false.
Proof. unfold view, in_irqs. simpl. by destruct (t_pc th). Qed.

(** ** The second invariant: sleepers, shutdown and pending interrupts *)

Definition resting (th : thread) : bool :=
  match t_pc th with TryRet ret _ _ => ret =? 0 | TryMark _ _ => true | _ => false end.

(** On the way to take a free CPU. *)
Definition trying (th : thread) : bool :=
  match t_pc th with TryAdd _ _ _ | TryLock _ _ | TryBody _ _ => true | _ => false end.

Definition halting (th : thread) : bool :=
  match t_pc th with IdleLock | IdleWake | CleanSpin | Dead => true | _ => false end.

Definition some_thread (f : thread -> bool) (s : mstate) : Prop :=
  exists t th, m_threads s !! t = Some th /\ f th = true.

Record sinv (idle_tid : Z) (s : mstate) : Prop := {
  si_resting : some_thread resting s -> c_owner (m_cpu s) <> 0;
  si_halting : some_thread halting s -> MAX_THREADS <= c_shutdown_gate (m_cpu s);
  si_awake : ~ some_thread dying s ->
    0 <= c_sleepers (m_cpu s) /\ 0 <= c_sem (m_cpu s) /\
    wsum asleep (m_threads s) = c_sleepers (m_cpu s) + c_sem (m_cpu s);
  si_dying : some_thread dying s ->
    wsum asleep (m_threads s) = c_sem (m_cpu s) /\ ~ some_thread resting s;
  si_freed : c_freed (m_cpu s) = true ->
    some_thread (fun th => match t_pc th with Dead => true | _ => false end) s /\
    ~ some_thread needs_lock s;
  si_retry : c_owner (m_cpu s) = 0 -> 0 < c_sleepers (m_cpu s) ->
    c_shutdown_gate (m_cpu s) < MAX_THREADS -> 0 < c_sem (m_cpu s) \/ some_thread trying s;
  si_irq : irq_ok (c_irq (m_cpu s));
  si_frames : forall t th, m_threads s !! t = Some th -> Forall frame_ok (stack th);
  si_cover : covers (fun i => some_thread (looks_at i) s \/ some_thread (marking i) s) (c_irq (m_cpu s));
  si_pending : forall j, pending (c_irq (m_cpu s)) j = true -> j ∉ c_late (m_cpu s) ->
    c_irqs_pending (m_cpu s) = true \/ some_thread (marking (j / 64)) s \/ some_thread (scanning (j / 64)) s \/
    (irqs_enabled (c_irq (m_cpu s)) = false /\ ~ some_thread in_irqs s);
  si_idle : c_owner (m_cpu s) = 0 -> irqs_enabled (c_irq (m_cpu s)) = true ->
    c_irqs_pending (m_cpu s) = false /\
    forall j, pending (c_irq (m_cpu s)) j = true -> j ∈ c_late (m_cpu s);
}.

Section Second.
Context (idle_tid : Z) (s : mstate) (Hinv : own_inv idle_tid s) (Hsi : sinv idle_tid s).
Context (t : Z) (th : thread) (e : env) (p : pc) (c' : lkl_cpu).
Context (Ht : m_threads s !! t = Some th) (Henv : env_ok idle_tid s t th e).
Context (Hex : exec t e (m_cpu s) idle_tid th = Next p c').
Abbreviation c := (m_cpu s).
Abbreviation th' := (Thread p (sched_after th)).
Abbreviation s' := (MState c' (<[t := th']> (m_threads s))).

(** Some other thread. *)
Definition other (f : thread -> bool) : Prop :=
  exists t2 th2, t2 <> t /\ m_threads s !! t2 = Some th2 /\ f th2 = true.

Lemma some_before f : some_thread f s <-> f th = true \/ other f.
Proof using Ht.
  unfold some_thread, other. split.
  - intros (t2 & th2 & H2 & Hf). destruct (decide (t2 = t)) as [->|]; [|eauto 8].
    left. congruence.
  - intros [?|(t2 & th2 & _ & ? & ?)]; eauto.
Qed.

Lemma some_after f : some_thread f s' <-> f th' = true \/ other f.
Proof using.
  clear. unfold some_thread, other. cbn [m_threads]. split.
  - intros (t2 & th2 & [[<- <-]|[Hne H2]]%lookup_insert_Some & Hf); [by left|]. right. eauto 8.
  - intros [?|(t2 & th2 & Hne & H2 & Hf)].
    + exists t. eexists. by rewrite lookup_insert_eq.
    + exists t2, th2. by rewrite lookup_insert_ne.
Qed.

(** The predicates that only the holder of the CPU satisfies. *)
Lemma other_holds f :
  (forall th, f th = true -> weight th = 1) -> other f -> weight th = 0 /\ c_owner c <> 0.
Proof using Hinv Ht.
  intros Hf (t2 & th2 & Hne & H2 & H). apply Hf in H.
  destruct (holder_alone _ _ Hinv t2 th2 H2 H) as (Ho & _ & _ & Hz). eauto.
Qed.

Lemma other_locking f :
  (forall th, f th = true -> locking th = true) -> other f -> locking th = false.
Proof using Hinv Ht.
  intros Hf (t2 & th2 & Hne & H2 & H). apply Hf, (ci_lock _ _ Hinv t2 th2 H2) in H.
  destruct (locking th) eqn:E; [|done]. apply (ci_lock _ _ Hinv t th Ht) in E. congruence.
Qed.

Lemma halting_weight th0 : halting th0 = true -> weight th0 = 1.
Proof using. clear. unfold halting, weight, depth. by destruct (t_pc th0). Qed.
Lemma dying_halting th0 : dying th0 = true -> halting th0 = true.
Proof using. clear. unfold halting, dying. by destruct (t_pc th0). Qed.
Lemma in_irqs_weight th0 : in_irqs th0 = true -> weight th0 = 1.
Proof using. clear. unfold in_irqs, weight, depth. by destruct (t_pc th0). Qed.
Lemma resting_locking th0 : resting th0 = true -> locking th0 = true.
Proof using. clear. unfold resting, locking. by destruct (t_pc th0). Qed.
Lemma other_weaken f g : (forall th, f th = true -> g th = true) -> other f -> other g.
Proof using. clear. intros Hfg (t2 & th2 & ? & ? & ?). exists t2, th2. auto. Qed.

Lemma shut_stable : MAX_THREADS <= c_shutdown_gate c -> MAX_THREADS <= c_shutdown_gate c'.
Proof using Hinv Ht Henv Hex.
  intros Hg. destruct (step_gate _ _ Hinv t th e p c' Ht Henv Hex) as (b & Hb & _).
  destruct (ci_gate _ _ Hinv) as [b0 Hb0]. pose proof (inside_sum _ _ Hinv) as Hi.
  destruct b0; [|rewrite Hb0 in Hg; lia].
  assert (own_inv idle_tid s') as Hinv' by (by eapply own_inv_next).
  pose proof (inside_sum _ _ Hinv') as Hi'. cbn [m_threads] in Hi'.
  rewrite (wsum_insert inside t th th' _ Ht) in Hi'. unfold MAX_THREADS in *. destruct b; lia.
Qed.

(** The owner changes only under the lock. *)
Lemma owner_locked : c_owner c' <> c_owner c -> locking th = true.
Proof using Hex.
  clear -Hex. unfold locking. destruct th as [q n]. simpl in *. destruct q; exec_cases Hex; done.
Qed.

Lemma next_resting : some_thread resting s' -> c_owner c' <> 0.
Proof using Hinv Hsi Ht Hex.
  clear Henv. intros [Hr|Hr]%some_after.
  - assert (c_owner c' <> 0 \/ resting th = true /\ c_owner c' = c_owner c) as [?|[Hr' ->]]; [|done|].
    { clear -Hex Hr. unfold resting in *. destruct th as [q n]. simpl in *.
      destruct q; exec_cases Hex; revert Hr; pc_cases; try done; auto; lia. }
    apply (si_resting _ _ Hsi), some_before. by left.
  - pose proof (other_locking _ resting_locking Hr) as Hl.
    assert (c_owner c <> 0) by (apply (si_resting _ _ Hsi), some_before; auto).
    destruct (decide (c_owner c' = c_owner c)) as [->|Hn]; [done|].
    apply owner_locked in Hn. congruence.
Qed.

Lemma next_halting : some_thread halting s' -> MAX_THREADS <= c_shutdown_gate c'.
Proof using Hinv Hsi Ht Henv Hex.
  intros [Hr|Hr]%some_after.
  - assert (halting th = true \/ MAX_THREADS <= c_shutdown_gate c) as [Hh|Hg]; [|..|by apply shut_stable].
    + clear -Hex Hr. unfold halting in *. destruct th as [q n]. simpl in *.
      destruct q; exec_cases Hex; revert Hr; pc_cases; auto; try done. right. lia.
    + apply shut_stable, (si_halting _ _ Hsi), some_before. auto.
  - apply shut_stable, (si_halting _ _ Hsi), some_before. auto.
Qed.

Lemma step_asleep :
  (asleep th' = asleep th /\ c_sleepers c' = c_sleepers c /\ c_sem c' = c_sem c /\ dying th' = dying th) \/
  (resting th = true /\ asleep th = 0 /\ asleep th' = 1 /\ c_sleepers c' = u32 (c_sleepers c + 1) /\
   c_sem c' = c_sem c /\ dying th' = false) \/
  (asleep th = 1 /\ asleep th' = 0 /\ 0 < c_sem c /\ c_sem c' = c_sem c - 1 /\
   c_sleepers c' = c_sleepers c /\ dying th' = false /\ trying th' = true) \/
  (weight th = 1 /\ asleep th' = asleep th /\ c_sleepers c <> 0 /\ c_sleepers c' = u32 (c_sleepers c - 1) /\
   c_sem c' = c_sem c + 1 /\ dying th' = false /\ dying th = false) \/
  (t_pc th = IdleWake /\ p = CleanSpin /\ asleep th' = asleep th /\ c_sem c' = c_sem c + c_sleepers c) \/
  (t_pc th = CleanSpin /\ p = Dead /\ asleep th' = asleep th /\ c_sem c' = c_sem c).
Proof using Hex.
  clear -Hex. unfold resting, asleep, weight, depth, dying, trying. destruct th as [q n]. simpl in *.
  destruct q; exec_cases Hex; pc_cases; auto 10.
  { do 2 right. left. split_and!; auto; lia. }
  all: do 3 right; left; split_and!; auto; lia.
Qed.

Lemma asleep_sum : 0 <= wsum asleep (m_threads s) < MAX_THREADS.
Proof using Hinv.
  clear -Hinv. split.
  - apply wsum_nonneg. intros ? th0 _. unfold asleep. destruct (t_pc th0); lia.
  - eapply Z.le_lt_trans; [|apply (ci_size _ _ Hinv)]. apply wsum_le_size.
    intros ? th0 _. unfold asleep. destruct (t_pc th0); lia.
Qed.

Lemma next_awake : ~ some_thread dying s' ->
  0 <= c_sleepers c' /\ 0 <= c_sem c' /\
  wsum asleep (<[t := th']> (m_threads s)) = c_sleepers c' + c_sem c'.
Proof using Hinv Hsi Ht Hex.
  clear Henv. rewrite some_after. intros Hd. rewrite (wsum_insert asleep t th th' _ Ht).
  pose proof asleep_sum as Hb. pose proof (si_awake _ _ Hsi) as Ha. rewrite some_before in Ha.
  destruct step_asleep as [(E1 & E2 & E3 & E4)|[(E0 & E1 & E2 & E3 & E4 & _)|[(E1 & E2 & E3 & E4 & E5 & _)|
    [(E0 & E1 & E2 & E3 & E4 & _ & E5)|[(E1 & -> & _)|(E1 & -> & _)]]]]].
  - rewrite E1, E2, E3. rewrite E4 in Hd. specialize (Ha Hd). lia.
  - destruct Ha as (A1 & A2 & A3).
    { intros [H|H]; [|tauto]. unfold resting, dying in *. by destruct (t_pc th). }
    unfold MAX_THREADS in *. rewrite E1, E2, E3, E4, u32_id by lia. lia.
  - destruct Ha as (A1 & A2 & A3).
    { intros [H|H]; [|tauto]. unfold asleep, dying in *. by destruct (t_pc th). }
    rewrite E1, E2, E4, E5. lia.
  - destruct Ha as (A1 & A2 & A3); [rewrite E5; intros [?|?]; [done|tauto]|].
    unfold MAX_THREADS in *. rewrite E1, E3, E4, u32_id by lia. lia.
  - exfalso. apply Hd. by left.
  - exfalso. apply Hd. by left.
Qed.

Lemma next_dying : some_thread dying s' ->
  wsum asleep (<[t := th']> (m_threads s)) = c_sem c' /\ ~ some_thread resting s'.
Proof using Hinv Hsi Ht Henv Hex.
  rewrite !some_after, (wsum_insert asleep t th th' _ Ht). intros Hd.
  pose proof (si_dying _ _ Hsi) as Hdy. rewrite !some_before in Hdy.
  pose proof (si_awake _ _ Hsi) as Ha. rewrite some_before in Ha.
  assert (resting th' = true -> resting th = true \/ c_shutdown_gate c < MAX_THREADS) as Hnr.
  { clear -Hex. unfold resting. destruct th as [q n]. simpl in *.
    destruct q; exec_cases Hex; pc_cases; try done; auto; lia. }
  assert (dying th = true \/ other dying -> MAX_THREADS <= c_shutdown_gate c) as Hg.
  { intros H. apply (si_halting _ _ Hsi), some_before. destruct H as [H|H].
    - left. by apply dying_halting.
    - right. eapply other_weaken; [exact dying_halting|done]. }
  destruct step_asleep as [(E1 & E2 & E3 & E4)|[(E0 & E1 & E2 & E3 & E4 & E6)|[(E1 & E2 & E3 & E4 & E5 & E6 & _)|
    [(E0 & E1 & E2 & E3 & E4 & E6 & E5)|[(E1 & -> & E2 & E3)|(E1 & -> & E2 & E3)]]]]].
  - rewrite E4 in Hd. destruct (Hdy Hd) as [D1 D2]. specialize (Hg Hd). split; [rewrite E1, E3; lia|].
    intros [H|H]; [destruct (Hnr H); [tauto|lia]|tauto].
  - rewrite E6 in Hd. destruct Hd as [?|Hd]; [done|]. destruct (Hdy (or_intror Hd)) as [_ D2]. tauto.
  - rewrite E6 in Hd. destruct Hd as [?|Hd]; [done|]. destruct (Hdy (or_intror Hd)) as [D1 D2].
    specialize (Hg (or_intror Hd)). split; [rewrite E1, E2, E4; lia|].
    intros [H|H]; [destruct (Hnr H); [tauto|lia]|tauto].
  - rewrite E6 in Hd. destruct Hd as [?|Hd]; [done|].
    destruct (other_holds dying) as [H0 _]; [|done|lia].
    intros th0 H. by apply halting_weight, dying_halting.
  - assert (~ (dying th = true \/ other dying)) as Hn.
    { intros [H|H]; [unfold dying in H; by rewrite E1 in H|].
      destruct (other_holds dying) as [H0 _]; [|done|unfold weight, depth in H0; by rewrite E1 in H0].
      intros th0 H2. by apply halting_weight, dying_halting. }
    destruct (Ha Hn) as (A1 & A2 & A3). split; [rewrite E2, E3; lia|].
    intros [H|H]; [done|]. apply (other_locking _ resting_locking) in H.
    unfold locking in H. by rewrite E1 in H.
  - destruct Hdy as [D1 D2]; [left; unfold dying; by rewrite E1|]. split; [rewrite E2, E3; lia|].
    intros [H|H]; [done|tauto].
Qed.

Definition dead (th : thread) : bool := match t_pc th with Dead => true | _ => false end.

Lemma dead_dying th0 : dead th0 = true -> dying th0 = true.
Proof using. clear. unfold dead, dying. by destruct (t_pc th0). Qed.

(** With the shutdown on, a thread outside cannot get at the lock. *)
Lemma step_no_lock :
  weight th = 0 -> needs_lock th = false -> MAX_THREADS <= c_shutdown_gate c -> needs_lock th' = false.
Proof using Hex.
  clear -Hex. unfold weight, depth, needs_lock. destruct th as [q n]. simpl in *.
  destruct q; exec_cases Hex; pc_cases; try done; lia.
Qed.

(** [lkl_cpu_cleanup] frees only when nobody is inside. *)
Lemma step_freed :
  c_freed c' = c_freed c \/
  (t_pc th = CleanSpin /\ p = Dead /\ c_shutdown_gate c <= MAX_THREADS).
Proof using Hex.
  clear -Hex. destruct th as [q n]. simpl in *. destruct q; exec_cases Hex; auto.
  right. split_and!; [done|done|lia].
Qed.

Lemma next_freed : c_freed c' = true -> some_thread dead s' /\ ~ some_thread needs_lock s'.
Proof using Hinv Hsi Ht Henv Hex.
  intros Hf. rewrite !some_after. destruct step_freed as [E|(E1 & -> & Hg)].
  - rewrite E in Hf. destruct (si_freed _ _ Hsi Hf) as [Hd Hn]. fold dead in Hd.
    change (some_thread dead s) in Hd. rewrite some_before in Hd, Hn.
    assert (dead th = false) as Hdt.
    { clear -Hex. unfold dead. by destruct th as [[] n]. }
    destruct Hd as [?|Hd]; [congruence|].
    destruct (other_holds dead) as [H0 _].
    { intros th0 H. by apply halting_weight, dying_halting, dead_dying. }
    { done. }
    split; [by right|]. intros [H|H]; [|tauto].
    rewrite step_no_lock in H; [done|done|by destruct (needs_lock th); [tauto|]|].
    apply (si_halting _ _ Hsi), some_before. right.
    eapply other_weaken; [|exact Hd]. intros th0 H2. by apply dying_halting, dead_dying.
  - split; [by left|]. intros [H|(t2 & th2 & Hne & H2 & H)]; [done|].
    assert (MAX_THREADS <= c_shutdown_gate c) as Hge.
    { apply (si_halting _ _ Hsi), some_before. left. unfold halting. by rewrite E1. }
    destruct (ci_gate _ _ Hinv) as [b Hb]. pose proof (inside_sum _ _ Hinv) as Hi.
    assert (inside th2 <= wsum inside (m_threads s)).
    { apply (wsum_ge inside _ t2); [|done]. intros t0 th0 H0. by eapply inside_01, (ci_shape _ _ Hinv). }
    assert (inside th2 = 1) by (unfold inside, needs_lock in *; by destruct (t_pc th2)).
    destruct b; lia.
Qed.

Lemma step_trying :
  trying th = true -> c_shutdown_gate c < MAX_THREADS -> c_owner c = 0 -> trying th' = true \/ c_owner c' = t.
Proof using Hex.
  clear -Hex. unfold trying. destruct th as [q n]. simpl in *.
  destruct q; exec_cases Hex; auto; try done; lia.
Qed.

(** Giving the CPU up wakes a sleeper if there is one. *)
Lemma step_release :
  c_owner c <> 0 -> c_owner c' = 0 ->
  (exists d a, t_pc th = PutBody d a) /\ (c_sleepers c' = 0 \/ c_sem c' = c_sem c + 1) /\
  c_count c = 1 /\ c_irqs_pending c && irqs_enabled (c_irq c) = false /\
  c_irqs_pending c' = c_irqs_pending c /\ c_irq c' = c_irq c /\ c_late c' = c_late c.
Proof using Hinv Ht Henv Hex.
  pose proof (ci_hold _ _ Hinv t th Ht) as Hh. unfold hold_ok, depth in Hh.
  pose proof (ci_target _ _ Hinv t th Ht) as Htg. unfold target_ok in Htg.
  pose proof (tid_nonzero _ _ Hinv t th Ht) as Hne.
  pose proof (target_nonzero _ _ Hinv t th Ht) as Hnz.
  clear -Hex Hh Htg Hne Hnz. destruct th as [q n]. simpl in *.
  destruct q; exec_cases Hex; intros H1 H2; try done; try lia; try (by apply Hnz in Htg).
  all: specialize (Hh _ eq_refl); unfold u32 in *; split_and!; eauto; try lia; try (left; lia); right; lia.
Qed.

Lemma next_retry : c_owner c' = 0 -> 0 < c_sleepers c' -> c_shutdown_gate c' < MAX_THREADS ->
  0 < c_sem c' \/ some_thread trying s'.
Proof using Hinv Hsi Ht Henv Hex.
  intros Ho Hs Hg. rewrite some_after.
  assert (c_shutdown_gate c < MAX_THREADS) as Hg0.
  { destruct (Z.lt_ge_cases (c_shutdown_gate c) MAX_THREADS) as [|H]; [done|].
    apply shut_stable in H. lia. }
  assert (~ some_thread dying s) as Hnd.
  { intros (t2 & th2 & H2 & Hd). enough (MAX_THREADS <= c_shutdown_gate c) by lia.
    apply (si_halting _ _ Hsi). exists t2, th2. split; [done|by apply dying_halting]. }
  destruct (si_awake _ _ Hsi Hnd) as (A1 & A2 & _).
  destruct (decide (c_owner c = 0)) as [Ho0|Ho0].
  2:{ destruct (step_release Ho0 Ho) as (_ & [?|?] & _); [lia|left; lia]. }
  pose proof (tid_nonzero _ _ Hinv t th Ht) as Hne.
  pose proof (si_retry _ _ Hsi Ho0) as Hr. rewrite some_before in Hr.
  destruct step_asleep as [(E1 & E2 & E3 & E4)|[(E0 & _)|[(E1 & E2 & E3 & E4 & E5 & E6 & E7)|
    [(E0 & E1 & E2 & E3 & E4 & E6 & E5)|[(E1 & _)|(E1 & _)]]]]].
  - rewrite E2 in Hs. rewrite E3. destruct (Hr Hs Hg0) as [?|[H|?]]; [by left| |by auto].
    destruct (step_trying H Hg0 Ho0); [by auto|congruence].
  - exfalso. assert (c_owner c <> 0); [|done]. apply (si_resting _ _ Hsi), some_before. by left.
  - auto.
  - destruct (holder_alone _ _ Hinv t th Ht E0) as [? _]. done.
  - exfalso. apply (free_none _ _ Hinv Ho0) in Ht. unfold weight, depth in Ht. by rewrite E1 in Ht.
  - exfalso. apply (free_none _ _ Hinv Ho0) in Ht. unfold weight, depth in Ht. by rewrite E1 in Ht.
Qed.

Lemma holder_no_irqs : weight th = 1 -> ~ other in_irqs.
Proof using Hinv Ht. intros Hw Ho. destruct (other_holds _ in_irqs_weight Ho). lia. Qed.

(** The step as the thread sees the interrupts. *)
Lemma step_imove : imove (other in_irqs) (view c th) (view c' th').
Proof using Hinv Hsi Ht Henv Hex.
  pose proof (ci_shape _ _ Hinv t th Ht) as [_ Hsh]. pose proof holder_no_irqs as Hno.
  pose proof (si_irq _ _ Hsi) as [_ Hh].
  clear -Hex Hsh Hno Hh Henv. destruct th as [q n].
  unfold view, env_ok, shape_ok, caller_ok, weight, depth in *. simpl in *.
  destruct q; exec_cases Hex; pc_cases;
    try first [apply im_same|apply im_restore|apply im_loop|apply im_done|apply im_flags|by apply im_take
      |by apply im_words|by apply im_word|by apply im_bits|by apply im_bit];
    try (apply im_set; [by apply Hno|intros _; rewrite Hh in *; by destruct (irqs_enabled (c_irq c))]).
  - by apply im_set; [apply Hno|].
  - destruct flags; [apply im_restore|done].
  - apply im_set; [by apply Hno|]. intros ->. rewrite Hh in *. by destruct (irqs_enabled (c_irq c)).
  - apply im_or; [apply Hsh|done].
  - apply im_mark, Hsh.
  - apply im_pend; [by apply Hno|done| |done]. by destruct (irqs_enabled (c_irq c)).
  - apply im_trigger; [done|]. by destruct (irqs_enabled (c_irq c)).
  - replace (set_hardirq (hardirq_count a - 1) a) with
      (set_enabled (irqs_enabled a) (set_hardirq (hardirq_count a - 1) a)) by (by destruct a).
    by apply (im_handle _ _ _ _ _ _ (e_raise e) a true).
  - by apply (im_handle _ _ _ _ _ _ (e_raise e) a false).
Qed.

Lemma others_scan i : other (looks_at i) -> other (scanning i).
Proof using. clear. apply other_weaken. intros th0. apply due_scan. Qed.

Abbreviation view_ok := (iinv (fun i => other (looks_at i)) (fun i => other (scanning i))
  (fun i => other (marking i)) (other in_irqs)).

Lemma view_before : view_ok (view c th).
Proof using Hsi Ht.
  split; [apply Hsi|rewrite view_frames; by apply (si_frames _ _ Hsi t)|..].
  - eapply covers_weaken; [|apply (si_cover _ _ Hsi)]. intros i. cbv beta. rewrite !some_before. unfold dues.
    rewrite view_frames, view_marks. fold (looks_at i th). tauto.
  - intros j Hj Hl. destruct (si_pending _ _ Hsi j Hj Hl) as [?|[H|[H|[He H]]]]; rewrite ?some_before in H.
    + by left.
    + rewrite view_marks. tauto.
    + unfold scans. rewrite view_frames. fold (scanning (j / 64) th). tauto.
    + do 5 right. split; [done|]. rewrite view_in_irqs. split; [|tauto]. destruct (in_irqs th); tauto.
Qed.

Lemma view_after : view_ok (view c' th').
Proof using Hinv Hsi Ht Henv Hex.
  eapply imove_inv; [exact others_scan|exact step_imove|exact view_before].
Qed.

Lemma next_frames t2 th2 : <[t := th']> (m_threads s) !! t2 = Some th2 -> Forall frame_ok (stack th2).
Proof using Hinv Hsi Ht Henv Hex.
  intros [[-> ->]|[Hne H2]]%lookup_step; [|by apply (si_frames _ _ Hsi t2)].
  rewrite <- (view_frames c'). apply view_after.
Qed.

Lemma next_cover :
  covers (fun i => some_thread (looks_at i) s' \/ some_thread (marking i) s') (c_irq c').
Proof using Hinv Hsi Ht Henv Hex.
  eapply covers_weaken; [|apply (ii_cover _ _ _ _ _ view_after)]. intros i. cbv beta. rewrite !some_after.
  unfold dues. rewrite view_frames, view_marks. fold (looks_at i th'). tauto.
Qed.

Lemma next_pending j : pending (c_irq c') j = true -> j ∉ c_late c' ->
  c_irqs_pending c' = true \/ some_thread (marking (j / 64)) s' \/ some_thread (scanning (j / 64)) s' \/
  (irqs_enabled (c_irq c') = false /\ ~ some_thread in_irqs s').
Proof using Hinv Hsi Ht Henv Hex.
  intros Hj Hl. rewrite !some_after. pose proof (ii_pending _ _ _ _ _ view_after j Hj Hl) as H.
  unfold scans in H. rewrite view_frames, view_marks, view_in_irqs in H. fold (scanning (j / 64) th') in H.
  destruct H as [?|[?|[?|[?|[?|(? & H1 & H2)]]]]]; [by auto 10..|].
  do 3 right. split; [done|]. rewrite H1. intros [?|?]; done.
Qed.

(** Only its holder, or a thread that finds it taken, touches the interrupts. *)
Lemma step_irq_free :
  (c_irq c' = c_irq c /\ c_late c' = c_late c /\ c_irqs_pending c' = c_irqs_pending c) \/
  resting th = true \/ weight th = 1.
Proof using Hex.
  clear -Hex. unfold resting, weight, depth. destruct th as [q n]. simpl in *.
  destruct q; exec_cases Hex; auto.
Qed.

Lemma next_idle : c_owner c' = 0 -> irqs_enabled (c_irq c') = true ->
  c_irqs_pending c' = false /\ forall j, pending (c_irq c') j = true -> j ∈ c_late c'.
Proof using Hinv Hsi Ht Henv Hex.
  intros Ho. destruct (decide (c_owner c = 0)) as [Ho0|Ho0].
  - destruct step_irq_free as [(-> & -> & ->)|[Hr|Hw]]; [by apply Hsi|exfalso..].
    + assert (c_owner c <> 0); [|done]. apply (si_resting _ _ Hsi), some_before. by left.
    + by destruct (holder_alone _ _ Hinv t th Ht Hw) as [? _].
  - destruct (step_release Ho0 Ho) as ((d & a & E) & _ & Hc & Hi & -> & -> & ->). intros Hen.
    rewrite Hen, andb_true_r in Hi. split; [done|]. intros j Hj.
    destruct (decide (j ∈ c_late c)) as [|Hl]; [done|exfalso].
    assert (forall f, (forall th0, f th0 = true -> in_irqs th0 = true) -> ~ some_thread f s) as Hno.
    { intros f Hf. rewrite some_before. intros [H|H].
      - apply Hf in H. unfold in_irqs in H. by rewrite E in H.
      - apply (other_weaken f in_irqs Hf) in H. destruct (other_holds _ in_irqs_weight H) as [H0 _].
        unfold weight, depth in H0. by rewrite E in H0. }
    destruct (si_pending _ _ Hsi j Hj Hl) as [?|[H|[H|[? _]]]]; [congruence| | |congruence].
    + apply some_before in H as [H|H]; [unfold marking in H; by rewrite E in H|].
      apply (other_locking (marking (j / 64))) in H; [unfold locking in H; by rewrite E in H|].
      intros th0. unfold marking, locking. by destruct (t_pc th0).
    + revert H. apply Hno. intros th0. unfold scanning, stack, in_irqs. by destruct (t_pc th0).
Qed.


Lemma sinv_next : sinv idle_tid s'.
Proof using Hinv Hsi Ht Henv Hex.
  split; cbn [m_cpu m_threads].
  - exact next_resting.
  - exact next_halting.
  - exact next_awake.
  - exact next_dying.
  - exact next_freed.
  - exact next_retry.
  - apply view_after.
  - exact next_frames.
  - exact next_cover.
  - exact next_pending.
  - exact next_idle.
Qed.

End Second.

(** The second invariant across a wake-up. *)
Section WakeSecond.
Context (idle_tid : Z) (s : mstate) (Hinv : own_inv idle_tid s) (Hsi : sinv idle_tid s).
Context (t : Z) (th : thread) (e : env) (u : Z) (p : pc) (c' : lkl_cpu).
Context (Ht : m_threads s !! t = Some th).
Context (Hex : exec t e (m_cpu s) idle_tid th = Up u p c').
Abbreviation ts' := (sem_up_sched u (<[t := Thread p (sched_after th)]> (m_threads s))).

(** A predicate that fails on waiting and switching threads is not affected. *)
Lemma wake_some f :
  (forall q n, (exists a, q = after_pc a \/ q = SwWake u a) -> f (Thread q n) = false) ->
  some_thread f (MState c' ts') <-> some_thread f s.
Proof using Hinv Ht Hex.
  intros Hf. destruct (wake_shape _ _ _ _ _ _ _ _ Hex) as (a & Hp & Hpa & _).
  unfold some_thread. cbn [m_threads]. split.
  - intros (t2 & th2 & [[-> ->]|[(-> & _ & ->)|(_ & _ & H2)]]%(lookup_wake _ _ Hinv t th e u p c' Ht Hex) & H).
    + rewrite Hf in H; [done|]. exists APark. by left.
    + rewrite Hf in H; [done|]. exists a. by left.
    + eauto.
  - intros (t2 & th2 & H2 & H). exists t2, th2. split; [|done].
    rewrite (wake_lookup_other _ _ Hinv t th e u p c' Ht Hex); [done|..].
    + intros ->. rewrite Ht in H2. simplify_eq. destruct th2 as [q n]. simpl in Hp. subst q.
      rewrite Hf in H; [done|]. exists a. by right.
    + intros ->. destruct (wake_cases _ _ Hinv t th e u p c' Ht Hex) as [(-> & _)|(Hne & Hn & _)].
      * rewrite Ht in H2. simplify_eq. destruct th2 as [q n]. simpl in Hp. subst q.
        rewrite Hf in H; [done|]. exists a. by right.
      * rewrite Hn in H2. simplify_eq. rewrite Hf in H; [done|]. exists APark. by left.
Qed.

Lemma sinv_wake : sinv idle_tid (MState c' ts').
Proof using Hinv Hsi Ht Hex.
  destruct (wake_shape _ _ _ _ _ _ _ _ Hex) as (a & Hp & Hpa & Hc & _).
  assert (wsum asleep ts' = wsum asleep (m_threads s)) as Hw.
  { rewrite (wake_wsum _ _ Hinv t th e u p c' Ht Hex). unfold asleep at 2 3 4 5. rewrite Hp. simpl.
    subst p. destruct a; simpl; case_decide; lia. }
  assert (forall f, (forall a n, f (Thread (after_pc a) n) = false /\ f (Thread (SwWake u a) n) = false) ->
    some_thread f (MState c' ts') <-> some_thread f s) as Hsome.
  { intros f Hf. apply wake_some. intros q n [a' [->| ->]]; apply (Hf a' n). }
  assert (forall t2 th2, ts' !! t2 = Some th2 -> Forall frame_ok (stack th2)) as Hfr.
  { intros t2 th2 [[-> ->]|[(-> & _ & ->)|(_ & _ & H2)]]%(lookup_wake _ _ Hinv t th e u p c' Ht Hex).
    - constructor.
    - subst p. destruct a; constructor.
    - by apply (si_frames _ _ Hsi t2). }
  destruct Hsi as [S1 S2 S3 S4 S5 S6 S7 S8 S9 S10 S11].
  change (fun th0 => match t_pc th0 with Dead => true | _ => false end) with dead in S5.
  split; cbn [m_cpu m_threads]; rewrite ?Hw.
  1-4: rewrite ?Hsome by (intros [] ?; done); by rewrite Hc.
  - change (fun th0 => match t_pc th0 with Dead => true | _ => false end) with dead.
    rewrite !Hsome by (intros [] ?; done). by rewrite Hc.
  - rewrite Hsome by (intros [] ?; done). by rewrite Hc.
  - by rewrite Hc.
  - exact Hfr.
  - eapply (covers_weaken (fun i => some_thread (looks_at i) s \/ some_thread (marking i) s)); [|by rewrite Hc].
    intros i. cbv beta. by rewrite !Hsome by (intros [] ?; done).
  - intros j. rewrite !Hsome by (intros [] ?; done). rewrite Hc. apply S10.
  - by rewrite Hc.
Qed.

End WakeSecond.

Lemma sinv_step idle_tid s s' :
  own_inv idle_tid s -> sinv idle_tid s -> mstep idle_tid s s' -> sinv idle_tid s'.
Proof. intros Hinv Hsi Hst. destruct Hst; [by eapply sinv_next|by eapply sinv_wake]. Qed.

Lemma sinv_init idle_tid s : minit idle_tid s -> sinv idle_tid s.
Proof.
  intros (Hc & H0 & Hsz & Hth).
  assert (forall f, (forall n, f (Thread Out n) = false /\ f (Thread Parked n) = false /\
    f (Thread BootWait n) = false) -> ~ some_thread f s) as Hno.
  { intros f Hf (t & [q n] & Ht & H). destruct (Hth t _ Ht) as [_ [E|[E|E]]]; simpl in E; subst q;
      destruct (Hf n) as (? & ? & ?); congruence. }
  assert (wsum asleep (m_threads s) = 0) as Hs.
  { destruct (decide (0 < wsum asleep (m_threads s))) as [Hp|Hp].
    - apply wsum_pos in Hp as (t & [q n] & Ht & Hp); [|intros ? th0 _; unfold asleep; destruct (t_pc th0); lia].
      destruct (Hth t _ Ht) as [_ [E|[E|E]]]; simpl in E; subst q; by unfold asleep in Hp.
    - assert (0 <= wsum asleep (m_threads s)); [|lia].
      apply wsum_nonneg. intros ? th0 _. unfold asleep. destruct (t_pc th0); lia. }
  assert (forall j, pending irq_init j = false) as Hn.
  { intros j. unfold pending. destruct (Z.leb_spec 0 j); [|done]. cbn [andb].
    case_match eqn:E; [|done]. unfold irq_init in E. cbn [irq_status] in E.
    apply lookup_replicate in E as [-> _]. apply Z.bits_0. }
  split; rewrite ?Hc, ?Hs; try done.
  - intros Hx. exfalso. revert Hx. by apply Hno.
  - intros Hx. exfalso. revert Hx. by apply Hno.
  - intros Hx. exfalso. revert Hx. by apply Hno.
  - split; [exact irq_wf_init|done].
  - intros t th Ht. destruct (Hth t th Ht) as [_ [E|[E|E]]]; unfold stack; rewrite E; constructor.
  - intros i w Hi Hnz. left. by apply (index_covers_init i w).
  - intros j Hj. change (pending irq_init j = true) in Hj. congruence.
Qed.

Lemma inv_reachable idle_tid s0 s :
  minit idle_tid s0 -> rtc (mstep idle_tid) s0 s -> own_inv idle_tid s /\ sinv idle_tid s.
Proof.
  intros Hi Hr. assert (own_inv idle_tid s0 /\ sinv idle_tid s0) as Hinv by (split; [by apply own_inv_init|by apply sinv_init]).
  clear Hi. induction Hr; [done|]. apply IHHr. destruct Hinv. split; [by eapply own_inv_step|by eapply sinv_step].
Qed.

(** ** Progress *)

Section Progress.
Context (idle_tid : Z).

Definition both (s : mstate) : Prop := own_inv idle_tid s /\ sinv idle_tid s.

Lemma both_step s s' : both s -> mstep idle_tid s s' -> both s'.
Proof. intros [H1 H2] Hst. split; [by eapply own_inv_step|by eapply sinv_step]. Qed.

Definition any_env : env := Env DoPut false false 0 [].

(** A thread with the lock takes a free CPU. *)
Lemma take_body s t k d n :
  both s -> m_threads s !! t = Some (Thread (TryBody k d) n) -> c_owner (m_cpu s) = 0 ->
  c_shutdown_gate (m_cpu s) < MAX_THREADS ->
  exists s', rtc (mstep idle_tid) s s' /\ c_owner (m_cpu s') = t.
Proof.
  intros _ Ht Ho Hg. eexists. split.
  - apply rtc_once. eapply (mstep_next _ s t _ any_env); [exact Ht|done|].
    unfold exec, try_body. cbn [t_pc]. rewrite (proj2 (Z.leb_gt _ _)) by done. by rewrite Ho.
  - done.
Qed.

Lemma take_lock s t k d n :
  both s -> m_threads s !! t = Some (Thread (TryLock k d) n) -> c_owner (m_cpu s) = 0 ->
  c_shutdown_gate (m_cpu s) < MAX_THREADS -> c_lock (m_cpu s) = None ->
  exists s', rtc (mstep idle_tid) s s' /\ c_owner (m_cpu s') = t.
Proof.
  intros Hb Ht Ho Hg Hl. destruct (c_freed (m_cpu s)) eqn:Hf.
  { exfalso. destruct (si_freed _ _ (proj2 Hb) Hf) as [_ Hn]. apply Hn.
    exists t. eexists. by split; [exact Ht|]. }
  assert (mstep idle_tid s (MState (with_lock (Some t) (m_cpu s))
    (<[t := Thread (TryBody k d) n]> (m_threads s)))) as Hst.
  { eapply (mstep_next _ s t (Thread (TryLock k d) n) any_env); [exact Ht|done|].
    unfold exec, lock_then. cbn [t_pc]. by rewrite Hf, Hl. }
  destruct (take_body _ t k d n (both_step _ _ Hb Hst)) as (s' & Hr & Ho').
  { apply lookup_insert_eq. } { done. } { done. }
  exists s'. split; [|done]. by eapply rtc_l.
Qed.

Lemma take_add s t m k d n :
  both s -> m_threads s !! t = Some (Thread (TryAdd m k d) n) -> c_owner (m_cpu s) = 0 ->
  c_shutdown_gate (m_cpu s) < MAX_THREADS -> c_lock (m_cpu s) = None ->
  exists s', rtc (mstep idle_tid) s s' /\ c_owner (m_cpu s') = t.
Proof.
  intros Hb Ht Ho Hg Hl.
  set (s1 := MState (with_gate (u32 (c_shutdown_gate (m_cpu s) + m)) (m_cpu s))
    (<[t := Thread (TryLock k d) n]> (m_threads s))).
  assert (mstep idle_tid s s1) as Hst.
  { eapply (mstep_next _ s t (Thread (TryAdd m k d) n) any_env); [exact Ht|done|].
    unfold exec, try_add. cbn [t_pc]. by rewrite (proj2 (Z.leb_gt _ _)). }
  assert (c_shutdown_gate (m_cpu s1) < MAX_THREADS) as Hg1.
  { destruct (ci_gate _ _ (proj1 (both_step _ _ Hb Hst))) as [b Hg1].
    destruct (ci_gate _ _ (proj1 Hb)) as [b0 Hg0].
    pose proof (inside_sum _ _ (proj1 Hb)). pose proof (inside_sum _ _ (proj1 (both_step _ _ Hb Hst))).
    destruct (ci_shape _ _ (proj1 Hb) t _ Ht) as [_ (_ & _ & Hm)].
    cbn [m_cpu m_threads s1 with_gate c_shutdown_gate] in *.
    rewrite (wsum_insert inside t _ _ _ Ht) in *. unfold inside in *. cbn [t_pc] in *.
    unfold u32, MAX_THREADS in *. destruct b, b0; lia. }
  destruct (take_lock s1 t k d n (both_step _ _ Hb Hst)) as (s' & Hr & Ho'); try done.
  { apply lookup_insert_eq. }
  exists s'. split; [|done]. by eapply rtc_l.
Qed.

(** Whoever has the lock of a free CPU takes the CPU or gives the lock back. *)
Lemma unlock_free s :
  both s -> c_owner (m_cpu s) = 0 -> c_shutdown_gate (m_cpu s) < MAX_THREADS ->
  (exists s', rtc (mstep idle_tid) s s' /\ c_owner (m_cpu s') <> 0) \/
  exists s', rtc (mstep idle_tid) s s' /\ both s' /\ c_lock (m_cpu s') = None /\ c_owner (m_cpu s') = 0 /\
    c_shutdown_gate (m_cpu s') < MAX_THREADS /\ c_sem (m_cpu s') = c_sem (m_cpu s) /\
    (forall t th, m_threads s !! t = Some th -> locking th = false -> m_threads s' !! t = Some th).
Proof.
  intros Hb Ho Hg. destruct (c_lock (m_cpu s)) as [h|] eqn:Hl.
  2:{ right. exists s. split; [done|]. split_and!; done. }
  destruct (ci_holder _ _ (proj1 Hb) h Hl) as [th Hth].
  pose proof (proj2 (ci_lock _ _ (proj1 Hb) h th Hth) Hl) as Hlk.
  destruct (free_none _ _ (proj1 Hb) Ho) as (_ & _ & Hz). pose proof (Hz h th Hth) as Hw.
  assert (h <> 0) as Hne by (intros ->; by rewrite (ci_tids _ _ (proj1 Hb)) in Hth).
  destruct th as [q n]. destruct q; try (by unfold locking in Hlk); try (by unfold weight in Hw).
  - left. destruct (take_body s h k d n Hb Hth Ho Hg) as (s' & Hr & E). exists s'. split; [done|congruence].
  - assert (c_freed (m_cpu s) = false) as Hf.
    { destruct (c_freed (m_cpu s)) eqn:Hf; [|done]. exfalso.
      destruct (si_freed _ _ (proj2 Hb) Hf) as [_ Hn]. apply Hn. exists h. eexists. by split; [exact Hth|]. }
    assert (ret <> 0) as Hr0.
    { intros ->. apply (si_resting _ _ (proj2 Hb)); [|done]. exists h. eexists. by split; [exact Hth|]. }
    set (s1 := MState (unlock (m_cpu s)) (<[h := Thread (Leave ret k d) n]> (m_threads s))).
    assert (mstep idle_tid s s1) as Hst.
    { eapply (mstep_next _ s h (Thread (TryRet ret k d) n) any_env); [exact Hth|done|].
      unfold exec, try_ret. cbn [t_pc]. rewrite Hf, (proj2 (Z.eqb_neq _ _) Hr0). by destruct k. }
    right. exists s1. split; [by apply rtc_once|]. split; [by eapply both_step|]. split_and!; try done.
    intros t2 th2 H2 Hn2. simpl. rewrite lookup_insert_ne; [done|]. intros ->. rewrite Hth in H2. by simplify_eq.
  - exfalso. apply (si_resting _ _ (proj2 Hb)); [|done]. exists h. eexists. by split; [exact Hth|].
Qed.

Lemma wake_and_take s :
  both s -> c_owner (m_cpu s) = 0 -> c_shutdown_gate (m_cpu s) < MAX_THREADS -> c_lock (m_cpu s) = None ->
  (0 < c_sem (m_cpu s) /\ some_thread (fun th => asleep th =? 1) s) \/
  some_thread (fun th => trying th && negb (locking th)) s ->
  exists s', rtc (mstep idle_tid) s s' /\ c_owner (m_cpu s') <> 0.
Proof.
  intros Hb Ho Hg Hl Hs.
  assert (forall s' t, c_owner (m_cpu s') = t -> is_Some (m_threads s !! t) -> c_owner (m_cpu s') <> 0) as Hnz.
  { intros s' t <- [th Hth] H0. rewrite H0, (ci_tids _ _ (proj1 Hb)) in Hth. done. }
  destruct Hs as [[Hsem (t & [q n] & Ht & Ha)]|(t & [q n] & Ht & Ha)].
  - destruct q; try done.
    assert (c_freed (m_cpu s) = false) as Hf.
    { destruct (c_freed (m_cpu s)) eqn:Hf; [|done]. exfalso.
      destruct (si_freed _ _ (proj2 Hb) Hf) as [_ Hn]. apply Hn. exists t. eexists. by split; [exact Ht|]. }
    set (s1 := MState (with_sem (c_sem (m_cpu s) - 1) (m_cpu s))
                 (<[t := Thread (TryAdd 0 CGet 0) n]> (m_threads s))).
    assert (mstep idle_tid s s1) as Hst.
    { eapply (mstep_next _ s t (Thread SemDown n) any_env); [exact Ht|done|].
      unfold exec, sem_down. cbn [t_pc]. by rewrite Hf, (proj2 (Z.ltb_lt _ _) Hsem). }
    destruct (take_add s1 t 0 CGet 0 n (both_step _ _ Hb Hst)) as (s' & Hr & Ho'); try done.
    { apply lookup_insert_eq. }
    exists s'. split; [by eapply rtc_l|]. eapply Hnz; [done|eauto].
  - destruct q; try done.
    + destruct (take_add s t n0 k d n Hb Ht Ho Hg Hl) as (s' & Hr & Ho'). exists s'. split; [done|]. eapply Hnz; eauto.
    + destruct (take_lock s t k d n Hb Ht Ho Hg Hl) as (s' & Hr & Ho'). exists s'. split; [done|]. eapply Hnz; eauto.
Qed.

End Progress.

(** ** Properties *)

(** Once the lock is freed a thread that still moves does not need it. *)
Lemma freed_harmless idle_tid s t th :
  own_inv idle_tid s -> sinv idle_tid s -> m_threads s !! t = Some th -> c_freed (m_cpu s) = true ->
  t_pc th = Dead \/ (weight th = 0 /\ needs_lock th = false /\ t_pc th <> IdleParked).
Proof.
  intros Hinv Hsi Ht Hf. destruct (si_freed _ _ Hsi Hf) as [(h & hh & Hh & Hd) Hn].
  destruct (decide (h = t)) as [->|Hne].
  { rewrite Ht in Hh. simplify_eq. left. by destruct (t_pc hh). }
  right. assert (weight hh = 1) as Hw by (unfold weight, depth; by destruct (t_pc hh)).
  destruct (holder_alone _ _ Hinv h hh Hh Hw) as (_ & _ & _ & Hz). split; [by apply (Hz t)|]. split.
  - destruct (needs_lock th) eqn:E; [|done]. exfalso. apply Hn. by exists t, th.
  - intros E. destruct (ci_shape _ _ Hinv t th Ht) as [_ H1]. rewrite E in H1.
    destruct (ci_shape _ _ Hinv h hh Hh) as [_ H2]. destruct (t_pc hh); try done. congruence.
Qed.




(** A thread that executes kernel code. *)
Definition in_kernel (th : thread) : bool :=
  match t_pc th with Run _ | IrqRun _ _ | Irqs _ _ _ => true | _ => false end.

(** C4: mutual exclusion.  In every reachable state at most one thread executes
    kernel code, the recorded owner is that thread and the recorded count is the
    number of times it acquired the CPU; and a free CPU is held by nobody. *)
Theorem cpu_mutual_exclusion idle_tid s0 s :
  minit idle_tid s0 -> rtc (mstep idle_tid) s0 s ->
  (forall t1 t2 th1 th2, m_threads s !! t1 = Some th1 -> m_threads s !! t2 = Some th2 ->
     in_kernel th1 = true -> in_kernel th2 = true -> t1 = t2) /\
  (forall t th, m_threads s !! t = Some th -> in_kernel th = true -> c_owner (m_cpu s) = t) /\
  (forall t d n, m_threads s !! t = Some (Thread (Run d) n) -> 1 <= d /\ c_count (m_cpu s) = d) /\
  (c_owner (m_cpu s) = 0 -> c_count (m_cpu s) = 0 /\
     forall t th, m_threads s !! t = Some th -> in_kernel th = false).
Proof.
  intros Hi Hr. destruct (inv_reachable _ _ _ Hi Hr) as [Hinv _].
  assert (forall th, in_kernel th = true -> exists d, depth th = Some d) as Hk.
  { intros [q n] H. destruct q; try done; simpl; eauto. }
  assert (forall t th, m_threads s !! t = Some th -> in_kernel th = true -> c_owner (m_cpu s) = t) as Hown.
  { intros t th Ht H. destruct (Hk th H) as [d Hd]. destruct (ci_hold _ _ Hinv t th Ht d Hd) as (_ & _ & Ho).
    unfold claimed, in_kernel in *. by destruct (t_pc th). }
  split_and!; [|done|..].
  - intros t1 t2 th1 th2 H1 H2 K1 K2. rewrite <- (Hown t1 th1), <- (Hown t2 th2); done.
  - intros t d n Ht. destruct (ci_hold _ _ Hinv t _ Ht d eq_refl) as (? & ? & _). split; [lia|done].
  - intros Ho. split; [by apply (ci_free _ _ Hinv)|]. intros t th Ht.
    destruct (in_kernel th) eqn:E; [|done]. exfalso.
    rewrite (Hown t th Ht E) in Ho. subst t. by rewrite (ci_tids _ _ Hinv) in Ht.
Qed.

(** C6: no lost wake-up.  If threads sleep waiting for the CPU and the CPU is
    free, then (unless the kernel is shutting down) the threads can move on, in
    finitely many steps, to a state where the CPU is taken: either a wake-up is
    pending or somebody is about to take it. *)
Theorem cpu_no_lost_wakeup idle_tid s0 s t n :
  minit idle_tid s0 -> rtc (mstep idle_tid) s0 s ->
  m_threads s !! t = Some (Thread SemDown n) -> c_owner (m_cpu s) = 0 ->
  c_shutdown_gate (m_cpu s) < MAX_THREADS ->
  exists s', rtc (mstep idle_tid) s s' /\ c_owner (m_cpu s') <> 0.
Proof.
  intros Hi Hr Ht Ho Hg. pose proof (inv_reachable _ _ _ Hi Hr) as Hb.
  destruct (unlock_free idle_tid s Hb Ho Hg) as [?|(s1 & Hr1 & Hb1 & Hl1 & Ho1 & Hg1 & Hs1 & Hth1)]; [done|].
  assert (exists s', rtc (mstep idle_tid) s1 s' /\ c_owner (m_cpu s') <> 0) as (s' & Hr' & Ho').
  2:{ exists s'. split; [by etransitivity|done]. }
  apply (wake_and_take idle_tid s1 Hb1 Ho1 Hg1 Hl1).
  assert (m_threads s1 !! t = Some (Thread SemDown n)) as Ht1 by (by apply Hth1).
  assert (~ some_thread dying s1) as Hnd.
  { intros (t2 & th2 & H2 & Hd). enough (MAX_THREADS <= c_shutdown_gate (m_cpu s1)) by lia.
    apply (si_halting _ _ (proj2 Hb1)). exists t2, th2. split; [done|]. unfold dying, halting in *.
    by destruct (t_pc th2). }
  destruct (si_awake _ _ (proj2 Hb1) Hnd) as (A1 & A2 & A3).
  assert (1 <= wsum asleep (m_threads s1)).
  { change 1 with (asleep (Thread SemDown n)). apply (wsum_ge asleep _ t); [|done].
    intros ? th0 _. unfold asleep. destruct (t_pc th0); lia. }
  destruct (decide (0 < c_sem (m_cpu s1))) as [Hs|Hs].
  - left. split; [done|]. exists t. eexists. by split; [exact Ht1|].
  - right. destruct (si_retry _ _ (proj2 Hb1) Ho1) as [?|(t2 & th2 & H2 & Htr)]; [lia|lia|lia|].
    exists t2, th2. split; [done|]. rewrite Htr. simpl.
    destruct (locking th2) eqn:E; [|done]. apply (ci_lock _ _ (proj1 Hb1) t2 th2 H2) in E. congruence.
Qed.


(** Leaving the section of [__cpu_try_get_lock] never waits. *)
Lemma try_ret_moves idle_tid s t ret k d n e :
  own_inv idle_tid s -> sinv idle_tid s -> m_threads s !! t = Some (Thread (TryRet ret k d) n) ->
  c_freed (m_cpu s) = false ->
  exists p c, exec t e (m_cpu s) idle_tid (Thread (TryRet ret k d) n) = Next p c.
Proof.
  intros Hinv Hsi Ht Hf. destruct (ci_shape _ _ Hinv t _ Ht) as [_ (Hk & _)].
  cbn [exec t_pc]. unfold try_ret. rewrite Hf. destruct k as [|irq]; [case_match; eauto|].
  case_match; [|eauto]. destruct (si_irq _ _ Hsi) as [H1 _].
  destruct (or_irq_status_spec irq _ H1 Hk) as (st & -> & _). eauto.
Qed.

(** the wait of the shutdown ends.  While the idle thread waits for the
    threads inside the access functions, at least one of them can move (every
    sleeper has been woken), so the wait cannot deadlock. *)
Theorem cpu_shutdown_progress idle_tid s0 s t n :
  minit idle_tid s0 -> rtc (mstep idle_tid) s0 s ->
  m_threads s !! t = Some (Thread CleanSpin n) -> MAX_THREADS < c_shutdown_gate (m_cpu s) ->
  exists t2 th2 e p c, m_threads s !! t2 = Some th2 /\ 0 < inside th2 /\
    exec t2 e (m_cpu s) idle_tid th2 = Next p c.
Proof.
  intros Hi Hr Ht Hg. destruct (inv_reachable _ _ _ Hi Hr) as [Hinv Hsi].
  assert (weight (Thread CleanSpin n) = 1) as Hw by done.
  destruct (holder_alone _ _ Hinv t _ Ht Hw) as (_ & _ & _ & Hz).
  assert (c_freed (m_cpu s) = false) as Hf.
  { destruct (c_freed (m_cpu s)) eqn:Hf; [|done].
    destruct (freed_harmless _ _ _ _ Hinv Hsi Ht Hf) as [?|(? & _)]; done. }
  assert (forall th0 t0, m_threads s !! t0 = Some th0 -> locking th0 = true ->
    exists e p c, 0 < inside th0 /\ exec t0 e (m_cpu s) idle_tid th0 = Next p c) as Hlk.
  { intros [q n0] t0 H0 Hl. assert (t0 <> t) by (intros ->; rewrite Ht in H0; by simplify_eq).
    specialize (Hz t0 _ ltac:(done) H0). exists any_env.
    destruct q; try (by unfold locking in Hl); try (by unfold weight in Hz).
    - cbn [exec t_pc inside]. unfold try_body. repeat case_match; eauto with lia.
    - destruct (try_ret_moves idle_tid s t0 ret k d n0 any_env Hinv Hsi H0 Hf) as (p & c & E).
      exists p, c. split; [done|exact E].
    - cbn [exec t_pc inside]. unfold try_mark. rewrite Hf. eauto with lia. }
  destruct (ci_gate _ _ Hinv) as [b Hb].
  destruct (wsum_pos inside (m_threads s)) as (t2 & [q n2] & H2 & Hin).
  { intros t0 th0 H0. by eapply inside_01, (ci_shape _ _ Hinv). }
  { unfold MAX_THREADS in *. destruct b; lia. }
  destruct (locking (Thread q n2)) eqn:Hl.
  { destruct (Hlk _ t2 H2 Hl) as (e & p & c & ? & ?). exists t2. eauto 10. }
  destruct (decide (c_lock (m_cpu s) = None)) as [Hlo|Hlo].
  2:{ destruct (c_lock (m_cpu s)) as [h|] eqn:Hlh; [|done].
      destruct (ci_holder _ _ Hinv h Hlh) as [hh Hh].
      pose proof (proj2 (ci_lock _ _ Hinv h hh Hh) Hlh) as Hl2.
      destruct (Hlk hh h Hh Hl2) as (e & p & c & ? & ?). exists h. eauto 10. }
  cut (exists p c, exec t2 any_env (m_cpu s) idle_tid (Thread q n2) = Next p c).
  { intros (p & c & E). exists t2, (Thread q n2), any_env, p, c. done. }
  destruct q; try (by unfold inside in Hin); try (by unfold locking in Hl); cbn [exec t_pc].
  - unfold try_add. destruct (_ <=? _); eauto.
  - unfold lock_then. rewrite Hf, Hlo. eauto.
  - assert (some_thread dying s) as Hd by (exists t; eexists; by split; [exact Ht|]).
    destruct (si_dying _ _ Hsi Hd) as [Hs _].
    assert (1 <= wsum asleep (m_threads s)).
    { change 1 with (asleep (Thread SemDown n2)). apply (wsum_ge asleep _ t2); [|done].
      intros ? th0 _. unfold asleep. destruct (t_pc th0); lia. }
    unfold sem_down. rewrite Hf, (proj2 (Z.ltb_lt _ _)) by lia. eauto.
  - unfold leave. destruct (_ =? 1), k; eauto.
Qed.

(** [lkl_trigger_irq] lets interrupt number 4096 through although the bitmap
    ends at 4095: if the CPU is busy, marking it pending runs past the array. *)
Theorem trigger_irq_out_of_range t e c idle_tid d n k :
  irq_wf (c_irq c) -> c_freed c = false -> k = CIrq NR_IRQS ->
  trigger_guard NR_IRQS = false /\ exec t e c idle_tid (Thread (TryRet 0 k d) n) = Crash.
Proof.
  intros Hwf Hf ->. split; [done|]. cbn [exec t_pc]. unfold try_ret. rewrite Hf. cbn [Z.eqb].
  unfold or_irq_status. change (Z.to_nat (NR_IRQS / IRQ_STATUS_BITS)) with 64%nat.
  by rewrite lookup_ge_None_2 by (rewrite (wf_len _ Hwf); lia).
Qed.

(** ** Runs *)

Definition waits_at (idle_parked : bool) (s : mstate) (u : Z) : bool :=
  match m_threads s !! u with
  | Some (Thread IdleParked _) => idle_parked
  | Some (Thread Parked _) => negb idle_parked
  | _ => false
  end.

Definition wakeableb (idle_tid : Z) (s : mstate) (t : Z) (a : after) (u : Z) : bool :=
  if (u =? idle_tid) && c_idle_pending (m_cpu s) then
    ((u =? t) && match a with AIdle => true | _ => false end) || waits_at true s u
  else ((u =? t) && match a with APark => true | _ => false end) || waits_at false s u.

Lemma wakeableb_ok idle_tid s t a u : wakeableb idle_tid s t a u = true -> wakeable idle_tid s t a u.
Proof.
  unfold wakeableb, wakeable, waits_at. destruct (_ && _); intros [H|H]%orb_true_iff.
  1,3: left; destruct a; rewrite ?andb_false_r in H; try done; split; [lia|done].
  all: right; destruct (m_threads s !! u) as [[q n]|]; [|done]; destruct q; eauto; done.
Qed.

Definition env_okb (idle_tid : Z) (s : mstate) (t : Z) (th : thread) (e : env) : bool :=
  let c := m_cpu s in
  match t_pc th with
  | Out => match e_act e with DoTrigger irq => (0 <=? irq) && (irq <? NR_IRQS) | _ => true end
  | Run d =>
      match e_act e with
      | DoTrigger irq => (0 <=? irq) && (irq <? NR_IRQS) && (d <? 4294967295)
      | DoSwitch u => wakeableb idle_tid s t APark u
      | DoIdle => (d =? 1) && (t =? idle_tid)
      | DoShutdown => c_shutdown_gate c <? MAX_THREADS
      | DoBootDone => d =? 1
      | DoGet => d <? 4294967295
      | _ => true
      end
  | Irqs _ _ _ => forallb (fun irq => (0 <=? irq) && (irq <? NR_IRQS)) (e_raise e)
  | PutBody d a =>
      negb (c_count c =? 1) || negb (e_resched e) || e_in_interrupt e ||
      wakeableb idle_tid s t a (e_next e)
  | _ => true
  end.

Lemma env_okb_ok idle_tid s t th e : env_okb idle_tid s t th e = true -> env_ok idle_tid s t th e.
Proof.
  unfold env_okb, env_ok. destruct (t_pc th); try done.
  - destruct (e_act e); try done. lia.
  - destruct (e_act e); try done; try lia. apply wakeableb_ok.
  - intros H Hc Hr Hi. rewrite Hc, Hr, Hi in H. by apply wakeableb_ok.
  - intros H. apply list.Forall_forall. intros irq Hirq. rewrite forallb_forall in H.
    apply list_elem_of_In, H in Hirq. lia.
Qed.

(** Let the threads act in the given order. *)
Fixpoint play (idle_tid : Z) (l : list (Z * env)) (s : mstate) : option mstate :=
  match l with
  | [] => Some s
  | (t, e) :: l' =>
      match m_threads s !! t with
      | Some th =>
          if env_okb idle_tid s t th e then
            match exec t e (m_cpu s) idle_tid th with
            | Next p c => play idle_tid l' (MState c (<[t := Thread p (sched_after th)]> (m_threads s)))
            | Up u p c => play idle_tid l'
                (MState c (sem_up_sched u (<[t := Thread p (sched_after th)]> (m_threads s))))
            | _ => None
            end
          else None
      | None => None
      end
  end.

Lemma play_rtc idle_tid l s s' : play idle_tid l s = Some s' -> rtc (mstep idle_tid) s s'.
Proof.
  revert s. induction l as [|[t e] l IH]; intros s; simpl; [by intros [= ->]|].
  destruct (m_threads s !! t) as [th|] eqn:Ht; [|done].
  destruct (env_okb idle_tid s t th e) eqn:He; [|done]. apply env_okb_ok in He.
  destruct (exec t e (m_cpu s) idle_tid th) eqn:Hx; try done; intros H; apply IH in H.
  - eapply rtc_l; [|exact H]. by econstructor.
  - eapply rtc_l; [|exact H]. by econstructor.
Qed.

Module CpuDemo.

Definition act (a : action) : env := Env a false false 0 [].

(** Thread 1 is the idle thread, thread 2 a host thread. *)
Definition s0 : mstate := MState lkl_cpu_init (<[1 := Thread Out 0]> {[2 := Thread Out 0]}).

Lemma s0_init : minit 1 s0.
Proof.
  split_and!; [done|done|done|]. intros t th. unfold s0. cbn [m_threads].
  rewrite lookup_insert_Some, lookup_singleton_Some. naive_solver.
Qed.

(** Thread 1 takes the CPU and enables interrupts; thread 2 goes to sleep. *)
Definition busy : list (Z * env) :=
  replicate 6 (1, act DoGet) ++ replicate 5 (1, act (DoIrqRestore true)) ++ replicate 5 (2, act DoGet).

(** Then thread 1 gives the CPU up. *)
Definition freed : list (Z * env) := busy ++ replicate 4 (1, act DoPut).

(** Or it halts the kernel and, as the idle thread, waits for thread 2. *)
Definition halted : list (Z * env) :=
  busy ++ [(1, act DoShutdown); (1, act DoIdle); (1, act DoIdle); (1, act DoIdle)].

(** Thread 1 has the CPU, thread 2 triggers interrupt 5, thread 1 gives the CPU
    up in [n] actions and so delivers it; every handler raises the interrupts [l]. *)
Definition triggered (n : nat) (l : list Z) : list (Z * env) :=
  replicate 6 (1, act DoGet) ++ replicate 5 (1, act (DoIrqRestore true)) ++
  replicate 7 (2, act (DoTrigger 5)) ++ replicate n (1, Env DoPut false false 0 l).

Definition state (l : list (Z * env)) : mstate := default s0 (play 1 l s0).

Lemma reach_busy : rtc (mstep 1) s0 (state busy).
Proof. apply (play_rtc 1 busy). vm_compute. reflexivity. Qed.

Lemma reach_freed : rtc (mstep 1) s0 (state freed).
Proof. apply (play_rtc 1 freed). vm_compute. reflexivity. Qed.

Lemma reach_halted : rtc (mstep 1) s0 (state halted).
Proof. apply (play_rtc 1 halted). vm_compute. reflexivity. Qed.


(** Handlers that raise interrupt 7 themselves: the handler of 7 ran with
    interrupts disabled, and 7 stays pending on the free CPU with the flag down. *)
Example late_interrupt_stays :
  match play 1 (triggered 20 [7]) s0 with
  | Some s => c_owner (m_cpu s) = 0 /\ irqs_enabled (c_irq (m_cpu s)) = true /\
      c_irqs_pending (m_cpu s) = false /\ delivered (c_irq (m_cpu s)) = [5; 7] /\
      pending (c_irq (m_cpu s)) 7 = true
  | None => False
  end.
Proof. vm_compute. repeat split. Qed.

End CpuDemo.


Lemma cpu_mutual_exclusion_witness :
  c_owner (m_cpu (CpuDemo.state CpuDemo.busy)) = 1 /\ c_count (m_cpu (CpuDemo.state CpuDemo.busy)) = 1.
Proof.
  destruct (cpu_mutual_exclusion 1 CpuDemo.s0 (CpuDemo.state CpuDemo.busy) CpuDemo.s0_init
    CpuDemo.reach_busy) as (_ & Hown & Hrun & _).
  split.
  - apply (Hown 1 (Thread (Run 1) 0)); vm_compute; reflexivity.
  - apply (Hrun 1 1 0). vm_compute. reflexivity.
Defined.

Lemma cpu_no_lost_wakeup_witness :
  exists s', rtc (mstep 1) (CpuDemo.state CpuDemo.freed) s' /\ c_owner (m_cpu s') <> 0.
Proof.
  apply (cpu_no_lost_wakeup 1 CpuDemo.s0 _ 2 0 CpuDemo.s0_init CpuDemo.reach_freed);
    vm_compute; reflexivity.
Defined.


Lemma cpu_shutdown_progress_witness :
  exists t2 th2 e p c, m_threads (CpuDemo.state CpuDemo.halted) !! t2 = Some th2 /\ 0 < inside th2 /\
    exec t2 e (m_cpu (CpuDemo.state CpuDemo.halted)) 1 th2 = Next p c.
Proof.
  apply (cpu_shutdown_progress 1 CpuDemo.s0 _ 1 0 CpuDemo.s0_init CpuDemo.reach_halted);
    vm_compute; reflexivity.
Defined.

Lemma trigger_irq_out_of_range_witness :
  exec 2 (CpuDemo.act DoGet) lkl_cpu_init 1 (Thread (TryRet 0 (CIrq NR_IRQS) 0) 0) = Crash.
Proof.
  refine (proj2 (trigger_irq_out_of_range 2 (CpuDemo.act DoGet) lkl_cpu_init 1 0 0 (CIrq NR_IRQS) _ _ _)).
  - exact irq_wf_init.
  - reflexivity.
  - reflexivity.
Defined.
