(* ===== verification/Js.v ===== *)
(** * Js

    The JavaScript side of the addon and its way into the kernel: process
    memory with the allocations behind Buffers and C strings, JavaScript
    handlers as trees of effects, the operation queue of lib/queue.js, and the
    native [syscall] of src/node_lkl.cc.  A Buffer is a range of process
    memory, so a slice of it shares its bytes. *)

From S2P Require Import Prelude Memory.

Definition LKL_PATH_MAX : Z := 4096.

(** lib/constants.js. *)
Definition SYS_openat : Z := 56.
Definition SYS_close : Z := 57.
Definition SYS_getdents64 : Z := 61.
Definition SYS_read : Z := 63.
Definition SYS_write : Z := 64.
Definition SYS_pread64 : Z := 67.
Definition SYS_pwrite64 : Z := 68.
Definition SYS_fstat : Z := 80.
Definition AT_FDCWD : Z := -100.

(** A Buffer: its data pointer and its length. *)
Record buffer := Buffer { b_data : Z; b_len : Z }.

(** Where an index of buf.slice falls in a Buffer of [length] bytes. *)
Definition adjust_index (length i : Z) : Z :=
  if i <? 0 then Z.max 0 (i + length) else Z.min i length.

(** buf.slice(from, to): a range of the same memory, inside the Buffer. *)
Definition buf_slice (b : buffer) (from to : Z) : buffer :=
  let start := adjust_index (b_len b) from in
  let stop := adjust_index (b_len b) to in
  Buffer (b_data b + start) (Z.max 0 (stop - start)).

(** What a native method finds in one of its arguments: a Buffer, a string
    (its UTF-8 bytes), or a value with that IntegerValue. *)
Inductive arg := ABuf (b : buffer) | AStr (s : list Z) | ANum (z : Z).

(** Process memory, the allocator's next free address, and the JavaScript
    objects of a component. *)
Record heap (C : Type) := Heap { h_mem : mem; h_next : Z; h_ctx : C }.
Arguments Heap {C} _ _ _.
Arguments h_mem {C} _.
Arguments h_next {C} _.
Arguments h_ctx {C} _.

Section Alloc.
Context {C : Type} (junk : Z -> Z).

(** The bytes fresh memory happens to hold. *)
Definition junk_bytes (n a : Z) : list Z :=
  map (fun k => junk (a + Z.of_nat k)) (seq 0 (Z.to_nat n)).

(** Allocations do not touch: a write past the end of one faults. *)
Definition alloc_gap : Z := 16.

Definition alloc_with (bytes : Z -> list Z) (n : Z) : M (heap C) Z :=
  fun h => let a := h_next h in
           Ok (a, Heap (put_bytes a (bytes a) (h_mem h)) (a + n + alloc_gap) (h_ctx h)).

(** new char[n], Buffer.allocUnsafe(n). *)
Definition malloc (n : Z) : M (heap C) Z := alloc_with (junk_bytes n) n.

(** Buffer.alloc(n): zeroed. *)
Definition calloc (n : Z) : M (heap C) Z := alloc_with (fun _ => repeat 0 (Z.to_nat n)) n.

Fixpoint unmap (n : nat) (a : Z) (m : mem) : mem :=
  match n with
  | O => m
  | S n' => delete a (unmap n' (a + 1) m)
  end.

(** delete[]. *)
Definition free (n a : Z) : M (heap C) unit :=
  modifyM (fun h => Heap (unmap (Z.to_nat n) a (h_mem h)) (h_next h) (h_ctx h)).

Definition write_bytes (a : Z) (bs : list Z) : M (heap C) unit :=
  fun h => match store_bytes a bs (h_mem h) with
           | Some m => Ok (tt, Heap m (h_next h) (h_ctx h))
           | None => Fail Segv
           end.

Definition read_bytes (n a : Z) : M (heap C) (list Z) :=
  fun h => match load_bytes (Z.to_nat n) a (h_mem h) with
           | Some bs => Ok (bs, h)
           | None => Fail Segv
           end.

(** The C string in a byte sequence: what precedes the first NUL. *)
Fixpoint c_str (s : list Z) : list Z :=
  match s with
  | [] => []
  | b :: s' => if b =? 0 then [] else b :: c_str s'
  end.

(** syscall_entry: one parameter, with the string allocated for it. *)
Definition syscall_param (a : arg) : M (heap C) (Z * list Z) :=
  match a with
  | ABuf b => retM (b_data b, [])
  | AStr s =>
      let* p := malloc LKL_PATH_MAX in
      (if Z.of_nat (length (c_str s)) <=? LKL_PATH_MAX then retM tt else failM Panicked) ;;;
      write_bytes p (c_str s ++ [0]) ;;;
      retM (p, [p])
  | ANum z => retM (s64 z, [])
  end.

(** syscall_entry: the loop over the six parameters. *)
Fixpoint syscall_entry (args : list arg) : M (heap C) (list Z * list Z) :=
  match args with
  | [] => retM ([], [])
  | a :: args' =>
      let* '(p, s) := syscall_param a in
      let* '(ps, ss) := syscall_entry args' in
      retM (p :: ps, s ++ ss)
  end.

Fixpoint delete_paths (paths : list Z) : M (heap C) unit :=
  match paths with
  | [] => retM tt
  | p :: ps => free LKL_PATH_MAX p ;;; delete_paths ps
  end.

End Alloc.

(** lkl_syscall: what the kernel does with a system call, its number and its
    six parameters; it reads and writes the memory it shares with the process. *)
Class Kernel (K : Type) := lkl_syscall : Z -> list Z -> K -> mem -> Z * K * mem.

(** ** Handlers

    What a piece of JavaScript does until it returns to the event loop. *)
Inductive js (H R : Type) :=
| Done
(* the user's callback is called *)
| Callback (r : R) (rest : js H R)
(* a synchronous effect on the heap *)
| Do (f : H -> res (H * js H R))
(* queue.addOperation(bindings.syscall, [no, ...args, callback]) *)
| Push (no : Z) (args : list arg) (k : option Z -> Z -> js H R) (rest : js H R)
(* process.nextTick *)
| Tick (k : js H R) (rest : js H R).
Arguments Done {H R}.
Arguments Callback {H R} _ _.
Arguments Do {H R} _.
Arguments Push {H R} _ _ _ _.
Arguments Tick {H R} _ _.

Definition Bind {H R A} (c : M H A) (k : A -> js H R) : js H R :=
  Do (fun h => match c h with
               | Ok (a, h') => Ok (h', k a)
               | Fail e => Fail e
               end).

(** One piece of code after the other, in the same handler. *)
Fixpoint seq_js {H R} (j1 j2 : js H R) : js H R :=
  match j1 with
  | Done => j2
  | Callback r rest => Callback r (seq_js rest j2)
  | Do f => Do (fun h => match f h with
                         | Ok (h', j) => Ok (h', seq_js j j2)
                         | Fail e => Fail e
                         end)
  | Push no args k rest => Push no args k (seq_js rest j2)
  | Tick k rest => Tick k (seq_js rest j2)
  end.

Notation "'do*' x ':=' c 'in' k" := (Bind c (fun x => k))
  (at level 10, x name, c at level 100, k at level 200) : lkl_scope.

(** lib/syscall.js, [syscall]: the arguments padded with zeros to seven. *)
Definition fill (args : list arg) : list arg := args ++ repeat (ANum 0) (7 - length args).

Section Machine.
Context {C R K : Type} {kernel : Kernel K} (junk : Z -> Z).

Record task := Task { t_no : Z; t_args : list arg; t_cb : option Z -> Z -> js (heap C) R }.

Record mach := Mach {
  m_heap : heap C;
  m_kernel : K;
  m_ticks : list (js (heap C) R);
  m_queue : list task;
  m_out : list R
}.

(** Run a handler to its return. *)
Fixpoint turn (j : js (heap C) R) (s : mach) : res mach :=
  match j with
  | Done => Ok s
  | Callback r rest =>
      turn rest (Mach (m_heap s) (m_kernel s) (m_ticks s) (m_queue s) (m_out s ++ [r]))
  | Do f =>
      match f (m_heap s) with
      | Ok (h, rest) => turn rest (Mach h (m_kernel s) (m_ticks s) (m_queue s) (m_out s))
      | Fail e => Fail e
      end
  | Push no args k rest =>
      turn rest (Mach (m_heap s) (m_kernel s) (m_ticks s) (m_queue s ++ [Task no args k]) (m_out s))
  | Tick k rest =>
      turn rest (Mach (m_heap s) (m_kernel s) (m_ticks s ++ [k]) (m_queue s) (m_out s))
  end.

(** do_syscall on the worker thread, with the int that keeps the result.  The
    strings go right after the call; the source keeps them until the callback
    has returned, which no JavaScript code can tell. *)
Definition do_syscall (no : Z) (params paths : list Z) (h : heap C) (k : K)
  : res (Z * heap C * K) :=
  let '(r, k', m') := lkl_syscall no params k (h_mem h) in
  match delete_paths paths (Heap m' (h_next h) (h_ctx h)) with
  | Ok (_, h') => Ok (s32 r, h', k')
  | Fail e => Fail e
  end.

(** syscall_callback: an exception with the errno, or the result. *)
Definition syscall_callback (ret : Z) (k : option Z -> Z -> js (heap C) R) : js (heap C) R :=
  if ret <? 0 then k (Some (- ret)) 0 else k None ret.

(** One operation of the queue: bindings.syscall with its check of the number
    of arguments (the TypeError is not caught), the system call on the worker
    thread, and the callback back on the main thread. *)
Definition run_task (t : task) (s : mach) : res mach :=
  let args := fill (ANum (t_no t) :: t_args t) in
  if negb (Z.of_nat (length args) =? 7) then Fail Panicked else
  match syscall_entry junk (tail args) (m_heap s) with
  | Ok ((params, paths), h) =>
      match do_syscall (s64 (t_no t)) params paths h (m_kernel s) with
      | Ok (ret, h', k') =>
          turn (syscall_callback ret (t_cb t))
               (Mach h' k' (m_ticks s) (m_queue s) (m_out s))
      | Fail e => Fail e
      end
  | Fail e => Fail e
  end.

(** The event loop: pending ticks first, then the next operation. *)
Definition mach_step (s : mach) : option (res mach) :=
  match m_ticks s with
  | j :: ts => Some (turn j (Mach (m_heap s) (m_kernel s) ts (m_queue s) (m_out s)))
  | [] =>
      match m_queue s with
      | t :: q => Some (run_task t (Mach (m_heap s) (m_kernel s) [] q (m_out s)))
      | [] => None
      end
  end.

Fixpoint loop (fuel : nat) (s : mach) : res mach :=
  match fuel with
  | O => Fail NoFuel
  | S fuel' =>
      match mach_step s with
      | None => Ok s
      | Some (Ok s') => loop fuel' s'
      | Some (Fail e) => Fail e
      end
  end.

(** [runs s s']: the event loop started in [s] empties its queues and ends in
    [s'], without a fault. *)
Inductive runs : mach -> mach -> Prop :=
| runs_end s : mach_step s = None -> runs s s
| runs_step s s' s'' : mach_step s = Some (Ok s') -> runs s' s'' -> runs s s''.

Lemma runs_loop s s' : runs s s' -> exists n, forall fuel, (n <= fuel)%nat -> loop fuel s = Ok s'.
Proof.
  induction 1 as [s E|s s1 s2 E _ [n IH]].
  - exists 1%nat. intros [|fuel] ?; [lia|]. cbn [loop]. by rewrite E.
  - exists (S n). intros [|fuel] ?; [lia|]. cbn [loop]. rewrite E. apply IH. lia.
Qed.

Lemma loop_runs fuel s s' : loop fuel s = Ok s' -> runs s s'.
Proof.
  revert s. induction fuel as [|fuel IH]; intros s; [done|]. cbn [loop].
  destruct (mach_step s) as [[s1|e]|] eqn:E; [|done|].
  - intros H. eapply runs_step; [exact E|]. by apply IH.
  - intros [= <-]. by apply runs_end.
Qed.

End Machine.
Arguments task : clear implicits.
Arguments mach : clear implicits.

(** ** Lemmas *)

Lemma buf_slice_in b from to :
  0 <= from <= to -> to <= b_len b -> buf_slice b from to = Buffer (b_data b + from) (to - from).
Proof.
  intros H1 H2. unfold buf_slice, adjust_index.
  destruct (Z.ltb_spec from 0), (Z.ltb_spec to 0); [lia..|]. f_equal; lia.
Qed.

(** Nothing is mapped above the allocator's next address. *)
Definition heap_wf {C} (h : heap C) : Prop :=
  0 < h_next h /\ forall i, h_next h <= i -> h_mem h !! i = None.

Lemma put_bytes_out a bs m i :
  ~ range a (Z.of_nat (length bs)) i -> put_bytes a bs m !! i = m !! i.
Proof.
  revert a. induction bs as [|b bs IH]; intros a Hi; cbn [put_bytes length] in *; [done|].
  unfold range in *. rewrite lookup_insert_ne by lia. apply IH. lia.
Qed.

Lemma put_bytes_in a bs m : mapped (put_bytes a bs m) a (Z.of_nat (length bs)).
Proof.
  revert a. induction bs as [|b bs IH]; intros a; cbn [put_bytes length]; [unfold mapped, range; simpl; lia|].
  rewrite mapped_cons. rewrite lookup_insert_eq. split; [eauto|].
  intros i Hi. destruct (decide (i = a)) as [->|]; [by rewrite lookup_insert_eq|].
  rewrite lookup_insert_ne by done. by apply IH.
Qed.

Lemma unmap_lookup n a m i :
  unmap n a m !! i = if decide (range a (Z.of_nat n) i) then None else m !! i.
Proof.
  revert a. induction n as [|n IH]; intros a; cbn [unmap].
  { case_decide; [unfold range in *; lia|done]. }
  destruct (decide (i = a)) as [->|Hne].
  - rewrite lookup_delete_eq. case_decide; [done|]. unfold range in *. lia.
  - rewrite lookup_delete_ne, IH by done. repeat case_decide; unfold range in *; done || lia.
Qed.

Lemma length_junk junk n a : length (junk_bytes junk n a) = Z.to_nat n.
Proof. unfold junk_bytes. by rewrite length_map, length_seq. Qed.

(** Fresh memory: mapped, apart from everything else. *)
Lemma alloc_ok {C} (bytes : Z -> list Z) n (h : heap C) :
  0 <= n -> heap_wf h -> (forall a, length (bytes a) = Z.to_nat n) ->
  exists h', alloc_with bytes n h = Ok (h_next h, h') /\ heap_wf h' /\ h_ctx h' = h_ctx h /\
    h_next h' = h_next h + n + alloc_gap /\
    mapped (h_mem h') (h_next h) n /\
    (forall i, ~ range (h_next h) n i -> h_mem h' !! i = h_mem h !! i).
Proof.
  intros Hn [Hp Hwf] Hl. eexists. split; [reflexivity|]. cbn [h_mem h_next h_ctx].
  assert (Z.of_nat (length (bytes (h_next h))) = n) as El by (rewrite Hl; lia).
  split; [|split; [done|split; [done|split]]].
  - unfold alloc_gap. split; [cbn [h_next]; lia|]. cbn [h_mem h_next]. intros i Hi.
    rewrite put_bytes_out by (rewrite El; unfold range; lia). apply Hwf. lia.
  - rewrite <- El. apply put_bytes_in.
  - intros i Hi. apply put_bytes_out. by rewrite El.
Qed.

Lemma c_str_id s : Forall char_ok s -> c_str s = s.
Proof.
  induction 1 as [|b s Hb _ IH]; [done|]. cbn [c_str]. unfold char_ok in Hb.
  destruct (Z.eqb_spec b 0); [lia|]. by rewrite IH.
Qed.

(** Arguments that need no copy. *)
Definition plain (a : arg) : Prop := match a with AStr _ => False | _ => True end.

Definition arg_val (a : arg) : Z :=
  match a with ABuf b => b_data b | AStr _ => 0 | ANum z => s64 z end.

Lemma syscall_entry_plain {C} junk args (h : heap C) :
  Forall plain args -> syscall_entry junk args h = Ok (map arg_val args, [], h).
Proof.
  induction 1 as [|a args Ha _ IH]; [done|]. cbn [syscall_entry map].
  unfold bindM. destruct a; [|done|]; cbn [syscall_param retM arg_val]; by rewrite IH.
Qed.

Lemma syscall_entry_app {C} junk pre args (h : heap C) :
  Forall plain pre ->
  syscall_entry junk (pre ++ args) h =
  (let* '(ps, ss) := syscall_entry junk args in retM (map arg_val pre ++ ps, ss)) h.
Proof.
  induction 1 as [|a pre Ha _ IH]; cbn [app syscall_entry map].
  { unfold bindM, retM. by destruct (syscall_entry junk args h) as [[[ps ss] h']|e]. }
  unfold bindM in *. destruct a; [|done|]; cbn [syscall_param retM arg_val]; rewrite IH;
    by destruct (syscall_entry junk args h) as [[[ps ss] h']|e].
Qed.

(** A string and its NUL, written to mapped memory. *)
Lemma store_bytes_cstr a name m :
  Forall char_ok name -> mapped m a (Z.of_nat (length name) + 1) ->
  exists m1 m2, store_bytes a name m = Some m1 /\
    store_bytes (a + Z.of_nat (length name)) [0] m1 = Some m2 /\
    cstr_at m2 a name /\ frame (range a (Z.of_nat (length name) + 1)) m m2.
Proof.
  intros Hs Hm. destruct (store_bytes_some a name m) as [m1 E1].
  { eapply mapped_sub; [exact Hm|lia|lia]. }
  pose proof (store_bytes_frame _ _ _ _ E1) as F1.
  destruct (store_bytes_some (a + Z.of_nat (length name)) [0] m1) as [m2 E2].
  { eapply mapped_frame; [exact F1|]. eapply mapped_sub; [exact Hm|lia|simpl; lia]. }
  pose proof (store_bytes_frame _ _ _ _ E2) as F2.
  exists m1, m2. split_and!; [done..| |].
  - eapply store_cstr; [done|exact E1|]. unfold store_bytes in E2. unfold store. by destruct (m1 !! _).
  - eapply frame_trans; (eapply frame_weaken; [|done]); unfold range; cbn [length]; lia.
Qed.

(** A path is copied to fresh memory for the call, and that memory goes
    afterwards. *)
Lemma syscall_param_path {C} junk s (h : heap C) :
  Forall char_ok s -> Z.of_nat (length s) < LKL_PATH_MAX -> heap_wf h ->
  exists m, syscall_param junk (AStr s) h =
      Ok (h_next h, [h_next h], Heap m (h_next h + LKL_PATH_MAX + alloc_gap) (h_ctx h)) /\
    cstr_at m (h_next h) s /\
    (forall i, ~ range (h_next h) LKL_PATH_MAX i -> m !! i = h_mem h !! i).
Proof.
  intros Hs Hl Hwf. unfold syscall_param, malloc.
  destruct (alloc_ok (junk_bytes junk LKL_PATH_MAX) LKL_PATH_MAX h) as (h1 & E & _ & Hc & Hn & Hm & Ho);
    [unfold LKL_PATH_MAX; lia|done|intros; apply length_junk|].
  rewrite (bindM_ok _ _ _ _ _ E), c_str_id by done.
  destruct (Z.leb_spec (Z.of_nat (length s)) LKL_PATH_MAX); [|lia].
  destruct (store_bytes_cstr (h_next h) s (h_mem h1) Hs) as (m1 & m2 & E1 & E2 & Hc2 & [F _]).
  { eapply mapped_sub; [exact Hm|lia|lia]. }
  unfold bindM, retM, write_bytes. rewrite store_bytes_app, E1. cbn [mbind option_bind]. rewrite E2.
  exists m2. rewrite Hc, Hn. split_and!; [done..|]. intros i Hi.
  rewrite F by (unfold range in *; lia). by apply Ho.
Qed.

Lemma unmap_restore {C} (h : heap C) (m : mem) n :
  0 <= n -> heap_wf h -> (forall i, ~ range (h_next h) n i -> m !! i = h_mem h !! i) ->
  unmap (Z.to_nat n) (h_next h) m = h_mem h.
Proof.
  intros Hn [_ Hwf] Ho. apply map_eq. intros i. rewrite unmap_lookup.
  rewrite Z2Nat.id by done. case_decide as Hd; [|by apply Ho].
  symmetry. apply Hwf. unfold range in Hd. lia.
Qed.

Definition pad (l : list Z) : list Z := l ++ repeat 0 (6 - length l).

Lemma fill_spec no args :
  (length args <= 6)%nat ->
  length (fill (ANum no :: args)) = 7%nat /\
  tail (fill (ANum no :: args)) = args ++ repeat (ANum 0) (6 - length args).
Proof.
  intros Hl. unfold fill. cbn [length]. split; [|done].
  rewrite length_app, repeat_length. cbn [length]. lia.
Qed.

Lemma map_arg_val_pad args : map arg_val (args ++ repeat (ANum 0) (6 - length args)) = pad (map arg_val args).
Proof. unfold pad. rewrite map_app, map_repeat, length_map. done. Qed.

Lemma plain_pad args n : Forall plain args -> Forall plain (args ++ repeat (ANum 0) n).
Proof.
  intros H. apply Forall_app. split; [done|]. induction n; cbn [repeat]; by constructor.
Qed.

Section RunTask.
Context {C R K : Type} {kernel : Kernel K} (junk : Z -> Z).
Implicit Types s : mach C R K.

Lemma run_task_plain no args cb s r k' m' :
  Forall plain args -> (length args <= 6)%nat ->
  lkl_syscall (s64 no) (pad (map arg_val args)) (m_kernel s) (h_mem (m_heap s)) = (r, k', m') ->
  run_task junk (Task no args cb) s =
    turn (syscall_callback (s32 r) cb)
      (Mach (Heap m' (h_next (m_heap s)) (h_ctx (m_heap s))) k' (m_ticks s) (m_queue s) (m_out s)).
Proof.
  intros Hp Hl Hk. unfold run_task. cbn [t_no t_args t_cb].
  destruct (fill_spec no args Hl) as [-> ->]. cbn [Z.of_nat Z.eqb Pos.of_succ_nat Pos.succ Pos.eqb negb].
  rewrite syscall_entry_plain by by apply plain_pad.
  rewrite map_arg_val_pad. unfold do_syscall. by rewrite Hk.
Qed.

(** A call with a path among its parameters, whatever the kernel does. *)
Lemma run_task_str no pre path post cb s :
  Forall plain pre -> Forall plain post -> (length pre + length post <= 5)%nat ->
  Forall char_ok path -> Z.of_nat (length path) < LKL_PATH_MAX -> heap_wf (m_heap s) ->
  let p := h_next (m_heap s) in
  exists m, cstr_at m p path /\
    (forall i, ~ range p LKL_PATH_MAX i -> m !! i = h_mem (m_heap s) !! i) /\
    forall r k' m',
      lkl_syscall (s64 no) (pad (map arg_val pre ++ p :: map arg_val post)) (m_kernel s) m = (r, k', m') ->
      run_task junk (Task no (pre ++ AStr path :: post) cb) s =
        turn (syscall_callback (s32 r) cb)
          (Mach (Heap (unmap (Z.to_nat LKL_PATH_MAX) p m') (p + LKL_PATH_MAX + alloc_gap)
                   (h_ctx (m_heap s))) k' (m_ticks s) (m_queue s) (m_out s)).
Proof.
  intros Hpre Hpost Hl Hs Hlen Hwf p.
  destruct (syscall_param_path junk path (m_heap s) Hs Hlen Hwf) as (m & E & Hc & Ho).
  exists m. split; [exact Hc|]. split; [exact Ho|]. intros r k' m' Hk.
  unfold run_task. cbn [t_no t_args t_cb].
  assert (length (pre ++ AStr path :: post) <= 6)%nat as Hl6 by (rewrite length_app; cbn [length]; lia).
  destruct (fill_spec no (pre ++ AStr path :: post) Hl6) as [-> ->].
  cbn [Z.of_nat Z.eqb Pos.of_succ_nat Pos.succ Pos.eqb negb].
  rewrite <- app_assoc, syscall_entry_app, <- app_comm_cons by done. cbn [syscall_entry].
  rewrite bindM_assoc, (bindM_ok _ _ _ _ _ E). unfold bindM. rewrite syscall_entry_plain by by apply plain_pad.
  cbn [retM app]. unfold do_syscall. cbn [h_mem]. fold p.
  replace (map arg_val pre ++ p :: map arg_val (post ++ repeat (ANum 0) (6 - length (pre ++ AStr path :: post))))
    with (pad (map arg_val pre ++ p :: map arg_val post)).
  2: { unfold pad. rewrite <- app_assoc, <- app_comm_cons, map_app, map_repeat, !length_app.
       cbn [length]. by rewrite !length_map. }
  rewrite Hk. cbn [h_next h_ctx delete_paths]. unfold free, bindM, modifyM, retM. by cbn [h_mem h_next h_ctx].
Qed.

(** The path as the second parameter, and a kernel that leaves memory alone. *)
Lemma run_task_path no a path rest cb s :
  plain a -> Forall plain rest -> (length rest <= 4)%nat ->
  Forall char_ok path -> Z.of_nat (length path) < LKL_PATH_MAX -> heap_wf (m_heap s) ->
  exists m, cstr_at m (h_next (m_heap s)) path /\
    forall r k',
      lkl_syscall (s64 no) (pad (arg_val a :: h_next (m_heap s) :: map arg_val rest)) (m_kernel s) m
        = (r, k', m) ->
      run_task junk (Task no (a :: AStr path :: rest) cb) s =
        turn (syscall_callback (s32 r) cb)
          (Mach (Heap (h_mem (m_heap s)) (h_next (m_heap s) + LKL_PATH_MAX + alloc_gap)
                   (h_ctx (m_heap s))) k' (m_ticks s) (m_queue s) (m_out s)).
Proof.
  intros Ha Hrest Hl Hs Hlen Hwf.
  destruct (run_task_str no [a] path rest cb s) as (m & Hc & Ho & Hrun);
    [by constructor|done|cbn [length]; lia|done..|].
  exists m. split; [exact Hc|]. intros r k' Hk. etransitivity; [exact (Hrun r k' m Hk)|].
  by rewrite (unmap_restore (m_heap s) m LKL_PATH_MAX) by (done || unfold LKL_PATH_MAX; lia).
Qed.

End RunTask.

(** ** Pieces of concrete kernels *)

(** The path a system call finds at a user address. *)
Definition user_path (p : Z) (m : mem) : option (list Z) :=
  n ← strnlen (Z.to_nat LKL_PATH_MAX) p m; load_bytes (Z.to_nat n) p m.

Lemma user_path_ok p path m :
  Forall char_ok path -> Z.of_nat (length path) < LKL_PATH_MAX -> cstr_at m p path ->
  user_path p m = Some path.
Proof.
  intros Hp Hl Hc. unfold user_path. rewrite (strnlen_spec _ _ _ _ Hp Hc) by lia.
  cbn [mbind option_bind]. by rewrite Nat2Z.id, (cstr_at_load _ _ _ Hp Hc).
Qed.

(** The lowest descriptor that is not in use. *)
Definition unused_fd {A} (fds : gmap Z A) : option Z :=
  find (fun fd => match fds !! fd with None => true | Some _ => false end) (map Z.of_nat (seq 0 1024)).

Lemma unused_fd_range {A} (fds : gmap Z A) fd : unused_fd fds = Some fd -> 0 <= fd < 1024.
Proof.
  unfold unused_fd. intros H%find_some. destruct H as [H _].
  apply in_map_iff in H as (n & <- & Hn). apply in_seq in Hn. lia.
Qed.

Lemma unused_fd_0 {A} (fds : gmap Z A) : fds !! 0 = None -> unused_fd fds = Some 0.
Proof.
  intros H. unfold unused_fd. change (seq 0 1024) with (0%nat :: seq 1 1023). cbn [map find].
  change (Z.of_nat 0) with 0. by rewrite H.
Qed.

(** ** Running a handler to the end of everything it started *)

Section Goes.
Context {C R K : Type} {kernel : Kernel K} (junk : Z -> Z).
Implicit Types s : mach C R K.
Implicit Types P : mach C R K -> Prop.

(** The handler runs without a fault, so does everything it started, and the
    final state satisfies [P]. *)
Definition goes (j : js (heap C) R) s P : Prop :=
  exists s' final, turn j s = Ok s' /\ runs junk s' final /\ P final.

Lemma goes_push no args cb s P j s1 :
  m_ticks s = [] -> m_queue s = [] ->
  run_task junk (Task no args cb) s = turn j s1 -> goes j s1 P ->
  goes (Push no args cb Done) s P.
Proof.
  destruct s as [h k ts q o]. cbn [m_ticks m_queue]. intros -> -> E (s' & final & Es & Hr & HP).
  do 2 eexists. split; [reflexivity|]. split; [|exact HP]. eapply runs_step; [|exact Hr].
  unfold mach_step. cbn [m_ticks m_queue m_heap m_kernel m_out app]. by rewrite E, Es.
Qed.

Lemma goes_tick j s P :
  m_ticks s = [] -> goes j s P -> goes (Tick j Done) s P.
Proof.
  destruct s as [h k ts q o]. cbn [m_ticks]. intros -> (s' & final & Es & Hr & HP).
  do 2 eexists. split; [reflexivity|]. split; [|exact HP]. eapply runs_step; [|exact Hr].
  unfold mach_step. cbn [m_ticks m_queue m_heap m_kernel m_out app]. by rewrite Es.
Qed.

Lemma goes_bind {A} (c : M (heap C) A) (f : A -> js (heap C) R) s P a h' :
  c (m_heap s) = Ok (a, h') ->
  goes (f a) (Mach h' (m_kernel s) (m_ticks s) (m_queue s) (m_out s)) P ->
  goes (Bind c f) s P.
Proof. intros E (s' & final & Es & Hr). exists s', final. split; [|done]. cbn [Bind turn]. by rewrite E. Qed.

Lemma goes_ret {A} (a : A) (f : A -> js (heap C) R) s P :
  goes (f a) s P -> goes (Bind (retM a) f) s P.
Proof. intros H. eapply goes_bind; [reflexivity|]. by destruct s. Qed.

Lemma goes_callback r s P :
  m_ticks s = [] -> m_queue s = [] ->
  P (Mach (m_heap s) (m_kernel s) [] [] (m_out s ++ [r])) -> goes (Callback r Done) s P.
Proof.
  destruct s as [h k ts q o]. cbn [m_ticks m_queue m_heap m_kernel m_out]. intros -> -> HP.
  do 2 eexists. split; [reflexivity|]. split; [by apply runs_end|exact HP].
Qed.

Lemma goes_callback_twice r r' s P :
  m_ticks s = [] -> m_queue s = [] ->
  P (Mach (m_heap s) (m_kernel s) [] [] (m_out s ++ [r; r'])) -> goes (Callback r (Callback r' Done)) s P.
Proof.
  destruct s as [h k ts q o]. cbn [m_ticks m_queue m_heap m_kernel m_out]. intros -> -> HP.
  do 2 eexists. split; [reflexivity|]. split; [by apply runs_end|]. cbn -[app]. rewrite <- app_assoc. exact HP.
Qed.

(** Everything the handler starts finishes, with enough rounds. *)
Lemma goes_loop j s P :
  goes j s P -> exists s' final, turn j s = Ok s' /\ P final /\
    exists n, forall fuel, (n <= fuel)%nat -> loop junk fuel s' = Ok final.
Proof. intros (s' & final & E & Hr & HP). exists s', final. split_and!; [done..|]. by apply runs_loop. Qed.

End Goes.

(** ** The path buffer of syscall_entry *)

Lemma store_bytes_none a bs m k :
  (k < length bs)%nat -> m !! (a + Z.of_nat k) = None -> store_bytes a bs m = None.
Proof.
  revert a m k. induction bs as [|b bs IH]; intros a m k; cbn [length]; [lia|].
  unfold store_bytes; fold store_bytes. intros Hk Hn. destruct (m !! a) as [c|] eqn:E; [|done].
  destruct k as [|k]; [by rewrite Z.add_0_r, E in Hn|].
  apply (IH _ _ k); [lia|]. rewrite lookup_insert_ne by lia. rewrite <- Hn. f_equal. lia.
Qed.

(** The assertion of syscall_entry lets a path of exactly LKL_PATH_MAX bytes
    through, and the strcpy that follows writes its NUL one byte past the buffer. *)
Theorem syscall_path_overflow {C} junk path (h : heap C) args :
  Forall char_ok path -> Z.of_nat (length path) = LKL_PATH_MAX -> heap_wf h ->
  syscall_entry junk (AStr path :: args) h = Fail Segv.
Proof.
  intros Hp Hl Hwf. cbn [syscall_entry syscall_param].
  destruct (alloc_ok (junk_bytes junk LKL_PATH_MAX) LKL_PATH_MAX h) as (h1 & E & _ & _ & Hn & _ & Ho);
    [unfold LKL_PATH_MAX; lia|done|intros; apply length_junk|].
  rewrite bindM_assoc, (bindM_ok _ _ _ _ _ E), c_str_id, Hl, Z.leb_refl by done.
  unfold bindM, retM, write_bytes. erewrite (store_bytes_none _ _ _ (length path)); [done| |].
  - rewrite length_app. cbn [length]. lia.
  - rewrite Hl. destruct Hwf as [_ Hwf]. rewrite Ho by (unfold range; lia). apply Hwf.
    unfold LKL_PATH_MAX. lia.
Qed.

Lemma syscall_path_overflow_witness :
  syscall_entry (C := unit) (fun _ => 0) [AStr (repeat 97 4096)] (Heap ∅ 64 tt) = Fail Segv.
Proof.
  apply (syscall_path_overflow (fun _ => 0) (repeat 97 4096) (Heap ∅ 64 tt) []).
  - apply List.Forall_forall. intros x Hx. apply repeat_spec in Hx. subst x. split; reflexivity.
  - reflexivity.
  - split; [reflexivity|]. intros i _. apply lookup_empty.
Defined.
