(* ===== verification/Dirent.v ===== *)
(** * Dirent

    Directory listings on their way through the system: the kernel's
    getdents64 (fs/readdir.c) with the directories of the in-memory file
    systems (fs/libfs.c), and the parser of the addon (src/node_lkl.cc). *)

From S2P Require Import Prelude Memory.

Definition EINTR : Z := 4.
Definition LKL_NAME_MAX : Z := 255.

(** One call of dir_emit: the name, the position, the inode and the type. *)
Record entry := Entry { e_name : list Z; e_off : Z; e_ino : Z; e_type : Z }.

(** ** The kernel side *)

(** offsetof(struct linux_dirent64, d_name) and the other fields. *)
Definition D_OFF : Z := 8.
Definition D_RECLEN : Z := 16.
Definition D_TYPE : Z := 18.
Definition D_NAME : Z := 19.

(** ALIGN(offsetof(struct linux_dirent64, d_name) + namlen + 1, sizeof(u64)) *)
Definition reclen (namlen : Z) : Z := Z.land (D_NAME + namlen + 1 + 7) (Z.lnot 7).

(** struct getdents_callback64, with the memory it writes to. *)
Record getdents_callback64 := GetdentsCallback {
  current_dir : Z; previous : Z; count : Z; error : Z; umem : mem
}.

Definition put_user (n : nat) (a v : Z) : M getdents_callback64 unit :=
  fun b => match store n a v (umem b) with
           | Some m => Ok (tt, GetdentsCallback (current_dir b) (previous b) (count b) (error b) m)
           | None => Fail Segv
           end.

Definition copy_to_user (a : Z) (bs : list Z) : M getdents_callback64 unit :=
  fun b => match store_bytes a bs (umem b) with
           | Some m => Ok (tt, GetdentsCallback (current_dir b) (previous b) (count b) (error b) m)
           | None => Fail Segv
           end.

(** filldir64: 0 or a negative error.  User accesses are plain memory accesses
    on this architecture (asm-generic/uaccess.h): they fault, never -EFAULT. *)
Definition filldir64 (signal_pending : bool) (e : entry) : M getdents_callback64 Z :=
  let* b := getM in
  let namlen := Z.of_nat (length (e_name e)) in
  let rl := reclen namlen in
  putM (GetdentsCallback (current_dir b) (previous b) (count b) (- EINVAL) (umem b)) ;;;
  if count b <? rl then retM (- EINVAL)
  else if negb (previous b =? 0) && signal_pending then retM (- EINTR)
  else
    (if previous b =? 0 then retM tt else put_user 8 (previous b + D_OFF) (e_off e)) ;;;
    let dirent := current_dir b in
    put_user 8 dirent (e_ino e) ;;;
    put_user 8 (dirent + D_OFF) 0 ;;;
    put_user 2 (dirent + D_RECLEN) rl ;;;
    put_user 1 (dirent + D_TYPE) (e_type e) ;;;
    copy_to_user (dirent + D_NAME) (e_name e) ;;;
    put_user 1 (dirent + D_NAME + namlen) 0 ;;;
    modifyM (fun b' =>
      GetdentsCallback (dirent + rl) dirent (count b' - rl) (error b') (umem b')) ;;;
    retM 0.

(** The directory operation of a file system: it hands the entries from the
    current position on to [actor] until [actor] refuses one. *)
Class DirOps (D : Type) := {
  iterate_shared : forall {S : Type}, (entry -> M S bool) -> D -> M S D;
  f_pos : D -> Z;
  is_deaddir : D -> bool
}.

Definition dir_emit (signal_pending : bool) (e : entry) : M getdents_callback64 bool :=
  let* r := filldir64 signal_pending e in retM (r =? 0).

Definition iterate_dir {D} `{DirOps D} (signal_pending : bool) (d : D)
  : M getdents_callback64 (Z * D) :=
  if is_deaddir d then retM (- ENOENT, d)
  else let* d' := iterate_shared (dir_emit signal_pending) d in retM (0, d').

(** getdents64 on an open directory [d]. *)
Definition getdents64 {D} `{DirOps D} (signal_pending : bool) (d : D) (dirent cnt : Z) (m : mem)
  : res (Z * D * mem) :=
  match iterate_dir signal_pending d (GetdentsCallback dirent 0 cnt 0 m) with
  | Fail f => Fail f
  | Ok ((r, d'), b) =>
      let err := if 0 <=? r then error b else r in
      if previous b =? 0 then Ok (err, d', umem b)
      else
        match store 8 (previous b + D_OFF) (f_pos d') (umem b) with
        | Some m' => Ok (s32 (cnt - count b), d', m')
        | None => Fail Segv
        end
  end.

(** ** Directories of fs/libfs.c

    The children of a dentry, with the cursor of the open file between
    [dd_before] and [dd_after]. *)
Record dentry := Dentry { d_name : list Z; d_ino : Z; d_mode : Z; simple_positive : bool }.

Record dcache_dir := DcacheDir {
  dd_before : list dentry; dd_after : list dentry; dd_pos : Z;
  dd_ino : Z; dd_parent_ino : Z; dd_dead : bool
}.

Definition dt_type (mode : Z) : Z := Z.land (Z.shiftr mode 12) 15.
Definition DT_DIR : Z := 4.

Definition DOT : Z := 46.

Definition with_pos (p : Z) (d : dcache_dir) : dcache_dir :=
  DcacheDir (dd_before d) (dd_after d) p (dd_ino d) (dd_parent_ino d) (dd_dead d).

(** dir_emit_dots: false when the actor refused. *)
Definition dir_emit_dots {S} (actor : entry -> M S bool) (d : dcache_dir) : M S (bool * dcache_dir) :=
  let* '(ok, d) :=
    if dd_pos d =? 0 then
      let* ok := actor (Entry [DOT] 0 (dd_ino d) DT_DIR) in
      retM (ok, if ok then with_pos 1 d else d)
    else retM (true, d) in
  if ok : bool then
    if dd_pos d =? 1 then
      let* ok := actor (Entry [DOT; DOT] 1 (dd_parent_ino d) DT_DIR) in
      retM (ok, if ok then with_pos 2 d else d)
    else retM (true, d)
  else retM (false, d).

(** The loop of dcache_readdir over [next_positive]: [passed] are the children
    up to the last one emitted, [skipped] the ones not positive since. *)
Fixpoint readdir_loop {S} (actor : entry -> M S bool) (passed skipped l : list dentry) (pos : Z)
  : M S (list dentry * list dentry * Z) :=
  match l with
  | [] => retM (passed, skipped, pos)
  | c :: l' =>
      if simple_positive c then
        let* ok := actor (Entry (d_name c) pos (d_ino c) (dt_type (d_mode c))) in
        if ok : bool then readdir_loop actor (passed ++ skipped ++ [c]) [] l' (pos + 1)
        else retM (passed, skipped ++ c :: l', pos)
      else readdir_loop actor passed (skipped ++ [c]) l' pos
  end.

Definition dcache_readdir {S} (actor : entry -> M S bool) (d : dcache_dir) : M S dcache_dir :=
  let* '(ok, d) := dir_emit_dots actor d in
  if ok : bool then
    let from_head := dd_pos d =? 2 in
    let* '(passed, ahead, pos) :=
      if from_head then readdir_loop actor [] [] (dd_before d ++ dd_after d) 2
      else readdir_loop actor (dd_before d) [] (dd_after d) (dd_pos d) in
    if pos =? dd_pos d then retM d                       (* moved is false *)
    else retM (DcacheDir passed ahead pos (dd_ino d) (dd_parent_ino d) (dd_dead d))
  else retM d.

#[export] Instance dcache_dir_ops : DirOps dcache_dir := {
  iterate_shared := @dcache_readdir;
  f_pos := dd_pos;
  is_deaddir := dd_dead
}.

(** ** The addon side *)

(** strcmp(p, s) == 0 for a C string constant [s]. *)
Fixpoint strcmp_eq (p : Z) (s : list Z) (m : mem) : option bool :=
  match m !! p with
  | None => None
  | Some b =>
      match s with
      | [] => Some (u8 b =? 0)
      | c :: s' => if u8 b =? c then strcmp_eq (p + 1) s' m else Some false
      end
  end.

(** parseDirent64: one round of the loop; [None] is an access outside the
    memory, the result the name kept (if any) and d_reclen. *)
Definition parse_entry (p : Z) (m : mem) : option (option (list Z) * Z) :=
  dot ← strcmp_eq (p + D_NAME) [DOT] m;
  dotdot ← if dot : bool then Some true else strcmp_eq (p + D_NAME) [DOT; DOT] m;
  name ← (if dotdot : bool then Some None
          else n ← strnlen (Z.to_nat LKL_NAME_MAX) (p + D_NAME) m;
               bs ← load_bytes (Z.to_nat n) (p + D_NAME) m; Some (Some bs));
  rl ← load 2 (p + D_RECLEN) m;
  Some (name, rl).

Fixpoint parse_loop (fuel : nat) (buf length bpos : Z) (result : list (list Z)) (m : mem)
  : res (list (list Z)) :=
  match fuel with
  | O => Fail NoFuel
  | S fuel' =>
      if bpos <? length then
        match parse_entry (buf + bpos) m with
        | None => Fail Segv
        | Some (name, rl) =>
            parse_loop fuel' buf length (u32 (bpos + rl))
              (match name with Some bs => result ++ [bs] | None => result end) m
        end
      else Ok result
  end.

(** The loop makes progress by at least [D_NAME] bytes on the records the
    kernel writes; [length + 1] rounds are more than enough. *)
Definition parseDirent64 (buf length : Z) (m : mem) : res (list (list Z)) :=
  parse_loop (S (Z.to_nat length)) buf length 0 [] m.

(** ** What a listing in memory looks like *)

Definition namlen (e : entry) : Z := Z.of_nat (length (e_name e)).

Definition name_ok (s : list Z) : Prop :=
  s <> [] /\ Z.of_nat (length s) <= LKL_NAME_MAX /\ Forall char_ok s.

Definition dirent_at (m : mem) (a : Z) (e : entry) : Prop :=
  load 2 (a + D_RECLEN) m = Some (reclen (namlen e)) /\ cstr_at m (a + D_NAME) (e_name e).

Fixpoint size (es : list entry) : Z :=
  match es with
  | [] => 0
  | e :: es' => reclen (namlen e) + size es'
  end.

Fixpoint dirents_at (m : mem) (a : Z) (es : list entry) : Prop :=
  match es with
  | [] => True
  | e :: es' => dirent_at m a e /\ dirents_at m (a + reclen (namlen e)) es'
  end.

(** The names a listing keeps. *)
Definition is_dots (s : list Z) : bool := bool_decide (s = [DOT]) || bool_decide (s = [DOT; DOT]).

Definition keep (es : list entry) : list (list Z) :=
  filter (fun s => is_dots s = false) (map e_name es).

(** ** Lemmas *)

Lemma reclen_spec n : reclen n = (n + 27) / 8 * 8.
Proof.
  unfold reclen, D_NAME. rewrite <- Z.ldiff_land. change 7 with (Z.ones 3) at 2.
  rewrite Z.ldiff_ones_r by lia. rewrite Z.shiftl_mul_pow2, Z.shiftr_div_pow2 by lia.
  do 2 f_equal. lia.
Qed.

Lemma reclen_bounds n : 0 <= n -> n + 20 <= reclen n <= n + 27.
Proof. rewrite reclen_spec. lia. Qed.

Lemma namlen_nonneg e : 0 <= namlen e.
Proof. unfold namlen. lia. Qed.

Lemma name_ok_reclen e : name_ok (e_name e) -> 20 <= reclen (namlen e) <= 282.
Proof.
  intros (_ & H & _). unfold LKL_NAME_MAX in H. pose proof (namlen_nonneg e).
  pose proof (reclen_bounds (namlen e) ltac:(done)). unfold namlen in *. lia.
Qed.

Lemma size_app es1 es2 : size (es1 ++ es2) = size es1 + size es2.
Proof. induction es1 as [|e es1 IH]; simpl; lia. Qed.

Lemma size_nonneg es : 0 <= size es.
Proof.
  induction es as [|e es IH]; simpl; [lia|].
  pose proof (reclen_bounds (namlen e) (namlen_nonneg e)). pose proof (namlen_nonneg e). lia.
Qed.

Lemma dirents_at_app m a es1 es2 :
  dirents_at m a (es1 ++ es2) <-> dirents_at m a es1 /\ dirents_at m (a + size es1) es2.
Proof.
  revert a. induction es1 as [|e es1 IH]; intros a; cbn [dirents_at size app].
  - rewrite Z.add_0_r. tauto.
  - rewrite IH, Z.add_assoc. tauto.
Qed.

Lemma dirent_at_frame (P : Z -> Prop) m m' a e :
  frame P m m' -> (forall i, a + D_RECLEN <= i < a + reclen (namlen e) -> ~ P i) ->
  dirent_at m a e -> dirent_at m' a e.
Proof.
  intros Hf HP [Hl Hs]. pose proof (reclen_bounds (namlen e) (namlen_nonneg e)).
  pose proof (namlen_nonneg e). unfold D_RECLEN, D_NAME in *. split.
  - erewrite load_frame; [exact Hl|exact Hf|]. intros i Hi. apply HP. unfold range in Hi. unfold D_RECLEN in *. lia.
  - eapply cstr_at_frame; [exact Hf| |exact Hs]. intros i Hi. apply HP. unfold range, namlen, D_NAME in *. lia.
Qed.

Lemma dirents_at_frame (P : Z -> Prop) m m' a es :
  frame P m m' -> (forall i, a <= i < a + size es -> ~ P i) ->
  dirents_at m a es -> dirents_at m' a es.
Proof.
  intros Hf. revert a. induction es as [|e es IH]; intros a HP; cbn [dirents_at size] in *; [done|].
  pose proof (reclen_bounds (namlen e) (namlen_nonneg e)). pose proof (namlen_nonneg e).
  pose proof (size_nonneg es). intros [He Hes]. split.
  - eapply dirent_at_frame; [exact Hf| |exact He]. intros i Hi. apply HP. unfold D_RECLEN in Hi. lia.
  - apply IH; [|exact Hes]. intros i Hi. apply HP. lia.
Qed.

(** *** Parsing *)

Lemma strcmp_eq_spec m p s t :
  Forall char_ok s -> Forall char_ok t -> cstr_at m p s ->
  strcmp_eq p t m = Some (bool_decide (s = t)).
Proof.
  intros Hs. revert p t. induction s as [|b s IH]; intros p t Ht; cbn [cstr_at].
  - destruct t as [|c t]; cbn [strcmp_eq]; intros ->; [done|].
    inversion Ht; subst. unfold char_ok in *. change (u8 0) with 0. destruct (Z.eqb_spec 0 c); [lia|done].
  - inversion Hs; subst. intros [Hb H]. destruct t as [|c t]; cbn [strcmp_eq]; rewrite Hb;
      rewrite u8_id by (unfold char_ok in *; lia).
    + unfold char_ok in *. destruct (Z.eqb_spec b 0); [lia|done].
    + inversion Ht; subst. destruct (Z.eqb_spec b c) as [->|Hne].
      * rewrite IH by done. f_equal. apply bool_decide_ext. split; [by intros ->|by intros [= ->]].
      * f_equal. symmetry. apply bool_decide_eq_false. by intros [= ->].
Qed.

Lemma parse_entry_spec m p e :
  name_ok (e_name e) -> dirent_at m p e ->
  parse_entry p m =
    Some (if is_dots (e_name e) then None else Some (e_name e), reclen (namlen e)).
Proof.
  intros (_ & Hlen & Hs) [Hl Hc]. unfold parse_entry.
  assert (Forall char_ok [DOT]) as H1 by (repeat constructor).
  assert (Forall char_ok [DOT; DOT]) as H2 by (repeat constructor).
  rewrite (strcmp_eq_spec _ _ _ _ Hs H1 Hc), Hl. cbn [mbind option_bind].
  rewrite (strnlen_spec _ _ _ _ Hs Hc) by lia. cbn [mbind option_bind].
  rewrite Nat2Z.id, (cstr_at_load _ _ _ Hs Hc). unfold is_dots.
  destruct (bool_decide (e_name e = [DOT])); cbn [mbind option_bind orb]; [done|].
  rewrite (strcmp_eq_spec _ _ _ _ Hs H2 Hc). cbn [mbind option_bind].
  by destruct (bool_decide (e_name e = [DOT; DOT])).
Qed.

Lemma keep_cons e es :
  keep (e :: es) = (if is_dots (e_name e) then [] else [e_name e]) ++ keep es.
Proof.
  unfold keep. cbn [map]. rewrite filter_cons. by destruct (is_dots (e_name e)).
Qed.

Lemma keep_app es1 es2 : keep (es1 ++ es2) = keep es1 ++ keep es2.
Proof. unfold keep. by rewrite map_app, list.filter_app. Qed.

Lemma parse_loop_spec m buf es :
  Forall (fun e => name_ok (e_name e)) es ->
  forall fuel bpos result,
    dirents_at m (buf + bpos) es -> (length es < fuel)%nat ->
    0 <= bpos -> bpos + size es < 4294967296 ->
    parse_loop fuel buf (bpos + size es) bpos result m = Ok (result ++ keep es).
Proof.
  induction 1 as [|e es He Hes IH]; intros fuel bpos result Hat Hf Hb Hsz;
    (destruct fuel as [|fuel]; [cbn [length] in Hf; lia|]); cbn [parse_loop size] in *.
  - rewrite Z.add_0_r, Z.ltb_irrefl. unfold keep. simpl. by rewrite app_nil_r.
  - destruct Hat as [Hd Hat]. pose proof (name_ok_reclen _ He). pose proof (size_nonneg es).
    destruct (Z.ltb_spec bpos (bpos + (reclen (namlen e) + size es))) as [_|]; [|lia].
    rewrite (parse_entry_spec _ _ _ He Hd), u32_id by lia.
    rewrite Z.add_assoc, IH; [|by rewrite Z.add_assoc|cbn [length] in Hf; lia|lia|lia].
    rewrite keep_cons, app_assoc. destruct (is_dots (e_name e)); [by rewrite app_nil_r|done].
Qed.

(** The parser returns the names of the records, the dots left out. *)
Lemma parse_dirents m buf es :
  Forall (fun e => name_ok (e_name e)) es -> dirents_at m buf es -> size es < 4294967296 ->
  parseDirent64 buf (size es) m = Ok (keep es).
Proof.
  intros Hes Hat Hsz. unfold parseDirent64.
  assert (Z.of_nat (length es) <= size es) as Hlen.
  { clear Hat Hsz. induction Hes as [|e es He _ IH]; cbn [length size]; [lia|].
    pose proof (name_ok_reclen _ He). lia. }
  rewrite <- (Z.add_0_l (size es)) at 2. rewrite (parse_loop_spec m buf es Hes); [done| | |lia|lia].
  - by rewrite Z.add_0_r.
  - lia.
Qed.

(** *** Filling *)

(** The state of getdents64 after the entries [es] were written at [start]. *)
Record filled (start cnt : Z) (m0 : mem) (es : list entry) (b : getdents_callback64) : Prop := {
  fl_current : current_dir b = start + size es;
  fl_count : count b = cnt - size es;
  fl_room : 0 <= count b;
  fl_at : dirents_at (umem b) start es;
  fl_previous : (es = [] /\ previous b = 0) \/
    exists es0 e, es = es0 ++ [e] /\ previous b = start + size es0;
  fl_frame : frame (range start cnt) m0 (umem b)
}.

Lemma put_user_ok n a v b :
  mapped (umem b) a (Z.of_nat n) ->
  exists m, put_user n a v b =
      Ok (tt, GetdentsCallback (current_dir b) (previous b) (count b) (error b) m) /\
    frame (range a (Z.of_nat n)) (umem b) m /\ store n a v (umem b) = Some m.
Proof.
  intros H. destruct (store_some n a v _ H) as [m E]. exists m. unfold put_user. rewrite E.
  split; [done|]. split; [by eapply store_frame|done].
Qed.

(** Writing into the d_off field of the last record changes none of the
    fields of the listing. *)
Lemma put_doff start es0 e (m m' : mem) :
  frame (range (start + size es0 + D_OFF) 8) m m' ->
  dirents_at m start (es0 ++ [e]) -> dirents_at m' start (es0 ++ [e]).
Proof.
  rewrite !dirents_at_app. cbn [dirents_at]. intros Hf (H0 & He & _).
  pose proof (reclen_bounds (namlen e) (namlen_nonneg e)). pose proof (namlen_nonneg e).
  repeat split.
  - eapply dirents_at_frame; [exact Hf| |exact H0]. intros i Hi. unfold range, D_OFF. lia.
  - eapply dirent_at_frame; [exact Hf| |exact He]. intros i Hi. unfold range, D_OFF, D_RECLEN in *. lia.
  - eapply dirent_at_frame; [exact Hf| |exact He]. intros i Hi. unfold range, D_OFF, D_RECLEN in *. lia.
Qed.

(** The stores that write one record. *)
Definition write_record (e : entry) (dirent : Z) : M getdents_callback64 unit :=
  put_user 8 dirent (e_ino e) ;;;
  put_user 8 (dirent + D_OFF) 0 ;;;
  put_user 2 (dirent + D_RECLEN) (reclen (namlen e)) ;;;
  put_user 1 (dirent + D_TYPE) (e_type e) ;;;
  copy_to_user (dirent + D_NAME) (e_name e) ;;;
  put_user 1 (dirent + D_NAME + namlen e) 0.

Ltac put_step Hm m :=
  let E := fresh "E" in let F := fresh "F" in let St := fresh "St" in
  match goal with
  | |- context [bindM (put_user ?n ?a ?v) _ ?b] =>
      destruct (put_user_ok n a v b) as (m & E & F & St);
        [eapply mapped_sub; [exact Hm|unfold D_OFF, D_RECLEN, D_TYPE, D_NAME; lia
                                     |unfold D_OFF, D_RECLEN, D_TYPE, D_NAME; lia]|];
      rewrite (bindM_ok _ _ _ _ _ E); clear E; cbn [current_dir previous count error umem] in *;
      apply (mapped_frame _ _ _ _ _ F) in Hm
  end.

Lemma write_record_ok e dirent b :
  name_ok (e_name e) -> mapped (umem b) dirent (reclen (namlen e)) ->
  exists m, write_record e dirent b =
      Ok (tt, GetdentsCallback (current_dir b) (previous b) (count b) (error b) m) /\
    frame (range dirent (reclen (namlen e))) (umem b) m /\ dirent_at m dirent e.
Proof.
  intros He Hm. pose proof (name_ok_reclen _ He) as Hr.
  pose proof (reclen_bounds (namlen e) (namlen_nonneg e)). pose proof (namlen_nonneg e).
  destruct He as (_ & _ & Hch). unfold write_record.
  put_step Hm m1. put_step Hm m2. put_step Hm m3. put_step Hm m4.
  unfold copy_to_user at 1. unfold bindM at 1. cbn [current_dir previous count error umem].
  destruct (store_bytes_some (dirent + D_NAME) (e_name e) m4) as [m5 E5].
  { eapply mapped_sub; [exact Hm|unfold D_NAME; lia|unfold D_NAME; fold (namlen e); lia]. }
  rewrite E5. pose proof (store_bytes_frame _ _ _ _ E5) as F5. apply (mapped_frame _ _ _ _ _ F5) in Hm.
  destruct (put_user_ok 1 (dirent + D_NAME + namlen e) 0
    (GetdentsCallback (current_dir b) (previous b) (count b) (error b) m5)) as (m6 & E6 & F6 & St6).
  { eapply mapped_sub; [exact Hm|unfold D_NAME; lia|unfold D_NAME; lia]. }
  rewrite E6. exists m6. split; [done|]. cbn [umem] in *. fold (namlen e) in F5. split; [|split].
  - unfold D_OFF, D_RECLEN, D_TYPE, D_NAME in *.
    repeat (eapply frame_trans; [eapply frame_weaken; [|eassumption]; unfold range; lia|]).
    reflexivity.
  - rewrite (load_frame _ _ _ _ _ F6) by (unfold range, D_RECLEN, D_NAME; lia).
    rewrite (load_frame _ _ _ _ _ F5) by (unfold range, D_RECLEN, D_NAME; lia).
    rewrite (load_frame _ _ _ _ _ F2) by (unfold range, D_RECLEN, D_TYPE; lia).
    rewrite (load_store_eq _ _ _ _ _ St1). f_equal. apply Z.mod_small. simpl. lia.
  - eapply store_cstr; [exact Hch|exact E5|exact St6].
Qed.

Lemma filldir64_write e b :
  filldir64 false e b =
    let b0 := GetdentsCallback (current_dir b) (previous b) (count b) (- EINVAL) (umem b) in
    if count b <? reclen (namlen e) then Ok (- EINVAL, b0)
    else
      bindM (if previous b =? 0 then retM tt else put_user 8 (previous b + D_OFF) (e_off e))
        (fun _ => bindM (write_record e (current_dir b)) (fun _ => bindM (modifyM (fun b' =>
           GetdentsCallback (current_dir b + reclen (namlen e)) (current_dir b)
             (count b' - reclen (namlen e)) (error b') (umem b'))) (fun _ => retM 0))) b0.
Proof.
  unfold filldir64. unfold bindM at 1, getM. unfold bindM at 1, putM.
  fold (namlen e). destruct (count b <? reclen (namlen e)); [done|].
  rewrite andb_false_r. cbv zeta. unfold write_record, bindM.
  by repeat (case_match; simplify_eq; try done).
Qed.

(** The d_off of the previous record, written when the next one arrives. *)
Lemma put_previous_ok start cnt m0 es b v :
  mapped m0 start cnt -> filled start cnt m0 es b ->
  exists m, (if previous b =? 0 then retM tt else put_user 8 (previous b + D_OFF) v)
      (GetdentsCallback (current_dir b) (previous b) (count b) (- EINVAL) (umem b)) =
      Ok (tt, GetdentsCallback (current_dir b) (previous b) (count b) (- EINVAL) m) /\
    dirents_at m start es /\ frame (range start cnt) m0 m.
Proof.
  intros Hm [Hc Hn Hro Hat Hp Hf].
  destruct (Z.eqb_spec (previous b) 0) as [|Hne]; [by eexists|].
  destruct Hp as [[-> Hp]|(es0 & e0 & -> & Hp)]; [done|]. rewrite Hp.
  rewrite size_app in *. cbn [size] in *.
  pose proof (reclen_bounds (namlen e0) (namlen_nonneg e0)). pose proof (namlen_nonneg e0).
  pose proof (size_nonneg es0).
  destruct (put_user_ok 8 (start + size es0 + D_OFF) v
    (GetdentsCallback (current_dir b) (start + size es0) (count b) (- EINVAL) (umem b)))
    as (m1 & E1 & F1 & _).
  { eapply mapped_frame; [exact Hf|]. eapply mapped_sub; [exact Hm|unfold D_OFF; lia|unfold D_OFF; lia]. }
  exists m1. split; [exact E1|]. cbn [umem] in F1.
  split; [by eapply put_doff|]. eapply frame_trans; [exact Hf|].
  eapply frame_weaken; [|exact F1]. unfold range, D_OFF. lia.
Qed.

(** filldir64: the record is appended when it fits, and refused otherwise. *)
Lemma filldir64_ok start cnt m0 es b e :
  mapped m0 start cnt -> filled start cnt m0 es b -> name_ok (e_name e) ->
  exists b', error b' = - EINVAL /\
    ((filldir64 false e b = Ok (0, b') /\ filled start cnt m0 (es ++ [e]) b' /\
        reclen (namlen e) <= count b) \/
     (filldir64 false e b = Ok (- EINVAL, b') /\ filled start cnt m0 es b' /\
        count b < reclen (namlen e))).
Proof.
  intros Hm Hfl He. rewrite filldir64_write. cbv zeta. pose proof (name_ok_reclen _ He) as Hr.
  destruct (put_previous_ok _ _ _ _ _ (e_off e) Hm Hfl) as (m1 & E1 & Hat1 & Hf1).
  destruct Hfl as [Hc Hn Hro Hat Hp Hf]. pose proof (size_nonneg es).
  destruct (Z.ltb_spec (count b) (reclen (namlen e))).
  { eexists. split; [|right; split; [done|]]; [done|]. split; [|done]. by constructor. }
  assert (mapped m1 (current_dir b) (reclen (namlen e))) as Hm1.
  { eapply mapped_frame; [exact Hf1|]. eapply mapped_sub; [exact Hm|lia|lia]. }
  destruct (write_record_ok e (current_dir b)
    (GetdentsCallback (current_dir b) (previous b) (count b) (- EINVAL) m1) He Hm1) as (m2 & E2 & F2 & Hd).
  rewrite (bindM_ok _ _ _ _ _ E1), (bindM_ok _ _ _ _ _ E2).
  eexists. split; [|left; split; [cbn; reflexivity|split; [|done]]]; [done|].
  cbn [umem] in F2. constructor; cbn [current_dir previous count error umem].
  - rewrite size_app, Hc. cbn [size]. lia.
  - rewrite size_app, Hn. cbn [size]. lia.
  - lia.
  - apply dirents_at_app. rewrite <- Hc. split; [|split; [exact Hd|done]].
    eapply dirents_at_frame; [exact F2| |exact Hat1]. intros i Hi. unfold range. lia.
  - right. exists es, e. by rewrite Hc.
  - eapply frame_trans; [exact Hf1|]. eapply frame_weaken; [|exact F2]. unfold range. lia.
Qed.

(** ** Directory operations and what they promise *)

Fixpoint emit {S} (actor : entry -> M S bool) (l : list entry) : M S (list entry) :=
  match l with
  | [] => retM []
  | e :: l' => let* ok := actor e in if ok : bool then emit actor l' else retM (e :: l')
  end.

(** The entries from the current position on are handed over in order until
    one is refused; that one comes first the next time. *)
Class DirLaws (D : Type) `{DirOps D} := {
  dir_wf : D -> Prop;
  dir_rest : D -> list entry;
  iterate_emits : forall S (actor : entry -> M S bool) (d : D) (s : S), dir_wf d ->
    match emit actor (dir_rest d) s with
    | Ok (r, s') => exists d', iterate_shared actor d s = Ok (d', s') /\
        dir_wf d' /\ dir_rest d' = r /\ is_deaddir d' = is_deaddir d
    | Fail f => iterate_shared actor d s = Fail f
    end
}.

Lemma emit_fills start cnt m0 l :
  0 < start -> mapped m0 start cnt -> Forall (fun e => name_ok (e_name e)) l ->
  forall es b, filled start cnt m0 es b ->
  exists pre rest b', emit (dir_emit false) l b = Ok (rest, b') /\ l = pre ++ rest /\
    filled start cnt m0 (es ++ pre) b' /\
    (l = [] -> error b' = error b) /\ (l <> [] -> error b' = - EINVAL) /\
    match rest with [] => True | e :: _ => count b' < reclen (namlen e) end.
Proof.
  intros Hs Hm Hl. induction Hl as [|e l He Hl IH]; intros es b Hfl; cbn [emit].
  { exists [], [], b. split_and!; try done. by rewrite app_nil_r. }
  destruct (filldir64_ok start cnt m0 es b e Hm Hfl He)
    as (b1 & Herr & [(E & Hfl1 & Hro)|(E & Hfl1 & Hro)]); unfold dir_emit at 1;
    rewrite bindM_assoc, (bindM_ok _ _ _ _ _ E); unfold retM at 1, bindM at 1; cbn [Z.eqb Z.opp].
  - destruct (IH _ _ Hfl1) as (pre & rest & b' & E' & -> & Hfl' & He1 & He2 & Hst).
    exists (e :: pre), rest, b'. rewrite <- app_assoc in Hfl'. split; [exact E'|].
    split; [done|]. split; [exact Hfl'|]. split; [done|]. split; [|done]. intros _.
    destruct (decide (pre ++ rest = [])) as [Hnil|]; [by rewrite He1|by apply He2].
  - exists [], (e :: l), b1. rewrite app_nil_r. unfold EINVAL; cbn. split; [done|]. split; [done|].
    split; [done|]. split; [done|]. split; [done|].
    rewrite (fl_count _ _ _ _ _ Hfl1), <- (fl_count _ _ _ _ _ Hfl). done.
Qed.

(** getdents64 writes a non-empty prefix of the remaining entries when the
    buffer takes the longest record. *)
Lemma getdents64_ok {D} `{DirLaws D} (d : D) start cnt m :
  dir_wf d -> is_deaddir d = false -> Forall (fun e => name_ok (e_name e)) (dir_rest d) ->
  0 < start -> 0 <= cnt < 2147483648 -> mapped m start cnt ->
  exists pre ret d' m', getdents64 false d start cnt m = Ok (ret, d', m') /\
    dir_rest d = pre ++ dir_rest d' /\ dir_wf d' /\ is_deaddir d' = false /\
    dirents_at m' start pre /\ frame (range start cnt) m m' /\ size pre <= cnt /\
    (pre <> [] -> ret = size pre) /\
    (pre = [] -> ret = match dir_rest d with [] => 0 | _ => - EINVAL end) /\
    (282 <= cnt -> pre = [] -> dir_rest d = []).
Proof.
  intros Hwf Hdead Hnames Hs Hc Hm. unfold getdents64, iterate_dir. rewrite Hdead.
  assert (filled start cnt m [] (GetdentsCallback start 0 cnt 0 m)) as Hfl0.
  { constructor; cbn; [lia|lia|lia|done|by left|done]. }
  destruct (emit_fills start cnt m _ Hs Hm Hnames [] _ Hfl0)
    as (pre & rest & b & E & Hl & Hfl & He1 & He2 & Hst).
  pose proof (iterate_emits _ (dir_emit false) d (GetdentsCallback start 0 cnt 0 m) Hwf) as Hit.
  rewrite E in Hit. destruct Hit as (d' & E' & Hwf' & Hr & Hd').
  unfold bindM. rewrite E'. cbn [retM]. cbn [Z.leb Z.compare].
  destruct Hfl as [Hcur Hcnt Hro Hat Hp Hf]. cbn [app] in *. pose proof (size_nonneg pre).
  assert (282 <= cnt -> pre = [] -> dir_rest d = []) as Hprog.
  { intros Hb ->. rewrite Hl. destruct rest as [|e rest]; [done|]. rewrite Hl in Hnames.
    inversion Hnames; subst. pose proof (name_ok_reclen e ltac:(done)). cbn [size] in Hcnt. lia. }
  destruct Hp as [[-> Hp]|(es0 & e & -> & Hp)]; rewrite Hp.
  - cbn [Z.eqb]. exists [], (error b), d', (umem b). rewrite Hr, Hd', Hdead.
    split; [done|]. split; [done|]. split_and!; try done; try (cbn [size]; lia); intros ?; try congruence.
    destruct (dir_rest d) as [|e l] eqn:El; [by rewrite He1|by apply He2].
  - rewrite size_app in *. cbn [size] in *. pose proof (size_nonneg es0).
    pose proof (reclen_bounds (namlen e) (namlen_nonneg e)). pose proof (namlen_nonneg e).
    destruct (Z.eqb_spec (start + size es0) 0); [lia|].
    destruct (store_some 8 (start + size es0 + D_OFF) (f_pos d') (umem b)) as [m' E3].
    { eapply mapped_frame; [exact Hf|]. eapply mapped_sub; [exact Hm|unfold D_OFF; lia|unfold D_OFF; lia]. }
    rewrite E3. pose proof (store_frame _ _ _ _ _ E3) as F3.
    exists (es0 ++ [e]), (size es0 + (reclen (namlen e) + 0)), d', m'.
    rewrite Hr, Hd', Hdead, size_app. cbn [size]. split_and!; try done; try lia.
    + rewrite s32_id by lia. do 3 f_equal. lia.
    + eapply put_doff; [exact F3|exact Hat].
    + eapply frame_trans; [exact Hf|]. eapply frame_weaken; [|exact F3]. unfold range, D_OFF. lia.
    + intros Hnil. by destruct es0.
Qed.

(** *** The directories of fs/libfs.c *)

Fixpoint child_entries (pos : Z) (l : list dentry) : list entry :=
  match l with
  | [] => []
  | c :: l' =>
      if simple_positive c
      then Entry (d_name c) pos (d_ino c) (dt_type (d_mode c)) :: child_entries (pos + 1) l'
      else child_entries pos l'
  end.

Definition dots_entries (d : dcache_dir) : list entry :=
  (if dd_pos d =? 0 then [Entry [DOT] 0 (dd_ino d) DT_DIR] else []) ++
  (if dd_pos d <=? 1 then [Entry [DOT; DOT] 1 (dd_parent_ino d) DT_DIR] else []).

Definition kids (d : dcache_dir) : list entry :=
  if dd_pos d <=? 2 then child_entries 2 (dd_before d ++ dd_after d)
  else child_entries (dd_pos d) (dd_after d).

Lemma child_entries_skip pos l1 l2 :
  Forall (fun c => simple_positive c = false) l1 -> child_entries pos (l1 ++ l2) = child_entries pos l2.
Proof. induction 1 as [|c l1 Hc _ IH]; cbn [child_entries app]; [done|]. by rewrite Hc. Qed.

Lemma readdir_loop_emits {S} (actor : entry -> M S bool) l :
  forall passed skipped pos s, Forall (fun c => simple_positive c = false) skipped ->
  match emit actor (child_entries pos l) s with
  | Ok (r, s') => exists passed' ahead pos',
      readdir_loop actor passed skipped l pos s = Ok (passed', ahead, pos', s') /\
      child_entries pos' ahead = r /\ pos <= pos' /\ (pos' = pos -> r = child_entries pos l)
  | Fail f => readdir_loop actor passed skipped l pos s = Fail f
  end.
Proof.
  induction l as [|c l IH]; intros passed skipped pos s Hsk; cbn [child_entries readdir_loop].
  { cbn [emit retM]. exists passed, skipped, pos. split; [done|].
    rewrite <- (app_nil_r skipped), child_entries_skip by done. split_and!; [done|lia|done]. }
  destruct (simple_positive c) eqn:Ec; cbn [emit].
  - unfold bindM at 1 2 3. destruct (actor _ s) as [[[|] s1]|f]; [| |done].
    + specialize (IH (passed ++ skipped ++ [c]) [] (pos + 1) s1 ltac:(constructor)).
      destruct (emit actor _ s1) as [[r s']|f]; [|done].
      destruct IH as (p' & a' & pos' & E & Hr & Hle & _). exists p', a', pos'.
      split; [exact E|]. split; [done|]. split; lia.
    + cbn [retM]. exists passed, (skipped ++ c :: l), pos. split; [done|].
      rewrite child_entries_skip by done. cbn [child_entries]. rewrite Ec. split_and!; [done|lia|done].
  - specialize (IH passed (skipped ++ [c]) pos s).
    destruct (emit actor _ s) as [[r s']|f]; apply IH; (apply Forall_app; split; [done|by constructor]).
Qed.

Lemma emit_app {S} (actor : entry -> M S bool) l1 l2 s :
  emit actor (l1 ++ l2) s =
    match emit actor l1 s with
    | Ok ([], s') => emit actor l2 s'
    | Ok (r, s') => Ok (r ++ l2, s')
    | Fail f => Fail f
    end.
Proof.
  revert s. induction l1 as [|e l1 IH]; intros s; cbn [emit app]; [done|].
  unfold bindM at 1 2. destruct (actor e s) as [[[|] s1]|f]; [apply IH|done|done].
Qed.

Lemma with_pos_same d : with_pos (dd_pos d) d = d.
Proof. by destruct d. Qed.

Lemma dots_emits {S} (actor : entry -> M S bool) d s :
  0 <= dd_pos d ->
  match emit actor (dots_entries d) s with
  | Ok ([], s') => dir_emit_dots actor d s = Ok (true, with_pos (Z.max 2 (dd_pos d)) d, s')
  | Ok (r, s') => exists p, dir_emit_dots actor d s = Ok (false, with_pos p d, s') /\
      0 <= p <= 1 /\ dots_entries (with_pos p d) = r
  | Fail f => dir_emit_dots actor d s = Fail f
  end.
Proof.
  intros Hp. unfold dots_entries, dir_emit_dots.
  destruct (Z.eqb_spec (dd_pos d) 0) as [E0|]; [|destruct (Z.eqb_spec (dd_pos d) 1) as [E1|]].
  - assert (with_pos 0 d = d) as Ed by (rewrite <- E0; apply with_pos_same).
    rewrite E0. cbn [Z.leb Z.compare app emit]. unfold bindM, retM.
    destruct (actor _ s) as [[[|] s1]|f]; [|exists 0; by rewrite Ed, E0|done].
    cbn. destruct (actor _ s1) as [[[|] s2]|f]; [done|by exists 1|done].
  - assert (with_pos 1 d = d) as Ed by (rewrite <- E1; apply with_pos_same).
    rewrite E1. change (1 <=? 1) with true. cbn [app emit]. unfold bindM, retM. rewrite E1. cbn [Z.eqb Pos.eqb].
    destruct (actor _ s) as [[[|] s1]|f]; [done|exists 1; by rewrite Ed, E1|done].
  - destruct (Z.leb_spec (dd_pos d) 1); [lia|]. cbn [app emit]. unfold bindM, retM.
    destruct (Z.eqb_spec (dd_pos d) 1); [lia|]. rewrite Z.max_r by lia. by rewrite with_pos_same.
Qed.

Lemma kids_emits {S} (actor : entry -> M S bool) d s :
  2 <= dd_pos d ->
  match emit actor (kids d) s with
  | Ok (r, s') => exists d',
      bindM (if dd_pos d =? 2 then readdir_loop actor [] [] (dd_before d ++ dd_after d) 2
             else readdir_loop actor (dd_before d) [] (dd_after d) (dd_pos d))
        (fun '(passed, ahead, pos) =>
           if pos =? dd_pos d then retM d
           else retM (DcacheDir passed ahead pos (dd_ino d) (dd_parent_ino d) (dd_dead d))) s
        = Ok (d', s') /\
      2 <= dd_pos d' /\ kids d' = r /\ dd_dead d' = dd_dead d
  | Fail f =>
      bindM (if dd_pos d =? 2 then readdir_loop actor [] [] (dd_before d ++ dd_after d) 2
             else readdir_loop actor (dd_before d) [] (dd_after d) (dd_pos d))
        (fun '(passed, ahead, pos) =>
           if pos =? dd_pos d then retM d
           else retM (DcacheDir passed ahead pos (dd_ino d) (dd_parent_ino d) (dd_dead d))) s = Fail f
  end.
Proof.
  intros Hp. unfold kids at 1.
  assert (exists passed0 l, (if dd_pos d <=? 2 then child_entries 2 (dd_before d ++ dd_after d)
      else child_entries (dd_pos d) (dd_after d)) = child_entries (dd_pos d) l /\
    (if dd_pos d =? 2 then readdir_loop actor [] [] (dd_before d ++ dd_after d) 2
     else readdir_loop actor (dd_before d) [] (dd_after d) (dd_pos d)) =
    readdir_loop actor passed0 [] l (dd_pos d)) as (passed0 & l & El & ->).
  { destruct (Z.leb_spec (dd_pos d) 2), (Z.eqb_spec (dd_pos d) 2) as [E|]; try lia.
    - rewrite E. by exists [], (dd_before d ++ dd_after d).
    - by exists (dd_before d), (dd_after d). }
  rewrite El. pose proof (readdir_loop_emits actor l passed0 [] (dd_pos d) s ltac:(constructor)) as Hlp.
  destruct (emit actor _ s) as [[r s']|f]; [|by unfold bindM; rewrite Hlp].
  destruct Hlp as (p' & a' & pos' & E & Hr & Hle & Hsame). rewrite (bindM_ok _ _ _ _ _ E).
  destruct (Z.eqb_spec pos' (dd_pos d)) as [Heq|Hne]; eexists; (split; [reflexivity|]).
  - split; [done|]. split; [|done]. unfold kids. by rewrite El, Hsame.
  - cbn [dd_pos dd_dead]. split; [lia|]. split; [|done]. unfold kids. cbn [dd_pos dd_after].
    by destruct (Z.leb_spec pos' 2); [lia|].
Qed.

Lemma dcache_readdir_emits {S} (actor : entry -> M S bool) (d : dcache_dir) (s : S) :
  0 <= dd_pos d ->
  match emit actor (dots_entries d ++ kids d) s with
  | Ok (r, s') => exists d', iterate_shared actor d s = Ok (d', s') /\
      0 <= dd_pos d' /\ dots_entries d' ++ kids d' = r /\ is_deaddir d' = is_deaddir d
  | Fail f => iterate_shared actor d s = Fail f
  end.
Proof.
  intros Hp. rewrite emit_app. cbn [iterate_shared dcache_dir_ops].
  unfold dcache_readdir. pose proof (dots_emits actor d s Hp) as Hd.
  destruct (emit actor (dots_entries d) s) as [[[|e r] s1]|f]; [| |by unfold bindM; rewrite Hd].
  - rewrite (bindM_ok _ _ _ _ _ Hd). cbv beta iota zeta.
    pose proof (kids_emits actor (with_pos (Z.max 2 (dd_pos d)) d) s1 ltac:(cbn; lia)) as Hk.
    assert (kids (with_pos (Z.max 2 (dd_pos d)) d) = kids d) as Ek.
    { unfold kids, with_pos. cbn [dd_pos dd_before dd_after].
      destruct (Z.leb_spec (dd_pos d) 2), (Z.leb_spec (Z.max 2 (dd_pos d)) 2); try lia; [done|].
      by rewrite Z.max_r by lia. }
    rewrite Ek in Hk. destruct (emit actor (kids d) s1) as [[r s']|f]; [|exact Hk].
    destruct Hk as (d' & E & Hp' & Hk' & Hdd). exists d'. split; [exact E|]. split; [lia|].
    split; [|exact Hdd]. unfold dots_entries.
    destruct (Z.eqb_spec (dd_pos d') 0), (Z.leb_spec (dd_pos d') 1); try lia. exact Hk'.
  - destruct Hd as (p & E & Hpp & Hr). rewrite (bindM_ok _ _ _ _ _ E). cbv beta iota.
    eexists. split; [reflexivity|]. cbn [dd_pos with_pos is_deaddir dcache_dir_ops dd_dead].
    split; [lia|]. split; [|done]. rewrite Hr. f_equal. unfold kids. cbn [dd_pos with_pos dd_before dd_after].
    assert (dd_pos d <= 1) as Hd1.
    { revert Hr. unfold dots_entries. cbn [with_pos dd_pos].
      destruct (Z.leb_spec (dd_pos d) 1); [done|]. intros _. revert E.
      unfold dir_emit_dots. destruct (Z.eqb_spec (dd_pos d) 0); [lia|].
      unfold bindM, retM. destruct (Z.eqb_spec (dd_pos d) 1); [lia|]. intros [=]. }
    by destruct (Z.leb_spec (dd_pos d) 2), (Z.leb_spec p 2); try lia.
Qed.

#[export] Instance dcache_dir_laws : DirLaws dcache_dir := {
  dir_wf d := 0 <= dd_pos d;
  dir_rest d := dots_entries d ++ kids d;
  iterate_emits S := dcache_readdir_emits
}.
