(* ===== verification/Stat.v ===== *)
(** * Stat

    fstat on its way through the system: the kernel's struct stat
    (fs/stat.c), the parser of the addon (src/node_lkl.cc), the Stats objects
    of lib/fs.js, and the conversion of times. *)

From S2P Require Import Prelude Memory.

(** ** The kernel side *)

Record timespec := Timespec { tv_sec : Z; tv_nsec : Z }.

(** struct kstat; the identifiers are already in the user namespace. *)
Record kstat := Kstat {
  k_ino : Z; k_dev : Z; k_mode : Z; k_nlink : Z; k_uid : Z; k_gid : Z; k_rdev : Z; k_size : Z;
  k_atime : timespec; k_mtime : timespec; k_ctime : timespec; k_blksize : Z; k_blocks : Z
}.

Definition MINORBITS : Z := 20.
Definition MAJOR (dev : Z) : Z := Z.shiftr dev MINORBITS.
Definition MINOR (dev : Z) : Z := Z.land dev (Z.shiftl 1 MINORBITS - 1).

Definition new_encode_dev (dev : Z) : Z :=
  let major := MAJOR dev in
  let minor := MINOR dev in
  u32 (Z.lor (Z.lor (Z.land minor 255) (Z.shiftl major 8))
             (Z.shiftl (Z.land minor (Z.lnot 255)) 12)).

(** The fields of struct stat with their sizes, in the order of memory, and
    what cp_new_stat puts in them; the padding is zeroed. *)
Definition stat_fields (s : kstat) : list (nat * Z) :=
  [ (8%nat, new_encode_dev (k_dev s)); (8%nat, k_ino s);
    (4%nat, k_mode s); (4%nat, k_nlink s); (4%nat, k_uid s); (4%nat, k_gid s);
    (8%nat, new_encode_dev (k_rdev s)); (8%nat, 0);
    (8%nat, k_size s); (4%nat, k_blksize s); (4%nat, 0); (8%nat, k_blocks s);
    (8%nat, tv_sec (k_atime s)); (8%nat, tv_nsec (k_atime s));
    (8%nat, tv_sec (k_mtime s)); (8%nat, tv_nsec (k_mtime s));
    (8%nat, tv_sec (k_ctime s)); (8%nat, tv_nsec (k_ctime s));
    (4%nat, 0); (4%nat, 0) ].

Fixpoint encode (fields : list (nat * Z)) : list Z :=
  match fields with
  | [] => []
  | (n, v) :: fs => le_bytes n v ++ encode fs
  end.

(** cp_new_stat: -EOVERFLOW for a link count that does not fit, otherwise the
    structure is copied out. *)
Definition EOVERFLOW : Z := 75.

Definition cp_new_stat (s : kstat) (statbuf : Z) (m : mem) : option (Z * mem) :=
  if negb (u32 (k_nlink s) =? k_nlink s) then Some (- EOVERFLOW, m)
  else m' ← store_bytes statbuf (encode (stat_fields s)) m; Some (0, m').

(** ** The addon side *)

Definition STRUCT_LKL_STAT_SIZE : Z := 128.

Definition castInt32 (x : Z) : Z := s32 x.
Definition castUint32 (x : Z) : Z := u32 x.

(** The double nearest to an integer, a tie going to the even significand: [e]
    is the weight of the last of its 53 bits.  The doubles here are far from
    the overflow threshold. *)
Definition to_double (x : Z) : Z :=
  let a := Z.abs x in
  let e := Z.max 0 (Z.log2 a - 52) in
  let q := a / 2 ^ e in
  let r := a mod 2 ^ e in
  let up := (2 ^ e <? 2 * r) || ((2 ^ e =? 2 * r) && Z.odd q) in
  Z.sgn x * ((if up then q + 1 else q) * 2 ^ e).

(** The product and the sum of doubles are rounded too. *)
Definition timespecToMilliseconds (seconds nanoseconds : Z) : Z :=
  to_double (to_double (to_double seconds * 1000) + to_double (Z.quot nanoseconds 1000000)).

(** [new Date(ms)]: the time value, [None] for an invalid date. *)
Definition new_Date (ms : Z) : option Z := if Z.abs ms <=? 8640000000000000 then Some ms else None.

(** fs.Stats; the times are Date objects. *)
Record Stats := MkStats {
  dev : Z; mode : Z; nlink : Z; uid : Z; gid : Z; rdev : Z; blksize : Z; ino : Z; size : Z;
  blocks : Z; atime : option Z; mtime : option Z; ctime : option Z; birthtime : option Z
}.

Definition fs_Stats (dev mode nlink uid gid rdev blksize ino size blocks
    atim_msec mtim_msec ctim_msec birthtim_msec : Z) : Stats :=
  MkStats dev mode nlink uid gid rdev blksize ino size blocks
    (new_Date atim_msec) (new_Date mtim_msec) (new_Date ctim_msec) (new_Date birthtim_msec).

(** Fields of the structure at [p]. *)
Definition field (n : nat) (off p : Z) (m : mem) : option Z := load n (p + off) m.
Definition long_field (off p : Z) (m : mem) : option Z := s64 <$> load 8 (p + off) m.

Definition parseLklStat (p : Z) (m : mem) : option Stats :=
  sec ← long_field 104 p m; nsec ← long_field 112 p m;
  let ctim_msec := timespecToMilliseconds sec nsec in
  d ← field 8 0 p m; md ← field 4 16 p m; nl ← field 4 20 p m;
  u ← field 4 24 p m; g ← field 4 28 p m; rd ← field 8 32 p m;
  bs ← field 4 56 p m; i ← field 8 8 p m; sz ← long_field 48 p m; bl ← long_field 64 p m;
  asec ← long_field 72 p m; ansec ← long_field 80 p m;
  msec ← long_field 88 p m; mnsec ← long_field 96 p m;
  Some (fs_Stats (castInt32 d) (castInt32 md) (castInt32 nl) (castUint32 u) (castUint32 g)
    (castInt32 rd) (castInt32 bs) (castUint32 i) (castUint32 sz) (castUint32 bl)
    (timespecToMilliseconds asec ansec) (timespecToMilliseconds msec mnsec) ctim_msec ctim_msec).

(** ** lib/fs.js *)

Definition S_IFMT : Z := 61440.
Definition S_IFSOCK : Z := 49152.
Definition S_IFLNK : Z := 40960.
Definition S_IFREG : Z := 32768.
Definition S_IFBLK : Z := 24576.
Definition S_IFDIR : Z := 16384.
Definition S_IFCHR : Z := 8192.
Definition S_IFIFO : Z := 4096.

Definition checkModeProperty (st : Stats) (property : Z) : bool :=
  Z.land (mode st) S_IFMT =? property.

Definition isDirectory (st : Stats) : bool := checkModeProperty st S_IFDIR.
Definition isFile (st : Stats) : bool := checkModeProperty st S_IFREG.
Definition isBlockDevice (st : Stats) : bool := checkModeProperty st S_IFBLK.
Definition isCharacterDevice (st : Stats) : bool := checkModeProperty st S_IFCHR.
Definition isSymbolicLink (st : Stats) : bool := checkModeProperty st S_IFLNK.
Definition isFIFO (st : Stats) : bool := checkModeProperty st S_IFIFO.
Definition isSocket (st : Stats) : bool := checkModeProperty st S_IFSOCK.

(** ** Setting the clock *)

(** millisecondsToTimespec: the bytes of the struct timespec. *)
Definition millisecondsToTimespec (milliseconds : Z) : list Z :=
  le_bytes 8 (Z.quot milliseconds 1000) ++ le_bytes 8 (Z.rem milliseconds 1000 * 1000000).

(** ** Lemmas *)

Lemma length_encode fs : length (encode fs) = list_sum (map fst fs).
Proof.
  induction fs as [|[n v] fs IH]; cbn [encode map list_sum fst]; [done|].
  by rewrite length_app, length_le_bytes, IH.
Qed.

Lemma encode_app fs1 fs2 : encode (fs1 ++ fs2) = encode fs1 ++ encode fs2.
Proof.
  induction fs1 as [|[n v] fs1 IH]; cbn [encode app]; [done|]. by rewrite IH, app_assoc.
Qed.

Lemma load_le n a m : load n a m = le_value <$> load_bytes n a m.
Proof.
  revert a. induction n as [|n IH]; intros a; [done|].
  unfold load, load_bytes; fold load load_bytes. destruct (m !! a) as [b|]; [|done].
  rewrite IH. destruct (load_bytes n (a + 1) m); [|done]. cbn [fmap option_fmap option_map le_value].
  f_equal. unfold u8. by rewrite Z.mod_mod by lia.
Qed.

Lemma le_value_u8 bs : le_value (map u8 bs) = le_value bs.
Proof.
  induction bs as [|b bs IH]; cbn [map le_value]; [done|]. rewrite IH. unfold u8.
  by rewrite Z.mod_mod by lia.
Qed.

(** Reading back the field that starts after [pre]. *)
Lemma load_encoded p pre n v post m m' :
  store_bytes p (encode (pre ++ (n, v) :: post)) m = Some m' ->
  load n (p + Z.of_nat (list_sum (map fst pre))) m' = Some (v mod 256 ^ Z.of_nat n).
Proof.
  rewrite encode_app, store_bytes_app. cbn [encode]. rewrite length_encode.
  destruct (store_bytes p _ m) as [m1|]; [|done]. cbn [mbind option_bind].
  set (a := p + _). rewrite store_bytes_app, length_le_bytes.
  destruct (store_bytes a (le_bytes n v) m1) as [m2|] eqn:E2; [|done]. cbn [mbind option_bind].
  intros E3. pose proof (store_bytes_frame _ _ _ _ E3) as F3. rewrite load_le.
  rewrite (load_bytes_frame _ _ _ _ _ F3) by (unfold range; lia).
  pose proof (load_store_bytes _ _ _ _ E2) as E4. rewrite length_le_bytes in E4. rewrite E4.
  cbn [fmap option_fmap option_map]. by rewrite le_value_u8, le_value_bytes.
Qed.

(** A kstat whose fields are in the ranges of their types. *)
Record kstat_ok (s : kstat) : Prop := {
  ok_ino : 0 <= k_ino s < 2 ^ 64;
  ok_mode : 0 <= k_mode s < 2 ^ 16;
  ok_nlink : 0 <= k_nlink s < 2 ^ 32;
  ok_uid : 0 <= k_uid s < 2 ^ 32;
  ok_gid : 0 <= k_gid s < 2 ^ 32;
  ok_size : 0 <= k_size s < 2 ^ 63;
  ok_blksize : 0 <= k_blksize s < 2 ^ 31;
  ok_blocks : 0 <= k_blocks s < 2 ^ 63;
  ok_times : Forall (fun t => - 2 ^ 63 <= tv_sec t < 2 ^ 63 /\ 0 <= tv_nsec t < 1000000000)
    [k_atime s; k_mtime s; k_ctime s]
}.

Definition milliseconds (t : timespec) : Z := tv_sec t * 1000 + tv_nsec t / 1000000.

Lemma s64_mod v : s64 (v mod 256 ^ Z.of_nat 8) = s64 v.
Proof. change (256 ^ Z.of_nat 8) with 18446744073709551616. unfold s64, u64. by rewrite Z.mod_mod by lia. Qed.

Lemma to_double_opp x : to_double (- x) = - to_double x.
Proof. unfold to_double. rewrite Z.abs_opp, Z.sgn_opp. cbv zeta. lia. Qed.

Lemma to_double_small x : Z.abs x < 2 ^ 53 -> to_double x = x.
Proof.
  intros Hx. unfold to_double. replace (Z.max 0 (Z.log2 (Z.abs x) - 52)) with 0.
  - rewrite Z.pow_0_r, Z.mod_1_r, Z.div_1_r. simpl. lia.
  - destruct (Z.eq_dec (Z.abs x) 0) as [->|Hn]; [done|].
    pose proof (proj1 (Z.log2_lt_pow2 (Z.abs x) 53 ltac:(lia)) Hx). lia.
Qed.

Lemma to_double_large x : 2 ^ 53 <= x -> 2 ^ 53 <= to_double x.
Proof.
  intros Hx. unfold to_double. rewrite Z.abs_eq, Z.sgn_pos by lia. cbv zeta.
  assert (53 <= Z.log2 x) as Hl by (apply Z.log2_le_pow2; lia).
  set (e := Z.max 0 (Z.log2 x - 52)). assert (e = Z.log2 x - 52) as He by lia.
  assert (2 ^ 52 * 2 ^ e <= x) as Hq.
  { rewrite <- Z.pow_add_r by lia. replace (52 + e) with (Z.log2 x) by lia.
    apply Z.log2_spec. lia. }
  assert (0 < 2 ^ e) by (apply Z.pow_pos_nonneg; lia).
  assert (2 ^ 52 <= x / 2 ^ e) by (apply Z.div_le_lower_bound; lia).
  assert (2 ^ 1 <= 2 ^ e) by (apply Z.pow_le_mono_r; lia).
  change (2 ^ 53) with (2 ^ 52 * 2 ^ 1). rewrite Z.mul_1_l. destruct (_ || _); nia.
Qed.

(** Rounding does not go below an integer that is a double. *)
Lemma to_double_above n x : n < 2 ^ 53 -> 0 <= n <= x -> n <= to_double x.
Proof.
  intros Hn Hx. destruct (Z.lt_ge_cases x (2 ^ 53)); [rewrite to_double_small; lia|].
  pose proof (to_double_large x ltac:(done)). lia.
Qed.

Lemma to_double_below n x : n < 2 ^ 53 -> 0 <= n -> x <= - n -> to_double x <= - n.
Proof.
  intros Hn H0 Hx. rewrite <- (Z.opp_involutive x), to_double_opp.
  pose proof (to_double_above n (- x) Hn). lia.
Qed.

Lemma new_Date_invalid ms : 8640000000000000 < Z.abs ms -> new_Date ms = None.
Proof. intros. unfold new_Date. by rewrite (proj2 (Z.leb_gt _ _)). Qed.

(** A time whose milliseconds were rounded is past the range of a Date. *)
Lemma timespec_date t :
  - 2 ^ 63 <= tv_sec t < 2 ^ 63 -> 0 <= tv_nsec t < 1000000000 ->
  new_Date (timespecToMilliseconds (s64 (tv_sec t)) (s64 (tv_nsec t))) = new_Date (milliseconds t).
Proof.
  intros Hs Hn. change (2 ^ 63) with 9223372036854775808 in Hs. rewrite !s64_id by lia.
  unfold timespecToMilliseconds, milliseconds. rewrite Z.quot_div_nonneg by lia.
  assert (0 <= tv_nsec t / 1000000 < 1000) as Hms by lia.
  rewrite (to_double_small (tv_nsec t / 1000000)) by lia.
  destruct (Z.lt_ge_cases (Z.abs (tv_sec t)) 9007199254740) as [Hin|Hout].
  { rewrite (to_double_small (tv_sec t)), (to_double_small (tv_sec t * 1000)) by lia.
    by rewrite to_double_small by lia. }
  symmetry. rewrite !new_Date_invalid; [done| |lia]. destruct (Z.lt_ge_cases 0 (tv_sec t)).
  - pose proof (to_double_above 9007199254740 (tv_sec t)).
    pose proof (to_double_above 9007199254740000 (to_double (tv_sec t) * 1000)).
    pose proof (to_double_above 9007199254740000
      (to_double (to_double (tv_sec t) * 1000) + tv_nsec t / 1000000)). lia.
  - pose proof (to_double_below 9007199254740 (tv_sec t)).
    pose proof (to_double_below 9007199254740000 (to_double (tv_sec t) * 1000)).
    pose proof (to_double_below 9007199254739000
      (to_double (to_double (tv_sec t) * 1000) + tv_nsec t / 1000000)). lia.
Qed.

Lemma new_encode_dev_range d : 0 <= new_encode_dev d < 4294967296.
Proof. unfold new_encode_dev. cbv zeta. apply u32_range. Qed.

(** Field number [i] of the structure the kernel wrote. *)
Lemma stat_field s p m m' i n v off :
  store_bytes p (encode (stat_fields s)) m = Some m' -> stat_fields s !! i = Some (n, v) ->
  off = Z.of_nat (list_sum (map fst (take i (stat_fields s)))) ->
  load n (p + off) m' = Some (v mod 256 ^ Z.of_nat n).
Proof.
  intros E Hi ->. rewrite <- (take_drop_middle _ _ _ Hi) in E. by apply load_encoded in E.
Qed.

Lemma long_stat_field s p m m' i v off :
  store_bytes p (encode (stat_fields s)) m = Some m' -> stat_fields s !! i = Some (8%nat, v) ->
  off = Z.of_nat (list_sum (map fst (take i (stat_fields s)))) ->
  long_field off p m' = Some (s64 v).
Proof.
  intros E Hi Ho. unfold long_field. rewrite (stat_field _ _ _ _ _ _ _ _ E Hi Ho).
  cbn [fmap option_fmap option_map]. by rewrite s64_mod.
Qed.

(** The next field the parser reads: number [i], at [off]. *)
Ltac get_field E i off :=
  first [ rewrite (long_stat_field _ _ _ _ i _ off E eq_refl eq_refl)
        | rewrite (stat_field _ _ _ _ i _ _ off E eq_refl eq_refl) ];
  cbn [mbind option_bind].

(** What cp_new_stat writes, parseLklStat reads. *)
Lemma parse_cp_new_stat s p m :
  kstat_ok s -> mapped m p STRUCT_LKL_STAT_SIZE ->
  exists m', cp_new_stat s p m = Some (0, m') /\ frame (range p STRUCT_LKL_STAT_SIZE) m m' /\
    parseLklStat p m' = Some (MkStats
      (s32 (new_encode_dev (k_dev s))) (k_mode s) (s32 (k_nlink s)) (k_uid s) (k_gid s)
      (s32 (new_encode_dev (k_rdev s))) (k_blksize s)
      (k_ino s mod 2 ^ 32) (k_size s mod 2 ^ 32) (k_blocks s mod 2 ^ 32)
      (new_Date (milliseconds (k_atime s))) (new_Date (milliseconds (k_mtime s)))
      (new_Date (milliseconds (k_ctime s))) (new_Date (milliseconds (k_ctime s)))).
Proof.
  intros Hok Hm. unfold cp_new_stat.
  destruct Hok as [Hino Hmode Hnl Hu Hg Hsz Hbs Hbl Ht].
  change (2 ^ 64) with 18446744073709551616 in *. change (2 ^ 16) with 65536 in *.
  change (2 ^ 32) with 4294967296 in *. change (2 ^ 63) with 9223372036854775808 in *.
  change (2 ^ 31) with 2147483648 in *. rewrite u32_id, Z.eqb_refl by done. cbn [negb].
  destruct (store_bytes_some p (encode (stat_fields s)) m) as [m' E].
  { rewrite length_encode. exact Hm. }
  rewrite E. cbn [mbind option_bind]. exists m'. split; [done|]. split.
  { pose proof (store_bytes_frame _ _ _ _ E) as F. by rewrite length_encode in F. }
  rewrite !list.Forall_cons in Ht. destruct Ht as ((Ha & Ha') & (Hb & Hb') & (Hc & Hc') & _).
  unfold parseLklStat, field.
  get_field E 16%nat 104. get_field E 17%nat 112. get_field E 0%nat 0. get_field E 2%nat 16.
  get_field E 3%nat 20. get_field E 4%nat 24. get_field E 5%nat 28. get_field E 6%nat 32.
  get_field E 9%nat 56. get_field E 1%nat 8. get_field E 8%nat 48. get_field E 11%nat 64.
  get_field E 12%nat 72. get_field E 13%nat 80. get_field E 14%nat 88. get_field E 15%nat 96.
  change (256 ^ Z.of_nat 8) with 18446744073709551616. change (256 ^ Z.of_nat 4) with 4294967296.
  pose proof (new_encode_dev_range (k_dev s)). pose proof (new_encode_dev_range (k_rdev s)).
  unfold fs_Stats, castInt32, castUint32. rewrite !timespec_date by done. rewrite !Z.mod_small by lia.
  rewrite !s64_id by lia. rewrite (s32_id (k_mode s)), (s32_id (k_blksize s)) by lia.
  by rewrite (u32_id (k_uid s)), (u32_id (k_gid s)) by lia.
Qed.

(** C17: fstat.  What the kernel copies out of a kstat the addon parses into a Stats
    object with the same owner and mode, with the low 32 bits of the inode
    number, the size and the block count, and with Dates that are the kernel's
    times to the millisecond.  The times are computed in doubles, which is exact
    for every time a Date can hold; a time past 8.64e15 ms from the epoch is an
    invalid Date.  The birth time is the time of the last change. *)
Theorem fstat_roundtrip s p m :
  kstat_ok s -> mapped m p STRUCT_LKL_STAT_SIZE ->
  exists m', cp_new_stat s p m = Some (0, m') /\ frame (range p STRUCT_LKL_STAT_SIZE) m m' /\
    parseLklStat p m' = Some (MkStats
      (s32 (new_encode_dev (k_dev s))) (k_mode s) (s32 (k_nlink s)) (k_uid s) (k_gid s)
      (s32 (new_encode_dev (k_rdev s))) (k_blksize s)
      (k_ino s mod 2 ^ 32) (k_size s mod 2 ^ 32) (k_blocks s mod 2 ^ 32)
      (new_Date (milliseconds (k_atime s))) (new_Date (milliseconds (k_mtime s)))
      (new_Date (milliseconds (k_ctime s))) (new_Date (milliseconds (k_ctime s)))).
Proof. apply parse_cp_new_stat. Qed.

Definition stat0 : kstat :=
  Kstat 4294967303 8388609 33188 1 1000 1000 0 4294967296
    (Timespec 1500000000 123456789) (Timespec 9007199254740993 5) (Timespec (- 1) 1999999) 4096 8388608.

Lemma fstat_roundtrip_witness :
  exists m', cp_new_stat stat0 64 (put_bytes 64 (repeat 1 128) ∅) = Some (0, m') /\
    parseLklStat 64 m' = Some (MkStats 2049 33188 1 1000 1000 0 4096 7 0 8388608
      (Some 1500000000123) None (Some (- 999)) (Some (- 999))).
Proof.
  destruct (fstat_roundtrip stat0 64 (put_bytes 64 (repeat 1 128) ∅)) as (m' & E & _ & Hp).
  - constructor; [cbn; lia..|]. repeat apply list.Forall_cons_2; cbn; lia || constructor.
  - apply mapped_b_ok. by vm_compute.
  - exists m'. split; [exact E|]. exact Hp.
Defined.
