(* ===== verification/Readdir.v ===== *)
(** * Readdir

    lib/readdir.js: fs.readdir on top of openat, getdents64 and close, against
    a kernel that has the directory (fs/readdir.c). *)

From S2P Require Import Prelude Memory Js Dirent.

Definition O_DIRECTORY : Z := 65536.
Definition O_RDONLY : Z := 0.

Definition OPEN_OPTIONS : Z := Z.lor O_DIRECTORY O_RDONLY.
Definition BUFFER_SIZE : Z := 1024.

(** What the callback of readdir gets: an errno, one of the two errors of the
    file, what it threw itself, or the names (Buffers, or strings as sequences
    of characters). *)
Inductive readdir_result :=
| ErrnoError (e : Z)
| NOT_STRING_OR_BUFFER_ERROR
| INVALID_ENCODING_ERROR
| CallbackError
| Names (l : list (list Z)).

(** An encoding: 'buffer', or one with the toString of Buffers. *)
Inductive encoding := EncBuffer | EncString (toString : list Z -> list Z).

(** decodeArray; [None] is the exception. *)
Fixpoint decodeArray (arr : list (list Z)) (enc : encoding) : option (list (list Z)) :=
  match enc with
  | EncBuffer => Some arr
  | EncString toString =>
      match arr with
      | [] => Some []
      | b :: arr' =>
          match toString b with
          | [] => None
          | s => r ← decodeArray arr' enc; Some (s :: r)
          end
      end
  end.

Definition isStringOrBuffer (path : arg) : bool :=
  match path with ABuf _ | AStr _ => true | ANum _ => false end.

Section Readdir.
Context {C : Type} (junk : Z -> Z).

(** Whether the user's callback throws when it is called with these names. *)
Context (throws : list (list Z) -> bool).

Abbreviation handler := (js (heap C) readdir_result).

Definition parse_buffer (b : buffer) : M (heap C) (list (list Z)) :=
  fun h => match parseDirent64 (b_data b) (b_len b) (h_mem h) with
           | Ok l => Ok (l, h)
           | Fail e => Fail e
           end.

(** listdir calls itself once per getdents64 that returned entries; [fuel]
    bounds the number of calls. *)
Fixpoint listdir (fuel : nat) (fd : Z) (buf : buffer)
    (callback : option Z -> list (list Z) -> handler) (_result : list (list Z)) : handler :=
  match fuel with
  | O => Do (fun _ => Fail NoFuel)
  | S fuel' =>
      Push SYS_getdents64 [ANum fd; ABuf buf; ANum BUFFER_SIZE] (fun err nread =>
        match err with
        | Some e => callback (Some e) []
        | None =>
            if 0 <? nread then
              do* names := parse_buffer (buf_slice buf 0 nread) in
              listdir fuel' fd buf callback (_result ++ names)
            else callback None _result
        end) Done
  end.

(** readdir, and its three nested callbacks from the innermost out.  The [try]
    of the innermost one covers the call of the user's callback too, which is
    called again with the exception it threw. *)
Definition close_callback (enc : encoding) (err : option Z) (result : list (list Z))
    (closeErr : option Z) (_ : Z) : handler :=
  match (match err with Some _ => err | None => closeErr end) with
  | Some e => Callback (ErrnoError e) Done
  | None =>
      match decodeArray result enc with
      | Some r => Callback (Names r) (if throws r then Callback CallbackError Done else Done)
      | None => Callback INVALID_ENCODING_ERROR Done
      end
  end.

Definition list_callback (enc : encoding) (fd : Z) (err : option Z) (result : list (list Z)) : handler :=
  Push SYS_close [ANum fd] (close_callback enc err result) Done.

Definition open_callback (fuel : nat) (enc : encoding) (err : option Z) (fd : Z) : handler :=
  match err with
  | Some e => Callback (ErrnoError e) Done
  | None =>
      do* a := malloc junk BUFFER_SIZE in
      listdir fuel fd (Buffer a BUFFER_SIZE) (list_callback enc fd) []
  end.

Definition readdir (fuel : nat) (path : arg) (enc : encoding) : handler :=
  if negb (isStringOrBuffer path) then Callback NOT_STRING_OR_BUFFER_ERROR Done
  else
    Push SYS_openat [ANum AT_FDCWD; path; ANum OPEN_OPTIONS; ANum 0] (open_callback fuel enc) Done.

End Readdir.

(** ** The kernel's side of the contract

    [k_resolve] is the directory a path names, [k_dir] the directory behind an
    open descriptor.  openat can fail; getdents64 does what fs/readdir.c does. *)
Class DirKernel (K D : Type) `{Kernel K} `{DirLaws D} := {
  k_dir : K -> Z -> option D;
  k_resolve : K -> list Z -> option D;
  k_openat : forall k m p path d,
    Forall char_ok path -> Z.of_nat (length path) < LKL_PATH_MAX ->
    cstr_at m p path -> k_resolve k path = Some d ->
    exists fd k', lkl_syscall SYS_openat [AT_FDCWD; p; OPEN_OPTIONS; 0; 0; 0] k m = (fd, k', m) /\
      -4096 < fd < 2147483648 /\ (0 <= fd -> k_dir k' fd = Some d);
  k_getdents64 : forall k m fd d buf cnt ret d' m',
    k_dir k fd = Some d -> getdents64 false d buf cnt m = Ok (ret, d', m') ->
    exists k', lkl_syscall SYS_getdents64 [fd; buf; cnt; 0; 0; 0] k m = (ret, k', m') /\
      k_dir k' fd = Some d';
  k_close : forall k m fd d,
    k_dir k fd = Some d -> exists k', lkl_syscall SYS_close [fd; 0; 0; 0; 0; 0] k m = (0, k', m)
}.

(** What readdir hands to its callback for a directory, and the second call of
    a callback that throws. *)
Definition listing {D} `{DirLaws D} (throws : list (list Z) -> bool) (enc : encoding) (d : D)
  : list readdir_result :=
  match decodeArray (keep (dir_rest d)) enc with
  | Some r => Names r :: (if throws r then [CallbackError] else [])
  | None => [INVALID_ENCODING_ERROR]
  end.

Section Correct.
Context {C K D : Type} {kernel : Kernel K} {dops : DirOps D} {dlaws : DirLaws D}
  {dk : DirKernel K D} (junk : Z -> Z) (throws : list (list Z) -> bool).
Implicit Types s : mach C readdir_result K.

(** The loop of listdir: what [callback] gets in the end. *)
Lemma listdir_goes fuel fd a callback (d : D) result s P :
  dir_wf d -> is_deaddir d = false -> Forall (fun e => name_ok (e_name e)) (dir_rest d) ->
  0 <= fd < 2147483648 -> 0 < a -> (length (dir_rest d) < fuel)%nat ->
  mapped (h_mem (m_heap s)) a BUFFER_SIZE -> m_ticks s = [] -> m_queue s = [] ->
  k_dir (m_kernel s) fd = Some d ->
  (forall s1, is_Some (k_dir (m_kernel s1) fd) -> m_ticks s1 = [] -> m_queue s1 = [] ->
     m_out s1 = m_out s -> goes junk (callback None (result ++ keep (dir_rest d))) s1 P) ->
  goes junk (listdir fuel fd (Buffer a BUFFER_SIZE) callback result) s P.
Proof.
  revert d result s. induction fuel as [|fuel IH];
    intros d result s Hwf Hdead Hnames Hfd Ha Hfuel Hm Ht Hq Hk Hcb; [lia|].
  destruct (getdents64_ok d a BUFFER_SIZE (h_mem (m_heap s))) as
    (pre & ret & d' & m' & E & Hr & Hwf' & Hdead' & Hat & Hf & Hsz & Hret & Hret0 & Hprog);
    [done|done|done|done|unfold BUFFER_SIZE; lia|done|].
  destruct (k_getdents64 _ _ _ _ _ _ _ _ _ Hk E) as (k' & Ek & Hk').
  eapply goes_push; [done|done|apply (run_task_plain junk _ _ _ _ ret k' m')|];
    [repeat constructor|cbn [length]; lia| |].
  { cbn [map arg_val b_data]. change (s64 SYS_getdents64) with SYS_getdents64.
    change (s64 BUFFER_SIZE) with BUFFER_SIZE. rewrite s64_id by lia. exact Ek. }
  assert (Forall (fun e => name_ok (e_name e)) pre /\ Forall (fun e => name_ok (e_name e)) (dir_rest d'))
    as [Hpre Hrest] by (rewrite Hr in Hnames; by apply Forall_app in Hnames).
  unfold syscall_callback. destruct pre as [|e pre].
  - assert (dir_rest d = []) as Hnil by (apply Hprog; [unfold BUFFER_SIZE; lia|done]).
    rewrite Hnil in Hcb, Hret0. rewrite Hret0 by done.
    change (keep []) with (@nil (list Z)) in Hcb. rewrite app_nil_r in Hcb. change (s32 0) with 0. cbn [Z.ltb Z.compare].
    apply Hcb; cbn [m_kernel m_ticks m_queue m_out]; [by rewrite Hk'|done|done|done].
  - specialize (Hret ltac:(done)). set (es := e :: pre) in *. pose proof (size_nonneg es).
    assert (0 < size es) as Hpos.
    { unfold es. cbn [size]. inversion Hpre; subst. pose proof (name_ok_reclen e ltac:(done)).
      pose proof (size_nonneg pre). lia. }
    rewrite Hret in *. unfold BUFFER_SIZE in Hsz. rewrite s32_id by lia.
    destruct (Z.ltb_spec (size es) 0); [lia|]. destruct (Z.ltb_spec 0 (size es)); [|lia].
    eapply goes_bind.
    { unfold parse_buffer. rewrite buf_slice_in by (cbn [b_len]; unfold BUFFER_SIZE; lia).
      cbn [b_data b_len m_heap h_mem]. rewrite Z.add_0_r, Z.sub_0_r.
      rewrite (parse_dirents _ _ es) by (done || lia). reflexivity. }
    cbn [m_kernel m_ticks m_queue m_out].
    apply (IH d'); cbn [m_kernel m_ticks m_queue m_out m_heap h_mem]; try done.
    + rewrite Hr, length_app in Hfuel. unfold es in Hfuel. cbn [length] in Hfuel. lia.
    + by eapply mapped_frame.
    + intros s1 Hs1 Ht1 Hq1 Ho1. rewrite <- app_assoc, <- keep_app, <- Hr. by apply Hcb.
Qed.

Lemma list_callback_goes enc fd (d : D) s P :
  0 <= fd < 2147483648 -> is_Some (k_dir (m_kernel s) fd) -> m_ticks s = [] -> m_queue s = [] ->
  (forall s1, m_queue s1 = [] -> m_out s1 = m_out s ++ listing throws enc d -> P s1) ->
  goes junk (list_callback throws enc fd None (keep (dir_rest d))) s P.
Proof.
  intros Hfd [d' Hd] Ht Hq HP. destruct (k_close _ (h_mem (m_heap s)) _ _ Hd) as [k' Ek].
  eapply goes_push; [done|done|apply (run_task_plain junk _ _ _ _ 0 k' (h_mem (m_heap s)))|];
    [by repeat constructor|cbn [length]; lia| |].
  { cbn [map arg_val]. rewrite (s64_id fd) by lia. exact Ek. }
  change (s32 0) with 0. unfold syscall_callback, close_callback. cbn [Z.ltb Z.compare].
  unfold listing in HP. destruct (decodeArray _ enc) as [r|]; [|apply goes_callback; try done; by apply HP].
  destruct (throws r); [apply goes_callback_twice|apply goes_callback]; try done; by apply HP.
Qed.

Lemma open_callback_goes enc fd (d : D) fuel s P :
  heap_wf (m_heap s) -> dir_wf d -> is_deaddir d = false ->
  Forall (fun e => name_ok (e_name e)) (dir_rest d) -> (length (dir_rest d) < fuel)%nat ->
  0 <= fd < 2147483648 -> k_dir (m_kernel s) fd = Some d -> m_ticks s = [] -> m_queue s = [] ->
  (forall s1, m_queue s1 = [] -> m_out s1 = m_out s ++ listing throws enc d -> P s1) ->
  goes junk (open_callback junk throws fuel enc None fd) s P.
Proof.
  intros Hh Hwf Hdead Hnames Hfuel Hfd Hd Ht Hq HP. unfold open_callback.
  destruct (alloc_ok (junk_bytes junk BUFFER_SIZE) BUFFER_SIZE (m_heap s))
    as (h' & E & _ & _ & _ & Hm & _); [unfold BUFFER_SIZE; lia|done|intros; apply length_junk|].
  eapply goes_bind; [exact E|]. destruct Hh as [Hpos _].
  apply (listdir_goes _ _ _ _ d); cbn [m_heap m_kernel m_ticks m_queue m_out]; try done.
  intros s1 Hs1 Ht1 Hq1 Ho1. apply list_callback_goes; try done.
  intros s2 Hq2 Ho2. apply HP; [done|]. by rewrite Ho2, Ho1.
Qed.

(** C14: fs.readdir on a directory.  When openat succeeds, the callback is called
    exactly once, with the names of all the entries the file system has, in its
    order, without the dots, and decoded; when openat fails, it is called once
    with the errno.  No step faults, and everything readdir started finishes.
    Only a callback that throws on the names is called again, with what it
    threw. *)
Theorem readdir_lists path (d : D) enc s fuel :
  k_resolve (m_kernel s) path = Some d ->
  dir_wf d -> is_deaddir d = false -> Forall (fun e => name_ok (e_name e)) (dir_rest d) ->
  Forall char_ok path -> Z.of_nat (length path) < LKL_PATH_MAX ->
  heap_wf (m_heap s) -> m_ticks s = [] -> m_queue s = [] ->
  (length (dir_rest d) < fuel)%nat ->
  let p := h_next (m_heap s) in
  exists m fd k' s' final n,
    cstr_at m p path /\
    lkl_syscall SYS_openat [AT_FDCWD; p; OPEN_OPTIONS; 0; 0; 0] (m_kernel s) m = (fd, k', m) /\
    turn (readdir junk throws fuel (AStr path) enc) s = Ok s' /\
    (forall rounds, (n <= rounds)%nat -> loop junk rounds s' = Ok final) /\
    m_queue final = [] /\
    m_out final = m_out s ++ (if fd <? 0 then [ErrnoError (- fd)] else listing throws enc d).
Proof.
  intros Hres Hwf Hdead Hnames Hpath Hlen Hh Ht Hq Hfuel p.
  destruct (run_task_path junk SYS_openat (ANum AT_FDCWD) path [ANum OPEN_OPTIONS; ANum 0]
    (open_callback junk throws fuel enc) s) as (m & Hc & Htask);
    [done|by repeat constructor|cbn [length]; lia|done|done|done|].
  destruct (k_openat _ _ _ _ _ Hpath Hlen Hc Hres) as (fd & k' & Ek & Hfd & Hd).
  destruct (goes_loop junk (readdir junk throws fuel (AStr path) enc) s (fun final => m_queue final = [] /\
    m_out final = m_out s ++ (if fd <? 0 then [ErrnoError (- fd)] else listing throws enc d)))
    as (s' & final & Es & [Hq' Ho'] & n & Hn).
  { eapply goes_push; [done|done|apply (Htask fd k' Ek)|]. rewrite s32_id by lia.
    unfold syscall_callback. destruct (Z.ltb_spec fd 0); [by apply goes_callback|].
    apply (open_callback_goes _ _ d); cbn [m_heap m_kernel m_ticks m_queue m_out]; try done; [|lia|].
    - destruct Hh as [Hp Hn]. unfold LKL_PATH_MAX, alloc_gap. split; cbn [h_next h_mem]; [lia|].
      intros i Hi. apply Hn. lia.
    - apply Hd. lia. }
  by exists m, fd, k', s', final, n.
Qed.

End Correct.

(** ** A kernel with one in-memory file system *)

Module ReaddirDemo.

Record kst := Kst { ks_tree : list (list Z * dcache_dir); ks_fds : gmap Z dcache_dir }.

Definition find_path (path : list Z) (t : list (list Z * dcache_dir)) : option dcache_dir :=
  snd <$> find (fun e => bool_decide (fst e = path)) t.

Definition EMFILE : Z := 24.
Definition EBADF : Z := 9.
Definition EFAULT : Z := 14.

Definition sys_openat (p : Z) (k : kst) (m : mem) : Z * kst * mem :=
  match user_path p m with
  | None => (- EFAULT, k, m)
  | Some path =>
      match find_path path (ks_tree k), unused_fd (ks_fds k) with
      | Some d, Some fd => (fd, Kst (ks_tree k) (<[fd := d]> (ks_fds k)), m)
      | Some _, None => (- EMFILE, k, m)
      | None, _ => (- ENOENT, k, m)
      end
  end.

Definition sys_getdents64 (fd buf cnt : Z) (k : kst) (m : mem) : Z * kst * mem :=
  match ks_fds k !! fd with
  | None => (- EBADF, k, m)
  | Some d =>
      match getdents64 false d buf cnt m with
      | Ok (r, d', m') => (r, Kst (ks_tree k) (<[fd := d']> (ks_fds k)), m')
      | Fail _ => (- EFAULT, k, m)
      end
  end.

Definition sys_close (fd : Z) (k : kst) (m : mem) : Z * kst * mem :=
  match ks_fds k !! fd with
  | None => (- EBADF, k, m)
  | Some _ => (0, Kst (ks_tree k) (delete fd (ks_fds k)), m)
  end.

#[export] Instance kst_kernel : Kernel kst := fun no params k m =>
  match params with
  | [a; b; c; _; _; _] =>
      if no =? SYS_openat then sys_openat b k m
      else if no =? SYS_getdents64 then sys_getdents64 a b c k m
      else if no =? SYS_close then sys_close a k m
      else (- ENOSYS, k, m)
  | _ => (- ENOSYS, k, m)
  end.

Lemma sys_openat_path k m p path :
  Forall char_ok path -> Z.of_nat (length path) < LKL_PATH_MAX -> cstr_at m p path ->
  sys_openat p k m =
    match find_path path (ks_tree k), unused_fd (ks_fds k) with
    | Some d, Some fd => (fd, Kst (ks_tree k) (<[fd := d]> (ks_fds k)), m)
    | Some _, None => (- EMFILE, k, m)
    | None, _ => (- ENOENT, k, m)
    end.
Proof.
  intros Hp Hl Hc. unfold sys_openat. by rewrite (user_path_ok _ path).
Qed.

#[export, refine] Instance kst_dir : DirKernel kst dcache_dir := {
  k_dir k fd := ks_fds k !! fd;
  k_resolve k path := find_path path (ks_tree k)
}.
Proof.
  - intros k m p path d Hp Hl Hc Hr. change (lkl_syscall SYS_openat _ k m) with (sys_openat p k m).
    rewrite (sys_openat_path _ _ _ path Hp Hl Hc), Hr.
    destruct (unused_fd (ks_fds k)) as [fd|] eqn:E; do 2 eexists; (split; [reflexivity|]).
    + apply unused_fd_range in E. split; [lia|]. intros _. cbn [ks_fds]. by rewrite lookup_insert_eq.
    + split; [by unfold EMFILE|]. intros H. by unfold EMFILE in H.
  - intros k m fd d buf cnt ret d' m' Hd E. change (lkl_syscall SYS_getdents64 _ k m) with (sys_getdents64 fd buf cnt k m).
    unfold sys_getdents64. rewrite Hd, E. eexists. split; [reflexivity|]. cbn [ks_fds]. by rewrite lookup_insert_eq.
  - intros k m fd d Hd. change (lkl_syscall SYS_close _ k m) with (sys_close fd k m).
    unfold sys_close. rewrite Hd. by eexists.
Defined.

(** /d with the entries a, (one deleted), and b.c. *)
Definition d0 : dcache_dir :=
  DcacheDir [] [Dentry [97] 11 33188 true; Dentry [120] 12 33188 false; Dentry [98; 46; 99] 13 16877 true]
    0 10 2 false.

Definition k0 : kst := Kst [([47; 100], d0)] ∅.

Definition s0 : mach unit readdir_result kst := Mach (Heap ∅ 4096 tt) k0 [] [] [].

End ReaddirDemo.
Import ReaddirDemo.

Lemma readdir_lists_witness :
  exists s' final n,
    turn (readdir (fun _ => 0) (fun _ => false) 8 (AStr [47; 100]) EncBuffer) s0 = Ok s' /\
    (forall rounds, (n <= rounds)%nat -> loop (fun _ => 0) rounds s' = Ok final) /\
    m_out final = [Names [[97]; [98; 46; 99]]].
Proof.
  destruct (readdir_lists (fun _ => 0) (fun _ => false) [47; 100] d0 EncBuffer s0 8)
    as (m & fd & k' & s' & final & n & Hc & Ek & Es & Hn & _ & Ho).
  - reflexivity.
  - cbn. lia.
  - reflexivity.
  - vm_compute. repeat constructor; discriminate.
  - repeat constructor.
  - reflexivity.
  - split; [reflexivity|]. intros i _. apply lookup_empty.
  - reflexivity.
  - reflexivity.
  - vm_compute. lia.
  - exists s', final, n. split; [exact Es|]. split; [exact Hn|]. rewrite Ho.
    assert (fd = 0) as ->; [|reflexivity].
    change (sys_openat 4096 k0 m = (fd, k', m)) in Ek.
    rewrite (sys_openat_path _ _ _ [47; 100]) in Ek; [|by repeat constructor|done|exact Hc].
    by vm_compute in Ek; simplify_eq.
Defined.
