(* ===== verification/FsOps.v ===== *)
(** * FsOps

    The operations of lib/fs.js that make a single system call, with the
    functions of lib/binding.js under them: access, chmod, open, close, read,
    write, mkdir, rmdir, unlink and clock_settime, and truncate, whose second
    call does not exist.  Paths are strings or Buffers. *)

From Stdlib Require Import Strings.Ascii Strings.String.
From S2P Require Import Prelude Memory Js Stat.

(** lib/constants.js. *)
Definition SYS_mkdirat : Z := 34.
Definition SYS_unlinkat : Z := 35.
Definition SYS_clock_settime : Z := 112.
Definition SYS_chmod : Z := 1028.
Definition SYS_access : Z := 1033.
Definition AT_REMOVEDIR : Z := 0x200.
Definition CLOCK_REALTIME : Z := 0.

(** ** Flags (lib/internal/fs.js)

    The file takes them from the host's node; these are the values of a Linux
    host, which are also those of the kernel. *)

Definition O_APPEND : Z := 1024.
Definition O_CREAT : Z := 64.
Definition O_EXCL : Z := 128.
Definition O_RDONLY : Z := 0.
Definition O_RDWR : Z := 2.
Definition O_SYNC : Z := 1052672.
Definition O_TRUNC : Z := 512.
Definition O_WRONLY : Z := 1.

Definition lors (l : list Z) : Z := fold_left Z.lor l 0.

(** A flag: a string, or a number that goes to the system call as it is. *)
Inductive jsflag := FStr (s : string) | FNum (n : Z).
Coercion FStr : string >-> jsflag.
Bind Scope string_scope with jsflag.

(** [flag || def]. *)
Definition flag_or (flag def : jsflag) : jsflag :=
  match flag with FStr EmptyString => def | FNum n => if n =? 0 then def else flag | _ => flag end.

(** stringToFlags; [None] is the exception for an unknown flag. *)
Definition stringToFlags (flag : jsflag) : option Z :=
  match flag with FNum n => Some n | FStr flag =>
  let flag_is s := String.eqb flag s in
  if flag_is "r"%string then Some O_RDONLY
  else if flag_is "rs"%string || flag_is "sr"%string then Some (lors [O_RDONLY; O_SYNC])
  else if flag_is "r+"%string then Some O_RDWR
  else if flag_is "rs+"%string || flag_is "sr+"%string then Some (lors [O_RDWR; O_SYNC])
  else if flag_is "w"%string then Some (lors [O_TRUNC; O_CREAT; O_WRONLY])
  else if flag_is "wx"%string || flag_is "xw"%string then Some (lors [O_TRUNC; O_CREAT; O_WRONLY; O_EXCL])
  else if flag_is "w+"%string then Some (lors [O_TRUNC; O_CREAT; O_RDWR])
  else if flag_is "wx+"%string || flag_is "xw+"%string then Some (lors [O_TRUNC; O_CREAT; O_RDWR; O_EXCL])
  else if flag_is "a"%string then Some (lors [O_APPEND; O_CREAT; O_WRONLY])
  else if flag_is "ax"%string || flag_is "xa"%string then Some (lors [O_APPEND; O_CREAT; O_WRONLY; O_EXCL])
  else if flag_is "a+"%string then Some (lors [O_APPEND; O_CREAT; O_RDWR])
  else if flag_is "ax+"%string || flag_is "xa+"%string then Some (lors [O_APPEND; O_CREAT; O_RDWR; O_EXCL])
  else None
  end.

(** ** Modes *)

(** A mode argument: a number, a string, or something else (undefined, a
    callback in its place). *)
Inductive jsmode := MNum (n : Z) | MStr (s : string) | MOther.

Definition is_space (c : ascii) : bool :=
  let n := nat_of_ascii c in (Nat.leb 9 n && Nat.leb n 13) || Nat.eqb n 32.

Fixpoint skip_space (s : string) : string :=
  match s with
  | String c s' => if is_space c then skip_space s' else s
  | EmptyString => s
  end.

Definition octal_digit (c : ascii) : option Z :=
  let n := Z.of_nat (nat_of_ascii c) - 48 in
  if (0 <=? n) && (n <=? 7) then Some n else None.

(** The number the leading octal digits spell. *)
Fixpoint octal (acc : option Z) (s : string) : option Z :=
  match s with
  | String c s' =>
      match octal_digit c with
      | Some d => octal (Some (8 * default 0 acc + d)) s'
      | None => acc
      end
  | EmptyString => acc
  end.

(** parseInt(s, 8) of an ASCII string; [None] is NaN. *)
Definition parseInt8 (s : string) : option Z :=
  match skip_space s with
  | String "-" s' => Z.opp <$> octal None s'
  | String "+" s' => octal None s'
  | s' => octal None s'
  end.

(** [None] is undefined or NaN. *)
Definition modeNum (m : jsmode) (def : option Z) : option Z :=
  match m with
  | MNum n => Some n
  | MStr s => parseInt8 s
  | MOther => match def with Some d => if d =? 0 then None else Some d | None => None end
  end.

(** A number as an argument of a native method: undefined and NaN become 0. *)
Definition num_arg (n : option Z) : arg := ANum (default 0 n).

(** ** Paths *)

(** A number, a string (its UTF-8 bytes), or a Buffer. *)
Inductive jspath := PNum (n : Z) | PStr (s : list Z) | PBuf (b : buffer).

(** (path >>> 0) === path *)
Definition isFd (path : jspath) : bool :=
  match path with PNum n => u32 n =? n | _ => false end.

Inductive jserr := Errno (e : Z) | NullBytes | FileTooLarge | ToStringError.

Section Ops.
Context {C R : Type}.
Abbreviation handler := (js (heap C) R).

(** An exception nothing catches. *)
Definition throw : handler := Do (fun _ => Fail Panicked).

(** What native code reads from memory. *)
Definition on_mem {A} (f : mem -> option A) : M (heap C) A :=
  fun h => match f (h_mem h) with Some a => Ok (a, h) | None => Fail Segv end.

(** The test of nullCheck; a byte of a Buffer is NUL exactly when its text has
    a NUL there. *)
Definition has_nul (path : jspath) : M (heap C) bool :=
  match path with
  | PNum _ => retM false
  | PStr s => retM (existsb (Z.eqb 0) s)
  | PBuf b => let* bs := read_bytes (b_len b) (b_data b) in retM (existsb (Z.eqb 0) bs)
  end.

(** nullCheck, with the rest of the caller. *)
Definition nullCheck (path : jspath) (callback : option jserr -> Z -> handler) (rest : handler)
  : handler :=
  do* nul := has_nul path in
  if nul : bool then Tick (callback (Some NullBytes) 0) Done else rest.

(** The callbacks of system calls, with the errno as an error. *)
Definition with_errno (callback : option jserr -> Z -> handler) (err : option Z) (ret : Z) : handler :=
  callback (Errno <$> err) ret.

(** ** lib/binding.js *)

(** The structure is parsed, and the callback called, also after an error. *)
Definition binding_fstat (fd : Z) (callback : option jserr -> option Stats -> handler) : handler :=
  do* a := calloc STRUCT_LKL_STAT_SIZE in
  Push SYS_fstat [ANum fd; ABuf (Buffer a STRUCT_LKL_STAT_SIZE)] (fun err _ =>
    seq_js (match err with Some e => callback (Some (Errno e)) None | None => Done end)
      (do* st := on_mem (parseLklStat a) in callback None (Some st))) Done.

(** [position] is [None] when it is not a number. *)
Definition binding_read (fd : Z) (b : buffer) (offset length : Z) (position : option Z)
    (callback : option jserr -> Z -> handler) : handler :=
  let slice := buf_slice b offset (offset + length) in
  match position with
  | Some p =>
      if negb (p =? -1)
      then Push SYS_pread64 [ANum fd; ABuf slice; ANum (b_len slice); ANum p] (with_errno callback) Done
      else Push SYS_read [ANum fd; ABuf slice; ANum (b_len slice)] (with_errno callback) Done
  | None => Push SYS_read [ANum fd; ABuf slice; ANum (b_len slice)] (with_errno callback) Done
  end.

Definition binding_writeBuffer (fd : Z) (b : buffer) (offset length : Z) (position : option Z)
    (callback : option jserr -> Z -> handler) : handler :=
  let slice := buf_slice b offset (offset + length) in
  match position with
  | Some p =>
      if negb (p =? -1)
      then Push SYS_pwrite64 [ANum fd; ABuf slice; ANum (b_len slice); ANum p] (with_errno callback) Done
      else Push SYS_write [ANum fd; ABuf slice; ANum (b_len slice)] (with_errno callback) Done
  | None => Push SYS_write [ANum fd; ABuf slice; ANum (b_len slice)] (with_errno callback) Done
  end.

Definition binding_close (fd : Z) (callback : option jserr -> Z -> handler) : handler :=
  Push SYS_close [ANum fd] (with_errno callback) Done.

Section Paths.
Context (junk : Z -> Z).

(** A Buffer is copied to one that ends in NUL. *)
Definition addNullTerminationIfNeeded (s : jspath) : M (heap C) arg :=
  match s with
  | PNum n => retM (ANum n)
  | PStr s => retM (AStr s)
  | PBuf b =>
      let* nullTerminated := malloc junk (b_len b + 1) in
      let* bs := read_bytes (b_len b) (b_data b) in
      write_bytes nullTerminated bs ;;;
      write_bytes (nullTerminated + b_len b) [0] ;;;
      retM (ABuf (Buffer nullTerminated (b_len b + 1)))
  end.

Definition binding_access (path : jspath) (mode : option Z) (callback : option jserr -> Z -> handler)
  : handler :=
  do* p := addNullTerminationIfNeeded path in
  Push SYS_access [p; num_arg mode] (with_errno callback) Done.

Definition binding_chmod (path : jspath) (mode : option Z) (callback : option jserr -> Z -> handler)
  : handler :=
  do* p := addNullTerminationIfNeeded path in
  Push SYS_chmod [p; num_arg mode] (with_errno callback) Done.

Definition binding_mkdir (path : jspath) (mode : option Z) (callback : option jserr -> Z -> handler)
  : handler :=
  do* p := addNullTerminationIfNeeded path in
  Push SYS_mkdirat [ANum AT_FDCWD; p; num_arg mode] (with_errno callback) Done.

Definition binding_open (path : jspath) (flags : Z) (mode : option Z)
    (callback : option jserr -> Z -> handler) : handler :=
  do* p := addNullTerminationIfNeeded path in
  Push SYS_openat [ANum AT_FDCWD; p; ANum flags; num_arg mode] (with_errno callback) Done.

Definition binding_rmdir (path : jspath) (callback : option jserr -> Z -> handler) : handler :=
  do* p := addNullTerminationIfNeeded path in
  Push SYS_unlinkat [ANum AT_FDCWD; p; ANum AT_REMOVEDIR] (with_errno callback) Done.

Definition binding_unlink (path : jspath) (callback : option jserr -> Z -> handler) : handler :=
  do* p := addNullTerminationIfNeeded path in
  Push SYS_unlinkat [ANum AT_FDCWD; p; ANum 0] (with_errno callback) Done.

(** [milliseconds] is date.getTime(). *)
Definition binding_clock_settime (milliseconds : Z) (callback : option jserr -> Z -> handler) : handler :=
  do* timespec := malloc junk 16 in
  do* _ := write_bytes timespec (millisecondsToTimespec milliseconds) in
  Push SYS_clock_settime [ANum CLOCK_REALTIME; ABuf (Buffer timespec 16)] (with_errno callback) Done.

(** ** lib/fs.js *)

(** [mode] is [None] when the callback is in its place: F_OK, which is 0. *)
Definition fs_access (path : jspath) (mode : option Z) (callback : option jserr -> Z -> handler)
  : handler :=
  nullCheck path callback (binding_access path (Some (s32 (default 0 mode))) callback).

Definition fs_chmod (path : jspath) (mode : jsmode) (callback : option jserr -> Z -> handler) : handler :=
  nullCheck path callback (binding_chmod path (modeNum mode None) callback).

Definition fs_mkdir (path : jspath) (mode : jsmode) (callback : option jserr -> Z -> handler) : handler :=
  nullCheck path callback (binding_mkdir path (modeNum mode (Some 0x1ff)) callback).

Definition fs_rmdir (path : jspath) (callback : option jserr -> Z -> handler) : handler :=
  nullCheck path callback (binding_rmdir path callback).

Definition fs_unlink (path : jspath) (callback : option jserr -> Z -> handler) : handler :=
  nullCheck path callback (binding_unlink path callback).

Definition fs_open (path : jspath) (flags : jsflag) (mode : jsmode)
    (callback : option jserr -> Z -> handler) : handler :=
  let mode := modeNum mode (Some 438) in
  nullCheck path callback
    match stringToFlags flags with
    | None => throw
    | Some fl => binding_open path fl mode callback
    end.

(** binding.ftruncate is one of the functions that only throw. *)
Definition binding_ftruncate : handler := throw.

(** fs.truncate of a path. *)
Definition fs_truncate (path : jspath) (callback : option jserr -> handler) : handler :=
  fs_open path "r+" MOther (fun er _ =>
    match er with
    | Some _ => callback er
    | None => binding_ftruncate
    end).

End Paths.

Definition fs_close (fd : Z) (callback : option jserr -> handler) : handler :=
  binding_close fd (fun err _ => callback err).

(** fs.read into a Buffer; the callback gets the error and the number of bytes. *)
Definition fs_read (fd : Z) (b : buffer) (offset length : Z) (position : option Z)
    (callback : option jserr -> Z -> handler) : handler :=
  if length =? 0 then Tick (callback None 0) Done
  else binding_read fd b offset length position callback.

(** fs.write of a Buffer; an argument that is not a number is [None]. *)
Definition fs_write (fd : Z) (b : buffer) (offset length position : option Z)
    (callback : option jserr -> Z -> handler) : handler :=
  let offset := default 0 offset in
  let length := default (b_len b - offset) length in
  binding_writeBuffer fd b offset length position callback.

End Ops.

(** ** Lemmas *)

Lemma no_nul name : Forall char_ok name -> existsb (Z.eqb 0) name = false.
Proof.
  intros H. apply not_true_is_false. rewrite existsb_exists. intros (b & Hb & E).
  apply Z.eqb_eq in E. subst b. rewrite List.Forall_forall in H. specialize (H _ Hb). by destruct H.
Qed.

Section Goes.
Context {C R K : Type} {kernel : Kernel K} (junk : Z -> Z).
Implicit Types s : mach C R K.
Abbreviation handler := (js (heap C) R).

Lemma nullCheck_str name (cb : option jserr -> Z -> handler) rest s P :
  Forall char_ok name -> goes junk rest s P -> goes junk (nullCheck (PStr name) cb rest) s P.
Proof. intros Hn H. unfold nullCheck, has_nul. apply goes_ret. by rewrite no_nul. Qed.

(** The path names [name]: a string, or a Buffer with those bytes. *)
Definition names (path : jspath) (name : list Z) (h : heap C) : Prop :=
  match path with
  | PNum _ => False
  | PStr s => s = name /\ Z.of_nat (length name) < LKL_PATH_MAX
  | PBuf b => b_len b = Z.of_nat (length name) /\
              load_bytes (length name) (b_data b) (h_mem h) = Some name
  end.

Lemma has_nul_names path name (h : heap C) :
  names path name h -> has_nul path h = Ok (existsb (Z.eqb 0) name, h).
Proof.
  destruct path as [n|s|b]; cbn [names has_nul]; [done|by intros [-> _]|].
  intros [-> Hld]. unfold bindM, read_bytes. by rewrite Nat2Z.id, Hld.
Qed.

Lemma load_bytes_mapped n a bs m : load_bytes n a m = Some bs -> mapped m a (Z.of_nat n).
Proof.
  revert a bs. induction n as [|n IH]; intros a bs; [unfold mapped, range; simpl; lia|].
  unfold load_bytes; fold load_bytes. rewrite mapped_cons. destruct (m !! a) eqn:E; [|done].
  destruct (load_bytes n (a + 1) m) eqn:E'; [|done]. intros _. split; [eauto|by eapply IH].
Qed.

(** A Buffer path is copied, with a NUL, to memory of its own. *)
Lemma addNull_buffer b name (h : heap C) :
  names (PBuf b) name h -> Forall char_ok name -> heap_wf h ->
  exists m, addNullTerminationIfNeeded junk (PBuf b) h =
      Ok (ABuf (Buffer (h_next h) (b_len b + 1)), Heap m (h_next h + (b_len b + 1) + alloc_gap) (h_ctx h)) /\
    cstr_at m (h_next h) name /\ (forall i, i < h_next h -> m !! i = h_mem h !! i).
Proof.
  intros [Hl Hld] Hn Hwf. cbn [addNullTerminationIfNeeded]. unfold malloc.
  destruct (alloc_ok (junk_bytes junk (b_len b + 1)) (b_len b + 1) h) as (h1 & E & _ & Hc & Hx & Hm & Ho);
    [lia|done|intros; apply length_junk|].
  rewrite (bindM_ok _ _ _ _ _ E). rewrite Hl in *.
  assert (load_bytes (length name) (b_data b) (h_mem h1) = Some name) as Hld1.
  { rewrite <- Hld. apply load_bytes_ext. intros i Hi. apply Ho. intros Hr.
    apply load_bytes_mapped in Hld. destruct (Hld i Hi) as [x Hx']. destruct Hwf as [_ Hwf].
    rewrite Hwf in Hx'; [done|]. unfold range in Hr. lia. }
  destruct (store_bytes_cstr (h_next h) name (h_mem h1) Hn Hm) as (m1 & m2 & E1 & E2 & Hc2 & [F _]).
  unfold bindM, retM, read_bytes, write_bytes. rewrite Nat2Z.id, Hld1, E1. cbn [h_mem h_next h_ctx].
  rewrite E2, Hc, Hx. exists m2. split_and!; [done..|]. intros i Hi.
  rewrite F by (unfold range; lia). apply Ho. unfold range. lia.
Qed.

(** A call with a path, whatever the kernel does: it finds the name at an
    address of its own and every other byte as it was. *)
Lemma path_call no pre post path name (cb : option jserr -> Z -> handler) s :
  names path name (m_heap s) -> Forall char_ok name -> heap_wf (m_heap s) ->
  m_ticks s = [] -> m_queue s = [] ->
  Forall plain pre -> Forall plain post -> (length pre + length post <= 5)%nat ->
  exists p m, cstr_at m p name /\ (forall i, i < h_next (m_heap s) -> m !! i = h_mem (m_heap s) !! i) /\
    forall r k' m',
      lkl_syscall (s64 no) (pad (map arg_val pre ++ p :: map arg_val post)) (m_kernel s) m = (r, k', m') ->
      exists s1 h',
        turn (do* a := addNullTerminationIfNeeded junk path in
              Push no (pre ++ a :: post) (with_errno cb) Done) s = Ok s1 /\
        mach_step junk s1 =
          Some (turn (syscall_callback (s32 r) (with_errno cb)) (Mach h' k' [] [] (m_out s))) /\
        (forall i, i < h_next (m_heap s) -> h_mem h' !! i = m' !! i).
Proof.
  intros Hnm Hn Hwf Ht Hq Hpre Hpost Hl. destruct path as [n|str|b]; [done| |].
  - destruct Hnm as [-> Hlen]. destruct s as [h k ts q o]. cbn in Ht, Hq. subst ts q.
    destruct (run_task_str junk no pre name post (with_errno cb) (Mach h k [] [] o))
      as (m & Hc & Ho & Hrun); [done..|].
    exists (h_next h), m. split; [exact Hc|]. split.
    { intros i Hi. apply Ho. unfold range. cbn in Hi |- *. lia. }
    intros r k' m' Hk. do 2 eexists. split; [reflexivity|]. split.
    { unfold mach_step. cbn [m_ticks m_queue app]. f_equal. exact (Hrun r k' m' Hk). }
    intros i Hi. cbn [h_mem]. rewrite unmap_lookup. case_decide; [unfold range in *; cbn in *; lia|done].
  - destruct (addNull_buffer b name (m_heap s) Hnm Hn Hwf) as (m & E & Hc & Ho).
    exists (h_next (m_heap s)), m. split; [exact Hc|]. split; [exact Ho|].
    intros r k' m' Hk. destruct s as [h k ts q o]. cbn in Ht, Hq. subst ts q. do 2 eexists.
    split; [cbn [turn Bind m_heap] in *; rewrite E; reflexivity|]. split.
    { unfold mach_step. cbn [m_ticks m_queue app m_heap m_kernel m_out]. f_equal.
      rewrite (run_task_plain junk no _ _ _ r k' m'); [reflexivity|..].
      - apply Forall_app. split; [done|by constructor].
      - rewrite length_app. cbn [length]. lia.
      - rewrite map_app. exact Hk. }
    done.
Qed.

(** What the callback of a system call gets. *)
Definition outcome (tag : option jserr -> Z -> R) (r : Z) : R :=
  if s32 r <? 0 then tag (Some (Errno (- s32 r))) 0 else tag None (s32 r).

Lemma callback_outcome (tag : option jserr -> Z -> R) r s :
  turn (syscall_callback (s32 r) (with_errno (fun err n => Callback (tag err n) Done))) s =
  Ok (Mach (m_heap s) (m_kernel s) (m_ticks s) (m_queue s) (m_out s ++ [outcome tag r])).
Proof. unfold syscall_callback, with_errno, outcome. by destruct (s32 r <? 0). Qed.

Lemma loop_two s s1 rounds :
  mach_step junk s = Some (Ok s1) -> mach_step junk s1 = None -> (2 <= rounds)%nat ->
  loop junk rounds s = Ok s1.
Proof.
  intros E1 E2 Hr. destruct rounds as [|[|rounds]]; [lia..|]. cbn [loop]. by rewrite E1, E2.
Qed.

End Goes.

(** ** The operations on a path *)

Inductive path_op :=
| Access (mode : option Z)
| Chmod (mode : jsmode)
| Mkdir (mode : jsmode)
| Rmdir
| Unlink
| Open (flags : jsflag) (mode : jsmode).

Definition fs_op {C R} (junk : Z -> Z) (op : path_op) (path : jspath)
    (callback : option jserr -> Z -> js (heap C) R) : js (heap C) R :=
  match op with
  | Access mode => fs_access junk path mode callback
  | Chmod mode => fs_chmod junk path mode callback
  | Mkdir mode => fs_mkdir junk path mode callback
  | Rmdir => fs_rmdir junk path callback
  | Unlink => fs_unlink junk path callback
  | Open flags mode => fs_open junk path flags mode callback
  end.

(** The system call an operation stands for: its number and the parameters
    before and after the path.  A flag string nobody knows has none. *)
Definition op_call (op : path_op) : option (Z * list Z * list Z) :=
  match op with
  | Access mode => Some (SYS_access, [], [s32 (default 0 mode)])
  | Chmod mode => Some (SYS_chmod, [], [s64 (default 0 (modeNum mode None))])
  | Mkdir mode => Some (SYS_mkdirat, [AT_FDCWD], [s64 (default 0 (modeNum mode (Some 0x1ff)))])
  | Rmdir => Some (SYS_unlinkat, [AT_FDCWD], [AT_REMOVEDIR])
  | Unlink => Some (SYS_unlinkat, [AT_FDCWD], [0])
  | Open flags mode =>
      fl ← stringToFlags flags;
      Some (SYS_openat, [AT_FDCWD], [s64 fl; s64 (default 0 (modeNum mode (Some 438)))])
  end.

Lemma s64_s32 x : s64 (s32 x) = s32 x.
Proof. apply s64_id. pose proof (s32_range x). lia. Qed.

(** Every operation is nullCheck and then one queued call. *)
Lemma fs_op_shape {C R} junk op path (cb : option jserr -> Z -> js (heap C) R) no pre post :
  op_call op = Some (no, pre, post) ->
  exists apre apost, Forall plain apre /\ Forall plain apost /\ (length apre + length apost <= 5)%nat /\
    s64 no = no /\ map arg_val apre = pre /\ map arg_val apost = post /\
    fs_op junk op path cb =
      nullCheck path cb (do* a := addNullTerminationIfNeeded junk path in
                         Push no (apre ++ a :: apost) (with_errno cb) Done).
Proof.
  destruct op as [mode|mode|mode| | |flags mode]; cbn [op_call]; [intros [= <- <- <-]..|].
  - exists [], [num_arg (Some (s32 (default 0 mode)))]. split_and!; try by repeat constructor.
    unfold num_arg. cbn [map arg_val from_option id]. by rewrite s64_s32.
  - exists [], [num_arg (modeNum mode None)]. split_and!; by repeat constructor.
  - exists [ANum AT_FDCWD], [num_arg (modeNum mode (Some 0x1ff))]. split_and!; by repeat constructor.
  - exists [ANum AT_FDCWD], [ANum AT_REMOVEDIR]. split_and!; by repeat constructor.
  - exists [ANum AT_FDCWD], [ANum 0]. split_and!; by repeat constructor.
  - destruct (stringToFlags flags) as [fl|] eqn:E; [|done]. intros [= <- <- <-].
    exists [ANum AT_FDCWD], [ANum fl; num_arg (modeNum mode (Some 438))].
    split_and!; try by repeat constructor. cbn [fs_op]. unfold fs_open. by rewrite E.
Qed.

(** ** Reading and writing through a descriptor *)

Inductive io_op :=
| Read (offset length : Z) (position : option Z)
| Write (offset length position : option Z).

Definition fs_io {C R} (io : io_op) (fd : Z) (b : buffer) (callback : option jserr -> Z -> js (heap C) R)
  : js (heap C) R :=
  match io with
  | Read offset length position => fs_read fd b offset length position callback
  | Write offset length position => fs_write fd b offset length position callback
  end.

(** The part of the Buffer that is meant: offset and length. *)
Definition io_range (io : io_op) (b : buffer) : Z * Z :=
  match io with
  | Read offset length _ => (offset, length)
  | Write offset length _ => (default 0 offset, default (b_len b - default 0 offset) length)
  end.

(** The number of the system call, and its parameters after the length. *)
Definition io_call (io : io_op) : Z * list Z :=
  match io with
  | Read _ _ (Some p) => if p =? -1 then (SYS_read, []) else (SYS_pread64, [s64 p])
  | Read _ _ None => (SYS_read, [])
  | Write _ _ (Some p) => if p =? -1 then (SYS_write, []) else (SYS_pwrite64, [s64 p])
  | Write _ _ None => (SYS_write, [])
  end.

Lemma slice_inside b from to :
  0 <= b_len b -> b_data b <= b_data (buf_slice b from to) /\ 0 <= b_len (buf_slice b from to) /\
  b_data (buf_slice b from to) + b_len (buf_slice b from to) <= b_data b + b_len b.
Proof.
  intros Hl. unfold buf_slice, adjust_index. cbn [b_data b_len].
  destruct (from <? 0) eqn:E1, (to <? 0) eqn:E2; lia.
Qed.

(** What clock_settime finds in the structure. *)
Lemma timespec_stored p ms m m' :
  0 <= ms < 2 ^ 53 -> store_bytes p (millisecondsToTimespec ms) m = Some m' ->
  load 8 p m' = Some (ms / 1000) /\ load 8 (p + 8) m' = Some (ms mod 1000 * 1000000).
Proof.
  intros Hms E. change (2 ^ 53) with 9007199254740992 in Hms.
  set (fields := [(8%nat, Z.quot ms 1000); (8%nat, Z.rem ms 1000 * 1000000)]).
  assert (millisecondsToTimespec ms = encode fields) as Ef.
  { unfold millisecondsToTimespec. cbn [encode fields]. by rewrite app_nil_r. }
  rewrite Ef in E.
  pose proof (load_encoded p [] 8 _ _ m m' E) as H1.
  pose proof (load_encoded p [(8%nat, Z.quot ms 1000)] 8 _ [] m m' E) as H2.
  cbn [map fst list_sum foldr Nat.add] in H1, H2. rewrite Z.add_0_r in H1. change (Z.of_nat 8) with 8 in *.
  change (256 ^ 8) with 18446744073709551616 in *.
  rewrite Z.quot_div_nonneg in H1 by lia. rewrite Z.rem_mod_nonneg in H2 by lia.
  rewrite H1, H2. split; f_equal; apply Z.mod_small; lia.
Qed.

(** One queued call on a slice of the Buffer. *)
Lemma fs_io_shape {C R} io fd b (cb : option jserr -> Z -> js (heap C) R) :
  (forall offset position, io <> Read offset 0 position) ->
  let sl := buf_slice b (fst (io_range io b)) (fst (io_range io b) + snd (io_range io b)) in
  exists post, Forall plain post /\ (length post <= 1)%nat /\
    s64 (fst (io_call io)) = fst (io_call io) /\ map arg_val post = snd (io_call io) /\
    fs_io io fd b cb =
      Push (fst (io_call io)) (ANum fd :: ABuf sl :: ANum (b_len sl) :: post) (with_errno cb) Done.
Proof.
  intros Hz. destruct io as [off len pos|off len pos]; cbn [fs_io io_range io_call fst snd].
  - unfold fs_read. destruct (Z.eqb_spec len 0) as [->|_]; [by destruct (Hz off pos)|].
    unfold binding_read. destruct pos as [p|]; [destruct (Z.eqb_spec p (-1))|]; cbn [negb fst snd];
      [exists []|exists [ANum p]|exists []]; split_and!; by repeat constructor.
  - unfold fs_write, binding_writeBuffer. destruct pos as [p|]; [destruct (Z.eqb_spec p (-1))|]; cbn [negb fst snd];
      [exists []|exists [ANum p]|exists []]; split_and!; by repeat constructor.
Qed.

Section Correct.
Context {C R K : Type} {kernel : Kernel K} (junk : Z -> Z).
Implicit Types s : mach C R K.

(** C13: access, chmod, mkdir, rmdir, unlink and open.  Each makes exactly one
    system call, with the number and the parameters of [op_call], whatever the
    kernel answers: at the path parameter the kernel finds the name as a C
    string, whether it was given as a string or as a Buffer without its NUL,
    and the rest of memory as the program left it.  The callback is called
    once, with the errno or the result; nothing stays queued. *)
Theorem path_op_one_call op path name s (tag : option jserr -> Z -> R) no pre post :
  op_call op = Some (no, pre, post) -> names path name (m_heap s) -> Forall char_ok name ->
  heap_wf (m_heap s) -> m_ticks s = [] -> m_queue s = [] ->
  exists p m r k' m' s' final,
    cstr_at m p name /\
    (forall i, i < h_next (m_heap s) -> m !! i = h_mem (m_heap s) !! i) /\
    lkl_syscall no (pad (pre ++ p :: post)) (m_kernel s) m = (r, k', m') /\
    turn (fs_op junk op path (fun err n => Callback (tag err n) Done)) s = Ok s' /\
    (forall rounds, (2 <= rounds)%nat -> loop junk rounds s' = Ok final) /\
    m_kernel final = k' /\ m_out final = m_out s ++ [outcome tag r] /\
    m_ticks final = [] /\ m_queue final = [] /\
    (forall i, i < h_next (m_heap s) -> h_mem (m_heap final) !! i = m' !! i).
Proof.
  intros Hop Hnm Hn Hwf Ht Hq. set (cb := fun err n => Callback (tag err n) Done).
  destruct (fs_op_shape junk op path cb no pre post Hop)
    as (apre & apost & Hp1 & Hp2 & Hl & Hno & <- & <- & ->).
  destruct (path_call junk no apre apost path name cb s Hnm Hn Hwf Ht Hq Hp1 Hp2 Hl)
    as (p & m & Hc & Hm & Hcall). rewrite Hno in Hcall.
  destruct (lkl_syscall no _ (m_kernel s) m) as [[r k'] m'] eqn:Ek.
  destruct (Hcall r k' m' eq_refl) as (s1 & h' & Et & Es & Hh').
  exists p, m, r, k', m', s1, (Mach h' k' [] [] (m_out s ++ [outcome tag r])).
  split_and!; try done.
  - unfold nullCheck. cbn [turn Bind]. rewrite (has_nul_names _ _ _ Hnm), no_nul by done. by destruct s.
  - intros rounds Hr. eapply loop_two; [|done|done]. rewrite Es. f_equal.
    exact (callback_outcome tag r (Mach h' k' [] [] (m_out s))).
Qed.

(** A path with a NUL byte in it, string or Buffer, never reaches the
    kernel: on the next tick the callback is called once, with the error. *)
Theorem path_op_nul op path name s (tag : option jserr -> Z -> R) :
  names path name (m_heap s) -> 0 ∈ name -> m_ticks s = [] -> m_queue s = [] ->
  exists s',
    turn (fs_op junk op path (fun err n => Callback (tag err n) Done)) s = Ok s' /\
    m_out s' = m_out s /\
    (forall rounds, (2 <= rounds)%nat ->
       loop junk rounds s' =
       Ok (Mach (m_heap s) (m_kernel s) [] [] (m_out s ++ [tag (Some NullBytes) 0]))).
Proof.
  intros Hnm Hz Ht Hq.
  assert (existsb (Z.eqb 0) name = true) as Hnul.
  { apply existsb_exists. exists 0. split; [by apply list_elem_of_In|done]. }
  destruct s as [h k ts q o]. cbn in Ht, Hq, Hnm. subst ts q.
  exists (Mach h k [Callback (tag (Some NullBytes) 0) Done] [] o).
  split_and!; [|done|intros rounds Hr; eapply loop_two; done].
  assert (forall rest, turn (nullCheck path (fun err n => Callback (tag err n) Done) rest) (Mach h k [] [] o)
    = Ok (Mach h k [Callback (tag (Some NullBytes) 0) Done] [] o)) as H.
  { intros rest. unfold nullCheck. cbn [turn Bind m_heap]. by rewrite (has_nul_names _ _ _ Hnm), Hnul. }
  destruct op; apply H.
Qed.

(** fs.truncate of a file that opens: the callback of the open throws, so the
    program dies (or, when it catches the exception, its callback is never
    called and the descriptor stays open). *)
Theorem truncate_throws path name s (cb : option jserr -> js (heap C) R) :
  names path name (m_heap s) -> Forall char_ok name ->
  heap_wf (m_heap s) -> m_ticks s = [] -> m_queue s = [] ->
  exists p m r k' m' s',
    cstr_at m p name /\
    lkl_syscall SYS_openat [AT_FDCWD; p; O_RDWR; 438; 0; 0] (m_kernel s) m = (r, k', m') /\
    turn (fs_truncate junk path cb) s = Ok s' /\
    (0 <= s32 r -> forall rounds, (1 <= rounds)%nat -> loop junk rounds s' = Fail Panicked).
Proof.
  intros Hnm Hn Hwf Ht Hq. unfold fs_truncate. match goal with |- context [fs_open _ _ _ _ ?f] => set (k := f) end.
  destruct (fs_op_shape junk (Open "r+" MOther) path k _ _ _ eq_refl)
    as (apre & apost & Hp1 & Hp2 & Hl & Hno & Epre & Epost & Esh). cbn [fs_op] in Esh. rewrite Esh.
  destruct (path_call junk SYS_openat apre apost path name k s Hnm Hn Hwf Ht Hq Hp1 Hp2 Hl)
    as (p & m & Hc & Hm & Hcall). rewrite Hno, Epre, Epost in Hcall. change (pad _) with [AT_FDCWD; p; O_RDWR; 438; 0; 0] in Hcall.
  destruct (lkl_syscall SYS_openat _ (m_kernel s) m) as [[r k'] m'] eqn:Ek.
  destruct (Hcall r k' m' eq_refl) as (s1 & h' & Et & Es & _).
  exists p, m, r, k', m', s1. split_and!; try done.
  - unfold nullCheck. cbn [turn Bind]. rewrite (has_nul_names _ _ _ Hnm), no_nul by done. by destruct s.
  - intros Hr [|rounds] Hl'; [lia|]. cbn [loop]. rewrite Es. unfold syscall_callback, with_errno.
    destruct (Z.ltb_spec (s32 r) 0); [lia|]. done.
Qed.

(** C16: fs.read and fs.write of a Buffer, for any offset, length and position
    (a read of length 0 makes no call).  Exactly one system call, pread64 or
    pwrite64 when there is a position; the range handed to the kernel lies in
    the Buffer whatever the arguments are, and is the one that was asked for
    when that lies in the Buffer.  The callback is called once, with the errno
    or the number of bytes. *)
Theorem fs_io_inside_buffer io fd b s (tag : option jserr -> Z -> R) :
  (forall offset position, io <> Read offset 0 position) ->
  0 <= b_len b < 2 ^ 63 -> m_ticks s = [] -> m_queue s = [] ->
  exists ptr n r k' m' s',
    b_data b <= ptr /\ 0 <= n /\ ptr + n <= b_data b + b_len b /\
    (forall offset len, io_range io b = (offset, len) ->
       0 <= offset -> 0 <= len -> offset + len <= b_len b -> ptr = b_data b + offset /\ n = len) /\
    lkl_syscall (fst (io_call io)) (pad (s64 fd :: ptr :: n :: snd (io_call io)))
      (m_kernel s) (h_mem (m_heap s)) = (r, k', m') /\
    turn (fs_io io fd b (fun err n => Callback (tag err n) Done)) s = Ok s' /\
    (forall rounds, (2 <= rounds)%nat ->
       loop junk rounds s' =
       Ok (Mach (Heap m' (h_next (m_heap s)) (h_ctx (m_heap s))) k' [] [] (m_out s ++ [outcome tag r]))).
Proof.
  intros Hz Hl Ht Hq. set (cb := fun err n => Callback (tag err n) Done).
  destruct (fs_io_shape io fd b cb Hz) as (post & Hp & Hlen & Hno & Epost & ->).
  set (sl := buf_slice b _ _) in *. destruct (io_range io b) as [offset len] eqn:Er. cbn [fst snd] in sl.
  destruct (slice_inside b offset (offset + len)) as (H1 & H2 & H3); [lia|]. fold sl in H1, H2, H3.
  destruct s as [h k ts q o]. cbn [m_ticks m_queue m_kernel m_heap m_out] in *. subst ts q.
  destruct (lkl_syscall (fst (io_call io)) (pad (s64 fd :: b_data sl :: b_len sl :: snd (io_call io)))
    k (h_mem h)) as [[r k'] m'] eqn:Ek.
  exists (b_data sl), (b_len sl), r, k', m'. eexists. split_and!; [done..| |exact Ek|reflexivity|].
  - intros offset' len' [= <- <-] Ho Hn Hin. unfold sl. rewrite buf_slice_in by lia. cbn. lia.
  - intros rounds Hr. eapply loop_two; [|done|done]. unfold mach_step. cbn [m_ticks m_queue app m_heap m_kernel m_out].
    f_equal. rewrite (run_task_plain junk _ _ _ _ r k' m').
    + exact (callback_outcome tag r (Mach (Heap m' (h_next h) (h_ctx h)) k' [] [] o)).
    + by repeat constructor.
    + cbn [Datatypes.length]. lia.
    + cbn [map arg_val m_kernel m_heap]. rewrite Hno, Epost, (s64_id (b_len sl)) by lia. exact Ek.
Qed.

(** The time reaches the kernel as seconds and nanoseconds. *)
Theorem clock_settime_arrives milliseconds s (tag : option jserr -> Z -> R) :
  0 <= milliseconds < 2 ^ 53 -> heap_wf (m_heap s) -> m_ticks s = [] -> m_queue s = [] ->
  exists p m r k' m' s' final,
    load 8 p m = Some (milliseconds / 1000) /\
    load 8 (p + 8) m = Some (milliseconds mod 1000 * 1000000) /\
    lkl_syscall SYS_clock_settime [CLOCK_REALTIME; p; 0; 0; 0; 0] (m_kernel s) m = (r, k', m') /\
    turn (binding_clock_settime junk milliseconds (fun err n => Callback (tag err n) Done)) s = Ok s' /\
    (forall rounds, (2 <= rounds)%nat -> loop junk rounds s' = Ok final) /\
    m_kernel final = k' /\ m_out final = m_out s ++ [outcome tag r].
Proof.
  intros Hms Hwf Ht Hq. destruct s as [h k ts q o]. cbn [m_ticks m_queue m_kernel m_heap m_out] in *. subst ts q.
  destruct (alloc_ok (junk_bytes junk 16) 16 h) as (h1 & E & _ & _ & _ & Hm & _);
    [lia|done|intros; apply length_junk|].
  destruct (store_bytes_some (h_next h) (millisecondsToTimespec milliseconds) (h_mem h1) Hm) as [m Em].
  destruct (timespec_stored _ _ _ _ Hms Em) as [Hsec Hnsec].
  destruct (lkl_syscall SYS_clock_settime [CLOCK_REALTIME; h_next h; 0; 0; 0; 0] k m) as [[r k'] m'] eqn:Ek.
  exists (h_next h), m, r, k', m'. eexists. eexists (Mach _ k' [] [] (o ++ [outcome tag r])).
  split_and!; [done|done|exact Ek| | |done|done].
  - unfold binding_clock_settime, malloc. cbn [turn Bind m_heap]. rewrite E. cbn [turn Bind m_heap].
    unfold write_bytes. rewrite Em. reflexivity.
  - intros rounds Hr. eapply loop_two; [|done|done]. unfold mach_step.
    cbn [m_ticks m_queue app m_heap m_kernel m_out]. f_equal. rewrite (run_task_plain junk _ _ _ _ r k' m').
    + exact (callback_outcome tag r (Mach (Heap m' (h_next h1) (h_ctx h1)) k' [] [] o)).
    + by repeat constructor.
    + cbn [length]. lia.
    + exact Ek.
Qed.

End Correct.

(** ** A concrete program: a kernel that answers 0 and keeps what it was asked *)

Module OpsDemo.

#[local] Instance log_kernel : Kernel (list (Z * list Z)) :=
  fun no params k m => (0, k ++ [(no, params)], m).

(** The Buffer at 64 holds "/dir". *)
Definition start : mach unit (option jserr * Z) (list (Z * list Z)) :=
  Mach (Heap (put_bytes 64 [47; 100; 105; 114] ∅) 128 tt) [] [] [] [].

Lemma ops_start_wf : heap_wf (m_heap start).
Proof.
  split; [done|]. cbn [start m_heap h_mem h_next]. intros i Hi.
  rewrite put_bytes_out by (unfold range; cbn; lia). apply lookup_empty.
Qed.

(** fs.mkdir of the Buffer, without a mode. *)
Lemma path_op_one_call_witness :
  exists p m s' final, cstr_at m p [47; 100; 105; 114] /\
    turn (fs_op (fun _ => 9) (Mkdir MOther) (PBuf (Buffer 64 4)) (fun err n => Callback (err, n) Done)) start
      = Ok s' /\
    loop (fun _ => 9) 2 s' = Ok final /\
    m_kernel final = [(34, [-100; p; 511; 0; 0; 0])] /\ m_out final = [(None, 0)].
Proof.
  destruct (path_op_one_call (fun _ => 9) (Mkdir MOther) (PBuf (Buffer 64 4)) [47; 100; 105; 114] start pair
    SYS_mkdirat [AT_FDCWD] [0x1ff]) as (p & m & r & k' & m' & s' & final & Hc & _ & Ek & Et & Hl & Hk & Ho & _).
  - reflexivity.
  - split; reflexivity.
  - repeat constructor.
  - exact ops_start_wf.
  - reflexivity.
  - reflexivity.
  - cbv [lkl_syscall log_kernel] in Ek. injection Ek as <- <- <-.
    exists p, m, s', final. split; [exact Hc|]. split; [exact Et|]. split; [apply Hl; lia|].
    split; [exact Hk|exact Ho].
Defined.

(** fs.write of a hundred bytes from offset 1 of the four bytes: three are written. *)
Lemma fs_io_inside_buffer_witness :
  exists ptr n s', 64 <= ptr /\ 0 <= n /\ ptr + n <= 68 /\
    turn (fs_io (Write (Some 1) (Some 100) (Some 8)) 5 (Buffer 64 4) (fun err n => Callback (err, n) Done)) start
      = Ok s' /\
    exists final, loop (fun _ => 9) 2 s' = Ok final /\
      m_kernel final = [(68, [5; ptr; n; 8; 0; 0])] /\ m_out final = [(None, 0)].
Proof.
  destruct (fs_io_inside_buffer (fun _ => 9) (Write (Some 1) (Some 100) (Some 8)) 5 (Buffer 64 4) start pair)
    as (ptr & n & r & k' & m' & s' & H1 & H2 & H3 & _ & Ek & Et & Hl).
  - discriminate.
  - cbn. lia.
  - reflexivity.
  - reflexivity.
  - cbv [lkl_syscall log_kernel] in Ek. injection Ek as <- <- <-.
    exists ptr, n, s'. cbn [b_data b_len] in H1, H3. split; [exact H1|]. split; [exact H2|]. split; [exact H3|].
    split; [exact Et|]. eexists. split; [apply Hl; lia|]. split; reflexivity.
Defined.

End OpsDemo.
