(* ===== verification/FsFile.v ===== *)
(** * FsFile

    Whole-file operations of lib/fs.js (readFile, writeFile, appendFile) on
    top of lib/binding.js and the operation queue. *)

From Stdlib Require Import Strings.Ascii Strings.String.
From S2P Require Import Prelude Memory Js Stat FsOps.

Fixpoint has_char_a (s : string) : bool :=
  match s with
  | EmptyString => false
  | String c s => Ascii.eqb c "a"%char || has_char_a s
  end.

(** /a/.test(flag): the digits of a number have no letter. *)
Definition has_a (flag : jsflag) : bool := match flag with FStr s => has_char_a s | FNum _ => false end.

(** ** Results *)

(** What a callback is called with: (err), (err, buffer), (null, data), (null). *)
Inductive fs_result :=
| CbErr (e : jserr)
| CbErrData (e : jserr) (data : list Z)
| CbData (data : list Z)
| CbNull.

(** The context of a readFile. *)
Record ReadFileContext := Context_ {
  rc_fd : Z; rc_isUserFd : bool; rc_size : Z; rc_buffers : list buffer; rc_buffer : buffer;
  rc_pos : Z; rc_err : option jserr
}.

Definition kReadFileBufferLength : Z := 8192.

Abbreviation fheap := (heap ReadFileContext).
Abbreviation handler := (js fheap fs_result).

(** ** fs.readFile *)

Section ReadFile.
Context (junk : Z -> Z) (kMaxLength : Z) (enc : option (list Z -> option (list Z))).

Definition get_ctx : M fheap ReadFileContext := fun h => Ok (h_ctx h, h).

Definition set_ctx (c : ReadFileContext) : M fheap unit :=
  modifyM (fun h => Heap (h_mem h) (h_next h) c).

(** Buffer.concat(buffers, length): the bytes one after the other, cut or
    zero-filled to [length]. *)
Fixpoint buffers_bytes (bs : list buffer) (m : mem) : option (list Z) :=
  match bs with
  | [] => Some []
  | b :: bs' =>
      x ← load_bytes (Z.to_nat (b_len b)) (b_data b) m;
      y ← buffers_bytes bs' m;
      Some (x ++ y)
  end.

Definition buffer_concat (bs : list buffer) (length : Z) (m : mem) : option (list Z) :=
  x ← buffers_bytes bs m;
  Some (take (Z.to_nat length) (x ++ repeat 0 (Z.to_nat length))).

Definition tryToString (buf : list Z) : handler :=
  match enc with
  | Some toString =>
      match toString buf with
      | Some s => Callback (CbData s) Done
      | None => Callback (CbErrData ToStringError buf) Done
      end
  | None => Callback (CbData buf) Done
  end.

(** The buffer readFileAfterClose builds. *)
Definition file_data (c : ReadFileContext) (m : mem) : option (list Z) :=
  if rc_size c =? 0 then buffer_concat (rc_buffers c) (rc_pos c) m
  else if rc_pos c <? rc_size c
  then load_bytes (Z.to_nat (rc_pos c)) (b_data (rc_buffer c)) m
  else load_bytes (Z.to_nat (b_len (rc_buffer c))) (b_data (rc_buffer c)) m.

Definition readFileAfterClose (err : option jserr) : handler :=
  do* c := get_ctx in
  match rc_err c with
  | Some e => Callback (CbErr e) Done
  | None =>
      do* buf := on_mem (file_data c) in
      match err with
      | Some e => Callback (CbErrData e buf) Done
      | None => tryToString buf
      end
  end.

(** ReadFileContext.prototype.close *)
Definition context_close (err : option jserr) : handler :=
  do* c := get_ctx in
  do* _ := set_ctx (Context_ (rc_fd c) (rc_isUserFd c) (rc_size c) (rc_buffers c) (rc_buffer c)
                      (rc_pos c) err) in
  if rc_isUserFd c then Tick (readFileAfterClose None) Done
  else binding_close (rc_fd c) (fun err _ => readFileAfterClose err).

(** [read] stands for context.read(). *)
Definition readFileAfterRead (read : handler) (err : option jserr) (bytesRead : Z) : handler :=
  match err with
  | Some _ => context_close err
  | None =>
      if bytesRead =? 0 then context_close None
      else
        do* c := get_ctx in
        let pos := rc_pos c + bytesRead in
        if negb (rc_size c =? 0) then
          do* _ := set_ctx (Context_ (rc_fd c) (rc_isUserFd c) (rc_size c) (rc_buffers c)
                              (rc_buffer c) pos (rc_err c)) in
          if pos =? rc_size c then context_close None else read
        else
          do* _ := set_ctx (Context_ (rc_fd c) (rc_isUserFd c) (rc_size c)
                              (rc_buffers c ++ [buf_slice (rc_buffer c) 0 bytesRead])
                              (rc_buffer c) pos (rc_err c)) in
          read
  end.

(** ReadFileContext.prototype.read; [fuel] bounds the number of reads. *)
Fixpoint context_read (fuel : nat) : handler :=
  match fuel with
  | O => Do (fun _ => Fail NoFuel)
  | S fuel' =>
      do* c := get_ctx in
      if rc_size c =? 0 then
        do* a := malloc junk kReadFileBufferLength in
        let b := Buffer a kReadFileBufferLength in
        do* _ := set_ctx (Context_ (rc_fd c) (rc_isUserFd c) (rc_size c) (rc_buffers c) b
                            (rc_pos c) (rc_err c)) in
        binding_read (rc_fd c) b 0 kReadFileBufferLength (Some (-1))
          (readFileAfterRead (context_read fuel'))
      else
        binding_read (rc_fd c) (rc_buffer c) (rc_pos c) (rc_size c - rc_pos c) (Some (-1))
          (readFileAfterRead (context_read fuel'))
  end.

Definition readFileAfterStat (fuel : nat) (err : option jserr) (st : option Stats) : handler :=
  match err, st with
  | Some _, _ => context_close err
  | None, None => throw
  | None, Some st =>
      let sz := if isFile st then size st else 0 in
      do* c := get_ctx in
      if sz =? 0 then
        do* _ := set_ctx (Context_ (rc_fd c) (rc_isUserFd c) sz [] (rc_buffer c) (rc_pos c) (rc_err c)) in
        context_read fuel
      else
        do* _ := set_ctx (Context_ (rc_fd c) (rc_isUserFd c) sz (rc_buffers c) (rc_buffer c)
                            (rc_pos c) (rc_err c)) in
        if kMaxLength <? sz then context_close (Some FileTooLarge)
        else
          do* a := malloc junk sz in
          do* _ := set_ctx (Context_ (rc_fd c) (rc_isUserFd c) sz (rc_buffers c) (Buffer a sz)
                              (rc_pos c) (rc_err c)) in
          context_read fuel
  end.

Definition readFileAfterOpen (fuel : nat) (err : option jserr) (fd : Z) : handler :=
  match err with
  | Some e => Callback (CbErr e) Done
  | None =>
      do* c := get_ctx in
      do* _ := set_ctx (Context_ fd (rc_isUserFd c) (rc_size c) (rc_buffers c) (rc_buffer c)
                          (rc_pos c) (rc_err c)) in
      binding_fstat fd (readFileAfterStat fuel)
  end.

Definition open_file (fuel : nat) (path : jspath) (flag : jsflag) : handler :=
  match stringToFlags (flag_or flag "r") with
  | None => throw
  | Some fl => binding_open junk path fl (Some 438) (readFileAfterOpen fuel)
  end.

Definition readFile (fuel : nat) (path : jspath) (flag : jsflag) : handler :=
  nullCheck path (fun _ _ => Callback (CbErr NullBytes) Done)
    (do* _ := set_ctx (Context_ 0 (isFd path) 0 [] (Buffer 0 0) 0 None) in
     match path with
     | PNum n =>
         if isFd path then Tick (readFileAfterOpen fuel None n) Done
         else open_file fuel path flag
     | _ => open_file fuel path flag
     end).

End ReadFile.

(** ** fs.writeFile *)

Section WriteFile.
Context (junk : Z -> Z).

(** The user's callback. *)
Definition user_callback (err : option jserr) : handler :=
  match err with Some e => Callback (CbErr e) Done | None => Callback CbNull Done end.

(** writeAll; [position] is [None] for null, [fuel] bounds the number of writes. *)
Fixpoint writeAll (fuel : nat) (fd : Z) (isUserFd : bool) (b : buffer) (offset length : Z)
    (position : option Z) : handler :=
  match fuel with
  | O => Do (fun _ => Fail NoFuel)
  | S fuel' =>
      binding_writeBuffer fd b offset length position (fun writeErr written =>
        match writeErr with
        | Some _ =>
            if isUserFd then user_callback writeErr
            else fs_close fd (fun _ => user_callback writeErr)
        | None =>
            if written =? length then
              if isUserFd then user_callback None else fs_close fd user_callback
            else
              writeAll fuel' fd isUserFd b (offset + written) (length - written)
                (match position with Some p => Some (p + written) | None => None end)
        end)
  end.

(** writeFile of a Buffer. *)
Definition writeFd (fuel : nat) (data : buffer) (flag : jsflag) (fd : Z) (isUserFd : bool) : handler :=
  writeAll fuel fd isUserFd data 0 (b_len data) (if has_a flag then None else Some 0).

Definition writeFile (fuel : nat) (path : jspath) (data : buffer) (mode : Z) (flag : jsflag) : handler :=
  let flag := flag_or flag "w" in
  let open := fs_open junk path flag (MNum mode) (fun openErr fd =>
    match openErr with
    | Some _ => user_callback openErr
    | None => writeFd fuel data flag fd false
    end) in
  match path with
  | PNum n => if isFd path then writeFd fuel data flag n true else open
  | _ => open
  end.

(** appendFile: the flag is forced to 'a' for a descriptor. *)
Definition appendFile (fuel : nat) (path : jspath) (data : buffer) (mode : Z) (flag : jsflag) : handler :=
  writeFile fuel path data mode (if isFd path then FStr "a" else flag_or flag "a").

End WriteFile.

(** ** The kernel's side of the contract

    Regular files on a healthy file system: [kf_path] is the content of the file
    a path names, [kf_fd] the path and the position of an open file.  Opening can
    fail; reads and writes transfer any positive number of bytes they can. *)
Class FileKernel (K : Type) `{Kernel K} := {
  kf_path : K -> list Z -> option (list Z);
  kf_fd : K -> Z -> option (list Z * Z);
  kf_open_read : forall k m p path c,
    Forall char_ok path -> Z.of_nat (length path) < LKL_PATH_MAX -> cstr_at m p path ->
    kf_path k path = Some c ->
    exists fd k', lkl_syscall SYS_openat [AT_FDCWD; p; O_RDONLY; 438; 0; 0] k m = (fd, k', m) /\
      -4096 < fd < 2147483648 /\
      (0 <= fd -> kf_fd k' fd = Some (path, 0)) /\ kf_path k' path = Some c;
  kf_open_write : forall k m p path mode,
    Forall char_ok path -> Z.of_nat (length path) < LKL_PATH_MAX -> cstr_at m p path ->
    exists fd k', lkl_syscall SYS_openat
        [AT_FDCWD; p; lors [O_TRUNC; O_CREAT; O_WRONLY]; mode; 0; 0] k m = (fd, k', m) /\
      -4096 < fd < 2147483648 /\
      (0 <= fd -> kf_fd k' fd = Some (path, 0) /\ kf_path k' path = Some []);
  kf_fstat : forall k m fd buf path pos c,
    kf_fd k fd = Some (path, pos) -> kf_path k path = Some c ->
    mapped m buf STRUCT_LKL_STAT_SIZE -> Z.of_nat (length c) < 2 ^ 63 ->
    exists st k' m', lkl_syscall SYS_fstat [fd; buf; 0; 0; 0; 0] k m = (0, k', m') /\
      cp_new_stat st buf m = Some (0, m') /\ kstat_ok st /\ k_size st = Z.of_nat (length c) /\
      Z.land (k_mode st) S_IFMT = S_IFREG /\
      kf_fd k' fd = Some (path, pos) /\ kf_path k' path = Some c;
  kf_read : forall k m fd buf len path pos c,
    kf_fd k fd = Some (path, pos) -> kf_path k path = Some c -> 0 <= pos ->
    0 < len -> mapped m buf len ->
    exists n k' m', lkl_syscall SYS_read [fd; buf; len; 0; 0; 0] k m = (n, k', m') /\
      0 <= n <= len /\ n < 2147483648 /\ (n = 0 -> Z.of_nat (length c) <= pos) /\
      store_bytes buf (take (Z.to_nat n) (drop (Z.to_nat pos) c)) m = Some m' /\
      n <= Z.max 0 (Z.of_nat (length c) - pos) /\
      kf_fd k' fd = Some (path, pos + n) /\ kf_path k' path = Some c;
  kf_pwrite : forall k m fd buf len off path pos c bs,
    kf_fd k fd = Some (path, pos) -> kf_path k path = Some c ->
    0 <= off <= Z.of_nat (length c) -> 0 <= len -> load_bytes (Z.to_nat len) buf m = Some bs ->
    exists n k', lkl_syscall SYS_pwrite64 [fd; buf; len; off; 0; 0] k m = (n, k', m) /\
      0 <= n <= len /\ n < 2147483648 /\ (0 < len -> 0 < n) /\
      kf_path k' path = Some (take (Z.to_nat off) c ++ take (Z.to_nat n) bs ++
                              drop (Z.to_nat (off + n)) c) /\
      kf_fd k' fd = Some (path, pos);
  kf_close : forall k m fd path pos,
    kf_fd k fd = Some (path, pos) ->
    exists k', lkl_syscall SYS_close [fd; 0; 0; 0; 0; 0] k m = (0, k', m) /\
      forall q, kf_path k' q = kf_path k q
}.

(** What readFile should hand to its callback for a file with content [c]. *)
Definition to_string (enc : option (list Z -> option (list Z))) (buf : list Z) : fs_result :=
  match enc with
  | Some toString =>
      match toString buf with Some s => CbData s | None => CbErrData ToStringError buf end
  | None => CbData buf
  end.

Definition file_result (kMaxLength : Z) (enc : option (list Z -> option (list Z))) (c : list Z)
  : fs_result :=
  let sz := u32 (Z.of_nat (length c)) in
  if sz =? 0 then to_string enc c
  else if kMaxLength <? sz then CbErr FileTooLarge
  else to_string enc (take (Z.to_nat sz) c).

Section ReadCorrect.
Context {K : Type} {kernel : Kernel K} {fk : FileKernel K}
  (junk : Z -> Z) (kMaxLength : Z) (enc : option (list Z -> option (list Z))).
Implicit Types s : mach ReadFileContext fs_result K.

Definition idle_loop s : Prop := m_ticks s = [] /\ m_queue s = [].

Lemma tryToString_goes buf s P :
  idle_loop s -> P (Mach (m_heap s) (m_kernel s) [] [] (m_out s ++ [to_string enc buf])) ->
  goes junk (tryToString enc buf) s P.
Proof.
  intros [Ht Hq] HP. unfold tryToString, to_string in *.
  repeat case_match; by apply goes_callback.
Qed.

Lemma get_ctx_goes (f : ReadFileContext -> handler) s P :
  goes junk (f (h_ctx (m_heap s))) s P -> goes junk (Bind get_ctx f) s P.
Proof.
  intros H. eapply goes_bind; [reflexivity|]. by destruct s.
Qed.

Definition with_ctx c s : mach ReadFileContext fs_result K :=
  Mach (Heap (h_mem (m_heap s)) (h_next (m_heap s)) c) (m_kernel s) (m_ticks s) (m_queue s) (m_out s).

Lemma set_ctx_goes c (f : unit -> handler) s P :
  goes junk (f tt) (with_ctx c s) P -> goes junk (Bind (set_ctx c) f) s P.
Proof. intros H. by eapply goes_bind. Qed.

Lemma on_mem_goes {A} (g : mem -> option A) (f : A -> handler) s P a :
  g (h_mem (m_heap s)) = Some a -> goes junk (f a) s P -> goes junk (Bind (on_mem g) f) s P.
Proof.
  intros E H. eapply goes_bind; [unfold on_mem; by rewrite E|]. by destruct s.
Qed.

Lemma binding_close_goes fd path pos (cb : option jserr -> Z -> handler) s P :
  idle_loop s -> kf_fd (m_kernel s) fd = Some (path, pos) -> 0 <= fd < 2147483648 ->
  (forall k', (forall q, kf_path k' q = kf_path (m_kernel s) q) ->
     goes junk (cb None 0) (Mach (m_heap s) k' [] [] (m_out s)) P) ->
  goes junk (binding_close fd cb) s P.
Proof.
  intros [Ht Hq] Hfd Hr HP. destruct (kf_close _ (h_mem (m_heap s)) _ _ _ Hfd) as (k' & E & Hk).
  eapply goes_push; [done|done|apply (run_task_plain junk _ _ _ _ 0 k' (h_mem (m_heap s)))|];
    [by repeat constructor|cbn [length]; lia| |].
  { cbn [map arg_val]. rewrite (s64_id fd) by lia. exact E. }
  specialize (HP _ Hk). rewrite Ht, Hq. by destruct s as [[]].
Qed.

(** What readFileAfterClose reports. *)
Definition close_result (c : ReadFileContext) (e : option jserr) (m : mem) : option fs_result :=
  match e with
  | Some e => Some (CbErr e)
  | None => to_string enc <$> file_data c m
  end.

(** Closing at the end: the file's descriptor is closed unless it is the
    user's, and the callback gets the data or the error. *)
Lemma context_close_goes e s c path pos r P :
  idle_loop s -> h_ctx (m_heap s) = c -> kf_fd (m_kernel s) (rc_fd c) = Some (path, pos) ->
  0 <= rc_fd c < 2147483648 -> close_result c e (h_mem (m_heap s)) = Some r ->
  (forall s1, idle_loop s1 -> (forall q, kf_path (m_kernel s1) q = kf_path (m_kernel s) q) ->
     m_out s1 = m_out s ++ [r] -> P s1) ->
  goes junk (context_close enc e) s P.
Proof.
  intros Hs Hc Hfd Hr Hres HP. unfold context_close. apply get_ctx_goes. rewrite Hc. apply set_ctx_goes.
  set (c' := Context_ _ _ _ _ _ _ e).
  assert (forall k', (forall q, kf_path k' q = kf_path (m_kernel s) q) ->
    goes junk (readFileAfterClose enc None)
      (Mach (m_heap (with_ctx c' s)) k' [] [] (m_out (with_ctx c' s))) P) as Hafter.
  { intros k' Hk. unfold readFileAfterClose. apply get_ctx_goes. cbn [with_ctx m_heap h_ctx m_out].
    unfold c' at 1. cbn [rc_err]. unfold close_result in Hres. destruct e as [e|].
    - simplify_eq. apply goes_callback; [done|done|]. by apply HP.
    - destruct (file_data c (h_mem (m_heap s))) as [data|] eqn:Ed; [|done].
      cbn [fmap option_fmap option_map] in Hres. simplify_eq.
      eapply on_mem_goes; [exact Ed|]. apply tryToString_goes; [done|]. by apply HP. }
  destruct (rc_isUserFd c).
  - destruct Hs as [Ht Hq]. apply goes_tick; [exact Ht|]. specialize (Hafter (m_kernel s) (fun _ => eq_refl)).
    unfold with_ctx in *. cbn [m_heap m_out] in *. by rewrite Ht, Hq.
  - eapply binding_close_goes; [exact Hs|exact Hfd|exact Hr|]. intros k' Hk. by apply Hafter.
Qed.

Lemma read_goes fd b off len path pos c (cb : option jserr -> Z -> handler) s P :
  idle_loop s -> kf_fd (m_kernel s) fd = Some (path, pos) -> kf_path (m_kernel s) path = Some c ->
  0 <= fd < 2147483648 -> 0 <= pos -> 0 < len < 2 ^ 63 -> 0 <= off -> off + len <= b_len b ->
  mapped (h_mem (m_heap s)) (b_data b + off) len ->
  (forall n k' m', 0 <= n <= len -> n <= Z.max 0 (Z.of_nat (length c) - pos) ->
     (n = 0 -> Z.of_nat (length c) <= pos) ->
     store_bytes (b_data b + off) (take (Z.to_nat n) (drop (Z.to_nat pos) c)) (h_mem (m_heap s)) = Some m' ->
     kf_fd k' fd = Some (path, pos + n) -> kf_path k' path = Some c ->
     goes junk (cb None n) (Mach (Heap m' (h_next (m_heap s)) (h_ctx (m_heap s))) k' [] [] (m_out s)) P) ->
  goes junk (binding_read fd b off len (Some (-1)) cb) s P.
Proof.
  intros [Ht Hq] Hfd Hp Hr Hpos Hlen Hoff Hin Hm HP. change (2 ^ 63) with 9223372036854775808 in Hlen.
  destruct (kf_read _ _ fd (b_data b + off) len path pos c Hfd Hp Hpos ltac:(lia) Hm)
    as (n & k' & m' & E & Hn & Hn' & Hn0 & Hst & Hmax & Hfd' & Hp').
  unfold binding_read. cbn [Z.eqb Pos.eqb negb]. rewrite buf_slice_in by lia. cbn [b_len].
  eapply goes_push; [done|done|apply (run_task_plain junk _ _ _ _ n k' m')|];
    [by repeat constructor|cbn [Datatypes.length]; lia| |].
  { cbn [map arg_val b_data]. rewrite (s64_id fd), (s64_id (off + len - off)) by lia.
    replace (off + len - off) with len by lia. exact E. }
  rewrite s32_id by lia. unfold syscall_callback. destruct (Z.ltb_spec n 0); [lia|].
  rewrite Ht, Hq. by apply (HP n k' m').
Qed.

Lemma load_bytes_extend (m m' : mem) a (c : list Z) pos n :
  Forall is_byte c -> 0 <= pos -> 0 <= n -> pos + n <= Z.of_nat (length c) ->
  load_bytes (Z.to_nat pos) a m = Some (take (Z.to_nat pos) c) ->
  store_bytes (a + pos) (take (Z.to_nat n) (drop (Z.to_nat pos) c)) m = Some m' ->
  load_bytes (Z.to_nat (pos + n)) a m' = Some (take (Z.to_nat (pos + n)) c).
Proof.
  intros Hb Hp Hn Hl Hld Hst. pose proof (store_bytes_frame _ _ _ _ Hst) as F.
  pose proof (load_store_bytes _ _ _ _ Hst) as Hld2.
  assert (length (take (Z.to_nat n) (drop (Z.to_nat pos) c)) = Z.to_nat n) as El
    by (rewrite length_take, length_drop; lia).
  rewrite El in *. rewrite Z2Nat.inj_add by lia. rewrite load_bytes_app.
  rewrite (load_bytes_frame (Z.to_nat pos) a _ _ _ F) by (unfold range; intros; lia). rewrite Hld. cbn [mbind option_bind].
  rewrite Z2Nat.id, Hld2 by lia. cbn [mbind option_bind]. f_equal.
  rewrite map_u8_id by (by apply Forall_take, Forall_drop). by rewrite take_take_drop.
Qed.

(** Reading a file of known size into one buffer. *)
Lemma context_read_sized fuel : forall s cx path c a sz P,
  idle_loop s -> h_ctx (m_heap s) = cx -> rc_size cx = sz -> rc_buffer cx = Buffer a sz ->
  0 < sz <= Z.of_nat (length c) -> sz < 2 ^ 63 -> 0 <= rc_pos cx < sz -> 0 <= rc_fd cx < 2147483648 ->
  kf_fd (m_kernel s) (rc_fd cx) = Some (path, rc_pos cx) -> kf_path (m_kernel s) path = Some c ->
  mapped (h_mem (m_heap s)) a sz -> Forall is_byte c ->
  load_bytes (Z.to_nat (rc_pos cx)) a (h_mem (m_heap s)) = Some (take (Z.to_nat (rc_pos cx)) c) ->
  sz - rc_pos cx < Z.of_nat fuel ->
  (forall s1, idle_loop s1 -> kf_path (m_kernel s1) path = Some c ->
     m_out s1 = m_out s ++ [to_string enc (take (Z.to_nat sz) c)] -> P s1) ->
  goes junk (context_read junk enc fuel) s P.
Proof.
  induction fuel as [|fuel IH];
    intros s cx path c a sz P Hs Hcx Hsz Hb Hl Hsz63 Hpos Hfd Hkf Hkp Hm Hby Hld Hfuel HP; [lia|].
  cbn [context_read]. apply get_ctx_goes. rewrite Hcx, Hsz, Hb.
  destruct (Z.eqb_spec sz 0) as [|_]; [lia|].
  eapply read_goes; [exact Hs|exact Hkf|exact Hkp|exact Hfd|lia|lia|lia|cbn [b_len]; lia| |].
  { cbn [b_data]. eapply mapped_sub; [exact Hm|lia|lia]. }
  intros n k' m' Hn Hmax Hn0 Hst Hkf' Hkp'. unfold readFileAfterRead. cbn [b_data] in Hst.
  destruct (Z.eqb_spec n 0) as [|_]; [lia|]. apply get_ctx_goes. cbn [m_heap h_ctx]. rewrite Hcx, Hsz.
  destruct (Z.eqb_spec sz 0) as [|_]; [lia|]. cbn [negb]. apply set_ctx_goes.
  assert (load_bytes (Z.to_nat (rc_pos cx + n)) a m' = Some (take (Z.to_nat (rc_pos cx + n)) c)) as Hld'
    by (apply (load_bytes_extend (h_mem (m_heap s))); done || lia).
  pose proof (store_bytes_frame _ _ _ _ Hst) as F.
  destruct (Z.eqb_spec (rc_pos cx + n) sz) as [Hend|Hend].
  - eapply (context_close_goes None); [done|reflexivity|exact Hkf'|exact Hfd| |].
    + unfold close_result, file_data. cbn [rc_size rc_pos rc_buffer m_heap h_mem h_ctx with_ctx].
      destruct (Z.eqb_spec sz 0) as [|_]; [lia|]. rewrite Hend, Z.ltb_irrefl, Hb. cbn [b_len b_data].
      rewrite Hend in Hld'. by rewrite Hld'.
    + intros s1 H1 Hk1 Ho1. apply HP; [done|by rewrite Hk1|done].
  - eapply (IH _ _ path c a sz); [done|reflexivity|done|done|done|done|cbn; lia|done|exact Hkf'|exact Hkp'| |done|exact Hld'|cbn; lia|done].
    eapply mapped_frame; [exact F|exact Hm].
Qed.

(** *** Files of unknown size *)

Definition bufs_below (bs : list buffer) (n : Z) : Prop :=
  Forall (fun b => 0 <= b_len b /\ b_data b + b_len b <= n) bs.

Lemma buffers_bytes_ext bs n (m m' : mem) :
  bufs_below bs n -> (forall i, i < n -> m' !! i = m !! i) ->
  buffers_bytes bs m' = buffers_bytes bs m.
Proof.
  intros Hb He. induction Hb as [|b bs [Hl Hn] _ IH]; cbn [buffers_bytes]; [done|].
  rewrite IH. f_equal. apply load_bytes_ext. intros i Hi. apply He. unfold range in Hi. lia.
Qed.

Lemma buffers_bytes_app bs1 bs2 m :
  buffers_bytes (bs1 ++ bs2) m = x ← buffers_bytes bs1 m; y ← buffers_bytes bs2 m; Some (x ++ y).
Proof.
  induction bs1 as [|b bs1 IH]; cbn [buffers_bytes app mbind option_bind].
  { by destruct (buffers_bytes bs2 m). }
  destruct (load_bytes _ _ m); cbn [mbind option_bind]; [|done]. rewrite IH.
  destruct (buffers_bytes bs1 m); cbn [mbind option_bind]; [|done].
  destruct (buffers_bytes bs2 m); cbn [mbind option_bind]; [|done]. by rewrite app_assoc.
Qed.

Lemma bufs_below_weaken bs n n' : bufs_below bs n -> n <= n' -> bufs_below bs n'.
Proof. intros H Hn. eapply Forall_impl; [|exact H]. cbn. intros b ?. lia. Qed.

(** Reading in pieces until nothing more comes. *)
Lemma context_read_unsized fuel : forall s cx path c P,
  idle_loop s -> h_ctx (m_heap s) = cx -> rc_size cx = 0 -> heap_wf (m_heap s) ->
  0 <= rc_pos cx <= Z.of_nat (length c) -> 0 <= rc_fd cx < 2147483648 ->
  kf_fd (m_kernel s) (rc_fd cx) = Some (path, rc_pos cx) -> kf_path (m_kernel s) path = Some c ->
  Forall is_byte c -> bufs_below (rc_buffers cx) (h_next (m_heap s)) ->
  buffers_bytes (rc_buffers cx) (h_mem (m_heap s)) = Some (take (Z.to_nat (rc_pos cx)) c) ->
  Z.of_nat (length c) - rc_pos cx < Z.of_nat fuel ->
  (forall s1, idle_loop s1 -> kf_path (m_kernel s1) path = Some c ->
     m_out s1 = m_out s ++ [to_string enc c] -> P s1) ->
  goes junk (context_read junk enc fuel) s P.
Proof.
  induction fuel as [|fuel IH];
    intros s cx path c P Hs Hcx Hsz Hwf Hpos Hfd Hkf Hkp Hby Hbl Hld Hfuel HP; [lia|].
  cbn [context_read]. apply get_ctx_goes. rewrite Hcx, Hsz. cbn [Z.eqb].
  destruct (alloc_ok (junk_bytes junk kReadFileBufferLength) kReadFileBufferLength (m_heap s))
    as (h1 & Ea & Hwf1 & Hc1 & Hnx1 & Hm1 & Ho1);
    [unfold kReadFileBufferLength; lia|done|intros; apply length_junk|].
  eapply goes_bind; [exact Ea|]. set (a := h_next (m_heap s)) in *. apply set_ctx_goes.
  eapply read_goes; [exact Hs|exact Hkf|exact Hkp|exact Hfd|lia|unfold kReadFileBufferLength; lia|lia|done| |].
  { cbn [with_ctx m_heap h_mem b_data]. rewrite Z.add_0_r. exact Hm1. }
  cbn [with_ctx m_heap h_mem h_next h_ctx m_out m_kernel b_data]. rewrite Z.add_0_r.
  intros n k' m' Hn Hmax Hn0 Hst Hkf' Hkp'. pose proof (store_bytes_frame _ _ _ _ Hst) as F.
  assert (buffers_bytes (rc_buffers cx) m' = Some (take (Z.to_nat (rc_pos cx)) c)) as Hld'.
  { rewrite <- Hld. apply (buffers_bytes_ext _ a); [exact Hbl|]. intros i Hi. destruct F as [F _].
    rewrite F by (unfold range; lia). apply Ho1. unfold range. lia. }
  unfold readFileAfterRead. destruct (Z.eqb_spec n 0) as [->|Hnz].
  - assert (rc_pos cx = Z.of_nat (length c)) as Hend by lia.
    eapply (context_close_goes None); [done|reflexivity|exact Hkf'|exact Hfd| |].
    + unfold close_result, file_data. cbn [rc_size rc_pos rc_buffers m_heap h_mem h_ctx].
      cbn [Z.eqb]. unfold buffer_concat. rewrite Hld', Hend, Nat2Z.id, firstn_all.
      cbn [mbind option_bind fmap option_fmap option_map]. rewrite take_app_length'; [reflexivity|lia].
    + intros s1 H1 Hk1 Hout. apply HP; [done|by rewrite Hk1|done].
  - apply get_ctx_goes. cbn [m_heap h_ctx rc_size rc_pos rc_fd rc_isUserFd rc_buffers rc_buffer rc_err].
    cbn [Z.eqb negb]. apply set_ctx_goes.
    eapply (IH _ _ path c); [done|reflexivity|done| |cbn; lia|done|exact Hkf'|exact Hkp'|done| | |cbn; lia|done].
    + destruct Hwf1 as [Hp1 Hn1]. split; cbn [with_ctx m_heap h_next h_mem]; [exact Hp1|].
      intros i Hi. destruct F as [F _]. rewrite F; [by apply Hn1|].
      rewrite Hnx1 in Hi. unfold range, alloc_gap in *. intros Hx. rewrite length_take, length_drop in Hx. lia.
    + cbn [with_ctx m_heap h_ctx h_next rc_buffers]. rewrite Hnx1. unfold alloc_gap. apply Forall_app. split.
      * eapply bufs_below_weaken; [exact Hbl|unfold kReadFileBufferLength; lia].
      * rewrite buf_slice_in by (cbn [b_len]; lia). repeat constructor; cbn [b_data b_len]; lia.
    + cbn [with_ctx m_heap h_ctx h_mem rc_buffers rc_pos]. rewrite buffers_bytes_app, Hld'.
      rewrite buf_slice_in by (cbn [b_len]; lia). cbn [buffers_bytes b_data b_len mbind option_bind]. rewrite Z.add_0_r, Z.sub_0_r.
      pose proof (load_store_bytes _ _ _ _ Hst) as Hlo.
      rewrite length_take, length_drop, Nat.min_l in Hlo by lia. rewrite Hlo.
      cbn [mbind option_bind]. rewrite app_nil_r, map_u8_id by (by apply Forall_take, Forall_drop).
      by rewrite take_take_drop, Z2Nat.inj_add by lia.
Qed.

(** fstat of a regular file. *)
Lemma fstat_goes fd path pos c (cb : option jserr -> option Stats -> handler) s P :
  idle_loop s -> heap_wf (m_heap s) -> kf_fd (m_kernel s) fd = Some (path, pos) ->
  kf_path (m_kernel s) path = Some c -> 0 <= fd < 2147483648 -> Z.of_nat (length c) < 2 ^ 63 ->
  (forall st h' k', isFile st = true -> size st = u32 (Z.of_nat (length c)) -> heap_wf h' ->
     h_ctx h' = h_ctx (m_heap s) -> kf_fd k' fd = Some (path, pos) -> kf_path k' path = Some c ->
     goes junk (cb None (Some st)) (Mach h' k' [] [] (m_out s)) P) ->
  goes junk (binding_fstat fd cb) s P.
Proof.
  intros [Ht Hq] Hwf Hfd Hp Hr Hc63 HP. unfold binding_fstat.
  destruct (alloc_ok (fun _ => repeat 0 (Z.to_nat STRUCT_LKL_STAT_SIZE)) STRUCT_LKL_STAT_SIZE (m_heap s))
    as (h1 & Ea & Hwf1 & Hc1 & Hnx1 & Hm1 & _);
    [unfold STRUCT_LKL_STAT_SIZE; lia|done|intros; apply repeat_length|].
  eapply goes_bind; [exact Ea|]. set (a := h_next (m_heap s)) in *.
  destruct (kf_fstat _ _ fd a path pos c Hfd Hp Hm1 Hc63)
    as (st & k' & m' & E & Ecp & Hok & Hsz & Hmode & Hfd' & Hp').
  destruct (parse_cp_new_stat st a (h_mem h1) Hok Hm1) as (m'' & Ecp' & F & Epar).
  rewrite Ecp in Ecp'. injection Ecp' as <-.
  eapply goes_push; [done|done|apply (run_task_plain junk _ _ _ _ 0 k' m')|];
    [by repeat constructor|cbn [length]; lia| |].
  { cbn [map arg_val b_data m_kernel m_heap]. rewrite (s64_id fd) by lia. exact E. }
  unfold syscall_callback. change (s32 0) with 0. cbn [Z.ltb Z.compare seq_js].
  eapply on_mem_goes; [exact Epar|]. cbn [m_heap m_ticks m_queue m_out]. rewrite Ht, Hq.
  apply HP; try done.
  - unfold isFile, checkModeProperty. cbn [mode]. by apply Z.eqb_eq.
  - cbn [size]. by rewrite Hsz.
  - destruct Hwf1 as [Hp1 Hn1]. split; cbn [h_next h_mem]; [exact Hp1|]. intros i Hi.
    destruct F as [F _]. rewrite F; [by apply Hn1|]. rewrite Hnx1 in Hi. unfold range, alloc_gap in *. lia.
Qed.

(** From the opened file to the callback. *)
Lemma readFileAfterOpen_goes fuel fd path c s P :
  idle_loop s -> heap_wf (m_heap s) -> kf_fd (m_kernel s) fd = Some (path, 0) ->
  kf_path (m_kernel s) path = Some c -> 0 <= fd < 2147483648 -> Forall is_byte c ->
  rc_pos (h_ctx (m_heap s)) = 0 -> Z.of_nat (length c) < 2 ^ 63 ->
  Z.of_nat (length c) < Z.of_nat fuel ->
  (forall s1, idle_loop s1 -> kf_path (m_kernel s1) path = Some c ->
     m_out s1 = m_out s ++ [file_result kMaxLength enc c] -> P s1) ->
  goes junk (readFileAfterOpen junk kMaxLength enc fuel None fd) s P.
Proof.
  intros Hs Hwf Hfd Hp Hr Hby Hpos Hc63 Hfuel HP. unfold readFileAfterOpen. apply get_ctx_goes, set_ctx_goes.
  eapply fstat_goes; [exact Hs|exact Hwf|exact Hfd|exact Hp|exact Hr|exact Hc63|].
  intros st h' k' Hfile Hsz Hwf' Hcx Hfd' Hp'. unfold readFileAfterStat. rewrite Hfile, Hsz.
  cbn [with_ctx m_heap h_ctx m_out] in *. apply get_ctx_goes. cbn [m_heap]. rewrite Hcx.
  cbn [rc_fd rc_isUserFd rc_size rc_buffers rc_buffer rc_pos rc_err]. unfold file_result in HP.
  pose proof (u32_range (Z.of_nat (length c))) as Hu.
  destruct (Z.eqb_spec (u32 (Z.of_nat (length c))) 0) as [Hz|Hz]; apply set_ctx_goes.
  - rewrite Hz. eapply (context_read_unsized _ _ _ path c); [done|reflexivity|done| |cbn; lia|done
      |by cbn; rewrite Hpos|done|done|by constructor|by cbn; rewrite Hpos|cbn; lia|done].
    by destruct Hwf'.
  - destruct (Z.ltb_spec kMaxLength (u32 (Z.of_nat (length c)))).
    + eapply (context_close_goes (Some FileTooLarge)); [done|reflexivity|exact Hfd'|exact Hr|reflexivity|].
      intros s1 H1 Hk1 Ho1. apply HP; [done|by rewrite Hk1|done].
    + assert (u32 (Z.of_nat (length c)) <= Z.of_nat (length c)) as Hle by (unfold u32; lia).
      set (sz := u32 (Z.of_nat (length c))) in *.
      destruct (alloc_ok (junk_bytes junk sz) sz
        (m_heap (with_ctx (Context_ fd (rc_isUserFd (h_ctx (m_heap s))) sz (rc_buffers (h_ctx (m_heap s)))
          (rc_buffer (h_ctx (m_heap s))) (rc_pos (h_ctx (m_heap s))) (rc_err (h_ctx (m_heap s))))
          (Mach h' k' [] [] (m_out s))))) as (h1 & Ea & _ & _ & _ & Hm1 & _);
        [lia|by destruct Hwf'|intros; apply length_junk|].
      eapply goes_bind; [exact Ea|]. apply set_ctx_goes.
      eapply (context_read_sized _ _ _ path c _ sz); [done|reflexivity|done|reflexivity| |cbn; lia|cbn; lia
        |done|by cbn; rewrite Hpos|done|exact Hm1|done|by cbn; rewrite Hpos| |done].
      * lia.
      * cbn [with_ctx m_heap h_ctx rc_pos]. lia.
Qed.

(** The whole of readFile, for any postcondition. *)
Lemma readFile_goes path c s fuel :
  kf_path (m_kernel s) path = Some c -> Forall is_byte c -> Z.of_nat (length c) < 2 ^ 63 ->
  Forall char_ok path -> Z.of_nat (length path) < LKL_PATH_MAX ->
  heap_wf (m_heap s) -> m_ticks s = [] -> m_queue s = [] -> (length c < fuel)%nat ->
  exists m fd k', cstr_at m (h_next (m_heap s)) path /\
    lkl_syscall SYS_openat [AT_FDCWD; h_next (m_heap s); O_RDONLY; 438; 0; 0] (m_kernel s) m
      = (fd, k', m) /\
    forall P : mach ReadFileContext fs_result K -> Prop,
      (forall s1, m_ticks s1 = [] /\ m_queue s1 = [] /\
         m_out s1 = m_out s ++ [if fd <? 0 then CbErr (Errno (- fd)) else file_result kMaxLength enc c] ->
         P s1) ->
      goes junk (readFile junk kMaxLength enc fuel (PStr path) "r") s P.
Proof.
  intros Hk Hby Hc63 Hp Hlen Hwf Ht Hq Hfuel.
  set (s1 := with_ctx (Context_ 0 false 0 [] (Buffer 0 0) 0 None) s).
  destruct (run_task_path junk SYS_openat (ANum AT_FDCWD) path [ANum O_RDONLY; ANum 438]
    (with_errno (readFileAfterOpen junk kMaxLength enc fuel)) s1) as (m & Hc & Htask);
    [done|by repeat constructor|cbn [length]; lia|done|done|by destruct Hwf|].
  destruct (kf_open_read _ _ _ _ _ Hp Hlen Hc Hk) as (fd & k' & Ek & Hfd & Hkf & Hkp).
  exists m, fd, k'. split; [exact Hc|]. split; [exact Ek|]. intros P HP.
  unfold readFile. apply nullCheck_str; [done|]. apply set_ctx_goes. cbn [isFd]. fold s1.
  unfold open_file. cbn [stringToFlags String.eqb Ascii.eqb Bool.eqb]. unfold binding_open. apply goes_ret.
  eapply goes_push; [done|done|apply (Htask fd k' Ek)|]. rewrite s32_id by lia.
  unfold syscall_callback, with_errno. destruct (Z.ltb_spec fd 0) as [Hneg|Hpos0].
  - apply goes_callback; [done|done|]. by apply HP.
  - eapply readFileAfterOpen_goes; [done| |by apply Hkf|exact Hkp|lia|done|done|done|lia|].
    + destruct Hwf as [Hp0 Hn]. unfold LKL_PATH_MAX, alloc_gap. split; cbn [h_next h_mem m_heap s1 with_ctx]; [lia|].
      intros i Hi. apply Hn. lia.
    + intros s2 [Ht2 Hq2] _ Ho2. by apply HP.
Qed.

(** C15: fs.readFile.  For a file of a healthy file system the callback is called
    exactly once: with the errno when openat fails, otherwise with the content
    (a RangeError when it is too large for a Buffer), converted to a string if
    asked for.  The length is taken modulo 2^32, so that a file of at least 4 GiB
    comes back cut.  No step faults, and everything readFile started finishes. *)
Theorem readFile_content path c s fuel :
  kf_path (m_kernel s) path = Some c -> Forall is_byte c -> Z.of_nat (length c) < 2 ^ 63 ->
  Forall char_ok path -> Z.of_nat (length path) < LKL_PATH_MAX ->
  heap_wf (m_heap s) -> m_ticks s = [] -> m_queue s = [] ->
  (length c < fuel)%nat ->
  let p := h_next (m_heap s) in
  exists m fd k' s' final n,
    cstr_at m p path /\
    lkl_syscall SYS_openat [AT_FDCWD; p; O_RDONLY; 438; 0; 0] (m_kernel s) m = (fd, k', m) /\
    turn (readFile junk kMaxLength enc fuel (PStr path) "r") s = Ok s' /\
    (forall rounds, (n <= rounds)%nat -> loop junk rounds s' = Ok final) /\
    m_queue final = [] /\
    m_out final = m_out s ++ [if fd <? 0 then CbErr (Errno (- fd)) else file_result kMaxLength enc c].
Proof.
  intros Hk Hby Hc63 Hp Hlen Hwf Ht Hq Hfuel p.
  destruct (readFile_goes path c s fuel) as (m & fd & k' & Hc & Eo & Hg); [done..|].
  destruct (goes_loop _ _ _ _ (Hg _ (fun _ H => H))) as (s' & final & Es & (_ & Hq' & Ho) & n & Hn).
  by exists m, fd, k', s', final, n.
Qed.

End ReadCorrect.

(** ** Writing *)

Section WriteCorrect.
Context {K : Type} {kernel : Kernel K} {fk : FileKernel K} (junk : Z -> Z).
Implicit Types s : mach ReadFileContext fs_result K.

Lemma load_bytes_drop n k a m (bs : list Z) :
  (k <= n)%nat -> load_bytes n a m = Some bs ->
  load_bytes (n - k) (a + Z.of_nat k) m = Some (drop k bs).
Proof.
  intros Hk H. replace n with (k + (n - k))%nat in H by lia. rewrite load_bytes_app in H.
  destruct (load_bytes k a m) as [x|] eqn:E; [|done]. cbn [mbind option_bind] in H.
  destruct (load_bytes (n - k) _ m) as [y|]; [|done]. cbn [mbind option_bind] in H. simplify_eq.
  apply load_bytes_length in E. by rewrite <- E, drop_app_length.
Qed.

(** Writing the next bytes behind the ones already there. *)
Lemma write_extends (data : list Z) off n :
  0 <= off -> 0 <= n ->
  take (Z.to_nat off) (take (Z.to_nat off) data) ++ take (Z.to_nat n) (drop (Z.to_nat off) data) ++
    drop (Z.to_nat (off + n)) (take (Z.to_nat off) data) = take (Z.to_nat (off + n)) data.
Proof.
  intros Ho Hn. rewrite take_take, Nat.min_id. rewrite (drop_ge (take _ _)) by (rewrite length_take; lia).
  by rewrite app_nil_r, take_take_drop, <- Z2Nat.inj_add by lia.
Qed.

Lemma user_callback_goes err s P :
  idle_loop s ->
  P (Mach (m_heap s) (m_kernel s) [] [] (m_out s ++ [match err with Some e => CbErr e | None => CbNull end])) ->
  goes junk (user_callback err) s P.
Proof. intros [Ht Hq] HP. unfold user_callback. destruct err; by apply goes_callback. Qed.

(** The loop of writeAll on a file that holds what has been written so far. *)
Lemma writeAll_goes fuel : forall s fd path pos b data off P,
  idle_loop s -> 0 <= fd < 2147483648 -> kf_fd (m_kernel s) fd = Some (path, pos) ->
  kf_path (m_kernel s) path = Some (take (Z.to_nat off) data) ->
  b_len b = Z.of_nat (length data) -> b_len b < 2 ^ 63 -> 0 <= off <= b_len b ->
  load_bytes (length data) (b_data b) (h_mem (m_heap s)) = Some data ->
  b_len b - off < Z.of_nat fuel ->
  (forall s1, idle_loop s1 -> m_heap s1 = m_heap s -> kf_path (m_kernel s1) path = Some data ->
     m_out s1 = m_out s ++ [CbNull] -> P s1) ->
  goes junk (writeAll fuel fd false b off (b_len b - off) (Some off)) s P.
Proof.
  induction fuel as [|fuel IH]; intros s fd path pos b data off P Hs Hfd Hkf Hkp Hl Hl63 Hoff Hld Hfuel HP; [lia|].
  change (2 ^ 63) with 9223372036854775808 in Hl63.
  cbn [writeAll]. unfold binding_writeBuffer. destruct (Z.eqb_spec off (-1)) as [|_]; [lia|]. cbn [negb].
  rewrite buf_slice_in by lia. cbn [b_len]. replace (off + (b_len b - off) - off) with (b_len b - off) by lia.
  assert (load_bytes (Z.to_nat (b_len b - off)) (b_data b + off) (h_mem (m_heap s)) =
    Some (drop (Z.to_nat off) data)) as Hld'.
  { pose proof (load_bytes_drop (length data) (Z.to_nat off) _ _ _ ltac:(lia) Hld) as H.
    rewrite Z2Nat.id in H by lia. rewrite Hl. replace (Z.to_nat (Z.of_nat (length data) - off))
      with (length data - Z.to_nat off)%nat by lia. exact H. }
  destruct (kf_pwrite _ _ fd (b_data b + off) (b_len b - off) off path pos _ _ Hkf Hkp
    ltac:(rewrite length_take; lia) ltac:(lia) Hld') as (n & k' & E & Hn & Hn' & Hpos & Hkp' & Hkf').
  destruct Hs as [Ht Hq].
  eapply goes_push; [done|done|apply (run_task_plain junk _ _ _ _ n k' (h_mem (m_heap s)))|];
    [by repeat constructor|cbn [length]; lia| |].
  { cbn [map arg_val b_data]. rewrite (s64_id fd), (s64_id (b_len b - off)), (s64_id off) by lia. exact E. }
  rewrite s32_id by lia. unfold syscall_callback, with_errno. destruct (Z.ltb_spec n 0); [lia|].
  cbn [fmap option_fmap option_map]. rewrite Ht, Hq.
  rewrite write_extends in Hkp' by lia.
  destruct (Z.eqb_spec n (b_len b - off)) as [Hend|Hmore].
  - replace (off + n) with (b_len b) in Hkp' by lia. rewrite Hl, Nat2Z.id, firstn_all in Hkp'.
    eapply binding_close_goes; [done|exact Hkf'|exact Hfd|]. intros k2 Hk2.
    apply user_callback_goes; [done|]. apply HP; [done|by destruct s as [[]]|cbn; by rewrite Hk2|done].
  - replace (b_len b - off - n) with (b_len b - (off + n)) by lia.
    eapply IH; [done|exact Hfd|exact Hkf'|exact Hkp'|done|lia|lia|exact Hld|lia|].
    intros s1 H1 Hh1 Hk1 Ho1. apply HP; [done| |done|done]. rewrite Hh1. by destruct s as [[]].
Qed.

Lemma load_zeros n k a m : (n <= k)%nat -> load n a (put_bytes a (repeat 0 k) m) = Some 0.
Proof.
  revert k a. induction n as [|n IH]; intros k a Hk; [done|]. destruct k as [|k]; [lia|].
  cbn [repeat put_bytes]. unfold load; fold load. rewrite lookup_insert_eq.
  rewrite (load_ext n (a + 1) (put_bytes (a + 1) (repeat 0 k) m)), IH by
    (lia || (intros i Hi; unfold range in Hi; rewrite lookup_insert_ne by lia; done)).
  done.
Qed.

Lemma put_bytes_app a bs1 bs2 m :
  put_bytes a (bs1 ++ bs2) m = put_bytes a bs1 (put_bytes (a + Z.of_nat (length bs1)) bs2 m).
Proof.
  revert a. induction bs1 as [|b bs1 IH]; intros a; cbn [app put_bytes length].
  - by rewrite Z.add_0_r.
  - rewrite IH. do 3 f_equal. lia.
Qed.

Lemma load_zeros_at n off a m :
  0 <= off -> off + Z.of_nat n <= STRUCT_LKL_STAT_SIZE ->
  load n (a + off) (put_bytes a (repeat 0 (Z.to_nat STRUCT_LKL_STAT_SIZE)) m) = Some 0.
Proof.
  intros Ho Hn. replace (Z.to_nat STRUCT_LKL_STAT_SIZE)
    with (Z.to_nat off + Z.to_nat (STRUCT_LKL_STAT_SIZE - off))%nat by lia.
  rewrite repeat_app, put_bytes_app, repeat_length, Z2Nat.id by lia.
  rewrite (load_ext n (a + off) (put_bytes (a + off) (repeat 0 (Z.to_nat (STRUCT_LKL_STAT_SIZE - off))) m)).
  - apply load_zeros. lia.
  - intros i Hi. apply put_bytes_out. unfold range in *. rewrite repeat_length. lia.
Qed.

(** A zeroed structure parses to a Stats object full of zeros. *)
Lemma parse_zeros a m :
  parseLklStat a (put_bytes a (repeat 0 (Z.to_nat STRUCT_LKL_STAT_SIZE)) m) =
    Some (fs_Stats 0 0 0 0 0 0 0 0 0 0 0 0 0 0).
Proof.
  unfold parseLklStat, long_field, field.
  rewrite !load_zeros_at by (unfold STRUCT_LKL_STAT_SIZE; lia). reflexivity.
Qed.

(** The whole of writeFile with the default flag, for any postcondition. *)
Lemma writeFile_goes path b data s fuel :
  Forall char_ok path -> Z.of_nat (length path) < LKL_PATH_MAX ->
  heap_wf (m_heap s) -> m_ticks s = [] -> m_queue s = [] ->
  b_len b = Z.of_nat (length data) -> b_len b < 2 ^ 63 ->
  load_bytes (length data) (b_data b) (h_mem (m_heap s)) = Some data ->
  (length data < fuel)%nat ->
  exists m fd k', cstr_at m (h_next (m_heap s)) path /\
    lkl_syscall SYS_openat
      [AT_FDCWD; h_next (m_heap s); lors [O_TRUNC; O_CREAT; O_WRONLY]; 438; 0; 0] (m_kernel s) m
      = (fd, k', m) /\
    forall P : mach ReadFileContext fs_result K -> Prop,
      (forall s1, idle_loop s1 -> heap_wf (m_heap s1) ->
         (0 <= fd -> kf_path (m_kernel s1) path = Some data) ->
         m_out s1 = m_out s ++ [if fd <? 0 then CbErr (Errno (- fd)) else CbNull] -> P s1) ->
      goes junk (writeFile junk fuel (PStr path) b 438 "w") s P.
Proof.
  intros Hp Hlen Hwf Ht Hq Hl Hl63 Hld Hfuel.
  destruct (run_task_path junk SYS_openat (ANum AT_FDCWD) path
    [ANum (lors [O_TRUNC; O_CREAT; O_WRONLY]); ANum 438]
    (with_errno (fun openErr fd => match openErr with
       | Some _ => user_callback openErr | None => writeFd fuel b "w" fd false end)) s)
    as (m & Hc & Htask); [done|by repeat constructor|cbn [length]; lia|done|done|done|].
  destruct (kf_open_write (m_kernel s) m _ path 438 Hp Hlen Hc) as (fd & k' & Ek & Hfd & Hk).
  exists m, fd, k'. split; [exact Hc|]. split; [exact Ek|]. intros P HP.
  unfold writeFile, fs_open. apply nullCheck_str; [done|].
  cbn [stringToFlags String.eqb Ascii.eqb Bool.eqb orb]. unfold binding_open. apply goes_ret.
  eapply goes_push; [done|done|apply (Htask fd k' Ek)|]. rewrite s32_id by lia.
  assert (forall c, heap_wf (Heap (h_mem (m_heap s))
    (h_next (m_heap s) + LKL_PATH_MAX + alloc_gap) (C := ReadFileContext) c)) as Hwf'.
  { intros c. destruct Hwf as [Hp0 Hn]. unfold LKL_PATH_MAX, alloc_gap. split; cbn [h_next h_mem]; [lia|].
    intros i Hi. apply Hn. lia. }
  unfold syscall_callback, with_errno. destruct (Z.ltb_spec fd 0) as [Hneg|Hpos].
  - apply user_callback_goes; [done|]. apply HP; [done|apply Hwf'|cbn; lia|].
    cbn [m_out fmap option_fmap option_map]. done.
  - destruct (Hk Hpos) as [Hkf Hkp]. cbn [fmap option_fmap option_map]. unfold writeFd. cbn [has_a Ascii.eqb Bool.eqb orb].
    rewrite <- (Z.sub_0_r (b_len b)).
    eapply (writeAll_goes _ _ fd path 0 b data 0); [done|lia|exact Hkf|exact Hkp|done|done|lia|exact Hld|lia|].
    intros s1 H1 Hh1 Hk1 Ho1. apply HP; [done|rewrite Hh1; apply Hwf'|done|done].
Qed.

(** C12: what writeFile wrote, readFile reads.  Both call their callback exactly
    once; when the opens succeed, writeFile reports no error and readFile of the
    same path then yields the very bytes of the Buffer, whatever short writes and
    short reads the kernel makes of them. *)
Theorem writeFile_readFile kMaxLength path b data s fuel :
  Forall char_ok path -> Z.of_nat (length path) < LKL_PATH_MAX ->
  heap_wf (m_heap s) -> m_ticks s = [] -> m_queue s = [] -> Forall is_byte data ->
  b_len b = Z.of_nat (length data) -> b_len b <= kMaxLength < 2 ^ 32 ->
  load_bytes (length data) (b_data b) (h_mem (m_heap s)) = Some data ->
  (length data < fuel)%nat ->
  exists m1 fd1 k1 s1 final1 n1,
    cstr_at m1 (h_next (m_heap s)) path /\
    lkl_syscall SYS_openat [AT_FDCWD; h_next (m_heap s); lors [O_TRUNC; O_CREAT; O_WRONLY]; 438; 0; 0]
      (m_kernel s) m1 = (fd1, k1, m1) /\
    turn (writeFile junk fuel (PStr path) b 438 "w") s = Ok s1 /\
    (forall rounds, (n1 <= rounds)%nat -> loop junk rounds s1 = Ok final1) /\
    m_out final1 = m_out s ++ [if fd1 <? 0 then CbErr (Errno (- fd1)) else CbNull] /\
    (0 <= fd1 -> exists m2 fd2 k2 s2 final2 n2,
       cstr_at m2 (h_next (m_heap final1)) path /\
       lkl_syscall SYS_openat [AT_FDCWD; h_next (m_heap final1); O_RDONLY; 438; 0; 0]
         (m_kernel final1) m2 = (fd2, k2, m2) /\
       turn (readFile junk kMaxLength None fuel (PStr path) "r") final1 = Ok s2 /\
       (forall rounds, (n2 <= rounds)%nat -> loop junk rounds s2 = Ok final2) /\
       m_out final2 = m_out final1 ++ [if fd2 <? 0 then CbErr (Errno (- fd2)) else CbData data]).
Proof.
  intros Hp Hlen Hwf Ht Hq Hby Hl Hmax Hld Hfuel. change (2 ^ 32) with 4294967296 in Hmax.
  destruct (writeFile_goes path b data s fuel) as (m1 & fd1 & k1 & Hc1 & Eo1 & Hg); [done..|lia|done|done|].
  destruct (goes_loop _ _ _ _ (Hg (fun f => idle_loop f /\ heap_wf (m_heap f) /\
    (0 <= fd1 -> kf_path (m_kernel f) path = Some data) /\
    m_out f = m_out s ++ [if fd1 <? 0 then CbErr (Errno (- fd1)) else CbNull]) ltac:(by intros)))
    as (s1 & final1 & E1 & ([Ht1 Hq1] & Hwf1 & Hk1 & Ho1) & n1 & Hn1).
  exists m1, fd1, k1, s1, final1, n1. split; [exact Hc1|]. split; [exact Eo1|]. split; [exact E1|]. split; [exact Hn1|]. split; [exact Ho1|]. intros Hfd.
  destruct (readFile_goes junk kMaxLength None path data final1 fuel)
    as (m2 & fd2 & k2 & Hc2 & Eo2 & Hg2); [by apply Hk1|done|lia|done..|].
  destruct (goes_loop _ _ _ _ (Hg2 _ (fun _ H => H))) as (s2 & final2 & E2 & (_ & _ & Ho2) & n2 & Hn2).
  exists m2, fd2, k2, s2, final2, n2. split; [exact Hc2|]. split; [exact Eo2|]. split; [exact E2|]. split; [exact Hn2|]. rewrite Ho2. do 3 f_equal.
  destruct (fd2 <? 0); [done|]. unfold file_result, to_string. rewrite u32_id by lia.
  destruct (Z.eqb_spec (Z.of_nat (length data)) 0) as [|_]; [done|].
  destruct (Z.ltb_spec kMaxLength (Z.of_nat (length data))); [lia|].
  by rewrite Nat2Z.id, firstn_all.
Qed.

(** an fstat that fails calls its callback twice, first with the error and then
    with a Stats object parsed from a structure the kernel never filled. *)
Theorem fstat_error_calls_back_twice fd e (tag : option jserr -> option Stats -> fs_result) s k' :
  heap_wf (m_heap s) -> m_ticks s = [] -> m_queue s = [] -> 0 <= fd < 2147483648 -> 0 < e < 4096 ->
  (forall a m, lkl_syscall SYS_fstat [fd; a; 0; 0; 0; 0] (m_kernel s) m = (- e, k', m)) ->
  exists s' final n,
    turn (binding_fstat fd (fun err st => Callback (tag err st) Done)) s = Ok s' /\
    (forall rounds, (n <= rounds)%nat -> loop junk rounds s' = Ok final) /\
    m_out final = m_out s ++ [tag (Some (Errno e)) None;
                              tag None (Some (fs_Stats 0 0 0 0 0 0 0 0 0 0 0 0 0 0))].
Proof.
  intros Hwf Ht Hq Hfd He Hk.
  destruct (goes_loop junk (binding_fstat fd (fun err st => Callback (tag err st) Done)) s
    (fun f => m_out f = m_out s ++ [tag (Some (Errno e)) None;
                              tag None (Some (fs_Stats 0 0 0 0 0 0 0 0 0 0 0 0 0 0))]))
    as (s' & final & Es & Ho & n & Hn); [|by exists s', final, n].
  unfold binding_fstat. eapply goes_bind; [reflexivity|].
  eapply goes_push; [done|done|eapply (run_task_plain junk _ _ _ _ (- e) k')|];
    [by repeat constructor|cbn [length]; lia| |].
  { cbn [map arg_val b_data m_kernel m_heap h_mem]. rewrite (s64_id fd) by lia. apply Hk. }
  rewrite s32_id by lia. unfold syscall_callback. destruct (Z.ltb_spec (- e) 0); [|lia].
  cbn [seq_js m_heap m_ticks m_queue m_out]. rewrite Ht, Hq, Z.opp_involutive.
  do 2 eexists. split.
  { cbn [turn Bind]. unfold on_mem. cbn [m_heap h_mem]. rewrite parse_zeros. cbn [turn]. reflexivity. }
  split; [by apply runs_end|]. cbn [m_out]. by rewrite <- app_assoc.
Qed.

End WriteCorrect.

(** ** A kernel with files in memory *)

Module FsDemo.

Record kst := Kst { ks_files : gmap (list Z) (list Z); ks_fds : gmap Z (list Z * Z) }.

Definition EBADF : Z := 9.
Definition EFAULT : Z := 14.
Definition EMFILE : Z := 24.

Definition sys_openat (p flags : Z) (k : kst) (m : mem) : Z * kst * mem :=
  match user_path p m, unused_fd (ks_fds k) with
  | None, _ => (- EFAULT, k, m)
  | Some _, None => (- EMFILE, k, m)
  | Some path, Some fd =>
      let fds := <[fd := (path, 0)]> (ks_fds k) in
      if Z.testbit flags 9 then (fd, Kst (<[path := []]> (ks_files k)) fds, m)
      else
        match ks_files k !! path with
        | Some _ => (fd, Kst (ks_files k) fds, m)
        | None => (- ENOENT, k, m)
        end
  end.

(** [f] on the open file: its path, its position and its content. *)
Definition with_file (fd : Z) (k : kst) (m : mem)
    (f : list Z -> Z -> list Z -> Z * kst * mem) : Z * kst * mem :=
  match ks_fds k !! fd with
  | None => (- EBADF, k, m)
  | Some (path, pos) =>
      match ks_files k !! path with
      | None => (- EBADF, k, m)
      | Some c => f path pos c
      end
  end.

Definition sys_fstat (fd buf : Z) (k : kst) (m : mem) : Z * kst * mem :=
  with_file fd k m (fun path pos c =>
    let t := Timespec 0 0 in
    match cp_new_stat (Kstat 1 0 33188 1 0 0 0 (Z.of_nat (length c)) t t t 4096 0) buf m with
    | Some (r, m') => (r, k, m')
    | None => (- EFAULT, k, m)
    end).

(** At most three bytes at a time. *)
Definition sys_read (fd buf len : Z) (k : kst) (m : mem) : Z * kst * mem :=
  with_file fd k m (fun path pos c =>
    let n := Z.max 0 (Z.min (Z.min len 3) (Z.of_nat (length c) - pos)) in
    match store_bytes buf (take (Z.to_nat n) (drop (Z.to_nat pos) c)) m with
    | Some m' => (n, Kst (ks_files k) (<[fd := (path, pos + n)]> (ks_fds k)), m')
    | None => (- EFAULT, k, m)
    end).

(** At most two bytes at a time. *)
Definition sys_pwrite64 (fd buf len off : Z) (k : kst) (m : mem) : Z * kst * mem :=
  with_file fd k m (fun path pos c =>
    let n := Z.min len 2 in
    match load_bytes (Z.to_nat len) buf m with
    | Some bs =>
        let c' := take (Z.to_nat off) c ++ take (Z.to_nat n) bs ++ drop (Z.to_nat (off + n)) c in
        (n, Kst (<[path := c']> (ks_files k)) (ks_fds k), m)
    | None => (- EFAULT, k, m)
    end).

Definition sys_close (fd : Z) (k : kst) (m : mem) : Z * kst * mem :=
  match ks_fds k !! fd with
  | None => (- EBADF, k, m)
  | Some _ => (0, Kst (ks_files k) (delete fd (ks_fds k)), m)
  end.

#[export] Instance kst_kernel : Kernel kst := fun no params k m =>
  match params with
  | [a; b; c; d; _; _] =>
      if no =? SYS_openat then sys_openat b c k m
      else if no =? SYS_fstat then sys_fstat a b k m
      else if no =? SYS_read then sys_read a b c k m
      else if no =? SYS_pwrite64 then sys_pwrite64 a b c d k m
      else if no =? SYS_close then sys_close a k m
      else (- ENOSYS, k, m)
  | _ => (- ENOSYS, k, m)
  end.

Lemma with_file_ok fd k m f path pos c :
  ks_fds k !! fd = Some (path, pos) -> ks_files k !! path = Some c ->
  with_file fd k m f = f path pos c.
Proof. intros H1 H2. unfold with_file. by rewrite H1, H2. Qed.

#[export, refine] Instance kst_files : FileKernel kst := {
  kf_path k path := ks_files k !! path;
  kf_fd k fd := ks_fds k !! fd
}.
Proof.
  - intros k m p path c Hp Hl Hc Hk. change (lkl_syscall SYS_openat _ k m) with (sys_openat p 0 k m).
    unfold sys_openat. rewrite (user_path_ok _ path) by done. rewrite Hk. cbn [Z.testbit].
    destruct (unused_fd (ks_fds k)) as [fd|] eqn:E; do 2 eexists; (split; [reflexivity|]).
    + apply unused_fd_range in E. split; [lia|]. cbn [ks_fds ks_files]. by rewrite lookup_insert_eq.
    + split; [by unfold EMFILE|]. split; [|done]. intros H. by unfold EMFILE in H.
  - intros k m p path mode Hp Hl Hc.
    change (lkl_syscall SYS_openat _ k m) with (sys_openat p 577 k m).
    unfold sys_openat. rewrite (user_path_ok _ path) by done. change (Z.testbit 577 9) with true.
    destruct (unused_fd (ks_fds k)) as [fd|] eqn:E; do 2 eexists; (split; [reflexivity|]).
    + apply unused_fd_range in E. split; [lia|]. cbn [ks_fds ks_files]. by rewrite !lookup_insert_eq.
    + split; [by unfold EMFILE|]. intros H. by unfold EMFILE in H.
  - intros k m fd buf path pos c Hfd Hk Hm Hl. change (lkl_syscall SYS_fstat _ k m) with (sys_fstat fd buf k m).
    unfold sys_fstat. rewrite (with_file_ok _ _ _ _ _ _ _ Hfd Hk). cbv zeta. set (st := Kstat _ _ _ _ _ _ _ _ _ _ _ _ _).
    assert (kstat_ok st) as Hok.
    { unfold st. constructor; cbn; try lia. repeat constructor; cbn; lia. }
    destruct (parse_cp_new_stat st buf m Hok Hm) as (m' & E & _). rewrite E.
    by exists st, k, m'.
  - intros k m fd buf len path pos c Hfd Hk Hp Hlen Hm.
    change (lkl_syscall SYS_read _ k m) with (sys_read fd buf len k m).
    unfold sys_read. rewrite (with_file_ok _ _ _ _ _ _ _ Hfd Hk). cbv zeta. set (n := Z.max 0 _).
    destruct (store_bytes_some buf (take (Z.to_nat n) (drop (Z.to_nat pos) c)) m) as [m' E].
    { eapply mapped_sub; [exact Hm|lia|]. rewrite length_take, length_drop. lia. }
    rewrite E. exists n, (Kst (ks_files k) (<[fd := (path, pos + n)]> (ks_fds k))), m'.
    split; [done|]. split; [lia|]. split; [lia|]. split; [lia|]. split; [done|]. split; [lia|].
    cbn [ks_fds ks_files]. by rewrite lookup_insert_eq.
  - intros k m fd buf len off path pos c bs Hfd Hk Hoff Hlen Hld.
    change (lkl_syscall SYS_pwrite64 _ k m) with (sys_pwrite64 fd buf len off k m).
    unfold sys_pwrite64. rewrite (with_file_ok _ _ _ _ _ _ _ Hfd Hk). cbv zeta. rewrite Hld.
    do 2 eexists. split; [reflexivity|]. cbn [ks_fds ks_files]. rewrite lookup_insert_eq.
    split_and!; try lia; done.
  - intros k m fd path pos Hfd. change (lkl_syscall SYS_close _ k m) with (sys_close fd k m).
    unfold sys_close. rewrite Hfd. by eexists.
Defined.

(** Memory with the Buffer that holds the bytes 1 to 5 at address 64. *)
Definition h0 : heap ReadFileContext :=
  Heap (put_bytes 64 [1; 2; 3; 4; 5] ∅) 128 (Context_ 0 false 0 [] (Buffer 0 0) 0 None).

Definition s0 (files : gmap (list Z) (list Z)) : mach ReadFileContext fs_result kst :=
  Mach h0 (Kst files ∅) [] [] [].

Lemma h0_wf : heap_wf h0.
Proof.
  split; [done|]. cbn [h0 h_next h_mem]. intros i Hi. rewrite put_bytes_out; [apply lookup_empty|].
  unfold range. cbn [length]. lia.
Qed.

End FsDemo.
Import FsDemo.

Lemma readFile_content_witness :
  exists s' final n,
    turn (readFile (fun _ => 9) 100 None 9 (PStr [47; 102]) "r") (s0 {[ [47; 102] := [7; 8; 9; 10; 11] ]}) = Ok s' /\
    (forall rounds, (n <= rounds)%nat -> loop (fun _ => 9) rounds s' = Ok final) /\
    m_out final = [CbData [7; 8; 9; 10; 11]].
Proof.
  destruct (readFile_content (fun _ => 9) 100 None [47; 102] [7; 8; 9; 10; 11]
    (s0 {[ [47; 102] := [7; 8; 9; 10; 11] ]}) 9) as (m & fd & k' & s' & final & n & Hc & Ek & Es & Hn & _ & Ho).
  - reflexivity.
  - repeat constructor; discriminate.
  - reflexivity.
  - repeat constructor.
  - reflexivity.
  - apply h0_wf.
  - reflexivity.
  - reflexivity.
  - cbn [length]. lia.
  - exists s', final, n. split; [exact Es|]. split; [exact Hn|]. rewrite Ho.
    assert (fd = 0) as ->; [|reflexivity].
    change (sys_openat 128 0 (Kst {[ [47; 102] := [7; 8; 9; 10; 11] ]} ∅) m = (fd, k', m)) in Ek.
    unfold sys_openat in Ek. rewrite (user_path_ok _ [47; 102]) in Ek; [|by repeat constructor|done|exact Hc].
    by vm_compute in Ek; simplify_eq.
Defined.

(** The outcome of an open on the files in memory. *)
Lemma demo_open flags path files fds m :
  Forall char_ok path -> Z.of_nat (length path) < LKL_PATH_MAX -> forall p, cstr_at m p path ->
  fds !! 0 = None -> Z.testbit flags 9 = true \/ is_Some (files !! path) ->
  exists k, sys_openat p flags (Kst files fds) m = (0, k, m).
Proof.
  intros Hp Hl p Hc Hfds Hx. unfold sys_openat. rewrite (user_path_ok _ path) by done.
  cbn [ks_fds]. rewrite unused_fd_0 by done.
  destruct (Z.testbit flags 9); [by eexists|]. destruct Hx as [|[c Hc']]; [done|].
  cbn [ks_files]. rewrite Hc'. by eexists.
Qed.

Lemma writeFile_readFile_witness :
  exists s1 final1 n1,
    turn (writeFile (fun _ => 9) 9 (PStr [47; 103]) (Buffer 64 5) 438 "w") (s0 ∅) = Ok s1 /\
    (forall rounds, (n1 <= rounds)%nat -> loop (fun _ => 9) rounds s1 = Ok final1) /\
    m_out final1 = [CbNull].
Proof.
  destruct (writeFile_readFile (fun _ => 9) 100 [47; 103] (Buffer 64 5) [1; 2; 3; 4; 5] (s0 ∅) 9)
    as (m1 & fd1 & k1 & s1 & final1 & n1 & Hc1 & Eo1 & E1 & Hn1 & Ho1 & _).
  - repeat constructor.
  - reflexivity.
  - apply h0_wf.
  - reflexivity.
  - reflexivity.
  - repeat constructor; discriminate.
  - reflexivity.
  - cbn. lia.
  - reflexivity.
  - cbn [length]. lia.
  - exists s1, final1, n1. split; [exact E1|]. split; [exact Hn1|]. rewrite Ho1.
    destruct (demo_open 577 [47; 103] ∅ ∅ m1 ltac:(by repeat constructor) eq_refl _ Hc1 eq_refl
      (or_introl eq_refl)) as [k E].
    change (sys_openat 128 577 (Kst ∅ ∅) m1 = (0, k, m1)) in E.
    change (sys_openat 128 577 (Kst ∅ ∅) m1 = (fd1, k1, m1)) in Eo1.
    rewrite E in Eo1. injection Eo1 as <- <-. reflexivity.
Defined.

Lemma fstat_error_calls_back_twice_witness :
  exists s' final n,
    turn (binding_fstat 7 (fun err st => Callback (match err, st with
        | Some e, _ => CbErr e | None, Some st => CbData [mode st] | None, None => CbNull end) Done))
      (s0 ∅) = Ok s' /\
    (forall rounds, (n <= rounds)%nat -> loop (fun _ => 9) rounds s' = Ok final) /\
    m_out final = [CbErr (Errno 9); CbData [0]].
Proof.
  destruct (fstat_error_calls_back_twice (fun _ => 9) 7 9 (fun err st => match err, st with
        | Some e, _ => CbErr e | None, Some st => CbData [mode st] | None, None => CbNull end)
      (s0 ∅) (Kst ∅ ∅)) as (s' & final & n & Es & Hn & Ho).
  - apply h0_wf.
  - reflexivity.
  - reflexivity.
  - lia.
  - lia.
  - reflexivity.
  - exists s', final, n. split; [exact Es|]. split; [exact Hn|]. exact Ho.
Defined.
