(* ===== verification/DiskDev.v ===== *)
(** * DiskDev

    The life of a disk: device set-up and clean-up (tools/lkl/lib/virtio.c),
    lkl_disk_add and lkl_disk_remove (virtio_blk.c), lkl_mount_fs (fs.c) and
    the disk operations of the addon (src/disk.cc), over the interrupt table,
    the I/O memory table, the host's heap and the kernel command line. *)

From Stdlib Require Import Strings.String.
From S2P Require Import Prelude Memory Iomem Irq Virtio.

(** ** Numbers as text *)

Definition digit_char (d : Z) : Z := if d <? 10 then 48 + d else 87 + d.

(** The digits of [n] in base [b], most significant first. *)
Fixpoint digits (fuel : nat) (b n : Z) (acc : list Z) : list Z :=
  match fuel with
  | O => acc
  | S fuel' =>
      let acc := digit_char (n mod b) :: acc in
      if n <? b then acc else digits fuel' b (n / b) acc
  end.

(** %d for a non-negative int, %lx for a uintptr_t. *)
Definition print_dec (n : Z) : list Z := digits 20 10 n [].
Definition print_hex (n : Z) : list Z := digits 20 16 n [].

Definition chars (s : string) : list Z :=
  map (fun c => Z.of_N (Ascii.N_of_ascii c)) (list_ascii_of_string s).

(** The text virtio_dev_setup adds to the command line of the kernel; [base]
    is a uintptr_t, the other two are not negative. *)
Definition device_param (mmio_size base irq : Z) : list Z :=
  chars " virtio_mmio.device=" ++ print_dec mmio_size ++ chars "@0x" ++ print_hex base ++
  chars ":" ++ print_dec irq.

(** ** The host *)

(** struct lkl_disk; its operations are those of the addon. *)
Record lkl_disk := LklDisk { dk_dev : Z; dk_handle : Z }.

(** struct virtio_blk_dev: the device, the address of its queue array and the
    copy of the disk. *)
Record virtio_blk_dev := VirtioBlkDev { b_dev : virtio_dev; b_queue : Z; b_disk : lkl_disk }.

(** struct lkl_dir (fs.c): [ld_pos] is the offset of [pos] in [buf], [None]
    for NULL. *)
Record lkl_dir := LklDir { ld_fd : Z; ld_buf : list Z; ld_pos : option Z; ld_len : Z }.

(** What a live block of the heap holds. *)
Inductive block := BDev (v : virtio_blk_dev) | BQueues | BDir (d : lkl_dir).

(** The system calls the host library makes that return a number only. *)
Inductive kcall :=
  | KDeviceAdd (base size irq : Z)
  | KMkdir (path : list Z) (mode : Z)
  | KMount (dev dir fstype : list Z) (flags : Z) (data : option (list Z))
  | KRmdir (path : list Z)
  | KOpen (path : list Z) (flags mode : Z)
  | KWrite (fd : Z) (data : list Z)
  | KClose (fd : Z)
  | KUmount (path : list Z) (flags : Z)
  | KUnlink (path : list Z)
  | KAccess (path : list Z) (mode : Z)
  | KMknod (path : list Z) (mode dev : Z)
  | KLseek (fd offset whence : Z)
  | KSync
  | KNanosleep (sec nsec : Z)
  | KSetrlimit (resource cur max : Z).

Section Host.
(** [virtio_ops] is the region's table of operations; [kernel] is the kernel
    behind the system calls, any function of its state. *)
Context {D K : Type} (virtio_ops : lkl_iomem_ops D) (kernel : kcall -> K -> Z * K).

(** [hs_devs] is the string in lkl_virtio_devs, [hs_devs_pos] the offset of
    the pointer [devs] in it; [hs_oom] says which allocations fail. *)
Record host := Host {
  hs_irq : irq_state;
  hs_iomem : list (iomem_region D);
  hs_heap : gmap Z block;
  hs_next : Z;
  hs_oom : list bool;
  hs_devs : list Z;
  hs_devs_pos : Z;
  hs_nboot : Z;
  hs_running : bool;
  hs_kernel : K;
  hs_disks : gmap Z lkl_disk
}.

Definition upd_irq v h := Host v (hs_iomem h) (hs_heap h) (hs_next h) (hs_oom h) (hs_devs h)
  (hs_devs_pos h) (hs_nboot h) (hs_running h) (hs_kernel h) (hs_disks h).
Definition upd_iomem v h := Host (hs_irq h) v (hs_heap h) (hs_next h) (hs_oom h) (hs_devs h)
  (hs_devs_pos h) (hs_nboot h) (hs_running h) (hs_kernel h) (hs_disks h).
Definition upd_heap v h := Host (hs_irq h) (hs_iomem h) v (hs_next h) (hs_oom h) (hs_devs h)
  (hs_devs_pos h) (hs_nboot h) (hs_running h) (hs_kernel h) (hs_disks h).
Definition upd_alloc next oom h := Host (hs_irq h) (hs_iomem h) (hs_heap h) next oom (hs_devs h)
  (hs_devs_pos h) (hs_nboot h) (hs_running h) (hs_kernel h) (hs_disks h).
Definition upd_devs v h := Host (hs_irq h) (hs_iomem h) (hs_heap h) (hs_next h) (hs_oom h) v
  (hs_devs_pos h) (hs_nboot h) (hs_running h) (hs_kernel h) (hs_disks h).
Definition upd_boot pos nboot h := Host (hs_irq h) (hs_iomem h) (hs_heap h) (hs_next h) (hs_oom h)
  (hs_devs h) pos nboot (hs_running h) (hs_kernel h) (hs_disks h).
Definition upd_kernel v h := Host (hs_irq h) (hs_iomem h) (hs_heap h) (hs_next h) (hs_oom h)
  (hs_devs h) (hs_devs_pos h) (hs_nboot h) (hs_running h) v (hs_disks h).
Definition upd_disks v h := Host (hs_irq h) (hs_iomem h) (hs_heap h) (hs_next h) (hs_oom h)
  (hs_devs h) (hs_devs_pos h) (hs_nboot h) (hs_running h) (hs_kernel h) v.

(** malloc: 0 when it fails, else an address that is not live; [b] is what
    the block holds. *)
Definition mem_alloc (b : block) : M host Z := fun h =>
  match hs_oom h with
  | true :: oom => Ok (0, upd_alloc (hs_next h) oom h)
  | oom => Ok (hs_next h, upd_alloc (hs_next h + 1) (tail oom)
                            (upd_heap (<[hs_next h := b]> (hs_heap h)) h))
  end.

(** free; freeing a block that is not live is undefined. *)
Definition mem_free (p : Z) : M host unit := fun h =>
  match hs_heap h !! p with
  | Some _ => Ok (tt, upd_heap (delete p (hs_heap h)) h)
  | None => Fail Segv
  end.

Definition get_dev (p : Z) : M host virtio_blk_dev := fun h =>
  match hs_heap h !! p with
  | Some (BDev v) => Ok (v, h)
  | _ => Fail Segv
  end.

Definition mod_dev (p : Z) (f : virtio_blk_dev -> virtio_blk_dev) : M host unit := fun h =>
  match hs_heap h !! p with
  | Some (BDev v) => Ok (tt, upd_heap (<[p := BDev (f v)]> (hs_heap h)) h)
  | _ => Fail Segv
  end.

Definition on_dev (f : virtio_dev -> virtio_dev) (v : virtio_blk_dev) : virtio_blk_dev :=
  VirtioBlkDev (f (b_dev v)) (b_queue v) (b_disk v).

Definition get_free_irq (user : string) : M host Z := fun h =>
  let (i, st) := lkl_get_free_irq user (hs_irq h) in Ok (i, upd_irq st h).

Definition put_irq (i : Z) (user : string) : M host unit := fun h =>
  match lkl_put_irq i user (hs_irq h) with
  | Ok st => Ok (tt, upd_irq st h)
  | Fail e => Fail e
  end.

Definition do_register_iomem (data size : Z) : M host Z := fun h =>
  let (base, rs) := register_iomem data size virtio_ops (hs_iomem h) in Ok (base, upd_iomem rs h).

Definition do_unregister_iomem (base : Z) : M host unit :=
  modifyM (fun h => upd_iomem (unregister_iomem base (hs_iomem h)) h).

Definition sys (c : kcall) : M host Z := fun h =>
  let (r, k) := kernel c (hs_kernel h) in Ok (r, upd_kernel k h).

(** ** Device set-up (virtio.c) *)

Definition LKL_VIRTIO_DEVS_SIZE : Z := 4096.

Definition new_queue (num_max : Z) : virtio_queue := VirtioQueue num_max 0 0 0 0 0 0 0 0.

(** The branch of virtio_dev_setup for a kernel that is not running yet: the
    device goes on its command line. snprintf leaves at most [avail - 1]
    characters and the final NUL at [devs]. *)
Definition setup_cmdline (p q mmio_size base irq : Z) : M host Z :=
  let* h := getM in
  let avail := LKL_VIRTIO_DEVS_SIZE - hs_devs_pos h in
  let text := device_param mmio_size base irq in
  let num_bytes := Z.of_nat (length text) in
  modifyM (upd_devs (take (Z.to_nat (hs_devs_pos h)) (hs_devs h) ++
                     take (Z.to_nat (avail - 1)) text)) ;;;
  if avail <=? num_bytes then
    put_irq irq "virtio" ;;;
    do_unregister_iomem base ;;;
    mem_free q ;;;
    retM (- ENOMEM)
  else
    modifyM (upd_boot (hs_devs_pos h + num_bytes) (u32 (hs_nboot h + 1))) ;;;
    mod_dev p (on_dev (with_virtio_mmio_id (hs_nboot h))) ;;;
    retM 0.

(** The other branch; the int [ret] takes the call's long. *)
Definition setup_running (p mmio_size base irq : Z) : M host Z :=
  let* r := sys (KDeviceAdd base mmio_size irq) in
  let ret := s32 r in
  if ret <? 0 then retM (-1)
  else
    let* h := getM in
    mod_dev p (on_dev (with_virtio_mmio_id (u32 (hs_nboot h + ret)))) ;;;
    retM 0.

(** virtio_dev_setup for the device in the block at [p]. *)
Definition virtio_dev_setup (p queues num_max : Z) : M host Z :=
  let* irq := get_free_irq "virtio" in
  mod_dev p (on_dev (with_irq irq)) ;;;
  if irq <? 0 then retM irq
  else
    mod_dev p (on_dev (fun d => with_device_features
      (Z.lor (d_device_features d)
         (Z.lor (BIT VIRTIO_F_VERSION_1) (BIT VIRTIO_RING_F_EVENT_IDX))) d)) ;;;
    let* q := mem_alloc BQueues in
    mod_dev p (fun v => VirtioBlkDev (b_dev v) q (b_disk v)) ;;;
    if q =? 0 then retM (- ENOMEM)
    else
      mod_dev p (on_dev (with_queues (replicate (Z.to_nat queues) (new_queue num_max)))) ;;;
      let* v := get_dev p in
      let mmio_size := VIRTIO_MMIO_CONFIG + d_config_len (b_dev v) in
      let* base := do_register_iomem p mmio_size in
      mod_dev p (on_dev (with_base base)) ;;;
      if base =? 0 then mem_free q ;;; retM (- ENOMEM)
      else
        let* h := getM in
        if negb (hs_running h) then setup_cmdline p q mmio_size base irq
        else setup_running p mmio_size base irq.

(** lkl_mount_fs (fs.c): 0 when it mounted, 1 when it was mounted already. *)
Definition lkl_mount_fs (fstype : list Z) : M host Z :=
  let dir := chars "/" ++ take 50 fstype in
  let* r := sys (KMkdir dir 255) in
  let ret := s32 r in
  if negb (ret =? 0) && negb (ret =? - EEXIST) then retM ret
  else
    let* r := sys (KMount (chars "none") dir fstype 0 None) in
    let ret := s32 r in
    if negb (ret =? 0) && negb (ret =? - EBUSY) then
      let* _ := sys (KRmdir dir) in retM ret
    else if ret =? - EBUSY then retM 1 else retM 0.

Definition LKL_O_WRONLY : Z := 1.

(** The name of the device under sysfs: [mmio_id] is printed as an int. *)
Definition print_int (n : Z) : list Z :=
  let n := s32 n in if n <? 0 then chars "-" ++ print_dec (- n) else print_dec n.

Definition devname (mmio_id nboot : Z) : list Z :=
  if nboot <=? mmio_id
  then chars "virtio-mmio." ++ print_int (mmio_id - nboot) ++ chars ".auto"
  else chars "virtio-mmio." ++ print_int mmio_id.

(** The part of virtio_dev_cleanup before skip_unbind: [Some] is an early
    return. *)
Definition unbind (mmio_id nboot : Z) : M host (option Z) :=
  let* mount_ret := lkl_mount_fs (chars "sysfs") in
  if mount_ret <? 0 then retM (Some mount_ret)
  else if 100 <=? Z.of_nat (length (devname mmio_id nboot)) then retM (Some (- ENOMEM))
  else
    let* fd := sys (KOpen (chars "/sysfs/bus/platform/drivers/virtio-mmio/unbind") LKL_O_WRONLY 0) in
    if fd <? 0 then retM (Some (s32 fd))
    else
      let* ret := sys (KWrite fd (devname mmio_id nboot)) in
      if ret <? 0 then retM (Some (s32 ret))
      else
        let* ret := sys (KClose fd) in
        if ret <? 0 then retM (Some (s32 ret))
        else if mount_ret =? 0 then
          let* ret := sys (KUmount (chars "/sysfs") 0) in
          if ret <? 0 then retM (Some (s32 ret)) else retM None
        else retM None.

Definition virtio_dev_cleanup (p : Z) : M host Z :=
  let* v := get_dev p in
  let* h := getM in
  let* early := (if hs_running h then unbind (d_virtio_mmio_id (b_dev v)) (hs_nboot h)
                 else retM None) in
  match early with
  | Some ret => retM ret
  | None =>
      put_irq (d_irq (b_dev v)) "virtio" ;;;
      do_unregister_iomem (d_base (b_dev v)) ;;;
      mem_free (b_queue v) ;;;
      retM 0
  end.

(** ** Disks (virtio_blk.c) *)

(** The sizes of the fields of struct lkl_virtio_blk_config, a packed
    structure: capacity, size_max, seg_max; cylinders, heads, sectors;
    blk_size; physical_block_exp, alignment_offset, min_io_size, opt_io_size;
    wce, unused, num_queues. *)
Definition blk_config_fields : list Z := [8; 4; 4; 2; 1; 1; 4; 1; 1; 2; 4; 1; 1; 2].

Definition BLK_CONFIG_LEN : Z := fold_right Z.add 0 blk_config_fields.

Definition LKL_VIRTIO_ID_BLOCK : Z := 2.

(** The fields lkl_disk_add assigns; the others, those of the configuration
    included, keep what malloc left there. *)
Definition blk_init (disk : lkl_disk) (v : virtio_blk_dev) : virtio_blk_dev :=
  let d := b_dev v in
  VirtioBlkDev
    (VirtioDev LKL_VIRTIO_ID_BLOCK 0 0 (d_device_features_sel d) (d_driver_features d)
       (d_driver_features_sel d) (d_queue_sel d) (d_queue d) (d_int_status d) (d_status d) 0
       (d_irq d) (d_config_data d) BLK_CONFIG_LEN (d_base d) (d_virtio_mmio_id d))
    (b_queue v) disk.

(** [dev->config.capacity = capacity / 512]. *)
Definition set_capacity (capacity : Z) (d : virtio_dev) : virtio_dev :=
  with_config_data (le_bytes 8 (capacity / 512) ++ drop 8 (d_config_data d)) d.

(** lkl_disk_add: the result and the disk, whose [dev] it sets. [junk] is the
    content of the fresh block; [get_capacity] is the disk's operation, the
    answer and the capacity. *)
Definition lkl_disk_add (junk : virtio_blk_dev) (get_capacity : lkl_disk -> Z * Z)
  (disk : lkl_disk) : M host (Z * lkl_disk) :=
  let* p := mem_alloc (BDev junk) in
  if p =? 0 then retM (- ENOMEM, disk)
  else
    let disk := LklDisk p (dk_handle disk) in
    mod_dev p (blk_init disk) ;;;
    let (ret, capacity) := get_capacity disk in
    if negb (ret =? 0) then mem_free p ;;; retM (- ENOMEM, disk)
    else
      mod_dev p (on_dev (set_capacity capacity)) ;;;
      let* ret := virtio_dev_setup p 1 32 in
      if negb (ret =? 0) then mem_free p ;;; retM (ret, disk)
      else let* v := get_dev p in retM (s32 (d_virtio_mmio_id (b_dev v)), disk).

Definition lkl_disk_remove (disk : lkl_disk) : M host Z :=
  if dk_dev disk =? 0 then retM (- EINVAL)
  else
    let* ret := virtio_dev_cleanup (dk_dev disk) in
    if ret <? 0 then retM ret
    else mem_free (dk_dev disk) ;;; retM 0.

(** ** The addon (disk.cc)

    The result is what the callback receives: [inl] an error number, [inr] a
    disk number. The key of [disks] is an unsigned int. *)

Definition do_disk_add (junk : virtio_blk_dev) (get_capacity : lkl_disk -> Z * Z)
  (disk : lkl_disk) : M host (Z + Z) :=
  let* r := lkl_disk_add junk get_capacity disk in
  modifyM (fun h => upd_disks (<[u32 (fst r) := snd r]> (hs_disks h)) h) ;;;
  retM (if fst r <? 0 then inl (- fst r) else inr (fst r)).

(** [disks[id]] of an unknown number is a disk of zeros. *)
Definition do_disk_remove (id : Z) : M host (option Z) :=
  let* h := getM in
  let* ret := lkl_disk_remove (default (LklDisk 0 0) (hs_disks h !! id)) in
  modifyM (fun h => upd_disks (delete id (hs_disks h)) h) ;;;
  retM (if ret <? 0 then Some (- ret) else None).

(** ** Running an operation without a fault *)

Definition runs_to {A} (c : M host A) (h : host) (P : A -> host -> Prop) : Prop :=
  match c h with Ok (a, h') => P a h' | Fail _ => False end.

Lemma runs_bind {A B} (c : M host A) (k : A -> M host B) h P :
  runs_to c h (fun a h' => runs_to (k a) h' P) -> runs_to (bindM c k) h P.
Proof. unfold runs_to, bindM. by destruct (c h) as [[a h']|]. Qed.

Lemma runs_mono {A} (c : M host A) h (P Q : A -> host -> Prop) :
  runs_to c h P -> (forall a h', P a h' -> Q a h') -> runs_to c h Q.
Proof. unfold runs_to. destruct (c h) as [[a h']|]; auto. Qed.

Lemma runs_ret {A} (a : A) h (P : A -> host -> Prop) : P a h -> runs_to (retM a) h P.
Proof. done. Qed.

(** Tables and allocator in shape, every live block below the next address. *)
Record host_wf (h : host) : Prop := {
  hw_irq : irq_wf (hs_irq h);
  hw_iomem : table_ok (hs_iomem h);
  hw_next : 0 < hs_next h;
  hw_heap : forall k b, hs_heap h !! k = Some b -> 0 < k < hs_next h;
  hw_pos : 0 <= hs_devs_pos h < LKL_VIRTIO_DEVS_SIZE
}.

(** What set-up of the device at [p] may change: the tables, the block at
    [p], and blocks that did not exist. *)
Record grows (p : Z) (h h' : host) : Prop := {
  gr_wf : host_wf h';
  gr_next : hs_next h <= hs_next h';
  gr_heap : forall k, k < hs_next h -> k <> p -> hs_heap h' !! k = hs_heap h !! k;
  gr_disks : hs_disks h' = hs_disks h
}.

(** The device at [p] holds an interrupt number and a queue array. *)
Definition dev_at (p : Z) (v : virtio_blk_dev) (h : host) : Prop :=
  hs_heap h !! p = Some (BDev v) /\ hs_heap h !! b_queue v = Some BQueues /\
  1 <= d_irq (b_dev v) < NR_IRQS.

Lemma put_irq_total i user st :
  irq_wf st -> 1 <= i < NR_IRQS -> exists st', lkl_put_irq i user st = Ok st' /\ irq_wf st'.
Proof.
  intros Hwf Hi. unfold lkl_put_irq, NR_IRQS, IRQ_STATUS_BITS in *.
  rewrite (proj2 (Z.ltb_ge _ _)) by lia.
  destruct (lookup_lt_is_Some_2 (irqs st) (Z.to_nat i)) as [[u|] Hu];
    [rewrite (wf_users _ Hwf); lia| |]; rewrite Hu; [|by eauto].
  case_match; eexists; (split; [done|]); [|done].
  destruct Hwf. split; try done. simpl. by rewrite length_insert.
Qed.

Lemma wf_upd_heap_in p b v h :
  host_wf h -> hs_heap h !! p = Some b -> host_wf (upd_heap (<[p := v]> (hs_heap h)) h).
Proof.
  intros [] Hp. split; try done. simpl. intros k b' Hk.
  apply lookup_insert_Some in Hk as [[<- _]|[_ Hk]]; eauto.
Qed.

Lemma wf_upd_heap_del p h : host_wf h -> host_wf (upd_heap (delete p (hs_heap h)) h).
Proof. intros []. split; try done. simpl. intros k b [_ Hk]%lookup_delete_Some. eauto. Qed.

(** *** Set-up, step by step

    Between two steps the device [v] is at [p] and, once allocated ([q] is not
    0), its queue array is a block that did not exist before. *)
Definition midway (h0 : host) (p q : Z) (v : virtio_blk_dev) (h : host) : Prop :=
  grows p h0 h /\ p < hs_next h0 /\ hs_heap h !! p = Some (BDev v) /\
  (q = 0 \/ hs_next h0 <= q /\ hs_heap h !! q = Some BQueues).

Lemma mid_mod_dev h0 p q v h f :
  midway h0 p q v h -> runs_to (mod_dev p f) h (fun _ h' => midway h0 p q (f v) h' /\
    hs_running h' = hs_running h).
Proof.
  intros ([] & Hp & Hv & Hq). unfold runs_to, mod_dev. rewrite Hv. split; [|done].
  split_and!; [|done|by simpl; simplify_map_eq|].
  - split; try done; [by eapply wf_upd_heap_in|]. intros k ??. simpl. by simplify_map_eq; eauto.
  - destruct Hq as [->|[??]]; [by left|right]. split; [done|]. simpl.
    rewrite lookup_insert_ne by lia. done.
Qed.

(** A change of the tables alone. *)
Lemma mid_tables h0 p q v h h' :
  midway h0 p q v h -> host_wf h' -> hs_heap h' = hs_heap h -> hs_next h' = hs_next h ->
  hs_disks h' = hs_disks h -> midway h0 p q v h'.
Proof.
  intros ([] & Hp & Hv & Hq) Hwf Hh Hn Hd. unfold midway. rewrite Hh.
  split_and!; try done. split; [done|by rewrite Hn|by rewrite Hh|by rewrite Hd].
Qed.

Lemma mid_get_free_irq h0 p q v h user :
  midway h0 p q v h -> runs_to (get_free_irq user) h (fun i h' => midway h0 p q v h' /\
    (- 2 ^ 31 <= i < 0 \/ 1 <= i < NR_IRQS)).
Proof.
  intros Hm. pose proof (gr_wf _ _ _ (proj1 Hm)) as Hwf. destruct (id Hwf).
  unfold runs_to, get_free_irq. pose proof (get_free_irq_spec user (hs_irq h) hw_irq0) as Hi.
  destruct (lkl_get_free_irq user (hs_irq h)) as [i st]. destruct Hi as [Hst Hi].
  split; [by eapply mid_tables|]. destruct Hi as [[? _]|[-> _]]; [by right|by left].
Qed.

Lemma mid_put_irq h0 p q v h i user :
  midway h0 p q v h -> 1 <= i < NR_IRQS ->
  runs_to (put_irq i user) h (fun _ h' => midway h0 p q v h').
Proof.
  intros Hm Hi. pose proof (gr_wf _ _ _ (proj1 Hm)) as Hwf. destruct (id Hwf).
  unfold runs_to, put_irq. destruct (put_irq_total i user (hs_irq h)) as (st & -> & ?); [done..|].
  by eapply mid_tables.
Qed.

Lemma mid_register h0 p q v h data size :
  midway h0 p q v h -> runs_to (do_register_iomem data size) h (fun _ h' => midway h0 p q v h').
Proof.
  intros Hm. pose proof (gr_wf _ _ _ (proj1 Hm)) as Hwf. destruct (id Hwf).
  unfold runs_to, do_register_iomem.
  pose proof (register_table_ok data size virtio_ops (hs_iomem h) hw_iomem0) as Ht.
  destruct (register_iomem _ _ _ _) as [base rs]. by eapply mid_tables.
Qed.

Lemma mid_unregister h0 p q v h base :
  midway h0 p q v h -> runs_to (do_unregister_iomem base) h (fun _ h' => midway h0 p q v h').
Proof.
  intros Hm. pose proof (gr_wf _ _ _ (proj1 Hm)) as Hwf. destruct (id Hwf).
  eapply mid_tables; [done|split; try done|done..]. by apply unregister_table_ok.
Qed.

Lemma alloc_cases b h :
  host_wf h -> runs_to (mem_alloc b) h (fun p h' => host_wf h' /\ hs_disks h' = hs_disks h /\
    (p = 0 /\ hs_heap h' = hs_heap h /\ hs_next h' = hs_next h \/
     p = hs_next h /\ hs_heap h' = <[p := b]> (hs_heap h) /\ hs_next h' = p + 1)).
Proof.
  intros []. unfold runs_to, mem_alloc.
  destruct (hs_oom h) as [|[] oom]; (split_and!; [|done|simpl; auto]);
    split; simpl; try done; try lia;
    intros k b' [[<- _]|[_ Hk%hw_heap0]]%lookup_insert_Some; lia.
Qed.

Lemma mid_alloc h0 p v h :
  midway h0 p 0 v h -> runs_to (mem_alloc BQueues) h (fun q h' => midway h0 p q v h').
Proof.
  intros ([Hwf Hn Hh Hd] & Hp & Hv & _).
  eapply runs_mono; [by apply alloc_cases|].
  intros q h' (Hwf' & Hd' & [(-> & Hh' & Hn')|(-> & Hh' & Hn')]); unfold midway; rewrite Hh'.
  - split_and!; [|done|done|by left]. split; [done|lia|by rewrite Hh'|congruence].
  - split_and!; [|done|by rewrite lookup_insert_ne by lia|right; by simplify_map_eq].
    split; [done|lia| |congruence]. intros. rewrite Hh', lookup_insert_ne by lia. auto.
Qed.

Lemma mid_free h0 p q v h :
  midway h0 p q v h -> q <> 0 ->
  runs_to (mem_free q) h (fun _ h' => midway h0 p 0 v h').
Proof.
  intros ([] & Hp & Hv & [?|[Hq Hb]]) Hne; [done|]. unfold runs_to, mem_free. rewrite Hb.
  split_and!; [|done|simpl; by rewrite lookup_delete_ne by lia|by left].
  split; try done; [by apply wf_upd_heap_del|]. intros k ??. simpl.
  rewrite lookup_delete_ne by lia. auto.
Qed.

Lemma mid_cmdline h0 p q v h size base :
  midway h0 p q v h -> q <> 0 -> 1 <= d_irq (b_dev v) < NR_IRQS ->
  runs_to (setup_cmdline p q size base (d_irq (b_dev v))) h (fun ret h' =>
    - 2 ^ 31 <= ret < 0 /\ midway h0 p 0 v h' \/
    ret = 0 /\ midway h0 p q (on_dev (with_virtio_mmio_id (hs_nboot h)) v) h').
Proof.
  intros Hm Hq Hi. destruct (gr_wf _ _ _ (proj1 Hm)). unfold setup_cmdline.
  set (text := device_param _ _ _). clearbody text.
  apply runs_bind. unfold getM. cbn [runs_to]. apply runs_bind. unfold modifyM. cbn [runs_to].
  set (h1 := upd_devs _ h).
  assert (midway h0 p q v h1) as Hm1 by (eapply mid_tables; [exact Hm|by split|done..]).
  destruct (Z.leb_spec (LKL_VIRTIO_DEVS_SIZE - hs_devs_pos h) (Z.of_nat (length text))).
  - apply runs_bind. eapply runs_mono; [by apply mid_put_irq|intros [] h2 Hm2; cbn beta in *].
    apply runs_bind. eapply runs_mono; [by apply mid_unregister|intros [] h3 Hm3; cbn beta in *].
    apply runs_bind. eapply runs_mono; [by apply mid_free|intros [] h4 Hm4; cbn beta in *].
    left. done.
  - apply runs_bind. cbn [runs_to].
    apply runs_bind. eapply runs_mono; [eapply (mid_mod_dev h0 p q v)|intros [] h3 [Hm3 _]; by right].
    eapply mid_tables; [exact Hm1| |done..]. split; simpl; try done. lia.
Qed.

Lemma mid_sys h0 p q v h c :
  midway h0 p q v h -> runs_to (sys c) h (fun _ h' => midway h0 p q v h').
Proof.
  intros Hm. destruct (gr_wf _ _ _ (proj1 Hm)). unfold runs_to, sys.
  destruct (kernel c (hs_kernel h)). eapply mid_tables; [done|by split|done..].
Qed.

Lemma mid_running h0 p q v h size base irq :
  midway h0 p q v h ->
  runs_to (setup_running p size base irq) h (fun ret h' =>
    - 2 ^ 31 <= ret < 0 /\ midway h0 p q v h' \/
    ret = 0 /\ exists id, midway h0 p q (on_dev (with_virtio_mmio_id id) v) h').
Proof.
  intros Hm. unfold setup_running. apply runs_bind.
  eapply runs_mono; [by apply mid_sys|intros r h1 Hm1; cbn beta in *].
  destruct (s32 r <? 0); [by left|].
  apply runs_bind. cbn [runs_to getM]. apply runs_bind.
  eapply runs_mono; [by apply (mid_mod_dev h0 p q v)|intros [] h3 [Hm3 _]]. right. eauto.
Qed.

(** Set-up never faults: it fails with a negative number, or leaves a device
    with an interrupt number and a fresh queue array. *)
Lemma setup_safe h0 p v n m :
  host_wf h0 -> hs_heap h0 !! p = Some (BDev v) ->
  runs_to (virtio_dev_setup p n m) h0 (fun ret h' => exists q v', midway h0 p q v' h' /\
    (- 2 ^ 31 <= ret < 0 \/ ret = 0 /\ q <> 0 /\ b_queue v' = q /\ 1 <= d_irq (b_dev v') < NR_IRQS)).
Proof.
  intros Hwf Hp. assert (midway h0 p 0 v h0) as Hm.
  { split_and!; [by split| |done|by left]. apply (hw_heap _ Hwf) in Hp. lia. }
  unfold virtio_dev_setup. apply runs_bind.
  eapply runs_mono; [by apply mid_get_free_irq|intros irq h1 [Hm1 Hirq]; cbn beta in *].
  apply runs_bind. eapply runs_mono; [by eapply mid_mod_dev|intros [] h2 [Hm2 _]; cbn beta in *].
  destruct (Z.ltb_spec irq 0).
  { apply runs_ret. eexists _, _. split; [exact Hm2|]. left. destruct Hirq; lia. }
  destruct Hirq as [?|Hirq]; [lia|].
  apply runs_bind. eapply runs_mono; [by eapply mid_mod_dev|intros [] h3 [Hm3 _]; cbn beta in *].
  apply runs_bind. eapply runs_mono; [by eapply mid_alloc|intros q h4 Hm4; cbn beta in *].
  apply runs_bind. eapply runs_mono; [by eapply mid_mod_dev|intros [] h5 [Hm5 _]; cbn beta in *].
  destruct (Z.eqb_spec q 0) as [|Hq]; [apply runs_ret; eexists _, _; split; [exact Hm5|left; done]|].
  apply runs_bind. eapply runs_mono; [by eapply mid_mod_dev|intros [] h6 [Hm6 _]; cbn beta in *].
  apply runs_bind. unfold get_dev, runs_to at 1. rewrite (proj1 (proj2 (proj2 Hm6))).
  apply runs_bind. eapply runs_mono; [by apply mid_register|intros base h7 Hm7; cbn beta in *].
  apply runs_bind. eapply runs_mono; [by eapply mid_mod_dev|intros [] h8 [Hm8 _]; cbn beta in *].
  destruct (base =? 0).
  { apply runs_bind. eapply runs_mono; [by eapply mid_free|intros [] h9 Hm9; cbn beta in *].
    apply runs_ret. eexists _, _. split; [exact Hm9|left; done]. }
  apply runs_bind. cbn [runs_to getM]. destruct (hs_running h8); cbn [negb].
  - eapply runs_mono; [by eapply mid_running|].
    intros ret h9 [[? Hm9]|[-> [id Hm9]]]; eexists _, _; (split; [exact Hm9|]); [by left|by right].
  - eapply runs_mono; [by eapply (mid_cmdline _ _ _ _ _ _ _ Hm8)|].
    intros ret h9 [[? Hm9]|[-> Hm9]]; eexists _, _; (split; [exact Hm9|]); [by left|by right].
Qed.

(** *** Clean-up *)

(** Only the kernel's own state changes. *)
Definition only_kernel (h h' : host) : Prop := exists k, h' = upd_kernel k h.

Lemma only_kernel_refl h : only_kernel h h.
Proof. exists (hs_kernel h). by destruct h. Qed.

Lemma runs_sys {A} c (k : Z -> M host A) h0 h Q :
  only_kernel h0 h -> (forall r h', only_kernel h0 h' -> runs_to (k r) h' Q) ->
  runs_to (bindM (sys c) k) h Q.
Proof.
  intros [k0 ->] Hk. apply runs_bind. unfold runs_to at 1, sys.
  destruct (kernel c _) as [r k1]. apply Hk. by exists k1.
Qed.

Lemma mount_fs_kernel h0 h fs :
  only_kernel h0 h -> runs_to (lkl_mount_fs fs) h (fun _ h' => only_kernel h0 h').
Proof.
  intros Hk. unfold lkl_mount_fs. eapply runs_sys; [done|intros r1 g1 Hg1]. case_match; [done|].
  eapply runs_sys; [done|intros r2 g2 Hg2]. case_match; [|by case_match].
  eapply runs_sys; [done|intros r3 g3 Hg3]. done.
Qed.

Lemma unbind_kernel h id nboot :
  runs_to (unbind id nboot) h (fun _ h' => only_kernel h h').
Proof.
  unfold unbind. apply runs_bind.
  eapply runs_mono; [apply mount_fs_kernel, only_kernel_refl|intros ret g1 Hg1; cbn beta in *].
  case_match; [done|]. case_match; [done|].
  eapply runs_sys; [done|intros r2 g2 Hg2]. case_match; [done|].
  eapply runs_sys; [done|intros r3 g3 Hg3]. case_match; [done|].
  eapply runs_sys; [done|intros r4 g4 Hg4]. case_match; [done|]. case_match; [|done].
  eapply runs_sys; [done|intros r5 g5 Hg5]. by case_match.
Qed.

(** What the release of the device at [p] with queues [q] may leave. *)
Record shrinks (X : gset Z) (h h' : host) : Prop := {
  sh_wf : host_wf h';
  sh_heap : forall k, k ∉ X -> hs_heap h' !! k = hs_heap h !! k;
  sh_disks : hs_disks h' = hs_disks h
}.

Lemma shrinks_kernel X h h' : host_wf h -> only_kernel h h' -> shrinks X h h'.
Proof. intros [] [k ->]. by split. Qed.

Lemma cleanup_safe p v h :
  host_wf h -> dev_at p v h ->
  runs_to (virtio_dev_cleanup p) h (fun _ h' => shrinks {[b_queue v]} h h').
Proof.
  intros Hwf (Hp & Hq & Hi). unfold virtio_dev_cleanup.
  apply runs_bind. unfold runs_to at 1, get_dev. rewrite Hp. apply runs_bind. cbn [runs_to getM].
  apply runs_bind. eapply (runs_mono _ _ (fun _ h' => only_kernel h h')).
  { destruct (hs_running h); [apply unbind_kernel|apply only_kernel_refl]. }
  intros [ret|] h1 H1; [by apply shrinks_kernel|]. destruct H1 as [k ->].
  destruct (put_irq_total (d_irq (b_dev v)) "virtio" (hs_irq h)) as (st & Hst & Hwst);
    [by destruct Hwf|done|].
  apply runs_bind. unfold runs_to at 1, put_irq. cbn [hs_irq upd_kernel]. rewrite Hst.
  apply runs_bind. cbn [runs_to]. apply runs_bind. unfold runs_to at 1, mem_free.
  cbn [hs_heap upd_iomem upd_irq upd_kernel]. rewrite Hq. destruct (id Hwf).
  split; simpl; [|by intros; rewrite lookup_delete_ne by set_solver|done].
  split; simpl; try done; [by apply unregister_table_ok|].
  intros ? ? [_ ?]%lookup_delete_Some. eauto.
Qed.

(** *** The disk table *)

(** The numbers a successful lkl_disk_add can return. *)
Definition disk_id (id : Z) : Prop := 0 <= id < 2 ^ 31.

(** Every numbered disk is a live device of its own. *)
Record disks_ok (h : host) : Prop := {
  do_wf : host_wf h;
  do_live : forall id dk, disk_id id -> hs_disks h !! id = Some dk ->
    exists v, dev_at (dk_dev dk) v h;
  do_own : forall i j dk dk' v v', disk_id i -> disk_id j -> i <> j ->
    hs_disks h !! i = Some dk -> hs_disks h !! j = Some dk' ->
    dev_at (dk_dev dk) v h -> dev_at (dk_dev dk') v' h ->
    dk_dev dk <> dk_dev dk' /\ b_queue v <> b_queue v'
}.

(** An operation the addon can be asked for; [DAdd] carries what the
    allocator and the disk's owner supply. *)
Inductive disk_op :=
  | DAdd (junk : virtio_blk_dev) (get_capacity : lkl_disk -> Z * Z) (disk : lkl_disk)
  | DRemove (id : Z).

Definition run_op (o : disk_op) : M host unit :=
  match o with
  | DAdd junk cap disk => let* _ := do_disk_add junk cap disk in retM tt
  | DRemove id => let* _ := do_disk_remove id in retM tt
  end.

Fixpoint run_ops (l : list disk_op) : M host unit :=
  match l with
  | [] => retM tt
  | o :: l => run_op o ;;; run_ops l
  end.

Definition op_ok (o : disk_op) : Prop :=
  match o with DAdd _ _ _ => True | DRemove id => disk_id id end.

Lemma dev_at_mono p v h h' :
  dev_at p v h -> hs_heap h' !! p = hs_heap h !! p ->
  hs_heap h' !! b_queue v = hs_heap h !! b_queue v -> dev_at p v h'.
Proof. unfold dev_at. intros (? & ? & ?) -> ->. done. Qed.

Lemma dev_at_fun p v v' h : dev_at p v h -> dev_at p v' h -> v = v'.
Proof. intros [? _] [? _]. congruence. Qed.

(** The existing blocks and the disk table are as they were. *)
Definition keeps (h h' : host) : Prop :=
  host_wf h' /\ hs_disks h' = hs_disks h /\
  forall k, k < hs_next h -> hs_heap h' !! k = hs_heap h !! k.

(** [h1] is [h] after the allocation of the block at [p]. *)
Lemma mid_keeps h h1 p q v g b :
  p = hs_next h -> hs_next h1 = p + 1 -> hs_heap h1 = <[p := b]> (hs_heap h) ->
  hs_disks h1 = hs_disks h -> midway h1 p q v g -> keeps h g.
Proof.
  intros -> Hn Hh Hd ([] & _). split_and!; [done|congruence|]. intros k Hk.
  rewrite gr_heap0, Hh, lookup_insert_ne by lia. done.
Qed.

Lemma free_keeps {A} h h1 p q v g (r : A) :
  p = hs_next h -> keeps h g -> midway h1 p q v g ->
  runs_to (mem_free p ;;; retM r) g (fun r' h' => r' = r /\ keeps h h').
Proof.
  intros -> (Hwf & Hd & Hh) (_ & _ & Hv & _). apply runs_bind.
  unfold runs_to at 1, mem_free. rewrite Hv. apply runs_ret. split; [done|].
  split_and!; [by apply wf_upd_heap_del|done|].
  intros k Hk. simpl. rewrite lookup_delete_ne by lia. auto.
Qed.

Lemma mid_trans h1 h2 p q q' v v' g :
  midway h1 p q v h2 -> midway h2 p q' v' g -> midway h1 p 0 v' g.
Proof.
  intros ([] & ? & _) ([] & _ & ? & _). split_and!; [|done|done|by left].
  split; [done|lia|intros; rewrite gr_heap1 by lia; auto|congruence].
Qed.

(** lkl_disk_add never faults and leaves the existing blocks alone. *)
Lemma disk_add_safe junk cap disk h :
  host_wf h ->
  runs_to (lkl_disk_add junk cap disk) h (fun r h' => keeps h h' /\
    (- 2 ^ 31 <= fst r < 0 \/ exists v, dev_at (dk_dev (snd r)) v h' /\ hs_next h <= dk_dev (snd r) /\
       hs_next h <= b_queue v)).
Proof.
  intros Hwf. unfold lkl_disk_add. apply runs_bind.
  eapply runs_mono; [by apply alloc_cases|].
  intros p h1 (Hwf1 & Hd1 & [(-> & Hh1 & _)|(Hp & Hh1 & Hn1)]); cbn beta.
  { apply runs_ret. split; [|by left]. split_and!; auto. by rewrite Hh1. }
  pose proof (hw_next _ Hwf) as Hpos. rewrite (proj2 (Z.eqb_neq p 0)) by lia.
  assert (midway h1 p 0 junk h1) as Hm1.
  { split_and!; [by split|lia|rewrite Hh1; by simplify_map_eq|by left]. }
  apply runs_bind. eapply runs_mono; [by eapply mid_mod_dev|intros [] h2 [Hm2 _]; cbn beta in *].
  destruct (cap _) as [ret capacity]. destruct (ret =? 0); cbn [negb].
  2: { eapply runs_mono; [eapply free_keeps; [done|by eapply mid_keeps|done]|].
       intros r h3 [-> ?]. split; [done|by left]. }
  apply runs_bind. eapply runs_mono; [by eapply mid_mod_dev|intros [] h3 [Hm3 _]; cbn beta in *].
  pose proof Hm3 as ([Hwf3 Hn3 _ Hd3] & _ & Hp3 & _).
  apply runs_bind. eapply runs_mono; [by eapply setup_safe|].
  intros r h4 (q & v & Hm4 & Hr); cbn beta.
  pose proof (mid_trans _ _ _ _ _ _ _ _ Hm3 Hm4) as Hm5.
  assert (keeps h h4) as Hk by by eapply mid_keeps.
  destruct (Z.eqb_spec r 0) as [->|Hne]; cbn [negb].
  2: { eapply runs_mono; [by eapply free_keeps|]. intros r' h5 [-> ?]. split; [done|left; simpl; lia]. }
  destruct Hm4 as (_ & _ & Hv4 & [?|[Hq4 Hqb]]), Hr as [?|(_ & Hq & <- & Hi)]; try lia.
  apply runs_bind. unfold runs_to at 1, get_dev. rewrite Hv4. apply runs_ret.
  split; [done|]. right. exists v. simpl. split_and!; [done|lia|lia].
Qed.

Lemma disks_ok_add junk cap disk h :
  disks_ok h -> runs_to (do_disk_add junk cap disk) h (fun _ h' => disks_ok h').
Proof.
  intros [Hwf Hlive Hown]. unfold do_disk_add. apply runs_bind.
  eapply runs_mono; [by apply disk_add_safe|]. intros [r dk] h1 [(Hwf1 & Hd1 & Hh1) Hr]; cbn beta.
  apply runs_bind. cbn [runs_to]. apply runs_ret. cbn [fst snd] in *.
  assert (forall id dk v, disk_id id -> hs_disks h !! id = Some dk -> dev_at (dk_dev dk) v h ->
    dk_dev dk < hs_next h /\ b_queue v < hs_next h /\ dev_at (dk_dev dk) v h1) as Hold.
  { intros id dk' v Hid Hdk Hv. pose proof Hv as (Hb & Hq & _).
    apply (hw_heap _ Hwf) in Hb, Hq. split_and!; [lia|lia|].
    eapply dev_at_mono; [done|apply Hh1; lia..]. }
  assert (forall id, disk_id id -> u32 r = id -> exists v, dev_at (dk_dev dk) v h1 /\
    hs_next h <= dk_dev dk /\ hs_next h <= b_queue v) as Hnew.
  { intros id Hid <-. destruct Hr as [Hr|Hr]; [|done].
    unfold disk_id, u32 in Hid. lia. }
  split; simpl; [by destruct Hwf1; split| |].
  - intros id dk' Hid. rewrite Hd1, lookup_insert_Some. intros [[Hr' <-]|[_ Hdk]].
    + destruct (Hnew _ Hid Hr') as (v & ? & _). by exists v.
    + destruct (Hlive _ _ Hid Hdk) as [v Hv]. exists v. by eapply Hold.
  - intros i j dk1 dk2 v1 v2 Hi Hj Hij. rewrite Hd1, !lookup_insert_Some.
    assert (forall id dk' v', disk_id id -> hs_disks h !! id = Some dk' ->
      dev_at (dk_dev dk') v' h1 -> dk_dev dk' < hs_next h /\ b_queue v' < hs_next h) as Hlow.
    { intros id dk' v' Hid Hdk Hv'. destruct (Hlive _ _ Hid Hdk) as [v Hv].
      destruct (Hold _ _ _ Hid Hdk Hv) as (? & ? & Hv1). by rewrite (dev_at_fun _ _ _ _ Hv' Hv1). }
    assert (forall id v', disk_id id -> u32 r = id -> dev_at (dk_dev dk) v' h1 ->
      hs_next h <= dk_dev dk /\ hs_next h <= b_queue v') as Hhigh.
    { intros id v' Hid Hr' Hv'. destruct (Hnew _ Hid Hr') as (v & Hv & ?).
      by rewrite (dev_at_fun _ _ _ _ Hv' Hv). }
    intros [[E1 <-]|[_ H1]] [[E2 <-]|[_ H2]] Hv1 Hv2; [congruence| | |].
    + destruct (Hhigh _ _ Hi E1 Hv1), (Hlow _ _ _ Hj H2 Hv2). lia.
    + destruct (Hhigh _ _ Hj E2 Hv2), (Hlow _ _ _ Hi H1 Hv1). lia.
    + destruct (Hlive _ _ Hi H1) as [w1 Hw1], (Hlive _ _ Hj H2) as [w2 Hw2].
      destruct (Hold _ _ _ Hi H1 Hw1) as (_ & _ & Hx1), (Hold _ _ _ Hj H2 Hw2) as (_ & _ & Hx2).
      rewrite (dev_at_fun _ _ _ _ Hv1 Hx1), (dev_at_fun _ _ _ _ Hv2 Hx2). by eapply (Hown i j).
Qed.

Lemma disk_remove_safe dk v h :
  host_wf h -> dev_at (dk_dev dk) v h ->
  runs_to (lkl_disk_remove dk) h (fun _ h' => shrinks {[dk_dev dk; b_queue v]} h h').
Proof.
  intros Hwf Hv. pose proof Hv as (Hp & Hq & _). unfold lkl_disk_remove.
  rewrite (proj2 (Z.eqb_neq _ 0)) by (apply (hw_heap _ Hwf) in Hp; lia).
  apply runs_bind. eapply runs_mono; [by apply cleanup_safe|]. intros ret h1 []; cbn beta.
  case_match; [apply runs_ret; split; [done| |done]; intros; apply sh_heap0; set_solver|].
  assert (hs_heap h1 !! dk_dev dk = Some (BDev v)) as Hp1.
  { rewrite sh_heap0; [done|]. intros E%elem_of_singleton. congruence. }
  apply runs_bind. unfold runs_to at 1, mem_free. rewrite Hp1. apply runs_ret.
  split; [by apply wf_upd_heap_del| |done]. intros k Hk. simpl.
  rewrite lookup_delete_ne by set_solver. apply sh_heap0. set_solver.
Qed.

(** Dropping a number whose blocks are the only ones that changed. *)
Lemma disks_ok_shrink id X h h' :
  disks_ok h -> shrinks X h h' ->
  (forall j dk v, disk_id j -> j <> id -> hs_disks h !! j = Some dk -> dev_at (dk_dev dk) v h ->
     dk_dev dk ∉ X /\ b_queue v ∉ X) ->
  disks_ok (upd_disks (delete id (hs_disks h')) h').
Proof.
  intros [Hwf Hlive Hown] [Hwf' Hh Hd] HX.
  assert (forall j dk, disk_id j -> j <> id -> hs_disks h !! j = Some dk ->
    exists v, dev_at (dk_dev dk) v h /\ dev_at (dk_dev dk) v h') as Hold.
  { intros j dk Hj Hne Hdk. destruct (Hlive _ _ Hj Hdk) as [v Hv].
    destruct (HX _ _ _ Hj Hne Hdk Hv). exists v. split; [done|].
    eapply dev_at_mono; [done|by apply Hh..]. }
  split; simpl; [by destruct Hwf'; split| |].
  - intros j dk Hj. rewrite Hd, lookup_delete_Some. intros [Hne Hdk].
    destruct (Hold j dk) as (v & _ & ?); [done..|]. by exists v.
  - intros i j dk1 dk2 v1 v2 Hi Hj Hij. rewrite Hd, !lookup_delete_Some.
    intros [Hni H1] [Hnj H2] Hv1 Hv2.
    destruct (Hold i dk1) as (w1 & Hw1 & Hx1); [done..|].
    destruct (Hold j dk2) as (w2 & Hw2 & Hx2); [done..|].
    rewrite (dev_at_fun _ _ _ _ Hv1 Hx1), (dev_at_fun _ _ _ _ Hv2 Hx2). by eapply (Hown i j).
Qed.

Lemma disks_ok_remove id h :
  disks_ok h -> disk_id id -> runs_to (do_disk_remove id) h (fun _ h' => disks_ok h').
Proof.
  intros Hok Hid. pose proof Hok as [Hwf Hlive Hown]. unfold do_disk_remove.
  apply runs_bind. cbn [runs_to getM]. apply runs_bind.
  destruct (hs_disks h !! id) as [dk|] eqn:Hdk; simpl.
  - destruct (Hlive _ _ Hid Hdk) as [v Hv].
    eapply runs_mono; [by eapply disk_remove_safe|]. intros ret h1 Hsh; cbn beta.
    apply runs_bind. cbn [runs_to]. apply runs_ret.
    eapply disks_ok_shrink; [exact Hok|exact Hsh|]. intros j dk' v' Hj Hne Hdk' Hv'.
    destruct (Hown j id dk' dk v' v) as [? ?]; [done..|].
    destruct Hv as (Hp & Hq & _), Hv' as (Hp' & Hq' & _).
    split; intros [E%elem_of_singleton|E%elem_of_singleton]%elem_of_union; congruence.
  - apply runs_bind. cbn [runs_to]. apply runs_ret.
    eapply (disks_ok_shrink id ∅); [done|by split|]. set_solver.
Qed.

(** *** What a set-up with enough resources does *)

(** The device lkl_disk_add has filled in when set-up reaches the kernel. *)
Definition ready_dev (junk : virtio_blk_dev) (disk : lkl_disk) (capacity irq base q : Z)
  : virtio_blk_dev :=
  let v := on_dev (set_capacity capacity) (blk_init disk junk) in
  VirtioBlkDev
    (with_base base (with_queues [new_queue 32] (with_device_features
       (Z.lor (BIT VIRTIO_F_VERSION_1) (BIT VIRTIO_RING_F_EVENT_IDX)) (with_irq irq (b_dev v)))))
    q disk.

Definition MMIO_SIZE : Z := VIRTIO_MMIO_CONFIG + BLK_CONFIG_LEN.

(** The next [n] allocations succeed. *)
Definition allocs (n : nat) (h : host) : Prop :=
  Forall (fun b => b = false) (take n (hs_oom h)).

(** A free interrupt number and a free slot of the lower half of the I/O
    memory table, the ones the searches find. *)
Record resources (h : host) (irq slot : nat) : Prop := {
  rs_irq : lkl_get_free_irq "virtio" (hs_irq h) =
    (Z.of_nat irq, set_irqs (<[irq := Some "virtio"%string]> (irqs (hs_irq h))) (hs_irq h));
  rs_irq_range : (1 <= irq < 4096)%nat;
  rs_irq_free : irqs (hs_irq h) !! irq = Some None;
  rs_slot : (1 <= slot < 128)%nat;
  rs_slot_free : option_map r_ops (hs_iomem h !! slot) = Some None;
  rs_iomem : forall data, register_iomem data MMIO_SIZE virtio_ops (hs_iomem h) =
    (IOMEM_INDEX_TO_ADDR (Z.of_nat slot),
     <[slot := Build_iomem_region data MMIO_SIZE (Some virtio_ops)]> (hs_iomem h))
}.

(** The tables after the device at [p], now [v], has got its resources. *)
Record attached (h h' : host) (irq slot : nat) (p : Z) (v : virtio_blk_dev) : Prop := {
  at_irq : hs_irq h' = set_irqs (<[irq := Some "virtio"%string]> (irqs (hs_irq h))) (hs_irq h);
  at_iomem : hs_iomem h' =
    <[slot := Build_iomem_region p MMIO_SIZE (Some virtio_ops)]> (hs_iomem h);
  at_heap : hs_heap h' = <[p := BDev v]> (<[p + 1 := BQueues]> (hs_heap h));
  at_queue : b_queue v = p + 1;
  at_dev_irq : d_irq (b_dev v) = Z.of_nat irq;
  at_base : d_base (b_dev v) = IOMEM_INDEX_TO_ADDR (Z.of_nat slot);
  at_nboot : hs_nboot h <= hs_nboot h' <= hs_nboot h + 1;
  at_running : hs_running h' = hs_running h
}.

Lemma runs_alloc b h :
  Forall (fun b => b = false) (take 1 (hs_oom h)) ->
  mem_alloc b h = Ok (hs_next h, upd_alloc (hs_next h + 1) (tail (hs_oom h))
    (upd_heap (<[hs_next h := b]> (hs_heap h)) h)).
Proof.
  unfold mem_alloc. destruct (hs_oom h) as [|o oom]; [done|]. simpl.
  by intros [-> _]%list.Forall_cons.
Qed.

Lemma runs_mod_dev p f h v :
  hs_heap h !! p = Some (BDev v) ->
  mod_dev p f h = Ok (tt, upd_heap (<[p := BDev (f v)]> (hs_heap h)) h).
Proof. unfold mod_dev. by intros ->. Qed.

(** The last step of set-up, and what lkl_disk_add does with its answer. *)
Definition finish_setup (running : bool) (p q size base irq : Z) : M host Z :=
  if negb running then setup_cmdline p q size base irq else setup_running p size base irq.

Definition finish_add (p : Z) (disk : lkl_disk) (ret : Z) : M host (Z * lkl_disk) :=
  if negb (ret =? 0) then mem_free p ;;; retM (ret, disk)
  else let* v := get_dev p in retM (s32 (d_virtio_mmio_id (b_dev v)), disk).

(** What the last step has not changed yet. *)
Definition same_boot (h h' : host) : Prop :=
  hs_kernel h' = hs_kernel h /\ hs_nboot h' = hs_nboot h /\ hs_devs_pos h' = hs_devs_pos h.

Lemma setup_reaches p v h irq slot :
  hs_heap h !! p = Some (BDev v) -> p < hs_next h -> 0 < p ->
  Forall (fun b => b = false) (take 1 (hs_oom h)) ->
  d_config_len (b_dev v) = BLK_CONFIG_LEN ->
  resources h irq slot ->
  exists h', virtio_dev_setup p 1 32 h =
    finish_setup (hs_running h) p (hs_next h) MMIO_SIZE (IOMEM_INDEX_TO_ADDR (Z.of_nat slot))
      (Z.of_nat irq) h' /\ same_boot h h' /\ hs_running h' = hs_running h /\
    hs_disks h' = hs_disks h /\
    hs_irq h' = set_irqs (<[irq := Some "virtio"%string]> (irqs (hs_irq h))) (hs_irq h) /\
    hs_iomem h' = <[slot := Build_iomem_region p MMIO_SIZE (Some virtio_ops)]> (hs_iomem h) /\
    hs_heap h' = <[p := BDev (VirtioBlkDev
      (with_base (IOMEM_INDEX_TO_ADDR (Z.of_nat slot)) (with_queues [new_queue 32]
         (with_device_features (Z.lor (d_device_features (b_dev v))
            (Z.lor (BIT VIRTIO_F_VERSION_1) (BIT VIRTIO_RING_F_EVENT_IDX)))
            (with_irq (Z.of_nat irq) (b_dev v)))))
      (hs_next h) (b_disk v))]> (<[hs_next h := BQueues]> (hs_heap h)).
Proof.
  intros Hp Hlt Hpos Hoom Hlen []. unfold virtio_dev_setup.
  erewrite bindM_ok; [|unfold get_free_irq; rewrite rs_irq0; reflexivity].
  erewrite bindM_ok; [|apply runs_mod_dev; exact Hp].
  rewrite (proj2 (Z.ltb_ge _ _)) by lia.
  erewrite bindM_ok; [|apply runs_mod_dev; simpl; by simplify_map_eq].
  erewrite bindM_ok; [|by apply runs_alloc]. cbn [hs_next upd_heap upd_irq].
  erewrite bindM_ok; [|apply runs_mod_dev; simpl; rewrite lookup_insert_ne by lia; by simplify_map_eq].
  rewrite (proj2 (Z.eqb_neq _ 0)) by lia.
  erewrite bindM_ok; [|apply runs_mod_dev; simpl; by simplify_map_eq].
  erewrite bindM_ok; [|unfold get_dev; cbn [hs_heap upd_heap]; rewrite lookup_insert_eq; reflexivity].
  cbn [b_dev on_dev with_queues with_device_features with_irq d_config_len]. rewrite Hlen.
  fold MMIO_SIZE.
  erewrite bindM_ok; [|unfold do_register_iomem;
    cbn [hs_iomem upd_heap upd_irq upd_alloc]; rewrite rs_iomem0; reflexivity].
  erewrite bindM_ok; [|apply runs_mod_dev; simpl; by simplify_map_eq].
  rewrite (proj2 (Z.eqb_neq _ 0)) by (apply index_to_addr_nonzero; lia).
  erewrite bindM_ok; [|reflexivity]. unfold finish_setup.
  cbn [hs_running upd_heap upd_irq upd_alloc upd_iomem].
  eexists. split; [reflexivity|].
  unfold same_boot. cbn [hs_kernel hs_nboot hs_devs_pos hs_running hs_disks hs_irq hs_iomem hs_heap
    upd_heap upd_irq upd_alloc upd_iomem].
  split_and!; [reflexivity..|]. rewrite !insert_insert_eq.
  rewrite (insert_insert_ne _ (hs_next h)) by lia. rewrite !insert_insert_eq. done.
Qed.

(** lkl_disk_add with enough resources, up to the last step of set-up. *)
Lemma add_reaches junk cap disk capacity h irq slot :
  let p := hs_next h in
  host_wf h -> allocs 2 h -> resources h irq slot -> cap (LklDisk p (dk_handle disk)) = (0, capacity) ->
  exists h' v, lkl_disk_add junk cap disk h =
    bindM (finish_setup (hs_running h) p (p + 1) MMIO_SIZE
             (IOMEM_INDEX_TO_ADDR (Z.of_nat slot)) (Z.of_nat irq))
      (finish_add p (LklDisk p (dk_handle disk))) h' /\
    attached h h' irq slot p v /\ same_boot h h' /\
    take 8 (d_config_data (b_dev v)) = le_bytes 8 (capacity / 512) /\
    b_disk v = LklDisk p (dk_handle disk).
Proof.
  intros p Hwf Ho Hres Hcap. unfold allocs in Ho. pose proof (hw_next _ Hwf) as Hpos. fold p in Hpos.
  assert (Forall (fun b => b = false) (take 1 (hs_oom h)) /\
          Forall (fun b => b = false) (take 1 (tail (hs_oom h)))) as [Ho1 Ho2].
  { destruct (hs_oom h) as [|o1 [|o2 l]]; simpl in *;
      rewrite ?list.Forall_cons, ?list.Forall_nil in *; tauto. }
  unfold lkl_disk_add. erewrite bindM_ok; [|by apply runs_alloc]. fold p.
  rewrite (proj2 (Z.eqb_neq p 0)) by lia.
  erewrite bindM_ok; [|apply runs_mod_dev; cbn [hs_heap upd_heap upd_alloc]; by simplify_map_eq].
  rewrite Hcap. cbn [negb Z.eqb].
  erewrite bindM_ok; [|apply runs_mod_dev; cbn [hs_heap upd_heap upd_alloc]; by simplify_map_eq].
  cbn [hs_heap upd_heap upd_alloc].
  match goal with |- context [bindM (virtio_dev_setup _ _ _) _ ?g] => set (h1 := g) end.
  destruct (setup_reaches p (on_dev (set_capacity capacity)
      (blk_init (LklDisk p (dk_handle disk)) junk)) h1 irq slot)
    as (h2 & Hset & Hboot & Hrun & Hdk & Hirq & Hio & Hheap);
    [unfold h1; cbn; by simplify_map_eq|unfold h1; cbn; lia|done|done|done|by destruct Hres|].
  exists h2, (ready_dev junk (LklDisk p (dk_handle disk)) capacity (Z.of_nat irq)
                (IOMEM_INDEX_TO_ADDR (Z.of_nat slot)) (p + 1)).
  split; [|split; [|split; [exact Hboot|split; [|reflexivity]]]].
  - unfold bindM. rewrite Hset. unfold h1. cbn [hs_running hs_next upd_heap upd_alloc].
    reflexivity.
  - destruct Hboot as (_ & Hnb & _). split; try done; [..|rewrite Hnb; cbn; lia].
    rewrite Hheap. unfold h1. cbn [hs_heap hs_next upd_heap upd_alloc].
    rewrite !insert_insert_eq. rewrite (insert_insert_ne _ (p + 1) p) by lia.
    by rewrite insert_insert_eq.
  - cbn. done.
Qed.

(** The searches succeed when there is something to find. *)
Definition can_attach (h : host) : Prop :=
  (exists i, (1 <= i < 4096)%nat /\ irqs (hs_irq h) !! i = Some None) /\
  (exists i, (1 <= i < 128)%nat /\ option_map r_ops (hs_iomem h !! i) = Some None).

Lemma can_attach_resources h :
  host_wf h -> can_attach h -> exists irq slot, resources h irq slot.
Proof.
  intros [Hirq Hio _ _ _] [(i & Hi & Hfi) (j & Hj & Hfj)].
  pose proof (get_free_irq_spec "virtio" _ Hirq) as H.
  destruct (lkl_get_free_irq "virtio" (hs_irq h)) as [irq st] eqn:Eirq.
  unfold NR_IRQS, IRQ_STATUS_BITS in H.
  destruct H as [_ [(Hr & Hf & _ & ->)|(_ & _ & Hall)]].
  2: { destruct (Hall (Z.of_nat i)) as [u Hu]; [lia|]. rewrite Nat2Z.id in Hu. congruence. }
  destruct (hs_iomem h !! j) as [rj|] eqn:Ej; [|done]. injection Hfj as Hfj.
  assert (forall data, exists s, (1 <= s < 128)%nat /\ (exists r, hs_iomem h !! s = Some r /\
    r_ops r = None) /\ (forall k r, (1 <= k < s)%nat -> hs_iomem h !! k = Some r ->
    is_Some (r_ops r)) /\ register_iomem data MMIO_SIZE virtio_ops (hs_iomem h) =
    (IOMEM_INDEX_TO_ADDR (Z.of_nat s),
     <[s := Build_iomem_region data MMIO_SIZE (Some virtio_ops)]> (hs_iomem h))) as Hreg.
  { intros data. destruct (register_iomem_cases data MMIO_SIZE virtio_ops _ Hio)
      as [(s & Hs & _ & Hfree & Hmin & E)|[[Hbig|Hfull] _]]; [|by cbv in Hbig|].
    - exists s. split_and!; try done; [lia|]. destruct (decide (s < 128)%nat); [done|].
      destruct (Hmin j rj) as [? Hx]; [lia|done|]. congruence.
    - destruct (Hfull j rj) as [? Hx]; [lia|done|]. congruence. }
  destruct (Hreg 0) as (s & Hs & (r & Hr' & Hnone) & Hmin & _).
  exists (Z.to_nat irq), s. split; rewrite ?Z2Nat.id by lia; try done; [lia|by rewrite Hr'; simpl; rewrite Hnone|].
  intros data. destruct (Hreg data) as (s' & Hs' & (r' & Hr'' & Hnone') & Hmin' & E).
  assert (s = s') as ->; [|done].
  destruct (lt_eq_lt_dec s s') as [[Hlt|]|Hlt]; [|done|]; exfalso.
  - destruct (Hmin' s r) as [? Hx]; [lia|done|]. congruence.
  - destruct (Hmin s' r') as [? Hx]; [lia|done|]. congruence.
Qed.

(** A failed registration with a running kernel, seen from the addon. *)
Lemma add_refused junk cap disk capacity h irq slot :
  let p := hs_next h in
  host_wf h -> allocs 2 h -> resources h irq slot -> hs_running h = true ->
  cap (LklDisk p (dk_handle disk)) = (0, capacity) ->
  (forall b s i k, s32 (fst (kernel (KDeviceAdd b s i) k)) < 0) ->
  exists h' v, lkl_disk_add junk cap disk h = Ok ((-1, LklDisk p (dk_handle disk)),
      upd_heap (delete p (hs_heap h')) h') /\ attached h h' irq slot p v.
Proof.
  intros p Hwf Ho Hres Hrun Hcap Hk.
  destruct (add_reaches junk cap disk capacity h irq slot) as (h1 & v & -> & Hat & _); [done..|].
  fold p in Hat. rewrite Hrun. unfold finish_setup, setup_running. cbn [negb].
  rewrite bindM_assoc.
  specialize (Hk (IOMEM_INDEX_TO_ADDR (Z.of_nat slot)) MMIO_SIZE (Z.of_nat irq) (hs_kernel h1)).
  destruct (kernel _ (hs_kernel h1)) as [r k1] eqn:Ek. simpl in Hk.
  erewrite bindM_ok; [|unfold sys; rewrite Ek; reflexivity]. rewrite (proj2 (Z.ltb_lt _ _)) by done.
  erewrite bindM_ok; [|reflexivity]. unfold finish_add. cbn [negb Z.eqb].
  exists (upd_kernel k1 h1), v. destruct Hat. split; [|by split].
  erewrite bindM_ok; [reflexivity|]. unfold mem_free. cbn [hs_heap upd_kernel].
  by rewrite at_heap0, lookup_insert_eq.
Qed.

(** C38: When the running kernel refuses the device, adding a disk reports an
    error but releases only the device structure: the interrupt number and the
    I/O memory slot stay taken, the queue array stays allocated, and the slot's
    data pointer is the structure that has been freed. *)
Theorem disk_add_refused_leaks junk cap disk capacity h :
  let p := hs_next h in
  host_wf h -> allocs 2 h -> can_attach h -> hs_running h = true ->
  cap (LklDisk p (dk_handle disk)) = (0, capacity) ->
  (forall b s i k, s32 (fst (kernel (KDeviceAdd b s i) k)) < 0) ->
  exists h' irq slot reg,
    do_disk_add junk cap disk h = Ok (inl 1, h') /\
    irqs (hs_irq h) !! irq = Some None /\
    irqs (hs_irq h') !! irq = Some (Some "virtio"%string) /\
    option_map r_ops (hs_iomem h !! slot) = Some None /\
    hs_iomem h' !! slot = Some reg /\ r_ops reg = Some virtio_ops /\ r_data reg = p /\
    hs_heap h' !! p = None /\
    hs_heap h !! (p + 1) = None /\ hs_heap h' !! (p + 1) = Some BQueues.
Proof.
  intros p Hwf Ho Hca Hrun Hcap Hk.
  destruct (can_attach_resources h Hwf Hca) as (irq & slot & Hres).
  destruct (add_refused junk cap disk capacity h irq slot) as (h1 & v & E & []); [done..|].
  fold p in E, at_iomem0, at_heap0. eexists _, irq, slot, (Build_iomem_region p MMIO_SIZE (Some virtio_ops)). split.
  { unfold do_disk_add. erewrite bindM_ok; [|exact E]. reflexivity. }
  cbn [hs_irq hs_iomem hs_heap upd_disks upd_heap fst snd].
  rewrite at_irq0, at_iomem0, at_heap0. destruct Hres. destruct Hwf as [Hw Ht _ Hh _].
  split_and!; [done| |done| |reflexivity|reflexivity|by simplify_map_eq| |].
  - cbn [irqs set_irqs]. apply list_lookup_insert_eq. rewrite (wf_users _ Hw). lia.
  - apply list_lookup_insert_eq. rewrite (table_length _ Ht). unfold MAX_IOMEM_REGIONS. lia.
  - destruct (hs_heap h !! (p + 1)) eqn:E1; [|done]. apply Hh in E1. unfold p in E1. lia.
  - rewrite lookup_delete_ne, lookup_insert_ne by lia. by simplify_map_eq.
Qed.

(** *** A kernel that accepts the calls *)

(** Device numbers below [n]; sysfs can be mounted or is mounted already; the
    device can be unbound. *)
Record good_kernel (n : Z) : Prop := {
  gk_add : forall b s i k, 0 <= fst (kernel (KDeviceAdd b s i) k) < n;
  gk_mkdir : forall d m k, fst (kernel (KMkdir d m) k) ∈ [0; - EEXIST];
  gk_mount : forall s d t f x k, fst (kernel (KMount s d t f x) k) ∈ [0; - EBUSY];
  gk_open : forall d f m k, 0 <= fst (kernel (KOpen d f m) k);
  gk_write : forall fd l k, 0 <= fst (kernel (KWrite fd l) k);
  gk_close : forall fd k, 0 <= fst (kernel (KClose fd) k);
  gk_umount : forall d f k, 0 <= fst (kernel (KUmount d f) k)
}.

Lemma runs_sys_good {A} c (k : Z -> M host A) h0 h Q (ok : Z -> Prop) :
  only_kernel h0 h -> (forall s, ok (fst (kernel c s))) ->
  (forall r h', ok r -> only_kernel h0 h' -> runs_to (k r) h' Q) ->
  runs_to (bindM (sys c) k) h Q.
Proof.
  intros [k0 ->] Hok Hk. apply runs_bind. unfold runs_to at 1, sys.
  specialize (Hok (hs_kernel (upd_kernel k0 h0))).
  destruct (kernel c _) as [r k1]. apply Hk; [done|]. by exists k1.
Qed.

Lemma chars_length s : length (chars s) = String.length s.
Proof. unfold chars. rewrite length_map. induction s; simpl; congruence. Qed.

Lemma digits_length fuel b n acc : (length (digits fuel b n acc) <= fuel + length acc)%nat.
Proof.
  revert n acc. induction fuel as [|f IH]; intros n acc; simpl; [lia|].
  destruct (n <? b); simpl; [lia|]. etrans; [apply IH|]. simpl. lia.
Qed.

Lemma print_dec_length n : (length (print_dec n) <= 20)%nat.
Proof. unfold print_dec. apply (digits_length 20 10 n []). Qed.

Lemma print_hex_length n : (length (print_hex n) <= 20)%nat.
Proof. unfold print_hex. apply (digits_length 20 16 n []). Qed.

Lemma print_int_length n : (length (print_int n) <= 21)%nat.
Proof.
  unfold print_int. pose proof (print_dec_length (s32 n)). pose proof (print_dec_length (- s32 n)).
  cbv zeta. destruct (s32 n <? 0); rewrite ?length_app, ?chars_length; cbn [String.length]; lia.
Qed.

Lemma device_param_length size base irq : (length (device_param size base irq) <= 84)%nat.
Proof.
  unfold device_param. pose proof (print_dec_length size). pose proof (print_hex_length base).
  pose proof (print_dec_length irq).
  rewrite !length_app, !chars_length. cbn [String.length]. lia.
Qed.

Lemma devname_length id n : (length (devname id n) <= 38)%nat.
Proof.
  unfold devname. pose proof (print_int_length id). pose proof (print_int_length (id - n)).
  destruct (n <=? id); rewrite !length_app, !chars_length; cbn [String.length]; lia.
Qed.

Lemma mount_fs_good n h0 h fs :
  good_kernel n -> only_kernel h0 h ->
  runs_to (lkl_mount_fs fs) h (fun r h' => 0 <= r /\ only_kernel h0 h').
Proof.
  intros [] Hk. unfold lkl_mount_fs.
  eapply (runs_sys_good _ _ _ _ _ (fun r => r ∈ [0; - EEXIST])); [done|auto|].
  intros r g Hr Hg. assert (negb (s32 r =? 0) && negb (s32 r =? - EEXIST) = false) as ->
    by (apply elem_of_cons in Hr as [->| ->%list_elem_of_singleton]; done).
  eapply (runs_sys_good _ _ _ _ _ (fun r => r ∈ [0; - EBUSY])); [done|auto|].
  intros r' g' Hr' Hg'. assert (negb (s32 r' =? 0) && negb (s32 r' =? - EBUSY) = false) as ->
    by (apply elem_of_cons in Hr' as [->| ->%list_elem_of_singleton]; done).
  by case_match.
Qed.

Lemma unbind_good n h id nboot :
  good_kernel n -> runs_to (unbind id nboot) h (fun r h' => r = None /\ only_kernel h h').
Proof.
  intros Hgk. pose proof Hgk as []. unfold unbind. apply runs_bind.
  eapply runs_mono; [eapply mount_fs_good; [done|apply only_kernel_refl]|].
  intros m g [Hm Hg]; cbn beta. rewrite (proj2 (Z.ltb_ge m 0)) by lia.
  pose proof (devname_length id nboot). rewrite (proj2 (Z.leb_gt 100 _)) by lia.
  eapply (runs_sys_good _ _ _ _ _ (fun r => 0 <= r)); [done|auto|intros fd g1 Hfd Hg1].
  rewrite (proj2 (Z.ltb_ge fd 0)) by lia.
  eapply (runs_sys_good _ _ _ _ _ (fun r => 0 <= r)); [done|auto|intros r g2 Hr Hg2].
  rewrite (proj2 (Z.ltb_ge r 0)) by lia.
  eapply (runs_sys_good _ _ _ _ _ (fun r => 0 <= r)); [done|auto|intros r' g3 Hr' Hg3].
  rewrite (proj2 (Z.ltb_ge r' 0)) by lia. destruct (m =? 0); [|done].
  eapply (runs_sys_good _ _ _ _ _ (fun r => 0 <= r)); [done|auto|intros u g4 Hu Hg4].
  by rewrite (proj2 (Z.ltb_ge u 0)) by lia.
Qed.

(** Numbers for devices are left, and the command line has room for one. *)
Definition can_number (n : Z) (h : host) : Prop :=
  0 < n /\ 0 <= hs_nboot h /\ hs_nboot h + n <= 2 ^ 31 /\
  (hs_running h = false -> hs_devs_pos h + 84 < LKL_VIRTIO_DEVS_SIZE).

Lemma attached_id h h1 irq slot p v id :
  attached h h1 irq slot p v ->
  runs_to (mod_dev p (on_dev (with_virtio_mmio_id id))) h1 (fun _ h' =>
    attached h h' irq slot p (on_dev (with_virtio_mmio_id id) v)).
Proof.
  intros []. unfold runs_to, mod_dev. rewrite at_heap0, lookup_insert_eq.
  split; try done. cbn [hs_heap upd_heap]. by rewrite insert_insert_eq.
Qed.

Lemma finish_good n h h1 irq slot p v base :
  good_kernel n -> can_number n h -> attached h h1 irq slot p v -> same_boot h h1 ->
  runs_to (finish_setup (hs_running h) p (p + 1) MMIO_SIZE base (Z.of_nat irq)) h1 (fun ret h' =>
    ret = 0 /\ exists id, disk_id id /\
      attached h h' irq slot p (on_dev (with_virtio_mmio_id id) v)).
Proof.
  intros [Hadd _ _ _ _ _ _] (Hn & Hnb & Hmax & Hroom) Hat (Hk & Hnboot & Hpos).
  unfold finish_setup, disk_id. destruct (hs_running h); cbn [negb].
  - unfold setup_running. apply runs_bind. unfold runs_to at 1, sys.
    specialize (Hadd base MMIO_SIZE (Z.of_nat irq) (hs_kernel h1)).
    destruct (kernel _ (hs_kernel h1)) as [r k]. cbn [fst] in Hadd.
    rewrite (s32_id r) by lia. rewrite (proj2 (Z.ltb_ge r 0)) by lia.
    apply runs_bind. cbn [runs_to getM hs_nboot upd_kernel]. apply runs_bind.
    eapply runs_mono; [apply attached_id; destruct Hat; by split|].
    intros [] h2 Hat2; cbn beta in *. apply runs_ret. split; [done|].
    eexists. split; [|exact Hat2]. unfold u32. lia.
  - specialize (Hroom eq_refl). unfold setup_cmdline, LKL_VIRTIO_DEVS_SIZE in *.
    pose proof (device_param_length MMIO_SIZE base (Z.of_nat irq)).
    set (text := device_param _ _ _) in *. clearbody text.
    apply runs_bind. cbn [runs_to getM]. apply runs_bind. cbn [runs_to modifyM].
    rewrite (proj2 (Z.leb_gt _ _)) by lia. apply runs_bind. cbn [runs_to modifyM]. apply runs_bind.
    eapply runs_mono; [apply attached_id; destruct Hat; split; try done; cbn [hs_nboot upd_boot]|].
    { rewrite u32_id by lia. lia. }
    intros [] h2 Hat2; cbn beta in *. apply runs_ret. split; [done|].
    eexists. split; [|exact Hat2]. lia.
Qed.

Lemma add_good n junk cap disk capacity h irq slot :
  let p := hs_next h in
  host_wf h -> allocs 2 h -> resources h irq slot -> can_number n h -> good_kernel n ->
  cap (LklDisk p (dk_handle disk)) = (0, capacity) ->
  exists id h1 v, lkl_disk_add junk cap disk h = Ok ((id, LklDisk p (dk_handle disk)), h1) /\
    disk_id id /\ attached h h1 irq slot p v /\ d_virtio_mmio_id (b_dev v) = id /\
    take 8 (d_config_data (b_dev v)) = le_bytes 8 (capacity / 512).
Proof.
  intros p Hwf Ho Hres Hnum Hgk Hcap.
  destruct (add_reaches junk cap disk capacity h irq slot)
    as (h1 & v & -> & Hat & Hboot & Hc & _); [done..|]. fold p in Hat |- *.
  pose proof (finish_good n h h1 irq slot p v (IOMEM_INDEX_TO_ADDR (Z.of_nat slot))
    Hgk Hnum Hat Hboot) as Hf.
  unfold runs_to in Hf. destruct (finish_setup _ _ _ _ _ _ h1) as [[ret h2]|] eqn:E; [|done].
  destruct Hf as (-> & id & Hid & Hat2). exists id, h2, (on_dev (with_virtio_mmio_id id) v).
  split_and!; [|done|done|done|done]. erewrite bindM_ok; [|exact E]. unfold finish_add.
  cbn [negb Z.eqb]. erewrite bindM_ok.
  2: { unfold get_dev. rewrite (at_heap _ _ _ _ _ _ Hat2), lookup_insert_eq. reflexivity. }
  unfold disk_id in Hid. cbn [b_dev on_dev d_virtio_mmio_id with_virtio_mmio_id].
  by rewrite s32_id by lia.
Qed.

(** Removing an attached device gives everything back. *)
Lemma remove_attached n h h1 irq slot p v dk :
  host_wf h -> good_kernel n -> resources h irq slot -> attached h h1 irq slot p v ->
  p = hs_next h -> dk_dev dk = p ->
  runs_to (lkl_disk_remove dk) h1 (fun ret h' => ret = 0 /\ hs_irq h' = hs_irq h /\
    hs_heap h' = hs_heap h /\ hs_disks h' = hs_disks h1 /\
    hs_iomem h' = <[slot := Build_iomem_region p 0 None]> (hs_iomem h)).
Proof.
  intros Hwf Hgk [] [] Hp Hdk. destruct Hwf as [Hw Ht Hpos Hh _]. unfold lkl_disk_remove.
  assert (hs_heap h !! p = None /\ hs_heap h !! (p + 1) = None) as [Hf1 Hf2].
  { split; destruct (hs_heap h !! _) eqn:E; try done; apply Hh in E; lia. }
  rewrite Hdk, (proj2 (Z.eqb_neq p 0)) by lia. apply runs_bind. unfold virtio_dev_cleanup.
  apply runs_bind. unfold runs_to at 1, get_dev. rewrite at_heap0, lookup_insert_eq.
  apply runs_bind. cbn [runs_to getM]. apply runs_bind.
  eapply (runs_mono _ _ (fun r h' => r = None /\ only_kernel h1 h')).
  { destruct (hs_running h1); [by eapply unbind_good|split; [done|apply only_kernel_refl]]. }
  intros early h2 [-> [k ->]]; cbn beta iota. rewrite at_dev_irq0, at_base0, at_queue0.
  apply runs_bind. unfold runs_to at 1, put_irq, lkl_put_irq. cbn [hs_irq upd_kernel].
  rewrite (proj2 (Z.ltb_ge _ _)) by lia. rewrite at_irq0, Nat2Z.id. cbn [irqs set_irqs].
  rewrite list_lookup_insert_eq by (rewrite (wf_users _ Hw); lia). rewrite String.eqb_refl.
  apply runs_bind. cbn [runs_to do_unregister_iomem modifyM]. apply runs_bind.
  unfold runs_to at 1, mem_free. cbn [hs_heap upd_iomem upd_irq upd_kernel].
  rewrite at_heap0, lookup_insert_ne, lookup_insert_eq by lia. apply runs_ret.
  cbn [Z.ltb Z.compare]. apply runs_bind. unfold runs_to at 1, mem_free. cbn [hs_heap upd_heap].
  rewrite lookup_delete_ne, lookup_insert_eq by lia. apply runs_ret.
  cbn [hs_irq hs_heap hs_disks hs_iomem upd_heap upd_iomem upd_irq upd_kernel]. split_and!; [done| | |done|].
  - rewrite list_insert_insert_eq, list_insert_id by done. by destruct (hs_irq h).
  - rewrite delete_insert_ne by lia. rewrite (delete_insert_id (hs_heap h)) by done.
    by apply delete_insert_id.
  - rewrite at_iomem0.
    erewrite unregister_at; [|lia|rewrite Nat2Z.id; apply list_lookup_insert_eq;
      rewrite (table_length _ Ht); unfold MAX_IOMEM_REGIONS; lia].
    by rewrite Nat2Z.id, list_insert_insert_eq.
Qed.

(** C25: Adding a disk and removing it again, before or after the kernel is
    started: the add returns a number, under which the disk is a live device
    whose interrupt is registered, whose I/O memory slot leads to it and whose
    configuration gives the capacity in sectors; the remove succeeds and leaves
    the interrupt table, the heap and the disk table as they were, and the slot
    free with every other slot unchanged. *)
Theorem disk_add_remove n junk cap disk capacity h :
  let p := hs_next h in
  host_wf h -> allocs 2 h -> can_attach h -> can_number n h -> good_kernel n ->
  cap (LklDisk p (dk_handle disk)) = (0, capacity) ->
  exists id h1 v irq slot h2,
    do_disk_add junk cap disk h = Ok (inr id, h1) /\ disk_id id /\
    hs_disks h1 = <[id := LklDisk p (dk_handle disk)]> (hs_disks h) /\
    dev_at p v h1 /\ d_virtio_mmio_id (b_dev v) = id /\
    take 8 (d_config_data (b_dev v)) = le_bytes 8 (capacity / 512) /\
    d_irq (b_dev v) = Z.of_nat irq /\
    irqs (hs_irq h1) !! irq = Some (Some "virtio"%string) /\
    d_base (b_dev v) = IOMEM_INDEX_TO_ADDR (Z.of_nat slot) /\
    hs_iomem h1 !! slot = Some (Build_iomem_region p MMIO_SIZE (Some virtio_ops)) /\
    do_disk_remove id h1 = Ok (None, h2) /\
    hs_irq h2 = hs_irq h /\ hs_heap h2 = hs_heap h /\
    hs_disks h2 = delete id (hs_disks h) /\
    option_map r_ops (hs_iomem h !! slot) = Some None /\
    option_map r_ops (hs_iomem h2 !! slot) = Some None /\
    (forall k, k <> slot -> hs_iomem h2 !! k = hs_iomem h !! k).
Proof.
  intros p Hwf Ho Hca Hnum Hgk Hcap.
  destruct (can_attach_resources h Hwf Hca) as (irq & slot & Hres).
  destruct (add_good n junk cap disk capacity h irq slot) as (id & h1 & v & Hadd & Hid & Hat & Hv & Hc);
    [done..|]. fold p in Hadd, Hat.
  pose proof (disk_add_safe junk cap disk h Hwf) as Hk. unfold runs_to in Hk. rewrite Hadd in Hk.
  destruct Hk as [(_ & Hdk & _) _].
  set (h1' := upd_disks (<[id := LklDisk p (dk_handle disk)]> (hs_disks h)) h1).
  assert (attached h h1' irq slot p v) as Hat' by (destruct Hat; by split).
  pose proof (remove_attached n h h1' irq slot p v (LklDisk p (dk_handle disk))
    Hwf Hgk Hres Hat' eq_refl eq_refl) as Hrm. unfold runs_to in Hrm.
  destruct (lkl_disk_remove _ h1') as [[ret h2]|] eqn:Erm; [|done].
  destruct Hrm as (-> & Hirq2 & Hheap2 & Hdk2 & Hio2).
  exists id, h1', v, irq, slot, (upd_disks (delete id (hs_disks h2)) h2).
  destruct Hat', Hres, Hwf as [Hw Ht _ _ _]. unfold disk_id in Hid.
  assert (slot < length (hs_iomem h))%nat as Hsl
    by (rewrite (table_length _ Ht); unfold MAX_IOMEM_REGIONS; lia).
  split_and!; try done.
  - unfold do_disk_add. erewrite bindM_ok; [|exact Hadd]. cbn [fst snd].
    rewrite u32_id, (proj2 (Z.ltb_ge id 0)) by lia. unfold h1'. rewrite <- Hdk. reflexivity.
  - unfold dev_at. rewrite at_dev_irq0, at_queue0, at_heap0. unfold NR_IRQS, IRQ_STATUS_BITS.
    rewrite lookup_insert_eq, lookup_insert_ne, lookup_insert_eq by lia. split_and!; [done|done|lia|lia].
  - rewrite at_irq0. cbn [irqs set_irqs]. apply list_lookup_insert_eq. rewrite (wf_users _ Hw). lia.
  - rewrite at_iomem0. by apply list_lookup_insert_eq.
  - unfold do_disk_remove. erewrite bindM_ok; [|reflexivity].
    unfold h1' at 1. cbn [hs_disks upd_disks]. rewrite lookup_insert_eq. cbn [default].
    erewrite bindM_ok; [|exact Erm]. reflexivity.
  - cbn [hs_disks upd_disks]. rewrite Hdk2. unfold h1'. cbn [hs_disks upd_disks].
    by rewrite delete_insert_eq.
  - cbn [hs_iomem upd_disks]. rewrite Hio2. by rewrite list_lookup_insert_eq.
  - intros k Hk. cbn [hs_iomem upd_disks]. rewrite Hio2. by apply list_lookup_insert_ne.
Qed.

(** C26: Adding and removing disks in any order never faults, whatever the
    kernel answers, whichever allocations fail and whatever malloc leaves in a
    fresh block, as long as the numbers removed are in the range a successful
    add returns (known or not): no use after free, no double free, and every
    numbered disk stays a live device with blocks of its own. *)
Theorem disk_ops_safe l h :
  disks_ok h -> Forall op_ok l ->
  exists h', run_ops l h = Ok (tt, h') /\ disks_ok h'.
Proof.
  intros Hok Hl. enough (runs_to (run_ops l) h (fun _ h' => disks_ok h')) as Hr.
  { unfold runs_to in Hr. destruct (run_ops l h) as [[[] h']|]; [by exists h'|done]. }
  revert h Hok. induction Hl as [|o l Ho _ IH]; intros h Hok; [done|].
  apply runs_bind. eapply (runs_mono _ _ (fun _ h' => disks_ok h')); [|by auto].
  destruct o; apply runs_bind;
    (eapply runs_mono; [by apply disks_ok_add || apply disks_ok_remove|]); done.
Qed.

End Host.

(** *** Witnesses *)

Module DiskDemo.

(** A kernel that gives every device the same answer [r] and accepts the
    other calls. *)
Definition kernel (r : Z) (c : kcall) (k : Z) : Z * Z :=
  match c with KDeviceAdd _ _ _ => (r, k + 1) | _ => (0, k + 1) end.

Definition start (running : bool) : host (D := Z) (K := Z) :=
  Host irq_init iomem_regions_init ∅ 4096 [] [] 0 0 running 0 ∅.

Definition junk : virtio_blk_dev :=
  VirtioBlkDev (VirtioDev 7 7 7 7 7 7 7 [] 7 7 7 7 (replicate 36 7) 7 7 7) 7 (LklDisk 7 7).

Definition cap (_ : lkl_disk) : Z * Z := (0, 1048576).

Lemma start_wf running : host_wf (start running).
Proof.
  split; [apply irq_wf_init|apply table_ok_init|done| |done].
  intros k b. cbn. by rewrite lookup_empty.
Qed.

Lemma start_attach running : can_attach (start running).
Proof. split; exists 1%nat; (split; [lia|reflexivity]). Qed.

Lemma start_disks running : disks_ok (start running).
Proof. split; [apply start_wf|..]; intros *; cbn; by rewrite lookup_empty. Qed.

Lemma kernel_good : good_kernel (kernel 0) 1.
Proof. split; intros; simpl; lia || set_solver. Qed.

End DiskDemo.

Lemma disk_ops_safe_witness :
  exists h', run_ops reg_ops (DiskDemo.kernel (-12))
    [DAdd DiskDemo.junk DiskDemo.cap (LklDisk 5 9); DRemove 0; DRemove 3] (DiskDemo.start true)
    = Ok (tt, h') /\ disks_ok h'.
Proof.
  apply (disk_ops_safe reg_ops (DiskDemo.kernel (-12))); [apply DiskDemo.start_disks|].
  repeat constructor; done.
Defined.

Lemma disk_add_remove_witness :
  exists id h1 h2,
    do_disk_add reg_ops (DiskDemo.kernel 0) DiskDemo.junk DiskDemo.cap (LklDisk 5 9)
      (DiskDemo.start false) = Ok (inr id, h1) /\
    do_disk_remove (DiskDemo.kernel 0) id h1 = Ok (None, h2) /\ hs_heap h2 = ∅.
Proof.
  destruct (disk_add_remove reg_ops (DiskDemo.kernel 0) 1 DiskDemo.junk DiskDemo.cap (LklDisk 5 9)
    1048576 (DiskDemo.start false)) as
    (id & h1 & v & irq & slot & h2 & Ha & _ & _ & _ & _ & _ & _ & _ & _ & _ & Hr & _ & Hh & _);
    [apply DiskDemo.start_wf|constructor|apply DiskDemo.start_attach| |apply DiskDemo.kernel_good
    |reflexivity|by exists id, h1, h2].
  split_and!; simpl; [lia|lia|lia|unfold LKL_VIRTIO_DEVS_SIZE; lia].
Defined.

Lemma disk_add_refused_leaks_witness :
  exists h' reg,
    do_disk_add reg_ops (DiskDemo.kernel (-12)) DiskDemo.junk DiskDemo.cap (LklDisk 5 9)
      (DiskDemo.start true) = Ok (inl 1, h') /\
    (exists slot, hs_iomem h' !! slot = Some reg) /\ r_data reg = 4096 /\ hs_heap h' !! 4096 = None.
Proof.
  destruct (disk_add_refused_leaks reg_ops (DiskDemo.kernel (-12)) DiskDemo.junk DiskDemo.cap
    (LklDisk 5 9) 1048576 (DiskDemo.start true)) as
    (h' & irq & slot & reg & Ha & _ & _ & _ & Hs & _ & Hd & Hh & _);
    [apply DiskDemo.start_wf|constructor|apply DiskDemo.start_attach|reflexivity|reflexivity
    |done|]. exists h', reg. split_and!; [exact Ha|by exists slot|exact Hd|exact Hh].
Defined.
