(* ===== verification/Mount.v ===== *)
(** * Mount

    tools/lkl/lib/fs.c: directory streams, the search for a disk's device number
    under sysfs, mounting and unmounting of a partition; src/disk.cc: [mount] and
    [umount] of the addon; lib/lkl.js: the table of mounts.

    The kernel is a parameter, as in DiskDev.v: [kernel] answers the system calls
    that return a number, [kread] those that fill a buffer. *)

From Stdlib Require Import Strings.String.
From S2P Require Import Prelude Memory Iomem Irq Virtio DiskDev.

(** ** Constants *)

Definition LKL_PATH_MAX : Z := 4096.
Definition LKL_O_RDONLY : Z := 0.
Definition LKL_O_DIRECTORY : Z := 65536.
Definition LKL_S_IRWXO : Z := 7.
Definition LKL_S_IFBLK : Z := 24576.
Definition LKL_MS_RDONLY : Z := 1.
Definition LKL_RLIMIT_NOFILE : Z := 7.
Definition DIR_BUF : Z := 1024.

(** ** Text *)

(** The C string at the start of [l]; [None] when nothing ends it. *)
Fixpoint until_nul (l : list Z) : option (list Z) :=
  match l with
  | [] => None
  | c :: l' => if c =? 0 then Some [] else s ← until_nul l'; Some (c :: s)
  end.

(** strncmp(pre, str, strlen(pre)) == 0 *)
Fixpoint startswith (str pre : list Z) : bool :=
  match pre, str with
  | [], _ => true
  | p :: pre', c :: str' => (p =? c) && startswith str' pre'
  | _ :: _, [] => false
  end.

Definition is_space (c : Z) : bool := (c =? 32) || ((9 <=? c) && (c <=? 13)).
Definition is_digit (c : Z) : bool := (48 <=? c) && (c <=? 57).

Fixpoint skip_space (l : list Z) : list Z :=
  match l with c :: l' => if is_space c then skip_space l' else l | [] => [] end.

(** The digits at the start of [l], as a number, and the rest. *)
Fixpoint scan_digits (n : Z) (l : list Z) : Z * list Z :=
  match l with
  | c :: l' => if is_digit c then scan_digits (10 * n + (c - 48)) l' else (n, l)
  | [] => (n, [])
  end.

(** %d: white space, a sign, digits; the result is an int. *)
Definition scan_d (l : list Z) : option (Z * list Z) :=
  let l := skip_space l in
  let '(neg, l) := match l with
                   | 45 :: l' => (true, l')
                   | 43 :: l' => (false, l')
                   | _ => (false, l)
                   end in
  match l with
  | c :: _ =>
      if is_digit c then
        let '(n, rest) := scan_digits 0 l in Some (s32 (if neg then - n else n), rest)
      else None
  | [] => None
  end.

(** sscanf(s, "%d:%d", &major, &minor): the number of conversions, EOF (-1) at
    the end of the input, and the values when there are two. *)
Definition sscanf_dev (s : list Z) : Z * (Z * Z) :=
  match scan_d s with
  | None => (if (length (skip_space s) =? 0)%nat then -1 else 0, (0, 0))
  | Some (major, 58 :: rest) =>
      match scan_d rest with
      | Some (minor, _) => (2, (major, minor))
      | None => (1, (major, 0))
      end
  | Some (major, _) => (1, (major, 0))
  end.

(** The low 32 bits of what the source computes; [~0xff] is an int. *)
Definition new_encode_dev (major minor : Z) : Z :=
  u32 (Z.lor (Z.lor (Z.land minor 0xff) (Z.shiftl major 8))
             (Z.shiftl (Z.land minor (Z.lnot 0xff)) 12)).

(** %08x of an unsigned int *)
Definition print_hex8 (n : Z) : list Z :=
  let d := print_hex n in replicate (8 - length d) 48 ++ d.

(** ** Calls that fill a buffer *)

Inductive rcall := RRead (fd len : Z) | RGetdents64 (fd len : Z).

Section Fs.
Context {D K : Type} (kernel : kcall -> K -> Z * K) (kread : rcall -> K -> Z * list Z * K).
Abbreviation HM := (M (host (D := D) (K := K))).

Definition rsys (c : rcall) : HM (Z * list Z) := fun h =>
  let '(r, bs, k) := kread c (hs_kernel h) in Ok ((r, bs), upd_kernel k h).

(** What a buffer holds after a call wrote [bs] from its start. *)
Definition fill (old bs : list Z) : list Z := take (length old) bs ++ drop (length bs) old.

(** ** Directory streams *)

Definition get_dir (p : Z) : HM lkl_dir := fun h =>
  match hs_heap h !! p with Some (BDir d) => Ok (d, h) | _ => Fail Segv end.

Definition set_dir (p : Z) (d : lkl_dir) : HM unit := fun h =>
  match hs_heap h !! p with
  | Some (BDir _) => Ok (tt, upd_heap (<[p := BDir d]> (hs_heap h)) h)
  | _ => Fail Segv
  end.

(** [junk] is the memory malloc returns; the result 0 is NULL with -ENOMEM. *)
Definition lkl_dir_alloc (junk : lkl_dir) : HM Z :=
  mem_alloc (BDir (LklDir (ld_fd junk) (ld_buf junk) None 0)).

Definition lkl_opendir (junk : lkl_dir) (path : list Z) : HM (Z + Z) :=
  let* dir := lkl_dir_alloc junk in
  if dir =? 0 then retM (inl (- ENOMEM))
  else
    let* r := sys kernel (KOpen path (Z.lor LKL_O_RDONLY LKL_O_DIRECTORY) 0) in
    let fd := s32 r in
    let* d := get_dir dir in
    set_dir dir (LklDir fd (ld_buf d) (ld_pos d) (ld_len d)) ;;;
    if fd <? 0 then mem_free dir ;;; retM (inl fd) else retM (inr dir).

Definition lkl_fdopendir (junk : lkl_dir) (fd : Z) : HM (Z + Z) :=
  let* dir := lkl_dir_alloc junk in
  if dir =? 0 then retM (inl (- ENOMEM))
  else
    let* d := get_dir dir in
    set_dir dir (LklDir fd (ld_buf d) (ld_pos d) (ld_len d)) ;;;
    retM (inr dir).

Definition lkl_rewinddir (dir : Z) : HM unit :=
  let* d := get_dir dir in
  let* _ := sys kernel (KLseek (ld_fd d) 0 0) in
  set_dir dir (LklDir (ld_fd d) (ld_buf d) None 0).

Definition lkl_closedir (dir : Z) : HM Z :=
  let* d := get_dir dir in
  let* ret := sys kernel (KClose (ld_fd d)) in
  mem_free dir ;;;
  retM (s32 ret).

(** The end of lkl_readdir: the offset of the entry in the buffer. *)
Definition return_de (dir : Z) : HM (option Z) :=
  let* d := get_dir dir in
  let* pos := someM (ld_pos d) in
  if (pos <? 0) || (DIR_BUF <? pos + 18) then failM Segv
  else
    let reclen := le_value (take 2 (drop (Z.to_nat (pos + 16)) (ld_buf d))) in
    set_dir dir (LklDir (ld_fd d) (ld_buf d) (Some (pos + reclen)) (ld_len d)) ;;;
    retM (Some pos).

Definition lkl_readdir (dir : Z) : HM (option Z) :=
  let* d := get_dir dir in
  if ld_len d <? 0 then retM None
  else if match ld_pos d with Some pos => pos <? ld_len d | None => false end then return_de dir
  else
    let* '(r, bs) := rsys (RGetdents64 (ld_fd d) DIR_BUF) in
    let len := s32 r in
    let buf := fill (ld_buf d) bs in
    set_dir dir (LklDir (ld_fd d) buf None len) ;;;
    if len <=? 0 then retM None
    else
      set_dir dir (LklDir (ld_fd d) buf (Some 0) len) ;;;
      return_de dir.

Definition lkl_errdir (dir : Z) : HM Z :=
  let* d := get_dir dir in retM (if 0 <=? ld_len d then 0 else ld_len d).

Definition lkl_dirfd (dir : Z) : HM Z := let* d := get_dir dir in retM (ld_fd d).

Definition lkl_set_fd_limit (fd_limit : Z) : HM Z :=
  let* r := sys kernel (KSetrlimit LKL_RLIMIT_NOFILE fd_limit fd_limit) in retM (s32 r).

(** dirent->d_name *)
Definition d_name (dir pos : Z) : HM (list Z) :=
  let* d := get_dir dir in someM (until_nul (drop (Z.to_nat (pos + 19)) (ld_buf d))).

(** ** Searching sysfs *)

(** The while loop of get_node_with_prefix. *)
Fixpoint find_node (fuel : nat) (dir : Z) (prefix : list Z) (result_len : Z) : HM (Z * list Z) :=
  match fuel with
  | O => failM NoFuel
  | S fuel' =>
      let* de := lkl_readdir dir in
      match de with
      | None => retM (- ENOENT, [])
      | Some pos =>
          let* name := d_name dir pos in
          if startswith name prefix then
            if result_len <? Z.of_nat (length name) + 1 then retM (- ENOMEM, [])
            else retM (0, name)
          else find_node fuel' dir prefix result_len
      end
  end.

(** The code and the name stored in [result]. *)
Definition get_node_with_prefix (fuel : nat) (junk : lkl_dir) (path prefix : list Z)
  (result_len : Z) : HM (Z * list Z) :=
  let* dir := lkl_opendir junk path in
  match dir with
  | inl ret => retM (ret, [])
  | inr dir =>
      let* '(ret, name) := find_node fuel dir prefix result_len in
      let* _ := lkl_closedir dir in
      retM (ret, name)
  end.

(** The code and the number stored in [*pdevid]. *)
Definition encode_dev_from_sysfs (sysfs_path : list Z) : HM (Z * Z) :=
  let* fd := sys kernel (KOpen sysfs_path LKL_O_RDONLY 0) in
  if fd <? 0 then retM (s32 fd, 0)
  else
    let* '(r, bs) := rsys (RRead fd 16) in
    let ret := s32 r in
    let buf := fill (replicate 16 0) bs in
    let* res :=
      (if ret <? 0 then retM (ret, 0)
       else if ret =? 16 then retM (- ENOBUFS, 0)
       else
         let* text := someM (until_nul buf) in
         let '(n, (major, minor)) := sscanf_dev text in
         if negb (n =? 2) then retM (- EINVAL, 0) else retM (0, new_encode_dev major minor)) in
    let* _ := sys kernel (KClose fd) in
    retM res.

Definition SYSFS_DEV_VIRTIO_PLATFORM_PATH (id : Z) : list Z :=
  chars "/sysfs/devices/platform/virtio-mmio." ++ print_int id ++ chars ".auto".
Definition SYSFS_DEV_VIRTIO_CMDLINE_PATH (id : Z) : list Z :=
  chars "/sysfs/devices/virtio-mmio-cmdline/virtio-mmio." ++ print_int id.

(** snprintf_append on a buffer of LKL_PATH_MAX bytes. *)
Definition snprintf_append (buf text : list Z) : option (list Z) :=
  if LKL_PATH_MAX - Z.of_nat (length buf) <=? Z.of_nat (length text) then None else Some (buf ++ text).

(** A step that fails with -ENOMEM when the path is too long. *)
Definition append_or (buf text : list Z) (k : list Z -> HM (Z * Z)) : HM (Z * Z) :=
  match snprintf_append buf text with None => retM (- ENOMEM, 0) | Some buf => k buf end.

(** [disk_id] is an int. *)
Definition lkl_get_virtio_blkdev (fuel : nat) (junk : lkl_dir) (disk_id part : Z) : HM (Z * Z) :=
  if disk_id <? 0 then retM (- EINVAL, 0)
  else
    let* ret := lkl_mount_fs kernel (chars "sysfs") in
    if ret <? 0 then retM (ret, 0)
    else
      let* h := getM in
      let nboot := hs_nboot h in
      let path := if nboot <=? disk_id then SYSFS_DEV_VIRTIO_PLATFORM_PATH (disk_id - nboot)
                  else SYSFS_DEV_VIRTIO_CMDLINE_PATH disk_id in
      append_or [] path (fun path =>
        let* '(ret, virtio_name) := get_node_with_prefix fuel junk path (chars "virtio") LKL_PATH_MAX in
        if negb (ret =? 0) then retM (ret, 0)
        else append_or path (chars "/" ++ virtio_name ++ chars "/block") (fun path =>
          let* '(ret, disk_name) := get_node_with_prefix fuel junk path (chars "vd") LKL_PATH_MAX in
          if negb (ret =? 0) then retM (ret, 0)
          else
            let text := if part =? 0 then chars "/" ++ disk_name ++ chars "/dev"
                        else chars "/" ++ disk_name ++ chars "/" ++ disk_name ++ print_int part ++ chars "/dev" in
            append_or path text encode_dev_from_sysfs)).

(** ** Mounting *)

Definition dev_str (dev : Z) : list Z := chars "/dev/" ++ print_hex8 dev.
Definition mnt_str (dev : Z) : list Z := chars "/mnt/" ++ print_hex8 dev.

(** access(path, S_IRWXO), and mkdir when the directory does not exist: [Some]
    is an early return. *)
Definition ensure_dir (path : list Z) : HM (option Z) :=
  let* r := sys kernel (KAccess path LKL_S_IRWXO) in
  let err := s32 r in
  if err <? 0 then
    let* err := (if err =? - ENOENT then let* r := sys kernel (KMkdir path 448) in retM (s32 r)
                 else retM err) in
    retM (if err <? 0 then Some err else None)
  else retM None.

(** The code and the string stored in [mnt_str]; [data] is NULL for the addon. *)
Definition lkl_mount_dev (fuel : nat) (junk : lkl_dir) (disk_id part : Z) (fs_type : list Z)
  (flags : Z) (data : option (list Z)) (mnt_str_len : Z) : HM (Z * list Z) :=
  if mnt_str_len <? 14 then retM (- ENOMEM, [])
  else
    let* '(err, dev) := lkl_get_virtio_blkdev fuel junk (s32 disk_id) part in
    if err <? 0 then retM (err, [])
    else
      let mnt := mnt_str dev in
      let* early := ensure_dir (chars "/dev") in
      match early with
      | Some err => retM (err, mnt)
      | None =>
          let* r := sys kernel (KMknod (dev_str dev) (Z.lor LKL_S_IFBLK 384) dev) in
          if s32 r <? 0 then retM (s32 r, mnt)
          else
            let* early := ensure_dir (chars "/mnt") in
            match early with
            | Some err => retM (err, mnt)
            | None =>
                let* r := sys kernel (KMkdir mnt 448) in
                if s32 r <? 0 then
                  let* _ := sys kernel (KUnlink (dev_str dev)) in retM (s32 r, mnt)
                else
                  let _data := match data with Some d => take 4095 d | None => [] end in
                  let* r := sys kernel (KMount (dev_str dev) mnt fs_type flags (Some _data)) in
                  if s32 r <? 0 then
                    let* _ := sys kernel (KUnlink (dev_str dev)) in
                    let* _ := sys kernel (KRmdir mnt) in
                    retM (s32 r, mnt)
                  else retM (0, mnt)
            end
      end.

(** The do/while loop: every round that goes on takes 10 ms off. *)
Fixpoint umount_loop (fuel : nat) (path : list Z) (flags timeout_ms : Z) : HM Z :=
  match fuel with
  | O => failM NoFuel
  | S fuel' =>
      let* err := sys kernel (KUmount path flags) in
      if err =? - EBUSY then
        let* _ := sys kernel (KNanosleep 0 10000000) in
        let timeout_ms := timeout_ms - 10 in
        if 0 <? timeout_ms then umount_loop fuel' path flags timeout_ms else retM err
      else retM err
  end.

Definition lkl_umount_timeout (path : list Z) (flags timeout_ms : Z) : HM Z :=
  umount_loop (S (Z.to_nat timeout_ms)) path flags timeout_ms.

Definition lkl_umount_dev (fuel : nat) (junk : lkl_dir) (disk_id part flags timeout_ms : Z) : HM Z :=
  let* '(err, dev) := lkl_get_virtio_blkdev fuel junk (s32 disk_id) part in
  if err <? 0 then retM err
  else
    let* r := lkl_umount_timeout (mnt_str dev) flags timeout_ms in
    let err := s32 r in
    if negb (err =? 0) then retM err
    else
      let* r := sys kernel (KUnlink (dev_str dev)) in
      let err := s32 r in
      if negb (err =? 0) then retM err else sys kernel (KRmdir (mnt_str dev)).

(** ** The addon (disk.cc) *)

(** The copy of the filesystem's name: [sizeof(fs_type)] is that of a pointer. *)
Definition copy_fs_type (name : list Z) : list Z := take 7 name.

(** mount: the conversions of its arguments and do_mount.  [None] is the
    callback with an error, [Some] the mountpoint. *)
Definition do_mount (fuel : nat) (junk : lkl_dir) (disk_id : Z) (readonly : bool) (fs_type : list Z)
  (part : Z) : HM (Z * list Z) :=
  lkl_mount_dev fuel junk (u32 disk_id) (u32 part) (copy_fs_type fs_type)
    (if readonly then LKL_MS_RDONLY else 0) None 32.

Definition do_umount (fuel : nat) (junk : lkl_dir) (disk_id part : Z) : HM Z :=
  let* _ := sys kernel KSync in
  let* ret := lkl_umount_dev fuel junk (u32 disk_id) (u32 part) 0 1000 in
  retM (s32 ret).

End Fs.

(** ** The table of mounts (lkl.js) *)

(** [mounts], by mountpoint: the disk and the partition. *)
Abbreviation mounts_table := (gmap (list Z) (Z * Z)).

(** The keys every object inherits: [mounts[mountpoint]] finds them too. *)
Definition inherited (key : list Z) : bool :=
  existsb (fun s => bool_decide (key = chars s))
    ["constructor"%string; "__defineGetter__"%string; "__defineSetter__"%string; "hasOwnProperty"%string;
     "__lookupGetter__"%string; "__lookupSetter__"%string; "isPrototypeOf"%string;
     "propertyIsEnumerable"%string; "toString"%string; "valueOf"%string; "__proto__"%string;
     "toLocaleString"%string].

(** [mounts[mountpoint]] and its [diskId] and [partition]; those of an inherited
    value are undefined, which converts to 0.  [None] is undefined itself. *)
Definition mount_info (mounts : mounts_table) (mountpoint : list Z) : option (Z * Z) :=
  match mounts !! mountpoint with
  | Some info => Some info
  | None => if inherited mountpoint then Some (0, 0) else None
  end.

(** How an operation of the queue ends: with its callback or with an exception. *)
Inductive outcome := CallbackErr (errno : Z) | CallbackOk (value : list Z) | ThrowsTypeError.

Section LklJs.
Context {D K : Type} (kernel : kcall -> K -> Z * K) (kread : rcall -> K -> Z * list Z * K).
Context (fuel : nat) (junk : lkl_dir).

Record jstate := JState { js_host : host (D := D) (K := K); js_mounts : mounts_table }.

Definition native {A} (c : M host A) : M jstate A := fun s =>
  match c (js_host s) with
  | Ok (a, h) => Ok (a, JState h (js_mounts s))
  | Fail e => Fail e
  end.

Definition mount (diskId : Z) (readOnly : bool) (filesystem : list Z) (partition : Z) : M jstate outcome :=
  let* '(ret, mountpoint) := native (do_mount kernel kread fuel junk diskId readOnly filesystem partition) in
  if ret <? 0 then retM (CallbackErr (- ret))
  else
    modifyM (fun s => JState (js_host s) (<[mountpoint := (diskId, partition)]> (js_mounts s))) ;;;
    retM (CallbackOk mountpoint).

Definition umount (mountpoint : list Z) : M jstate outcome :=
  let* s := getM in
  match mount_info (js_mounts s) mountpoint with
  | None => retM ThrowsTypeError
  | Some (diskId, partition) =>
      let* ret := native (do_umount kernel kread fuel junk diskId partition) in
      if ret <? 0 then retM (CallbackErr (- ret))
      else
        modifyM (fun s => JState (js_host s) (delete mountpoint (js_mounts s))) ;;;
        retM (CallbackOk [])
  end.

End LklJs.
