(* ===== verification/Sysfs.v ===== *)
(** * Sysfs

    The search of a disk's device number under sysfs (tools/lkl/lib/fs.c,
    modelled in Mount.v), against what sysfs is: a tree of directories and files
    behind open, getdents64, read and close.  The search, with its directory
    stream, its buffers and its heap block, is a walk in that tree. *)

From Stdlib Require Import Strings.String.
From S2P Require Import Prelude Memory Iomem Irq Virtio Stat DiskDev Mount.

(** ** The tree *)

Inductive inode := Dir (names : list (list Z)) | File (content : list Z).

Definition ENOTDIR : Z := 20.
Definition EISDIR : Z := 21.

(** What getdents64 stores for a list of names: records of an inode number, an
    offset, their own length, a type, the name and its padding. *)
Inductive dirents : list (list Z) -> list Z -> Prop :=
  | dirents_nil : dirents [] []
  | dirents_cons ino_off ty name pad names bs :
      length ino_off = 16%nat -> Forall (fun c => c <> 0) name ->
      Z.of_nat (20 + length name + length pad) < 65536 -> dirents names bs ->
      dirents (name :: names)
        (ino_off ++ le_bytes 2 (Z.of_nat (20 + length name + length pad)) ++ ty :: name ++ 0 :: pad ++ bs).

(** The calls that neither open nor close a descriptor. *)
Definition no_fd (c : kcall) : Prop :=
  match c with KOpen _ _ _ | KClose _ => False | _ => True end.

(** A descriptor is a path and the number of entries already read from it. *)
Abbreviation fd_table := (gmap Z (list Z * nat)).

Section Contract.
Context {K : Type} (kernel : kcall -> K -> Z * K) (kread : rcall -> K -> Z * list Z * K).
Context (tree : list Z -> option inode).

(** What open answers when it does not give a descriptor. *)
Definition open_error (path : list Z) (flags : Z) : option Z :=
  match tree path with
  | None => Some (- ENOENT)
  | Some (File _) => if Z.land flags LKL_O_DIRECTORY =? 0 then None else Some (- ENOTDIR)
  | Some (Dir _) => None
  end.

(** [sf_room]: there is a descriptor left. *)
Class Sysfs := {
  sf_fds : K -> fd_table;
  sf_mounted : K -> Prop;
  sf_room : fd_table -> Prop;
  sf_other c k : no_fd c -> sf_fds (kernel c k).2 = sf_fds k;
  sf_mkdir k : (kernel (KMkdir (chars "/sysfs") 255) k).1 ∈ [0; - EEXIST];
  sf_mount k : let c := KMount (chars "none") (chars "/sysfs") (chars "sysfs") 0 None in
    (kernel c k).1 ∈ [0; - EBUSY] /\ sf_mounted (kernel c k).2;
  sf_open_error p flags e k : sf_mounted k -> open_error p flags = Some e ->
    exists k', kernel (KOpen p flags 0) k = (e, k') /\ sf_fds k' = sf_fds k /\ sf_mounted k';
  sf_open p flags k : sf_mounted k -> sf_room (sf_fds k) -> open_error p flags = None ->
    exists fd k', kernel (KOpen p flags 0) k = (fd, k') /\ 0 <= fd < 2 ^ 31 /\
      sf_fds k !! fd = None /\ sf_fds k' = <[fd := (p, 0%nat)]> (sf_fds k) /\ sf_mounted k';
  sf_close fd k : is_Some (sf_fds k !! fd) ->
    sf_fds (kernel (KClose fd) k).2 = delete fd (sf_fds k) /\
    (sf_mounted k -> sf_mounted (kernel (KClose fd) k).2);
  sf_getdents fd len p i names k : sf_fds k !! fd = Some (p, i) -> tree p = Some (Dir names) ->
    512 <= len -> exists n bs k',
      kread (RGetdents64 fd len) k = (Z.of_nat (length bs), bs, k') /\
      dirents (take n (drop i names)) bs /\ Z.of_nat (length bs) <= len /\
      (drop i names <> [] -> (0 < n)%nat) /\ sf_fds k' = <[fd := (p, (i + n)%nat)]> (sf_fds k) /\
      (sf_mounted k -> sf_mounted k');
  sf_read fd len p content k : sf_fds k !! fd = Some (p, 0%nat) -> tree p = Some (File content) ->
    0 < len -> exists i k',
      kread (RRead fd len) k = (Z.min len (Z.of_nat (length content)), take (Z.to_nat len) content, k') /\
      sf_fds k' = <[fd := (p, i)]> (sf_fds k);
  sf_read_dir fd len p i names k : sf_fds k !! fd = Some (p, i) -> tree p = Some (Dir names) ->
    exists k', kread (RRead fd len) k = (- EISDIR, [], k') /\ sf_fds k' = sf_fds k }.

End Contract.

Arguments sf_fds {K kernel kread tree _} k.
Arguments sf_mounted {K kernel kread tree _} k.
Arguments sf_room {K kernel kread tree _} F.

(** ** The walk *)

Section Walk.
Context (tree : list Z -> option inode) (nboot : Z).

(** The first name of a directory that starts with [prefix]. *)
Definition find_in (path prefix : list Z) : Z + list Z :=
  match tree path with
  | None => inl (- ENOENT)
  | Some (File _) => inl (- ENOTDIR)
  | Some (Dir names) =>
      match List.find (fun n => startswith n prefix) names with
      | Some n => inr n
      | None => inl (- ENOENT)
      end
  end.

(** The number in a file: MAJOR:MINOR. *)
Definition number_in (path : list Z) : Z * Z :=
  match tree path with
  | None => (- ENOENT, 0)
  | Some (Dir _) => (- EISDIR, 0)
  | Some (File content) =>
      if (16 <=? length content)%nat then (- ENOBUFS, 0)
      else let '(n, (major, minor)) := sscanf_dev content in
           if n =? 2 then (0, new_encode_dev major minor) else (- EINVAL, 0)
  end.

Definition virtio_path (disk : Z) : list Z :=
  if nboot <=? disk then SYSFS_DEV_VIRTIO_PLATFORM_PATH (disk - nboot) else SYSFS_DEV_VIRTIO_CMDLINE_PATH disk.

Definition part_path (vd : list Z) (part : Z) : list Z :=
  if part =? 0 then chars "/" ++ vd ++ chars "/dev"
  else chars "/" ++ vd ++ chars "/" ++ vd ++ print_int part ++ chars "/dev".

(** The device number of a partition of a disk, 0 being the whole disk. *)
Definition disk_number (disk part : Z) : Z * Z :=
  if disk <? 0 then (- EINVAL, 0)
  else
    let path := virtio_path disk in
    match find_in path (chars "virtio") with
    | inl e => (e, 0)
    | inr virtio =>
        let path := path ++ chars "/" ++ virtio ++ chars "/block" in
        match find_in path (chars "vd") with
        | inl e => (e, 0)
        | inr vd => number_in (path ++ part_path vd part)
        end
    end.

(** The names of a tree are not longer than NAME_MAX, and its files are text. *)
Definition tree_ok (fuel : nat) : Prop := forall p nd, tree p = Some nd ->
  match nd with
  | Dir names => (length names < fuel)%nat /\ Forall (fun n => (length n <= 255)%nat) names
  | File content => Forall (fun c => c <> 0) content
  end.

End Walk.

(** ** Text *)

Lemma until_nul_app name rest : Forall (fun c => c <> 0) name -> until_nul (name ++ 0 :: rest) = Some name.
Proof.
  induction 1 as [|c name Hc _ IH]; [done|]. simpl. destruct (Z.eqb_spec c 0); [done|]. by rewrite IH.
Qed.

Lemma fill_short old bs : (length bs <= length old)%nat -> fill old bs = bs ++ drop (length bs) old.
Proof. intros. unfold fill. by rewrite take_ge. Qed.

Lemma fill_length old bs : length (fill old bs) = length old.
Proof. unfold fill. rewrite length_app, length_take, length_drop. lia. Qed.

Lemma dirents_length names bs : dirents names bs -> (20 * length names <= length bs)%nat.
Proof.
  induction 1 as [|ino_off ty name pad names bs H1 H2 H3 H4 IH]; simpl; [lia|].
  rewrite length_app. cbn [length]. rewrite length_app. cbn [length]. rewrite length_app. lia.
Qed.

(** What the host reads from a record, whatever follows it. *)
Lemma dirents_head name names ents tail : dirents (name :: names) ents -> exists reclen bs,
  le_value (take 2 (drop 16 (ents ++ tail))) = Z.of_nat reclen /\
  until_nul (drop 19 (ents ++ tail)) = Some name /\
  drop reclen (ents ++ tail) = bs ++ tail /\
  dirents names bs /\ length ents = (reclen + length bs)%nat /\ (20 <= reclen)%nat.
Proof.
  inversion 1 as [|ino_off ty name' pad names' bs H1 H2 H3 H4 E1 E2]. subst name' names'.
  exists (20 + length name + length pad)%nat, bs.
  set (reclen := (20 + length name + length pad)%nat) in *. rewrite <- !app_assoc.
  assert (forall n l, drop (16 + (2 + n)) (ino_off ++ le_bytes 2 (Z.of_nat reclen) ++ l) = drop n l) as Hd.
  { intros n l. rewrite <- !drop_drop, !drop_app_length' by done. done. }
  split_and!; [| | |done| |lia].
  - rewrite drop_app_length' by done. rewrite take_app_length' by done.
    rewrite le_value_bytes. apply Z.mod_small. change (256 ^ Z.of_nat 2) with 65536. lia.
  - rewrite (Hd 1%nat). cbn [drop app]. rewrite <- !app_assoc. by apply until_nul_app.
  - replace reclen with (16 + (2 + (1 + (length name + (1 + length pad)))))%nat at 1 by lia.
    rewrite Hd. cbn [app]. rewrite <- !app_assoc. cbn [app]. rewrite <- app_assoc.
    change (drop (1 + ?n) (_ :: ?l)) with (drop n l).
    rewrite <- drop_drop, drop_app_length. cbn [drop Nat.add]. by rewrite drop_app_length.
  - rewrite !length_app. cbn [length]. rewrite !length_app, length_le_bytes. cbn [length].
    rewrite length_app. lia.
Qed.

Lemma virtio_path_length nboot disk : (length (virtio_path nboot disk) <= 100)%nat.
Proof.
  unfold virtio_path, SYSFS_DEV_VIRTIO_PLATFORM_PATH, SYSFS_DEV_VIRTIO_CMDLINE_PATH.
  pose proof (print_int_length (disk - nboot)). pose proof (print_int_length disk).
  case_match; rewrite !length_app; simpl; lia.
Qed.

Lemma part_path_length vd part : (length (part_path vd part) <= 2 * length vd + 40)%nat.
Proof.
  unfold part_path. pose proof (print_int_length part). case_match; rewrite !length_app; simpl; lia.
Qed.

Lemma find_in_neg tree path prefix e : find_in tree path prefix = inl e -> e < 0.
Proof. unfold find_in. repeat case_match; intros; by simplify_eq. Qed.

(** ** A directory stream *)

Section Stream.
Context {D K : Type} (kernel : kcall -> K -> Z * K) (kread : rcall -> K -> Z * list Z * K).
Context (tree : list Z -> option inode) {SF : Sysfs kernel kread tree}.
Abbreviation hostD := (host (D := D) (K := K)).
Implicit Types h : hostD.

(** The host with a stream in the block [dir]. *)
Definition hst h (dir : Z) (d : lkl_dir) (k : K) : hostD :=
  upd_kernel k (upd_heap (<[dir := BDir d]> (hs_heap h)) h).

Lemma get_dir_hst h dir d k : get_dir dir (hst h dir d k) = Ok (d, hst h dir d k).
Proof. unfold get_dir, hst. cbn [hs_heap upd_heap upd_kernel]. by rewrite lookup_insert_eq. Qed.

Lemma set_dir_hst h dir d d' k : set_dir dir d' (hst h dir d k) = Ok (tt, hst h dir d' k).
Proof.
  unfold set_dir, hst. cbn [hs_heap upd_heap upd_kernel]. rewrite lookup_insert_eq.
  unfold upd_heap, upd_kernel. cbn. by rewrite insert_insert_eq.
Qed.

Lemma sys_hst h dir d k c r k' : kernel c k = (r, k') ->
  sys kernel c (hst h dir d k) = Ok (r, hst h dir d k').
Proof. intros E. unfold sys, hst. cbn [hs_kernel upd_heap upd_kernel]. by rewrite E. Qed.

Lemma rsys_hst h dir d k c r bs k' : kread c k = (r, bs, k') ->
  rsys kread c (hst h dir d k) = Ok ((r, bs), hst h dir d k').
Proof. intros E. unfold rsys, hst. cbn [hs_kernel upd_heap upd_kernel]. by rewrite E. Qed.

Lemma free_hst h dir d k : hs_heap h !! dir = None ->
  mem_free dir (hst h dir d k) = Ok (tt, upd_kernel k h).
Proof.
  intros H. unfold mem_free, hst. cbn [hs_heap upd_heap upd_kernel]. rewrite lookup_insert_eq.
  rewrite delete_insert_id by done. by destruct h.
Qed.

(** The names left in the buffer, from [ld_pos] on. *)
Definition buffered (here : list (list Z)) (d : lkl_dir) : Prop :=
  match ld_pos d with
  | None => ld_len d = 0 /\ here = []
  | Some pos => exists ents tail, 0 <= pos /\ ld_len d = pos + Z.of_nat (length ents) /\
      drop (Z.to_nat pos) (ld_buf d) = ents ++ tail /\ ld_len d <= 1024 /\ dirents here ents
  end.

(** [rest] is what the stream has still to deliver: what is left in its
    buffer, then what the kernel has still to store. *)
Record stream (F : fd_table) (fd : Z) (path : list Z) (names rest : list (list Z)) (d : lkl_dir) (k : K) : Prop := {
  st_fd : ld_fd d = fd;
  st_dir : tree path = Some (Dir names);
  st_buf : length (ld_buf d) = 1024%nat;
  st_mounted : sf_mounted k;
  st_rest : exists i here, sf_fds k = <[fd := (path, i)]> F /\ rest = here ++ drop i names /\
    buffered here d }.

(** An entry in the buffer. *)
Lemma return_de_ok F fd path names name here i ents tail pos d k h dir :
  ld_fd d = fd -> tree path = Some (Dir names) -> length (ld_buf d) = 1024%nat -> sf_mounted k ->
  sf_fds k = <[fd := (path, i)]> F ->
  ld_pos d = Some pos -> 0 <= pos -> ld_len d = pos + Z.of_nat (length ents) ->
  drop (Z.to_nat pos) (ld_buf d) = ents ++ tail -> ld_len d <= 1024 -> dirents (name :: here) ents ->
  exists d', return_de dir (hst h dir d k) = Ok (Some pos, hst h dir d' k) /\
    d_name dir pos (hst h dir d' k) = Ok (name, hst h dir d' k) /\
    stream F fd path names (here ++ drop i names) d' k.
Proof.
  intros Hfd Htree Hbuf Hm Hfds Hpos H0 Hlen Hdrop Hle Hd.
  destruct (dirents_head name here ents tail Hd) as (reclen & bs & H1 & H2 & H3 & H4 & H5 & H6).
  assert (forall j, drop (Z.to_nat (pos + Z.of_nat j)) (ld_buf d) = drop j (ents ++ tail)) as Hat.
  { intros j. rewrite <- Hdrop, drop_drop. f_equal. lia. }
  unfold return_de. rewrite (bindM_ok _ _ _ _ _ (get_dir_hst h dir d k)), Hpos.
  rewrite (bindM_ok (someM (Some pos)) _ (hst h dir d k) pos (hst h dir d k) eq_refl).
  replace ((pos <? 0) || (DIR_BUF <? pos + 18)) with false
    by (symmetry; apply orb_false_iff; unfold DIR_BUF; lia).
  change (pos + 16) with (pos + Z.of_nat 16). rewrite Hat, H1. rewrite (bindM_ok _ _ _ _ _ (set_dir_hst h dir d _ k)).
  eexists. split_and!; [done| |].
  - unfold d_name. rewrite (bindM_ok _ _ _ _ _ (get_dir_hst h dir _ k)). cbn [ld_buf].
    change (pos + 19) with (pos + Z.of_nat 19). by rewrite Hat, H2.
  - split; cbn [ld_fd ld_buf ld_pos ld_len]; [done..|]. exists i, here. split_and!; [done..|].
    unfold buffered. cbn [ld_buf ld_pos ld_len]. exists bs, tail. split_and!; [lia|lia| |lia|done]. by rewrite Hat.
Qed.

(** The buffer has been delivered. *)
Definition emptied (d : lkl_dir) : Prop :=
  0 <= ld_len d /\ match ld_pos d with Some pos => ld_len d <= pos | None => True end.

(** lkl_readdir then asks the kernel. *)
Lemma readdir_fetch d k h dir bs k' : emptied d -> length (ld_buf d) = 1024%nat ->
  kread (RGetdents64 (ld_fd d) DIR_BUF) k = (Z.of_nat (length bs), bs, k') -> Z.of_nat (length bs) <= 1024 ->
  lkl_readdir kread dir (hst h dir d k) =
    let buf := bs ++ drop (length bs) (ld_buf d) in
    if (length bs =? 0)%nat then Ok (None, hst h dir (LklDir (ld_fd d) buf None 0) k')
    else return_de dir (hst h dir (LklDir (ld_fd d) buf (Some 0) (Z.of_nat (length bs))) k').
Proof.
  intros [H0 Hpos] Hbuf E Hle. unfold lkl_readdir. rewrite (bindM_ok _ _ _ _ _ (get_dir_hst h dir d k)).
  destruct (Z.ltb_spec (ld_len d) 0) as [|_]; [lia|].
  replace (match ld_pos d with Some pos => pos <? ld_len d | None => false end) with false
    by (destruct (ld_pos d); [symmetry; apply Z.ltb_ge; lia|done]).
  rewrite (bindM_ok _ _ _ _ _ (rsys_hst h dir d k _ _ _ _ E)). rewrite s32_id by lia.
  rewrite fill_short by lia. cbv zeta. rewrite (bindM_ok _ _ _ _ _ (set_dir_hst h dir d _ k')).
  destruct (Z.leb_spec (Z.of_nat (length bs)) 0) as [Hz|Hz], (Nat.eqb_spec (length bs) 0) as [Hn|Hn]; try lia.
  - by rewrite Hn.
  - by rewrite (bindM_ok _ _ _ _ _ (set_dir_hst h dir _ _ k')).
Qed.

Lemma buffered_emptied d : buffered [] d -> emptied d.
Proof.
  unfold buffered, emptied. destruct (ld_pos d); [|lia].
  intros (ents & tail & ? & -> & _ & _ & Hd). inversion Hd. simpl. lia.
Qed.

(** A stream with nothing left to deliver, and one with a name left. *)
Lemma readdir_nil F fd path names d k h dir : stream F fd path names [] d k ->
  exists d' k' i, lkl_readdir kread dir (hst h dir d k) = Ok (None, hst h dir d' k') /\
    ld_fd d' = fd /\ sf_fds k' = <[fd := (path, i)]> F /\ sf_mounted k'.
Proof.
  intros [Hfd Htree Hbuf Hm (i & here & Hfds & Hrest & Hb)].
  symmetry in Hrest. apply app_eq_nil in Hrest as [-> Hend].
  destruct (sf_getdents kernel kread tree (ld_fd d) DIR_BUF path i names k) as
    (n & bs & k' & E & Hd & Hle & _ & Hk & Hm'); [by rewrite Hfds, Hfd, lookup_insert_eq|done|done|].
  rewrite Hend, take_nil in Hd. inversion Hd; subst bs.
  rewrite (readdir_fetch d k h dir [] k'); [|by apply buffered_emptied|done|exact E|done].
  eexists _, k', _. split_and!; [done..| |auto]. rewrite Hk, Hfds, Hfd. by rewrite insert_insert_eq.
Qed.

Lemma readdir_cons F fd path names name rest d k h dir : stream F fd path names (name :: rest) d k ->
  exists pos d' k', lkl_readdir kread dir (hst h dir d k) = Ok (Some pos, hst h dir d' k') /\
    d_name dir pos (hst h dir d' k') = Ok (name, hst h dir d' k') /\ stream F fd path names rest d' k'.
Proof.
  intros [Hfd Htree Hbuf Hm (i & here & Hfds & Hrest & Hb)].
  destruct here as [|name' here]; simpl in Hrest.
  - destruct (sf_getdents kernel kread tree (ld_fd d) DIR_BUF path i names k) as
      (n & bs & k' & E & Hd & Hle & Hn & Hk & Hm'); [by rewrite Hfds, Hfd, lookup_insert_eq|done|done|].
    rewrite <- Hrest in Hd, Hn. destruct n as [|n]; [by specialize (Hn ltac:(done)); lia|].
    cbn [take] in Hd. pose proof (dirents_length _ _ Hd) as Hl. simpl in Hl.
    rewrite (readdir_fetch d k h dir bs k'); [|by apply buffered_emptied|done|exact E|done].
    cbv zeta. destruct (Nat.eqb_spec (length bs) 0) as [|_]; [lia|]. unfold DIR_BUF in Hle.
    destruct (return_de_ok F fd path names name (take n rest) (i + S n) bs (drop (length bs) (ld_buf d)) 0
      (LklDir (ld_fd d) (bs ++ drop (length bs) (ld_buf d)) (Some 0) (Z.of_nat (length bs))) k' h dir)
      as (d' & E1 & E2 & Hs); cbn [ld_fd ld_buf ld_pos ld_len]; try done; [| |auto|].
    + rewrite length_app, length_drop. lia.
    + auto.
    + rewrite Hk, Hfds, Hfd. by rewrite insert_insert_eq.
    + exists 0, d', k'. split_and!; [done..|].
      replace rest with (take n rest ++ drop (i + S n) names); [done|].
      rewrite <- (drop_drop names (S n) i), <- Hrest. cbn [drop]. apply take_drop.
  - injection Hrest as <- ->. unfold buffered in Hb. destruct (ld_pos d) as [pos|] eqn:Ep; [|by destruct Hb].
    destruct Hb as (ents & tail & H0 & Hlen & Hdrop & Hle & Hd). pose proof (dirents_length _ _ Hd) as Hl.
    simpl in Hl. exists pos. unfold lkl_readdir. rewrite (bindM_ok _ _ _ _ _ (get_dir_hst h dir d k)), Ep.
    destruct (Z.ltb_spec (ld_len d) 0) as [|_]; [lia|]. destruct (Z.ltb_spec pos (ld_len d)) as [_|]; [|lia].
    destruct (return_de_ok F fd path names name here i ents tail pos d k h dir) as (d' & ?); try done.
    by exists d', k.
Qed.

(** ** The search in a directory *)

Lemma find_node_ok prefix F fd path names rest fuel d k h dir : stream F fd path names rest d k ->
  (length rest < fuel)%nat -> Forall (fun n => (length n <= 255)%nat) rest ->
  exists d' k' i, find_node kread fuel dir prefix LKL_PATH_MAX (hst h dir d k) =
      Ok (match List.find (fun n => startswith n prefix) rest with
          | Some n => (0, n) | None => (- ENOENT, []) end, hst h dir d' k') /\
    ld_fd d' = fd /\ sf_fds k' = <[fd := (path, i)]> F /\ sf_mounted k'.
Proof.
  revert fuel d k. induction rest as [|name rest IH]; intros [|fuel] d k Hs Hf Hl; simpl in Hf; try lia.
  - destruct (readdir_nil F fd path names d k h dir Hs) as (d' & k' & i & E & H).
    exists d', k', i. split; [|done]. cbn [find_node]. by rewrite (bindM_ok _ _ _ _ _ E).
  - destruct (readdir_cons F fd path names name rest d k h dir Hs) as (pos & d' & k' & E & En & Hs').
    apply Forall_cons_1 in Hl as [Hn Hl]. cbn [find_node List.find].
    rewrite (bindM_ok _ _ _ _ _ E), (bindM_ok _ _ _ _ _ En).
    destruct (startswith name prefix); [|apply (IH fuel d' k'); [done|lia|done]].
    destruct (Z.ltb_spec LKL_PATH_MAX (Z.of_nat (length name) + 1)) as [Hb|_]; [unfold LKL_PATH_MAX in Hb; lia|].
    destruct Hs' as [Hfd _ _ Hm (i & here & Hfds & _)]. by exists d', k', i.
Qed.

(** A host that can allocate and open a file. *)
Record ready h : Prop := {
  rd_oom : hs_oom h = [];
  rd_next : 0 < hs_next h;
  rd_heap p : hs_next h <= p -> hs_heap h !! p = None;
  rd_room : sf_room (sf_fds (hs_kernel h)) }.

(** What a search leaves: the blocks and the descriptors it found. *)
Definition restored h h' : Prop := exists next k,
  h' = upd_kernel k (upd_alloc next [] h) /\ hs_next h <= next /\ sf_fds k = sf_fds (hs_kernel h).

Lemma restored_ready h h' : ready h -> restored h h' -> ready h'.
Proof.
  intros [H1 H2 H3 H4] (next & k & -> & Hn & Hk). split; cbn; [done|lia| |by rewrite Hk].
  intros p Hp. apply H3. lia.
Qed.

Lemma restored_trans h1 h2 h3 : restored h1 h2 -> restored h2 h3 -> restored h1 h3.
Proof.
  intros (n1 & k1 & -> & H1 & F1) (n2 & k2 & -> & H2 & F2). exists n2, k2. cbn in *.
  split_and!; [done|lia|congruence].
Qed.

Lemma alloc_dir h d : ready h -> mem_alloc (BDir d) h =
  Ok (hs_next h, hst (upd_alloc (hs_next h + 1) [] h) (hs_next h) d (hs_kernel h)).
Proof. intros [H _ _ _]. unfold mem_alloc. by rewrite H. Qed.

Lemma free_next h d k : ready h ->
  mem_free (hs_next h) (hst (upd_alloc (hs_next h + 1) [] h) (hs_next h) d k) =
  Ok (tt, upd_kernel k (upd_alloc (hs_next h + 1) [] h)).
Proof. intros Hr. apply free_hst. apply (rd_heap h Hr). lia. Qed.

Lemma open_error_range path flags e : open_error tree path flags = Some e -> -4096 < e < 0.
Proof. unfold open_error. repeat case_match; intros; simplify_eq; vm_compute; by split. Qed.

Lemma opendir_error junk path e h : ready h -> sf_mounted (hs_kernel h) ->
  open_error tree path (Z.lor LKL_O_RDONLY LKL_O_DIRECTORY) = Some e ->
  exists h', lkl_opendir kernel junk path h = Ok (inl e, h') /\ restored h h' /\ sf_mounted (hs_kernel h').
Proof.
  intros Hr Hm He. pose proof (open_error_range _ _ _ He).
  destruct (sf_open_error kernel kread tree path (Z.lor LKL_O_RDONLY LKL_O_DIRECTORY) e _ Hm He)
    as (k' & E & Hk & Hm').
  unfold lkl_opendir, lkl_dir_alloc. rewrite (bindM_ok _ _ _ _ _ (alloc_dir h _ Hr)).
  pose proof (rd_next h Hr). destruct (Z.eqb_spec (hs_next h) 0) as [|_]; [lia|].
  rewrite (bindM_ok _ _ _ _ _ (sys_hst _ _ _ _ _ _ _ E)). rewrite s32_id by lia.
  rewrite (bindM_ok _ _ _ _ _ (get_dir_hst _ _ _ _)), (bindM_ok _ _ _ _ _ (set_dir_hst _ _ _ _ _)).
  destruct (Z.ltb_spec e 0) as [_|]; [|lia].
  rewrite (bindM_ok _ _ _ _ _ (free_next h _ _ Hr)).
  eexists. split_and!; [done| |done]. exists (hs_next h + 1), k'. split_and!; [done|lia|done].
Qed.

Lemma opendir_ok junk path names h : ready h -> sf_mounted (hs_kernel h) -> length (ld_buf junk) = 1024%nat ->
  tree path = Some (Dir names) ->
  exists fd d k, lkl_opendir kernel junk path h =
      Ok (inr (hs_next h), hst (upd_alloc (hs_next h + 1) [] h) (hs_next h) d k) /\
    stream (sf_fds (hs_kernel h)) fd path names names d k /\ sf_fds (hs_kernel h) !! fd = None.
Proof.
  intros Hr Hm Hj Ht.
  assert (open_error tree path (Z.lor LKL_O_RDONLY LKL_O_DIRECTORY) = None) as Ho by (unfold open_error; by rewrite Ht).
  destruct (sf_open kernel kread tree path _ _ Hm (rd_room h Hr) Ho) as (fd & k' & E & Hfd & Hnew & Hk & Hm').
  unfold lkl_opendir, lkl_dir_alloc. rewrite (bindM_ok _ _ _ _ _ (alloc_dir h _ Hr)).
  pose proof (rd_next h Hr). destruct (Z.eqb_spec (hs_next h) 0) as [|_]; [lia|].
  rewrite (bindM_ok _ _ _ _ _ (sys_hst _ _ _ _ _ _ _ E)). rewrite s32_id by lia.
  rewrite (bindM_ok _ _ _ _ _ (get_dir_hst _ _ _ _)), (bindM_ok _ _ _ _ _ (set_dir_hst _ _ _ _ _)).
  destruct (Z.ltb_spec fd 0) as [|_]; [lia|]. eexists fd, _, k'. split_and!; [done| |done].
  split; [done..|]. exists 0%nat, []. split_and!; [done|by rewrite drop_0|done].
Qed.

Lemma get_node_ok fuel junk path prefix h : ready h -> sf_mounted (hs_kernel h) ->
  length (ld_buf junk) = 1024%nat -> tree_ok tree fuel ->
  exists h', get_node_with_prefix kernel kread fuel junk path prefix LKL_PATH_MAX h =
      Ok (match find_in tree path prefix with inl e => (e, []) | inr n => (0, n) end, h') /\
    restored h h' /\ sf_mounted (hs_kernel h').
Proof.
  intros Hr Hm Hj Hok. unfold get_node_with_prefix, find_in.
  assert (forall e, open_error tree path (Z.lor LKL_O_RDONLY LKL_O_DIRECTORY) = Some e -> exists h',
    (let* dir := lkl_opendir kernel junk path in
     match dir with
     | inl ret => retM (ret, [])
     | inr dir => let* '(ret, name) := find_node kread fuel dir prefix LKL_PATH_MAX in
                  let* _ := lkl_closedir kernel dir in retM (ret, name)
     end) h = Ok ((e, []), h') /\ restored h h' /\ sf_mounted (hs_kernel h')) as Herr.
  { intros e He. destruct (opendir_error junk path e h Hr Hm He) as (h' & E & H). exists h'. split; [|done].
    by rewrite (bindM_ok _ _ _ _ _ E). }
  destruct (tree path) as [[names|content]|] eqn:Ht; [|apply Herr; unfold open_error; by rewrite Ht..].
  destruct (opendir_ok junk path names h Hr Hm Hj Ht) as (fd & d & k & E & Hs & Hnew).
  destruct (Hok _ _ Ht) as [Hf Hl].
  destruct (find_node_ok prefix _ _ _ _ _ fuel d k (upd_alloc (hs_next h + 1) [] h) (hs_next h) Hs Hf Hl)
    as (d' & k' & i & E2 & Hfd & Hk & Hm').
  rewrite (bindM_ok _ _ _ _ _ E), (bindM_ok _ _ _ _ _ E2).
  destruct (sf_close kernel kread tree fd k') as [Hc Hmc]; [by rewrite Hk, lookup_insert_eq|].
  rewrite Hk, delete_insert_id in Hc by done. destruct (kernel (KClose fd) k') as [r k2] eqn:Ec.
  exists (upd_kernel k2 (upd_alloc (hs_next h + 1) [] h)). split_and!; [|exists (hs_next h + 1), k2; split_and!; [done|lia|done]|auto].
  assert (lkl_closedir kernel (hs_next h) (hst (upd_alloc (hs_next h + 1) [] h) (hs_next h) d' k') =
          Ok (s32 r, upd_kernel k2 (upd_alloc (hs_next h + 1) [] h))) as El.
  { unfold lkl_closedir. rewrite (bindM_ok _ _ _ _ _ (get_dir_hst _ _ _ _)), Hfd.
    rewrite (bindM_ok _ _ _ _ _ (sys_hst _ _ _ _ _ _ _ Ec)).
    by rewrite (bindM_ok _ _ _ _ _ (free_next h _ _ Hr)). }
  by destruct (List.find _ names); rewrite (bindM_ok _ _ _ _ _ El).
Qed.

(** ** The search of a number *)

Lemma restored_kernel h k : ready h -> sf_fds k = sf_fds (hs_kernel h) -> restored h (upd_kernel k h).
Proof.
  intros [H _ _ _] Hk. exists (hs_next h), k. split_and!; [|lia|done]. destruct h. cbn in *. by subst.
Qed.

Lemma mount_sysfs_ok h : ready h -> exists ret h',
  lkl_mount_fs kernel (chars "sysfs") h = Ok (ret, h') /\ 0 <= ret /\ restored h h' /\ sf_mounted (hs_kernel h').
Proof.
  intros Hr. unfold lkl_mount_fs, sys. change (chars "/" ++ take 50 (chars "sysfs")) with (chars "/sysfs").
  pose proof (sf_mkdir kernel kread tree (hs_kernel h)) as H1.
  pose proof (sf_other kernel kread tree (KMkdir (chars "/sysfs") 255) (hs_kernel h) I) as F1.
  unfold bindM at 1. destruct (kernel (KMkdir (chars "/sysfs") 255) (hs_kernel h)) as [r1 k1]. cbn [fst snd] in *.
  assert (negb (s32 r1 =? 0) && negb (s32 r1 =? - EEXIST) = false) as ->.
  { repeat (apply elem_of_cons in H1 as [->|H1]); [done..|]. by apply elem_of_nil in H1. }
  set (c := KMount (chars "none") (chars "/sysfs") (chars "sysfs") 0 None).
  pose proof (sf_mount kernel kread tree k1) as [H2 Hm]. fold c in H2, Hm.
  pose proof (sf_other kernel kread tree c k1 I) as F2. unfold bindM at 1. cbn [hs_kernel upd_kernel].
  destruct (kernel c k1) as [r2 k2]. cbn [fst snd] in *.
  assert (restored h (upd_kernel k2 (upd_kernel k1 h))) as Hres.
  { apply (restored_kernel h k2); [done|congruence]. }
  repeat (apply elem_of_cons in H2 as [->|H2]); [| |by apply elem_of_nil in H2].
  - eexists 0, _. split_and!; [done|lia|done|done].
  - eexists 1, _. split_and!; [done|lia|done|done].
Qed.

(** Between open and close of the file: what is read and the number. *)
Lemma read_dev_ok fuel path fd k : tree_ok tree fuel -> sf_fds k !! fd = Some (path, 0%nat) ->
  is_Some (tree path) -> exists r bs k' i,
  kread (RRead fd 16) k = (r, bs, k') /\ sf_fds k' = <[fd := (path, i)]> (sf_fds k) /\
  forall h, (if s32 r <? 0 then retM (s32 r, 0)
   else if s32 r =? 16 then retM (- ENOBUFS, 0)
   else
     let* text := someM (until_nul (fill (replicate 16 0) bs)) in
     let '(n, (major, minor)) := sscanf_dev text in
     if negb (n =? 2) then retM (- EINVAL, 0) else retM (0, new_encode_dev major minor)) h =
  Ok (number_in tree path, h).
Proof.
  intros Hok Hfd [nd Ht]. specialize (Hok _ _ Ht). unfold number_in. rewrite Ht. destruct nd as [names|content].
  - destruct (sf_read_dir kernel kread tree fd 16 path 0 names k Hfd Ht) as (k' & E & Hk).
    eexists _, _, _, 0%nat. split_and!; [exact E| |done]. by rewrite insert_id, Hk.
  - destruct (sf_read kernel kread tree fd 16 path content k Hfd Ht) as (i & k' & E & Hk); [lia|].
    eexists _, _, _, i. split_and!; [exact E|done|]. intros h. rewrite s32_id by lia.
    destruct (Z.ltb_spec (Z.min 16 (Z.of_nat (length content))) 0) as [|_]; [lia|].
    destruct (Z.eqb_spec (Z.min 16 (Z.of_nat (length content))) 16), (Nat.leb_spec 16 (length content)); try lia; [done|].
    change (Z.to_nat 16) with 16%nat. rewrite (take_ge content) by lia.
    rewrite fill_short by (rewrite length_replicate; lia).
    rewrite drop_replicate. destruct (16 - length content)%nat as [|m] eqn:Em; [lia|]. cbn [replicate].
    rewrite until_nul_app by done. rewrite (bindM_ok (someM (Some content)) _ h content h eq_refl).
    destruct (sscanf_dev content) as [cnt [major minor]]. by destruct (cnt =? 2).
Qed.

Lemma encode_dev_ok fuel path h : ready h -> sf_mounted (hs_kernel h) -> tree_ok tree fuel ->
  exists h', encode_dev_from_sysfs kernel kread path h = Ok (number_in tree path, h') /\ restored h h'.
Proof.
  intros Hr Hm Hok. unfold encode_dev_from_sysfs, sys at 1.
  destruct (open_error tree path LKL_O_RDONLY) as [e|] eqn:Ho.
  - destruct (sf_open_error kernel kread tree path _ _ _ Hm Ho) as (k' & E & Hk & _).
    pose proof (open_error_range _ _ _ Ho). unfold bindM at 1. rewrite E.
    destruct (Z.ltb_spec e 0) as [_|]; [|lia]. rewrite s32_id by lia. eexists. split; [|by apply restored_kernel].
    unfold open_error in Ho. unfold number_in. destruct (tree path) as [[]|]; by simplify_eq.
  - destruct (sf_open kernel kread tree path _ _ Hm (rd_room h Hr) Ho) as (fd & k1 & E & Hfd & Hnew & Hk & Hm').
    unfold bindM at 1. rewrite E. destruct (Z.ltb_spec fd 0) as [|_]; [lia|].
    destruct (read_dev_ok fuel path fd k1 Hok) as (r & bs & k2 & i & E2 & Hk2 & Hread).
    { by rewrite Hk, lookup_insert_eq. }
    { unfold open_error in Ho. by destruct (tree path). }
    unfold bindM at 1, rsys. cbn [hs_kernel upd_kernel]. rewrite E2.
    rewrite (bindM_ok _ _ _ _ _ (Hread _)). 
    destruct (sf_close kernel kread tree fd k2) as [Hc _]; [by rewrite Hk2, lookup_insert_eq|].
    rewrite Hk2, Hk, insert_insert_eq, delete_insert_id in Hc by done.
    unfold bindM, sys. cbn [hs_kernel upd_kernel]. destruct (kernel (KClose fd) k2) as [r3 k3].
    eexists. split; [done|]. by apply (restored_kernel h k3).
Qed.

Lemma find_in_length fuel path prefix n : tree_ok tree fuel -> find_in tree path prefix = inr n -> (length n <= 255)%nat.
Proof.
  intros Hok. unfold find_in. destruct (tree path) as [[names|]|] eqn:Ht; [|done..].
  destruct (Hok _ _ Ht) as [_ Hl]. destruct (List.find _ names) as [n'|] eqn:Ef; [|done]. intros [= <-].
  apply List.find_some in Ef as [Hin _]. rewrite Forall_forall in Hl. by apply Hl.
Qed.

Lemma append_ok buf text (k : list Z -> M hostD (Z * Z)) :
  Z.of_nat (length buf + length text) < LKL_PATH_MAX -> append_or buf text k = k (buf ++ text).
Proof.
  intros H. unfold append_or, snprintf_append.
  destruct (Z.leb_spec (LKL_PATH_MAX - Z.of_nat (length buf)) (Z.of_nat (length text))); [lia|done].
Qed.

Lemma get_virtio_blkdev_ok fuel junk disk part h :
  ready h -> length (ld_buf junk) = 1024%nat -> tree_ok tree fuel ->
  exists h', lkl_get_virtio_blkdev kernel kread fuel junk disk part h =
    Ok (disk_number tree (hs_nboot h) disk part, h') /\ restored h h'.
Proof.
  intros Hr Hj Hok. unfold lkl_get_virtio_blkdev, disk_number.
  destruct (disk <? 0). { exists h. split; [done|]. by destruct h; apply (restored_kernel (Host _ _ _ _ _ _ _ _ _ _ _)). }
  destruct (mount_sysfs_ok h Hr) as (ret & h1 & E1 & H0 & R1 & M1). rewrite (bindM_ok _ _ _ _ _ E1).
  destruct (Z.ltb_spec ret 0) as [|_]; [lia|]. rewrite (bindM_ok getM _ h1 h1 h1 eq_refl). cbv zeta.
  assert (hs_nboot h1 = hs_nboot h) as -> by (by destruct R1 as (? & ? & -> & _)).
  fold (virtio_path (hs_nboot h) disk). set (path := virtio_path (hs_nboot h) disk).
  pose proof (virtio_path_length (hs_nboot h) disk) as Hl0. fold path in Hl0.
  rewrite append_ok by (simpl; unfold LKL_PATH_MAX; lia). cbn [app].
  destruct (get_node_ok fuel junk path (chars "virtio") h1 (restored_ready _ _ Hr R1) M1 Hj Hok) as (h2 & E2 & R2 & M2).
  rewrite (bindM_ok _ _ _ _ _ E2). pose proof (restored_trans _ _ _ R1 R2) as R12.
  destruct (find_in tree path (chars "virtio")) as [e|virtio] eqn:Ef.
  { pose proof (find_in_neg _ _ _ _ Ef). destruct (Z.eqb_spec e 0); [lia|]. by exists h2. }
  pose proof (find_in_length _ _ _ _ Hok Ef) as Hl1. cbn [negb Z.eqb].
  rewrite append_ok by (rewrite !length_app; simpl; unfold LKL_PATH_MAX; lia).
  set (path2 := path ++ chars "/" ++ virtio ++ chars "/block").
  destruct (get_node_ok fuel junk path2 (chars "vd") h2 (restored_ready _ _ Hr R12) M2 Hj Hok) as (h3 & E3 & R3 & M3).
  rewrite (bindM_ok _ _ _ _ _ E3). pose proof (restored_trans _ _ _ R12 R3) as R13.
  destruct (find_in tree path2 (chars "vd")) as [e|vd] eqn:Ef2.
  { pose proof (find_in_neg _ _ _ _ Ef2). destruct (Z.eqb_spec e 0); [lia|]. by exists h3. }
  pose proof (find_in_length _ _ _ _ Hok Ef2) as Hl2. cbn [negb Z.eqb]. fold (part_path vd part).
  pose proof (part_path_length vd part) as Hl3.
  rewrite append_ok by (unfold path2; rewrite !length_app; simpl; unfold LKL_PATH_MAX; lia).
  destruct (encode_dev_ok fuel (path2 ++ part_path vd part) h3 (restored_ready _ _ Hr R13) M3 Hok) as (h4 & E4 & R4).
  exists h4. split; [exact E4|]. by eapply restored_trans.
Qed.

(** C9: lkl_get_virtio_blkdev is a walk in the tree of sysfs: for every disk and
    partition, and whatever way the kernel cuts the directories into the answers
    of getdents64, it returns exactly the code and the number of [disk_number],
    frees its directory streams and closes its descriptors. *)
Theorem blkdev_walks_sysfs fuel junk disk part h :
  ready h -> length (ld_buf junk) = 1024%nat -> tree_ok tree fuel ->
  exists h', lkl_get_virtio_blkdev kernel kread fuel junk disk part h =
    Ok (disk_number tree (hs_nboot h) disk part, h') /\ restored h h'.
Proof. apply get_virtio_blkdev_ok. Qed.

End Stream.

(** ** The text of a number *)

Lemma digits_app fuel b n acc rest : digits fuel b n acc ++ rest = digits fuel b n (acc ++ rest).
Proof. revert n acc. induction fuel as [|fuel IH]; intros n acc; cbn [digits]; [done|]. case_match; [done|apply IH]. Qed.

Lemma digit_is n : digit_char (n mod 10) = 48 + n mod 10 /\ is_digit (48 + n mod 10) = true.
Proof.
  pose proof (Z.mod_pos_bound n 10 ltac:(lia)). unfold digit_char, is_digit.
  destruct (Z.ltb_spec (n mod 10) 10); lia.
Qed.

Lemma scan_digits_print fuel n acc m : 0 <= n < 10 ^ Z.of_nat fuel ->
  exists k, 0 <= k /\ scan_digits m (digits fuel 10 n acc) = scan_digits (m * 10 ^ k + n) acc.
Proof.
  revert n acc. induction fuel as [|fuel IH]; intros n acc Hn.
  { exists 0. split; [lia|]. cbn [digits]. f_equal. simpl in Hn. lia. }
  cbn [digits]. destruct (digit_is n) as [-> Hd].
  assert (forall x, scan_digits x ((48 + n mod 10) :: acc) = scan_digits (10 * x + n mod 10) acc) as Hstep.
  { intros x. cbn [scan_digits]. rewrite Hd. f_equal. lia. }
  destruct (Z.ltb_spec n 10).
  - exists 1. split; [lia|]. rewrite Hstep. f_equal. rewrite Z.mod_small by lia. lia.
  - destruct (IH (n / 10) ((48 + n mod 10) :: acc)) as (k & Hk & ->).
    { rewrite Nat2Z.inj_succ, Z.pow_succ_r in Hn by lia. split; [|apply Z.div_lt_upper_bound]; lia. }
    exists (k + 1). split; [lia|]. rewrite Hstep, Z.pow_add_r by lia. f_equal. lia.
Qed.

Lemma digits_is_digit fuel n c s : is_digit c = true ->
  exists c' s', digits fuel 10 n (c :: s) = c' :: s' /\ is_digit c' = true.
Proof.
  revert n c s. induction fuel as [|fuel IH]; intros n c s Hc; cbn [digits]; [by eauto|].
  destruct (digit_is n) as [-> Hd]. case_match; [by eauto|by apply IH].
Qed.

Lemma print_dec_head n : exists c s, print_dec n = c :: s /\ is_digit c = true.
Proof.
  unfold print_dec. cbn [digits]. destruct (digit_is n) as [-> Hd].
  case_match; [by eauto|by apply (digits_is_digit 19)].
Qed.

(** %d reads a printed number and stops at what follows it. *)
Lemma scan_d_print n rest : 0 <= n < 2 ^ 31 -> (forall c s, rest = c :: s -> is_digit c = false) ->
  scan_d (print_dec n ++ rest) = Some (n, rest).
Proof.
  intros Hn Hr. destruct (print_dec_head n) as (c & s & Hp & Hc).
  assert (scan_digits 0 (print_dec n ++ rest) = (n, rest)) as Hs.
  { unfold print_dec. rewrite digits_app. change ([] ++ rest) with rest.
    destruct (scan_digits_print 20 n rest 0) as (k & Hk & ->); [lia|].
    replace (0 * 10 ^ k + n) with n by lia. destruct rest as [|c' s']; [done|]. cbn [scan_digits].
    by rewrite (Hr _ _ eq_refl). }
  unfold scan_d. rewrite Hp in *. cbn [app] in *. unfold is_digit in Hc. apply andb_true_iff in Hc as [Hc1 Hc2].
  cbn [skip_space]. unfold is_space. replace ((c =? 32) || ((9 <=? c) && (c <=? 13))) with false by lia.
  assert (forall A (x y z : A), match c with 45 => x | 43 => y | _ => z end = z) as Hm.
  { intros A x y z. assert (48 <= c) by lia. destruct c as [|q|]; try lia. 
    do 7 (destruct q as [q|q|]; try done; try lia). }
  replace (match c :: s ++ rest with 45 :: l' => (true, l') | 43 :: l' => (false, l') | _ => (false, c :: s ++ rest) end)
    with (false, c :: s ++ rest) by (symmetry; apply (Hm _ (true, _) (false, _) (false, _))).
  unfold is_digit at 1. rewrite Hc1, Hc2. cbn [andb]. rewrite Hs. by rewrite s32_id by lia.
Qed.

(** The file dev of a block device in sysfs (print_dev_t: "%u:%u\n"). *)
Definition dev_file (major minor : Z) : list Z := print_dec major ++ 58 :: print_dec minor ++ [10].

Lemma sscanf_dev_file major minor : 0 <= major < 2 ^ 31 -> 0 <= minor < 2 ^ 31 ->
  sscanf_dev (dev_file major minor) = (2, (major, minor)).
Proof.
  intros Hmaj Hmin. unfold sscanf_dev, dev_file. rewrite scan_d_print; [|done|].
  - rewrite scan_d_print; [done|done|]. by intros c s [= <- _].
  - by intros c s [= <- _].
Qed.

(** ** Device numbers *)

(** linux/kdev_t.h of the kernel *)
Definition MKDEV (ma mi : Z) : Z := u32 (Z.lor (Z.shiftl ma MINORBITS) mi).

Definition print_dev_t (dev : Z) : list Z := dev_file (MAJOR dev) (MINOR dev).

Definition new_decode_dev (dev : Z) : Z :=
  let major := Z.shiftr (Z.land dev 0xfff00) 8 in
  let minor := Z.lor (Z.land dev 0xff) (Z.land (Z.shiftr dev 12) 0xfff00) in
  MKDEV major minor.

Lemma u32_testbit z n : 0 <= n -> Z.testbit (u32 z) n = (n <? 32) && Z.testbit z n.
Proof.
  intros Hn. unfold u32. change 4294967296 with (2 ^ 32). destruct (Z.ltb_spec n 32).
  - by rewrite Z.mod_pow2_bits_low.
  - by rewrite Z.mod_pow2_bits_high by lia.
Qed.

Lemma ones_testbit k n : 0 <= k -> 0 <= n -> Z.testbit (Z.ones k) n = (n <? k).
Proof.
  intros Hk Hn. destruct (Z.ltb_spec n k); [by apply Z.ones_spec_low|by apply Z.ones_spec_high].
Qed.

Lemma testbit_above z k n : 0 <= z < 2 ^ k -> k <= n -> Z.testbit z n = false.
Proof.
  intros Hz Hn. assert (0 <= k) by (destruct (Z.leb_spec 0 k); [done|]; rewrite Z.pow_neg_r in Hz by done; lia).
  rewrite <- (Z.mod_small z (2 ^ k)) by done. by rewrite Z.mod_pow2_bits_high by lia.
Qed.

(** Pushes a bit through masks and shifts. *)
Ltac bit_step :=
  match goal with
  | |- context [Z.testbit ?a ?m] => rewrite (Z.testbit_neg_r a m) by lia
  | H : 0 <= ?a < 2 ^ ?k |- context [Z.testbit ?a ?m] => rewrite (testbit_above a k m H) by lia
  | |- context [Z.testbit (u32 ?a) ?m] => rewrite (u32_testbit a m) by lia
  | |- context [Z.testbit (Z.lor ?a ?b) ?m] => rewrite (Z.lor_spec a b m)
  | |- context [Z.testbit (Z.land ?a ?b) ?m] => rewrite (Z.land_spec a b m)
  | |- context [Z.testbit (Z.lnot ?a) ?m] => rewrite (Z.lnot_spec a m) by lia
  | |- context [Z.testbit (Z.shiftl ?a ?k) ?m] => rewrite (Z.shiftl_spec a k m) by lia
  | |- context [Z.testbit (Z.shiftr ?a ?k) ?m] => rewrite (Z.shiftr_spec a k m) by lia
  | |- context [Z.testbit (Z.ones ?k) ?m] => rewrite (ones_testbit k m) by lia
  | |- context [?a <? ?b] => destruct (Z.ltb_spec a b); [lia|] || (destruct (Z.ltb_spec a b); [|lia])
  end.

Lemma decode_encode dev : 0 <= dev < 2 ^ 32 -> new_decode_dev (new_encode_dev (MAJOR dev) (MINOR dev)) = dev.
Proof.
  intros Hdev. unfold new_decode_dev, MKDEV, new_encode_dev, MAJOR, MINOR. cbv zeta.
  change (Z.shiftl 1 MINORBITS - 1) with (Z.ones 20). change MINORBITS with 20.
  change 0xfff00 with (Z.shiftl (Z.ones 12) 8). change 0xff with (Z.ones 8).
  apply Z.bits_inj'. intros n Hn.
  assert (n < 8 \/ 8 <= n < 20 \/ 20 <= n < 24 \/ 24 <= n < 32 \/ 32 <= n) as [?|[?|[?|[?|?]]]] by lia.
  all: repeat bit_step; cbn [andb orb negb]; rewrite ?andb_true_r, ?andb_false_r, ?orb_false_r; try done.
  all: rewrite ?orb_false_l; f_equal; lia.
Qed.

Lemma MAJOR_range dev : 0 <= dev < 2 ^ 32 -> 0 <= MAJOR dev < 4096.
Proof.
  intros H. unfold MAJOR, MINORBITS. rewrite Z.shiftr_div_pow2 by lia.
  split; [apply Z.div_pos; lia|apply Z.div_lt_upper_bound; lia].
Qed.

Lemma MINOR_range dev : 0 <= MINOR dev < 1048576.
Proof.
  unfold MINOR. change (Z.shiftl 1 MINORBITS - 1) with (Z.ones 20). rewrite Z.land_ones by lia.
  apply Z.mod_pos_bound. lia.
Qed.

Lemma digits_count fuel n acc k : 0 <= n < 10 ^ Z.of_nat k -> (0 < k)%nat ->
  (length (digits fuel 10 n acc) <= k + length acc)%nat.
Proof.
  revert n acc k. induction fuel as [|fuel IH]; intros n acc k Hn Hk; cbn [digits]; [lia|].
  destruct (Z.ltb_spec n 10) as [|Hge]; [simpl; lia|]. destruct k as [|[|k]]; [lia|simpl in Hn; lia|].
  etransitivity; [apply (IH _ _ (S k)); [|lia]|simpl; lia].
  rewrite Nat2Z.inj_succ, Z.pow_succ_r in Hn by lia. split; [|apply Z.div_lt_upper_bound]; lia.
Qed.

(** C22: A device number of the kernel survives the way through sysfs: what the
    kernel prints in the file dev of a block device is read by the library, packed
    with new_encode_dev and unpacked by mknod with new_decode_dev to the number it
    was. *)
Theorem device_number_roundtrip tree path dev : 0 <= dev < 2 ^ 32 ->
  tree path = Some (File (print_dev_t dev)) ->
  exists n, number_in tree path = (0, n) /\ new_decode_dev n = dev.
Proof.
  intros Hdev Ht. pose proof (MAJOR_range dev Hdev). pose proof (MINOR_range dev).
  exists (new_encode_dev (MAJOR dev) (MINOR dev)). split; [|by apply decode_encode].
  unfold number_in, print_dev_t in *. rewrite Ht. replace (16 <=? length _)%nat with false.
  - by rewrite sscanf_dev_file by lia.
  - symmetry. apply Nat.leb_gt. unfold dev_file, print_dec. rewrite length_app. cbn [length]. rewrite length_app.
    pose proof (digits_count 20 (MAJOR dev) [] 4 ltac:(change (10 ^ Z.of_nat 4) with 10000; lia) ltac:(lia)).
    pose proof (digits_count 20 (MINOR dev) [] 7 ltac:(change (10 ^ Z.of_nat 7) with 10000000; lia) ltac:(lia)).
    cbn [length] in *. lia.
Qed.

(** ** A kernel with a sysfs *)

Module SysfsDemo.

(** Two disks, the first with a partition. *)
Definition entries : list (list Z * inode) :=
  let d0 := SYSFS_DEV_VIRTIO_CMDLINE_PATH 0 in
  let d1 := SYSFS_DEV_VIRTIO_PLATFORM_PATH 0 in
  [ (d0, Dir [chars "driver"; chars "virtio0"; chars "uevent"]);
    (d0 ++ chars "/virtio0/block", Dir [chars "vda"]);
    (d0 ++ chars "/virtio0/block/vda/dev", File (print_dev_t (MKDEV 254 0)));
    (d0 ++ chars "/virtio0/block/vda/vda1/dev", File (print_dev_t (MKDEV 254 1)));
    (d1, Dir [chars "virtio1"]);
    (d1 ++ chars "/virtio1/block", Dir [chars "vdb"]);
    (d1 ++ chars "/virtio1/block/vdb/dev", File (print_dev_t (MKDEV 254 16))) ].

Definition tree (p : list Z) : option inode := (list_to_map entries : gmap (list Z) inode) !! p.

(** One descriptor, 3. *)
Record kst := Kst { k_mounted : bool; k_slot : option (list Z * nat) }.

Definition record (name : list Z) : list Z :=
  replicate 16 7 ++ le_bytes 2 (Z.of_nat (20 + length name + 0)) ++ 8 :: name ++ [0].

Definition kernel (c : kcall) (k : kst) : Z * kst :=
  match c with
  | KMount _ _ _ _ _ => (0, Kst true (k_slot k))
  | KOpen p flags _ =>
      match open_error tree p flags, k_slot k with
      | Some e, _ => (e, k)
      | None, Some _ => (- 24, k)
      | None, None => (3, Kst (k_mounted k) (Some (p, 0%nat)))
      end
  | KClose fd => if fd =? 3 then (0, Kst (k_mounted k) None) else (- 9, k)
  | _ => (0, k)
  end.

Definition kread (c : rcall) (k : kst) : Z * list Z * kst :=
  match c, k_slot k with
  | RGetdents64 _ _, Some (p, i) =>
      match tree p with
      | Some (Dir names) =>
          match drop i names with
          | n :: _ => (Z.of_nat (length (record n)), record n, Kst (k_mounted k) (Some (p, S i)))
          | [] => (0, [], k)
          end
      | _ => (- ENOTDIR, [], k)
      end
  | RRead _ len, Some (p, i) =>
      match tree p with
      | Some (File content) => (Z.min len (Z.of_nat (length content)), take (Z.to_nat len) content, Kst (k_mounted k) (Some (p, 1%nat)))
      | _ => (- EISDIR, [], k)
      end
  | _, None => (- 9, [], k)
  end.

Lemma demo_tree_ok : tree_ok tree 10.
Proof.
  intros p nd H. unfold tree in H. apply elem_of_list_to_map_2 in H.
  assert (Forall (fun e : list Z * inode => match e.2 with
    | Dir names => (length names < 10)%nat /\ Forall (fun n => (length n <= 255)%nat) names
    | File content => Forall (fun c => c <> 0) content end) entries) as HF.
  { vm_compute. repeat constructor; discriminate. }
  rewrite Forall_forall in HF. apply (HF (p, nd)). by apply list_elem_of_In.
Qed.

Definition fds (k : kst) : fd_table := match k_slot k with Some e => {[3 := e]} | None => ∅ end.

Lemma fds_some k fd e : fds k !! fd = Some e -> fd = 3 /\ k_slot k = Some e.
Proof.
  unfold fds. destruct (k_slot k); [|by rewrite lookup_empty]. rewrite lookup_singleton_Some. by intros [<- <-].
Qed.

Lemma record_dirents name : Forall (fun c => c <> 0) name -> (length name <= 255)%nat ->
  dirents [name] (record name) /\ Z.of_nat (length (record name)) <= 512.
Proof.
  intros Hn Hl. split.
  - apply (dirents_cons (replicate 16 7) 8 name [] [] []); [done..|simpl; lia|constructor].
  - unfold record. rewrite length_app. cbn [length]. rewrite !length_app. cbn [length].
    rewrite length_le_bytes. cbn. rewrite length_app. cbn. lia.
Qed.

Lemma names_text p names : tree p = Some (Dir names) -> Forall (Forall (fun c => c <> 0)) names.
Proof.
  intros H. unfold tree in H. apply elem_of_list_to_map_2 in H.
  assert (Forall (fun e : list Z * inode => match e.2 with
    | Dir names => Forall (Forall (fun c => c <> 0)) names | File _ => True end) entries) as HF.
  { vm_compute. repeat constructor; discriminate. }
  rewrite Forall_forall in HF. apply (HF (p, Dir names)). by apply list_elem_of_In.
Qed.

#[global] Instance demo_sysfs : Sysfs kernel kread tree.
Proof.
  refine {| sf_fds := fds; sf_mounted := fun k => k_mounted k = true; sf_room := fun F => F = ∅ |}.
  - intros [] k Hc; try done.
  - intros k. apply elem_of_cons. by left.
  - intros k c. split; [|done]. apply elem_of_cons. by left.
  - intros p flags e k Hm He. exists k. split_and!; [|done..]. cbn [kernel]. by rewrite He.
  - intros p flags k Hm Hroom Ho. unfold fds in *. destruct (k_slot k) as [e|] eqn:Es.
    { exfalso. by apply (insert_non_empty (∅ : fd_table) 3 e). }
    exists 3. eexists. cbn [kernel]. rewrite Ho, Es. by split_and!.
  - intros fd k [e He]. apply fds_some in He as [-> He]. cbn [kernel fst snd]. unfold fds. rewrite He. cbn.
    split; [|done]. by rewrite delete_singleton_eq.
  - intros fd len p i names k [-> Hs]%fds_some Ht Hlen. unfold kread, fds. rewrite Hs, Ht.
    destruct (drop i names) as [|name rest] eqn:Ed.
    + exists 0%nat, [], k. rewrite Hs, Nat.add_0_r. split_and!; [done|constructor|simpl; lia|done| |done].
      by rewrite insert_singleton_eq.
    + assert (name ∈ names) as Hin. { rewrite <- (take_drop i names), Ed. set_solver. }
      destruct (demo_tree_ok _ _ Ht) as [_ Hl]. pose proof (names_text _ _ Ht) as Hz.
      rewrite Forall_forall in Hl, Hz.
      destruct (record_dirents name) as [H1 H2]; [apply Hz, list_elem_of_In, Hin|apply Hl, list_elem_of_In, Hin|].
      eexists 1%nat, (record name), _. split_and!; [done|done|lia|lia| |done].
      cbn. by rewrite insert_singleton_eq, Nat.add_1_r.
  - intros fd len p content k [-> Hs]%fds_some Ht Hlen. unfold kread, fds. rewrite Hs, Ht.
    eexists 1%nat, _. split; [done|]. cbn. by rewrite insert_singleton_eq.
  - intros fd len p i names k [-> Hs]%fds_some Ht. unfold kread. rewrite Hs, Ht. by eexists.
Defined.

Definition junk : lkl_dir := LklDir 0 (replicate 1024 165) None 0.

Definition host0 : host (D := unit) (K := kst) :=
  Host irq_init [] ∅ 1 [] [] 0 1 true (Kst false None) ∅.

Lemma blkdev_walks_sysfs_witness : exists h',
  lkl_get_virtio_blkdev kernel kread 10 junk 0 1 host0 = Ok ((0, 0xfe01), h') /\ restored kernel kread tree host0 h'.
Proof.
  apply (blkdev_walks_sysfs kernel kread tree 10 junk 0 1 host0); [split; [done..| |]|done|apply demo_tree_ok].
  - intros p _. apply lookup_empty.
  - done.
Defined.

Lemma device_number_roundtrip_witness : exists n,
  number_in tree (SYSFS_DEV_VIRTIO_CMDLINE_PATH 0 ++ chars "/virtio0/block/vda/vda1/dev") = (0, n) /\
  new_decode_dev n = MKDEV 254 1.
Proof. apply device_number_roundtrip; [vm_compute; by split|vm_compute; done]. Defined.

End SysfsDemo.
