(* ===== verification/MountSpec.v ===== *)
(** * MountSpec

    What mounting and unmounting do to the file namespace of the kernel.  The
    kernel is any function; next to its state, the effects that a successful
    mkdir, mknod, unlink, rmdir, mount or umount has by its documentation are
    collected in a namespace ([ns]).  The theorems compare this namespace with
    the table of mounts of the addon. *)

From Stdlib Require Import Strings.String.
From S2P Require Import Prelude Memory Iomem Irq Virtio DiskDev Mount Sysfs.

(** ** The namespace *)

Inductive node := NDir | NBlk (dev : Z).

Record ns := Ns { ns_nodes : gmap (list Z) node; ns_mounts : gset (list Z) }.

(** The effect of a call that answered [r]. *)
Definition effect (c : kcall) (r : Z) (n : ns) : ns :=
  if s32 r <? 0 then n
  else match c with
  | KMkdir p _ => Ns (<[p := NDir]> (ns_nodes n)) (ns_mounts n)
  | KMknod p _ dev => Ns (<[p := NBlk dev]> (ns_nodes n)) (ns_mounts n)
  | KUnlink p | KRmdir p => Ns (delete p (ns_nodes n)) (ns_mounts n)
  | KMount _ dir _ _ _ => Ns (ns_nodes n) ({[dir]} ∪ ns_mounts n)
  | KUmount p _ => Ns (ns_nodes n) (ns_mounts n ∖ {[p]})
  | _ => n
  end.

Section Ghost.
Context {K : Type} (kernel : kcall -> K -> Z * K) (kread : rcall -> K -> Z * list Z * K).

Definition gkernel (c : kcall) (s : K * ns) : Z * (K * ns) :=
  let '(r, k) := kernel c s.1 in (r, (k, effect c r s.2)).

Definition gread (c : rcall) (s : K * ns) : Z * list Z * (K * ns) :=
  let '(r, bs, k) := kread c s.1 in (r, bs, (k, s.2)).

End Ghost.

(** The directories the library makes for itself. *)
Definition base : gset (list Z) := {[ chars "/sysfs"; chars "/dev"; chars "/mnt" ]}.

(** Nothing changed but these directories. *)
Definition away (n n' : ns) : Prop :=
  (forall p, p ∉ base -> ns_nodes n' !! p = ns_nodes n !! p) /\
  (forall p, p ∉ base -> (p ∈ ns_mounts n' <-> p ∈ ns_mounts n)).

#[export] Instance away_preorder : PreOrder away.
Proof.
  split; [by split|]. intros n1 n2 n3 [H1 H2] [H3 H4]. split; intros p Hp.
  - by rewrite H3, H1.
  - by rewrite H4, H2.
Qed.

(** A call on one of these directories, or without an effect. *)
Definition neutral (c : kcall) : Prop :=
  match c with
  | KMkdir p _ | KMknod p _ _ | KUnlink p | KRmdir p | KMount _ p _ _ _ | KUmount p _ => p ∈ base
  | _ => True
  end.

Lemma effect_away c r n : neutral c -> away n (effect c r n).
Proof.
  intros Hc. unfold effect. destruct (s32 r <? 0); [done|].
  destruct c; simpl in Hc; try done; split; intros p Hp; simpl; try done.
  all: first [ by rewrite lookup_insert_ne by congruence
             | by rewrite lookup_delete_ne by congruence | set_solver ].
Qed.

Section Frames.
Context {D K : Type} (kernel : kcall -> K -> Z * K) (kread : rcall -> K -> Z * list Z * K).
Abbreviation ghost := (host (D := D) (K := K * ns)).
Implicit Types h : ghost.

Definition hns h : ns := (hs_kernel h).2.

(** Whatever [c] does, it does not touch the rest of the namespace. *)
Definition stays {A} (c : M ghost A) : Prop := forall h a h', c h = Ok (a, h') -> away (hns h) (hns h').

Lemma stays_bind {A B} (c : M ghost A) (k : A -> M ghost B) :
  stays c -> (forall a, stays (k a)) -> stays (bindM c k).
Proof.
  intros Hc Hk h b h' E. unfold bindM in E. destruct (c h) as [[a h1]|] eqn:E1; [|done].
  etransitivity; [by eapply Hc|by eapply Hk].
Qed.

Lemma stays_ret {A} (a : A) : stays (retM a).
Proof. intros h a' h' [= _ <-]. done. Qed.

Lemma stays_fail {A} e : stays (failM e : M ghost A).
Proof. by intros h a' h' E. Qed.

Lemma stays_some {A} (o : option A) : stays (someM o).
Proof. destruct o; [apply stays_ret|apply stays_fail]. Qed.

(** A step that does not call the kernel. *)
Lemma stays_local {A} (c : M ghost A) :
  (forall h a h', c h = Ok (a, h') -> hs_kernel h' = hs_kernel h) -> stays c.
Proof. intros H h a h' E. unfold hns. by rewrite (H _ _ _ E). Qed.

Lemma stays_sys c : neutral c -> stays (sys (gkernel kernel) c).
Proof.
  intros Hc h r h' E. unfold sys, gkernel in E. destruct (kernel c (hs_kernel h).1) as [r' k].
  simplify_eq. by apply effect_away.
Qed.

Lemma stays_rsys c : stays (rsys (gread kread) c).
Proof.
  intros h r h' E. unfold rsys, gread in E. destruct (kread c (hs_kernel h).1) as [[r' bs] k].
  by simplify_eq.
Qed.

End Frames.

Create HintDb stays.
#[export] Hint Resolve stays_ret stays_fail stays_some stays_rsys : stays.

(** Splits a composed step into its parts. *)
Ltac stays_step :=
  first [ apply stays_ret | apply stays_fail | apply stays_some | apply stays_rsys
        | match goal with |- stays (bindM _ _) => apply stays_bind; [|intros ?] end
        | apply stays_sys; simpl; first [done | set_solver]
        | match goal with
          | |- stays (match ?x with _ => _ end) => destruct x
          | |- stays (let '(_, _) := ?x in _) => destruct x
          end
        | solve [auto with stays] ].

Section Search.
Context {D K : Type} (kernel : kcall -> K -> Z * K) (kread : rcall -> K -> Z * list Z * K).
Abbreviation ghost := (host (D := D) (K := K * ns)).

Lemma stays_get_dir p : stays (get_dir p : M ghost lkl_dir).
Proof. apply stays_local. intros h a h'. unfold get_dir. repeat case_match; congruence. Qed.

Lemma stays_set_dir p d : stays (set_dir p d : M ghost unit).
Proof. apply stays_local. intros h a h'. unfold set_dir. repeat case_match; intros; by simplify_eq. Qed.

Lemma stays_alloc b : stays (mem_alloc b : M ghost Z).
Proof. apply stays_local. intros h a h'. unfold mem_alloc. repeat case_match; intros; by simplify_eq. Qed.

Lemma stays_free p : stays (mem_free p : M ghost unit).
Proof. apply stays_local. intros h a h'. unfold mem_free. repeat case_match; intros; by simplify_eq. Qed.

Lemma stays_get : stays (getM : M ghost ghost).
Proof. apply stays_local. intros h a h' [= _ <-]. done. Qed.

Hint Resolve stays_get_dir stays_set_dir stays_alloc stays_free stays_get : stays.

Lemma stays_opendir junk path : stays (lkl_opendir (D := D) (gkernel kernel) junk path).
Proof. unfold lkl_opendir, lkl_dir_alloc. repeat stays_step. Qed.

Lemma stays_readdir dir : stays (lkl_readdir (D := D) (gread kread) dir).
Proof. unfold lkl_readdir, return_de. repeat stays_step. Qed.

Lemma stays_closedir dir : stays (lkl_closedir (D := D) (gkernel kernel) dir).
Proof. unfold lkl_closedir. repeat stays_step. Qed.

Hint Resolve stays_opendir stays_readdir stays_closedir : stays.

Lemma stays_find_node fuel dir prefix n : stays (find_node (D := D) (gread kread) fuel dir prefix n).
Proof.
  induction fuel as [|fuel IH]; cbn [find_node]; [apply stays_fail|]. unfold d_name.
  repeat (stays_step || apply IH).
Qed.

Hint Resolve stays_find_node : stays.

Lemma stays_get_node fuel junk path prefix n :
  stays (get_node_with_prefix (D := D) (gkernel kernel) (gread kread) fuel junk path prefix n).
Proof. unfold get_node_with_prefix. repeat stays_step. Qed.

Lemma stays_encode_dev path : stays (encode_dev_from_sysfs (D := D) (gkernel kernel) (gread kread) path).
Proof. unfold encode_dev_from_sysfs. repeat stays_step. Qed.

Lemma stays_mount_sysfs : stays (lkl_mount_fs (D := D) (gkernel kernel) (chars "sysfs")).
Proof.
  unfold lkl_mount_fs. change (chars "/" ++ take 50 (chars "sysfs")) with (chars "/sysfs").
  repeat stays_step.
Qed.

Hint Resolve stays_get_node stays_encode_dev stays_mount_sysfs : stays.

Lemma stays_append buf text k : (forall b, stays (k b)) -> stays (append_or (D := D) (K := K * ns) buf text k).
Proof. intros Hk. unfold append_or. destruct (snprintf_append buf text); [apply Hk|apply stays_ret]. Qed.

(** The search for the device number leaves the namespace alone. *)
Lemma stays_blkdev fuel junk disk part :
  stays (lkl_get_virtio_blkdev (D := D) (gkernel kernel) (gread kread) fuel junk disk part).
Proof.
  unfold lkl_get_virtio_blkdev. repeat (stays_step || (apply stays_append; intros ?)).
Qed.

Lemma stays_ensure path : path ∈ base -> stays (ensure_dir (D := D) (gkernel kernel) path).
Proof. intros Hp. unfold ensure_dir. repeat stays_step. Qed.

Lemma ensure_neg path h e h' : ensure_dir (D := D) (gkernel kernel) path h = Ok (Some e, h') -> e < 0.
Proof.
  unfold ensure_dir. intros (r & h1 & _ & E)%bindM_inv. destruct (Z.ltb_spec (s32 r) 0); [|discriminate E].
  apply bindM_inv in E as (r2 & h2 & _ & E). destruct (Z.ltb_spec r2 0); [|discriminate E].
  by injection E as <- _.
Qed.

End Search.

(** ** Paths *)

Lemma print_hex8_length n : (8 <= length (print_hex8 n))%nat.
Proof. unfold print_hex8. rewrite length_app, length_replicate. lia. Qed.

Lemma base_short p : p ∈ base -> (length p <= 6)%nat.
Proof.
  unfold base. rewrite !elem_of_union, !elem_of_singleton. intros [[->| ->]| ->]; vm_compute; lia.
Qed.

Lemma dev_str_off dev : dev_str dev ∉ base.
Proof.
  intros H%base_short. unfold dev_str in H. rewrite length_app in H.
  pose proof (print_hex8_length dev). change (length (chars "/dev/")) with 5%nat in H. lia.
Qed.

Lemma mnt_str_off dev : mnt_str dev ∉ base.
Proof.
  intros H%base_short. unfold mnt_str in H. rewrite length_app in H.
  pose proof (print_hex8_length dev). change (length (chars "/mnt/")) with 5%nat in H. lia.
Qed.

Lemma dev_mnt_ne dev dev' : dev_str dev <> mnt_str dev'.
Proof. intros H. apply (f_equal (fun l => nth 1 l 0)) in H. vm_compute in H. discriminate H. Qed.

(** ** Effects *)

Lemma away_effect c r n n' : away n n' -> away (effect c r n) (effect c r n').
Proof.
  intros [H1 H2]. unfold effect. destruct (s32 r <? 0); [done|].
  destruct c; try done; split; intros p Hp; simpl; try (by apply H1); try (by apply H2).
  all: first [ rewrite !lookup_insert; case_decide; [done|by apply H1]
             | rewrite !lookup_delete; case_decide; [done|by apply H1]
             | specialize (H2 p Hp); set_solver ].
Qed.

(** A namespace with what a mount of [dev] makes, and without it. *)
Definition made (dev : Z) (n : ns) : ns :=
  Ns (<[mnt_str dev := NDir]> (<[dev_str dev := NBlk dev]> (ns_nodes n)))
     ({[mnt_str dev]} ∪ ns_mounts n).

Definition unmade (dev : Z) (n : ns) : ns :=
  Ns (delete (mnt_str dev) (delete (dev_str dev) (ns_nodes n))) (ns_mounts n ∖ {[mnt_str dev]}).

Definition with_node (dev : Z) (n : ns) : ns :=
  Ns (<[dev_str dev := NBlk dev]> (ns_nodes n)) (ns_mounts n).

(** Nothing of [dev] is there yet. *)
Definition fresh_dev (dev : Z) (n : ns) : Prop :=
  ns_nodes n !! dev_str dev = None /\ ns_nodes n !! mnt_str dev = None /\ mnt_str dev ∉ ns_mounts n.

Lemma unmade_made dev n : fresh_dev dev n -> unmade dev (made dev n) = n.
Proof.
  intros (H1 & H2 & H3). pose proof (dev_mnt_ne dev dev). destruct n as [nodes mounts]. simpl in *.
  unfold unmade, made. simpl. f_equal.
  - rewrite delete_insert_ne, !delete_insert_eq by done.
    rewrite (delete_id nodes) by done. by apply delete_id.
  - set_solver.
Qed.

Lemma away_unmade dev n n' : away n n' -> away (unmade dev n) (unmade dev n').
Proof.
  intros [H1 H2]. split; intros p Hp; simpl.
  - rewrite !lookup_delete. repeat case_decide; try done. by apply H1.
  - specialize (H2 p Hp). set_solver.
Qed.

(** ** Runs *)

(** The calls of mounting, apart from those on the library's own directories. *)
Definition beside (c : kcall) : Prop :=
  match c with
  | KAccess _ _ | KMkdir _ _ | KMknod _ _ _ | KUnlink _ | KRmdir _ | KSync | KNanosleep _ _ => True
  | KMount _ p _ _ _ | KUmount p _ => p ∉ base
  | _ => False
  end.

Section Runs.
Context {D K : Type} (kernel : kcall -> K -> Z * K) (kread : rcall -> K -> Z * list Z * K).
Context (fuel : nat) (junk : lkl_dir).
Abbreviation ghost := (host (D := D) (K := K * ns)).
Implicit Types h : ghost.

(** What unlink, rmdir and umount2 answer: 0 or an error number. *)
Record answers : Prop := Answers {
  an_unlink p k : - 4096 < (kernel (KUnlink p) k).1 <= 0;
  an_rmdir p k : - 4096 < (kernel (KRmdir p) k).1 <= 0;
  an_umount p f k : - 4096 < (kernel (KUmount p f) k).1 <= 0 }.

(** The removals of the error paths succeed. *)
Definition removes : Prop :=
  (forall p k, (kernel (KUnlink p) k).1 = 0) /\ (forall p k, (kernel (KRmdir p) k).1 = 0).

(** In the states of [I] the search under sysfs answers the number of a disk's
    partition, and mounting stays in these states. *)
Record numbered (I : ghost -> Prop) (no : Z -> Z -> Z * Z) : Prop := Numbered {
  nb_range disk part : - 2 ^ 31 <= (no disk part).1;
  nb_look disk part h : I h -> exists h',
    lkl_get_virtio_blkdev (gkernel kernel) (gread kread) fuel junk disk part h = Ok (no disk part, h') /\ I h';
  nb_sys c h : beside c -> I h -> I (upd_kernel (gkernel kernel c (hs_kernel h)).2 h) }.

Context (I : ghost -> Prop) (no : Z -> Z -> Z * Z) (Hno : numbered I no).

Lemma sys_goes c h : beside c -> I h -> exists k h',
  sys (gkernel kernel) c h = Ok ((kernel c k).1, h') /\
  hns h' = effect c (kernel c k).1 (hns h) /\ I h'.
Proof.
  intros Hc HI. exists (hs_kernel h).1. pose proof (nb_sys _ _ Hno c h Hc HI) as HI'.
  unfold sys, gkernel, hns in *. destruct (kernel c (hs_kernel h).1) as [r k] eqn:E.
  simpl in *. by eexists.
Qed.

Lemma ensure_goes p h : I h -> exists o h',
  ensure_dir (gkernel kernel) p h = Ok (o, h') /\ I h'.
Proof.
  intros HI. unfold ensure_dir.
  destruct (sys_goes (KAccess p LKL_S_IRWXO) h) as (k & h1 & E & _ & HI1); [done..|].
  rewrite (bindM_ok _ _ _ _ _ E). destruct (_ <? 0); [|by eexists _, _].
  destruct (_ =? - ENOENT); [|by eexists _, _].
  destruct (sys_goes (KMkdir p 448) h1) as (k2 & h2 & E2 & _ & HI2); [done..|].
  rewrite bindM_assoc, (bindM_ok _ _ _ _ _ E2). by eexists _, _.
Qed.

Lemma look_goes disk part h : I h -> exists h',
  lkl_get_virtio_blkdev (gkernel kernel) (gread kread) fuel junk disk part h = Ok (no disk part, h') /\
  away (hns h) (hns h') /\ I h'.
Proof.
  intros HI. destruct (nb_look _ _ Hno disk part h HI) as (h' & E & HI').
  exists h'. split_and!; [done| |done]. by eapply stays_blkdev.
Qed.

Lemma umount_loop_goes n path flags t h : path ∉ base -> I h -> t < Z.of_nat n -> (0 < n)%nat -> exists k h',
  umount_loop (gkernel kernel) n path flags t h = Ok ((kernel (KUmount path flags) k).1, h') /\
  hns h' = effect (KUmount path flags) (kernel (KUmount path flags) k).1 (hns h) /\ I h'.
Proof.
  intros Hp. revert t h. induction n as [|n IH]; intros t h HI Ht Hn; [lia|]. cbn [umount_loop].
  destruct (sys_goes (KUmount path flags) h) as (k & h1 & E & N & HI1); [done..|].
  rewrite (bindM_ok _ _ _ _ _ E). destruct (_ =? - EBUSY) eqn:Eb; [|by eexists _, _].
  assert (hns h1 = hns h) as N1.
  { rewrite N. apply Z.eqb_eq in Eb. by rewrite Eb. }
  destruct (sys_goes (KNanosleep 0 10000000) h1) as (k2 & h2 & E2 & N2 & HI2); [done..|].
  assert (hns h2 = hns h) as N3.
  { rewrite N2, <- N1. unfold effect. by destruct (s32 _ <? 0). }
  rewrite (bindM_ok _ _ _ _ _ E2). destruct (Z.ltb_spec 0 (t - 10)).
  - destruct (IH (t - 10) h2) as (k3 & h3 & E3 & N4 & HI3); [done|lia..|].
    exists k3, h3. split_and!; [done| |done]. by rewrite N4, N3.
  - exists k, h2. split_and!; [done| |done]. by rewrite N3, <- N, N1.
Qed.

Lemma umount_timeout_goes path flags t h : path ∉ base -> I h -> exists k h',
  lkl_umount_timeout (gkernel kernel) path flags t h = Ok ((kernel (KUmount path flags) k).1, h') /\
  hns h' = effect (KUmount path flags) (kernel (KUmount path flags) k).1 (hns h) /\ I h'.
Proof. intros. apply umount_loop_goes; [done..| |]; lia. Qed.

(** Only what a mount of [dev] makes may be left, and no mount. *)
Definition litter (dev : Z) (n n' : ns) : Prop :=
  ns_mounts n' = ns_mounts n /\
  (forall p, p <> dev_str dev -> p <> mnt_str dev -> ns_nodes n' !! p = ns_nodes n !! p) /\
  (fresh_dev dev n ->
     (ns_nodes n' !! dev_str dev = None \/ ns_nodes n' !! dev_str dev = Some (NBlk dev)) /\
     (ns_nodes n' !! mnt_str dev = None \/ ns_nodes n' !! mnt_str dev = Some NDir)).

(** What a failed mount may leave. *)
Definition undone (dev : Z) (n n' : ns) : Prop :=
  exists m, away m n' /\ litter dev n m /\ (removes -> fresh_dev dev n -> m = n \/ m = with_node dev n).

Lemma litter_refl dev n : litter dev n n.
Proof. split_and!; [done|done|]. intros (H1 & H2 & _). rewrite H1, H2. auto. Qed.

Lemma litter_node dev n : litter dev n (with_node dev n).
Proof.
  pose proof (dev_mnt_ne dev dev). split_and!; [done|intros p ? _; by apply lookup_insert_ne|].
  intros (_ & H2 & _). unfold with_node. cbn [ns_nodes].
  rewrite lookup_insert_eq, lookup_insert_ne, H2 by done. auto.
Qed.

Lemma undone_none dev n n' : away n n' -> undone dev n n'.
Proof. intros H. exists n. split_and!; [done|apply litter_refl|auto]. Qed.

Lemma undone_node dev n n' : away (with_node dev n) n' -> undone dev n n'.
Proof. intros H. exists (with_node dev n). split_and!; [done|apply litter_node|auto]. Qed.

Lemma effect_neg c r n : s32 r < 0 -> effect c r n = n.
Proof. intros H. unfold effect. by destruct (Z.ltb_spec (s32 r) 0); [|lia]. Qed.

Lemma effect_pos c r n : 0 <= s32 r -> effect c r n = effect c 0 n.
Proof. intros H. unfold effect. by destruct (Z.ltb_spec (s32 r) 0); [lia|]. Qed.

(** Removing, or failing to, leaves no more than there was. *)
Lemma litter_remove dev c r n m :
  (c = KUnlink (dev_str dev) \/ c = KRmdir (mnt_str dev)) -> litter dev n m -> litter dev n (effect c r m).
Proof.
  intros Hc (H1 & H2 & H3). unfold effect. destruct (s32 r <? 0); [done|].
  destruct Hc as [-> | ->]; (split_and!; [done|intros p ??; cbn; by rewrite lookup_delete_ne, H2 by done|]);
    intros Hf; destruct (H3 Hf) as [H4 H5]; cbn [ns_nodes]; rewrite !lookup_delete; repeat case_decide; auto.
Qed.

Lemma litter_mkdir dev n : litter dev n (effect (KMkdir (mnt_str dev) 448) 0 (with_node dev n)).
Proof.
  pose proof (dev_mnt_ne dev dev). change (effect (KMkdir (mnt_str dev) 448) 0 (with_node dev n)) with
    (Ns (<[mnt_str dev := NDir]> (<[dev_str dev := NBlk dev]> (ns_nodes n))) (ns_mounts n)).
  split_and!; [done|intros p ??; cbn; by rewrite !lookup_insert_ne by done|].
  intros _. cbn [ns_nodes]. rewrite lookup_insert_ne, !lookup_insert_eq by done. auto.
Qed.

Lemma undone_mkdir dev n n' k :
  away (effect (KUnlink (dev_str dev)) (kernel (KUnlink (dev_str dev)) k).1 (with_node dev n)) n' ->
  undone dev n n'.
Proof.
  intros H. eexists. split_and!; [exact H|apply litter_remove; [by left|apply litter_node]|].
  intros [-> _] (H1 & H2 & H3). left. destruct n as [nodes mounts]. unfold effect, with_node.
  change (s32 0 <? 0) with false. simpl in *. by rewrite delete_insert_id.
Qed.

Lemma undone_mount dev n n' k k2 :
  away (effect (KRmdir (mnt_str dev)) (kernel (KRmdir (mnt_str dev)) k2).1
         (effect (KUnlink (dev_str dev)) (kernel (KUnlink (dev_str dev)) k).1
           (effect (KMkdir (mnt_str dev) 448) 0 (with_node dev n)))) n' -> undone dev n n'.
Proof.
  intros H. eexists. split_and!; [exact H| |].
  { apply litter_remove; [by right|]. apply litter_remove; [by left|]. apply litter_mkdir. }
  intros [-> ->] (H1 & H2 & H3). left.
  destruct n as [nodes mounts]. unfold effect, with_node.
  change (s32 0 <? 0) with false. simpl in *. pose proof (dev_mnt_ne dev dev).
  rewrite delete_insert_ne, !delete_insert_eq by done. rewrite (delete_id nodes) by done.
  by rewrite delete_id.
Qed.

(** The part of lkl_mount_dev after the device node. *)
Lemma mount_tail dev fs flags data n h : I h -> away (with_node dev n) (hns h) ->
  exists r h',
  (let* r := sys (gkernel kernel) (KMkdir (mnt_str dev) 448) in
   if s32 r <? 0 then
     let* _ := sys (gkernel kernel) (KUnlink (dev_str dev)) in retM (s32 r, mnt_str dev)
   else
     let* r := sys (gkernel kernel) (KMount (dev_str dev) (mnt_str dev) fs flags data) in
     if s32 r <? 0 then
       let* _ := sys (gkernel kernel) (KUnlink (dev_str dev)) in
       let* _ := sys (gkernel kernel) (KRmdir (mnt_str dev)) in
       retM (s32 r, mnt_str dev)
     else retM (0, mnt_str dev)) h = Ok ((r, mnt_str dev), h') /\ I h' /\
  (r = 0 /\ away (made dev n) (hns h') \/ r < 0 /\ undone dev n (hns h')).
Proof.
  intros HI Hn.
  destruct (sys_goes (KMkdir (mnt_str dev) 448) h) as (k & h1 & E & N & HI1); [done..|].
  rewrite (bindM_ok _ _ _ _ _ E). destruct (Z.ltb_spec (s32 (kernel (KMkdir (mnt_str dev) 448) k).1) 0) as [Hr|Hr].
  - rewrite effect_neg in N by done.
    destruct (sys_goes (KUnlink (dev_str dev)) h1) as (k2 & h2 & E2 & N2 & HI2); [done..|].
    rewrite (bindM_ok _ _ _ _ _ E2). eexists _, _. split_and!; [done..|]. right. split; [done|].
    apply (undone_mkdir _ _ _ k2). rewrite N2, N. by apply away_effect.
  - rewrite effect_pos in N by done.
    destruct (sys_goes (KMount (dev_str dev) (mnt_str dev) fs flags data) h1) as (k2 & h2 & E2 & N2 & HI2);
      [apply mnt_str_off|done|].
    rewrite (bindM_ok _ _ _ _ _ E2). destruct (Z.ltb_spec (s32 (kernel (KMount (dev_str dev) (mnt_str dev) fs flags data) k2).1) 0) as [Hr2|Hr2].
    + rewrite effect_neg in N2 by done.
      destruct (sys_goes (KUnlink (dev_str dev)) h2) as (k3 & h3 & E3 & N3 & HI3); [done..|].
      rewrite (bindM_ok _ _ _ _ _ E3).
      destruct (sys_goes (KRmdir (mnt_str dev)) h3) as (k4 & h4 & E4 & N4 & HI4); [done..|].
      rewrite (bindM_ok _ _ _ _ _ E4). eexists _, _. split_and!; [done..|]. right. split; [done|].
      apply (undone_mount _ _ _ k3 k4). rewrite N4, N3, N2, N. by repeat apply away_effect.
    + rewrite effect_pos in N2 by done. eexists _, _. split_and!; [done..|]. left. split; [done|].
      rewrite N2, N. change (made dev n) with
        (effect (KMount (dev_str dev) (mnt_str dev) fs flags data) 0 (effect (KMkdir (mnt_str dev) 448) 0 (with_node dev n))).
      by repeat apply away_effect.
Qed.

Lemma mount_goes disk part fs flags data len h : I h -> 14 <= len ->
  exists r mp h',
  lkl_mount_dev (gkernel kernel) (gread kread) fuel junk disk part fs flags data len h = Ok ((r, mp), h') /\ I h' /\
  (r = 0 /\ mp = mnt_str (no (s32 disk) part).2 /\ 0 <= (no (s32 disk) part).1 /\
     away (made (no (s32 disk) part).2 (hns h)) (hns h')
   \/ r < 0 /\ undone (no (s32 disk) part).2 (hns h) (hns h')).
Proof.
  intros HI Hlen. unfold lkl_mount_dev. destruct (Z.ltb_spec len 14) as [|_]; [lia|].
  destruct (look_goes (s32 disk) part h HI) as (h1 & E1 & A1 & HI1). rewrite (bindM_ok _ _ _ _ _ E1).
  destruct (no (s32 disk) part) as [err dev]. cbn [fst snd].
  destruct (Z.ltb_spec err 0) as [He|He].
  { eexists _, _, _. split_and!; [done..|]. right. split; [done|]. by apply undone_none. }
  destruct (ensure_goes (chars "/dev") h1 HI1) as (o & h2 & E2 & HI2). rewrite (bindM_ok _ _ _ _ _ E2).
  pose proof (stays_ensure kernel (chars "/dev") ltac:(set_solver) _ _ _ E2) as A2.
  assert (away (hns h) (hns h2)) as A by (by etransitivity).
  destruct o as [e|].
  { eexists _, _, _. split_and!; [done..|]. right. split; [|by apply undone_none].
    eapply ensure_neg, E2. }
  destruct (sys_goes (KMknod (dev_str dev) (Z.lor LKL_S_IFBLK 384) dev) h2) as (k & h3 & E3 & N3 & HI3); [done..|].
  rewrite (bindM_ok _ _ _ _ _ E3).
  destruct (Z.ltb_spec (s32 (kernel (KMknod (dev_str dev) (Z.lor LKL_S_IFBLK 384) dev) k).1) 0) as [Hr|Hr].
  { rewrite effect_neg in N3 by done. eexists _, _, _. split_and!; [done..|]. right. split; [done|].
    apply undone_none. by rewrite N3. }
  rewrite effect_pos in N3 by done.
  destruct (ensure_goes (chars "/mnt") h3 HI3) as (o & h4 & E4 & HI4). rewrite (bindM_ok _ _ _ _ _ E4).
  assert (away (with_node dev (hns h)) (hns h4)) as A4.
  { etransitivity; [|exact (stays_ensure kernel (chars "/mnt") ltac:(set_solver) _ _ _ E4)].
    rewrite N3. change (with_node dev (hns h)) with
      (effect (KMknod (dev_str dev) (Z.lor LKL_S_IFBLK 384) dev) 0 (hns h)). by apply away_effect. }
  destruct o as [e|].
  { eexists _, _, _. split_and!; [done..|]. right. split; [eapply ensure_neg, E4|].
    by apply undone_node. }
  destruct (mount_tail dev fs flags (Some (match data with Some d => take 4095 d | None => [] end)) (hns h) h4 HI4 A4)
    as (r & h5 & E5 & HI5 & [[-> A5]|[Hr5 U5]]).
  - eexists _, _, _. split_and!; [exact E5|done|]. by left.
  - eexists _, _, _. split_and!; [exact E5|done|]. by right.
Qed.

(** What a failed unmount may have done: the unmount itself and the removal of
    the device node. *)
Definition half_unmade (dev : Z) (n n' : ns) : Prop :=
  ns_mounts n' = ns_mounts n ∖ {[mnt_str dev]} /\
  forall p, p <> dev_str dev -> ns_nodes n' !! p = ns_nodes n !! p.

Lemma umount_goes disk part flags t h : answers -> I h ->
  exists r h',
  lkl_umount_dev (gkernel kernel) (gread kread) fuel junk disk part flags t h = Ok (r, h') /\ I h' /\
  (r = 0 /\ 0 <= (no (s32 disk) part).1 /\ away (unmade (no (s32 disk) part).2 (hns h)) (hns h')
   \/ - 2 ^ 31 <= r < 0 /\ exists m, away m (hns h') /\
        (m = hns h \/ half_unmade (no (s32 disk) part).2 (hns h) m)).
Proof.
  intros [Hul Hrm Hum] HI. pose proof (nb_range _ _ Hno (s32 disk) part). unfold lkl_umount_dev.
  destruct (look_goes (s32 disk) part h HI) as (h1 & E1 & A1 & HI1). rewrite (bindM_ok _ _ _ _ _ E1).
  destruct (no (s32 disk) part) as [err dev]. cbn [fst snd].
  destruct (Z.ltb_spec err 0) as [He|He].
  { eexists _, _. split_and!; [done..|]. right. cbn in *. split; [lia|]. eauto. }
  destruct (umount_timeout_goes (mnt_str dev) flags t h1) as (k & h2 & E2 & N2 & HI2);
    [apply mnt_str_off|done|].
  rewrite (bindM_ok _ _ _ _ _ E2). specialize (Hum (mnt_str dev) flags k).
  rewrite (s32_id (kernel (KUmount (mnt_str dev) flags) k).1) by lia.
  destruct (Z.eqb_spec (kernel (KUmount (mnt_str dev) flags) k).1 0) as [Hr|Hr]; cbn [negb].
  2: { eexists _, _. split_and!; [done..|]. right. split; [lia|].
       rewrite effect_neg in N2 by (rewrite s32_id; lia). rewrite N2. eauto. }
  rewrite Hr in N2. set (n1 := effect (KUmount (mnt_str dev) flags) 0 (hns h)).
  assert (away n1 (hns h2)) as A2 by (rewrite N2; by apply away_effect).
  destruct (sys_goes (KUnlink (dev_str dev)) h2) as (k3 & h3 & E3 & N3 & HI3); [done..|].
  rewrite (bindM_ok _ _ _ _ _ E3). specialize (Hul (dev_str dev) k3). rewrite s32_id by lia.
  set (u := (kernel (KUnlink (dev_str dev)) k3).1) in *. destruct (Z.eqb_spec u 0) as [Hu|Hu]; cbn [negb].
  2: { eexists _, _. split_and!; [done..|]. right. split; [lia|]. exists n1. split; [|by right].
       rewrite N3, effect_neg by (rewrite s32_id; lia). done. }
  rewrite Hu in N3. destruct (sys_goes (KRmdir (mnt_str dev)) h3) as (k4 & h4 & E4 & N4 & HI4); [done..|].
  specialize (Hrm (mnt_str dev) k4). set (d := (kernel (KRmdir (mnt_str dev)) k4).1) in *.
  exists d, h4. split_and!; [exact E4|done|]. destruct (Z.eq_dec d 0) as [Hd|Hd]; [left|right].
  - split_and!; [done..|]. rewrite N4, N3, Hd. change (unmade dev (hns h)) with
      (effect (KRmdir (mnt_str dev)) 0 (effect (KUnlink (dev_str dev)) 0 n1)). by repeat apply away_effect.
  - split; [lia|]. exists (effect (KUnlink (dev_str dev)) 0 n1). split.
    + rewrite N4, (effect_neg (KRmdir _)), N3 by (rewrite s32_id; lia). by apply away_effect.
    + right. split; [done|]. intros p Hp. by apply lookup_delete_ne.
Qed.

End Runs.

(** ** The numbers of sysfs *)

Section OverSysfs.
Context {D K : Type} (kernel : kcall -> K -> Z * K) (kread : rcall -> K -> Z * list Z * K).
Context (tree : list Z -> option inode) {SF : Sysfs kernel kread tree}.

#[export] Instance ghost_sysfs : Sysfs (gkernel kernel) (gread kread) tree.
Proof.
  refine {| sf_fds := fun s => sf_fds s.1; sf_mounted := fun s => sf_mounted s.1; sf_room := sf_room |}.
  - intros c [k n] Hc. unfold gkernel. pose proof (sf_other kernel kread tree c k Hc). cbn. by destruct (kernel c k).
  - intros [k n]. unfold gkernel. pose proof (sf_mkdir kernel kread tree k) as H. cbn [fst snd].
    by destruct (kernel (KMkdir _ _) k).
  - intros [k n] c. unfold gkernel. pose proof (sf_mount kernel kread tree k) as H. cbv zeta in H. fold c in H.
    cbn [fst snd]. by destruct (kernel c k).
  - intros p flags e [k n] Hm He. destruct (sf_open_error kernel kread tree p flags e k Hm He) as (k' & E & H).
    unfold gkernel. cbn [fst]. rewrite E. by eexists.
  - intros p flags [k n] Hm Hr Ho. destruct (sf_open kernel kread tree p flags k Hm Hr Ho) as (fd & k' & E & H).
    unfold gkernel. cbn [fst]. rewrite E. by eexists _, _.
  - intros fd [k n] Hfd. unfold gkernel. pose proof (sf_close kernel kread tree fd k Hfd) as H. cbn [fst snd] in *.
    by destruct (kernel (KClose fd) k).
  - intros fd len p i names [k n] Hfd Ht Hl.
    destruct (sf_getdents kernel kread tree fd len p i names k Hfd Ht Hl) as (m & bs & k' & E & H).
    unfold gread. cbn [fst]. rewrite E. by eexists _, _, _.
  - intros fd len p content [k n] Hfd Ht Hl.
    destruct (sf_read kernel kread tree fd len p content k Hfd Ht Hl) as (i & k' & E & H).
    unfold gread. cbn [fst]. rewrite E. by eexists _, _.
  - intros fd len p i names [k n] Hfd Ht.
    destruct (sf_read_dir kernel kread tree fd len p i names k Hfd Ht) as (k' & E & H).
    unfold gread. cbn [fst]. rewrite E. by eexists.
Defined.

Abbreviation ghost := (host (D := D) (K := K * ns)).

(** The states in which disks can be mounted. *)
Definition mountable (nboot : Z) (h : ghost) : Prop :=
  ready (gkernel kernel) (gread kread) tree h /\ hs_nboot h = nboot.

Lemma beside_no_fd c : beside c -> no_fd c.
Proof. by destruct c. Qed.

Lemma disk_number_range nboot disk part : - 2 ^ 31 <= (disk_number tree nboot disk part).1.
Proof.
  assert (forall p, - 2 ^ 31 <= (number_in tree p).1) as Hn.
  { intros p. unfold number_in. repeat case_match; done. }
  assert (forall p q e, find_in tree p q = inl e -> - 2 ^ 31 <= e) as Hf.
  { intros p q e. unfold find_in. repeat case_match; intros; by simplify_eq. }
  unfold disk_number. destruct (disk <? 0); [done|]. cbv zeta.
  destruct (find_in tree _ (chars "virtio")) eqn:E; [by eapply Hf|].
  destruct (find_in tree _ (chars "vd")) eqn:E2; [by eapply Hf|apply Hn].
Qed.

Lemma sysfs_numbered fuel junk nboot : tree_ok tree fuel -> length (ld_buf junk) = 1024%nat ->
  numbered kernel kread fuel junk (mountable nboot) (disk_number tree nboot).
Proof.
  intros Hok Hj. split.
  - intros disk part. apply disk_number_range.
  - intros disk part h [Hr <-].
    destruct (get_virtio_blkdev_ok (gkernel kernel) (gread kread) tree fuel junk disk part h Hr Hj Hok) as (h' & E & R).
    exists h'. split; [exact E|split; [by eapply restored_ready|]]. by destruct R as (? & ? & -> & _).
  - intros c h Hc [[H1 H2 H3 H4] H5]. split; [split|]; [done..| |done].
    cbn [hs_kernel upd_kernel]. by rewrite (sf_other (gkernel kernel) (gread kread) tree c) by by apply beside_no_fd.
Qed.

(** ** Mounting and unmounting *)

Context (fuel : nat) (junk : lkl_dir) (nboot : Z).
Context (Hok : tree_ok tree fuel) (Hjunk : length (ld_buf junk) = 1024%nat).
Implicit Types h : ghost.

(** C19: lkl_mount_dev always returns, when allocations succeed and sysfs answers as
    it should.  When it succeeds, the file namespace has gained the device node, the
    mountpoint and the mount of the device number that sysfs gives, and nothing else
    but the library's own directories /sysfs, /dev and /mnt.  When it fails, nothing
    was mounted; of a device that was not there the device node and the mountpoint
    may be left, and nothing else changed.  When the removals of the error paths
    succeed, it is at most the device node that is left. *)
Theorem mount_dev_effect disk part fs flags data len h : mountable nboot h -> 14 <= len ->
  let '(err, dev) := disk_number tree nboot (s32 disk) part in
  exists r mp h',
    lkl_mount_dev (gkernel kernel) (gread kread) fuel junk disk part fs flags data len h = Ok ((r, mp), h') /\
    mountable nboot h' /\
    (r = 0 /\ mp = mnt_str dev /\ 0 <= err /\ away (made dev (hns h)) (hns h') \/
     r < 0 /\ (exists m, litter dev (hns h) m /\ away m (hns h')) /\
       (removes kernel -> fresh_dev dev (hns h) ->
          away (hns h) (hns h') \/ away (with_node dev (hns h)) (hns h'))).
Proof.
  intros HI Hl. pose proof (sysfs_numbered fuel junk nboot Hok Hjunk) as Hno.
  destruct (mount_goes kernel kread fuel junk _ _ Hno disk part fs flags data len h HI Hl)
    as (r & mp & h' & E & HI' & H). destruct (disk_number _ _ _ _) as [err dev].
  exists r, mp, h'. split_and!; [done..|]. destruct H as [H|[Hr (m & Hm & Hlit & Hf)]]; [by left|right].
  split_and!; [done|eauto|]. intros Hrem Hfr. by destruct (Hf Hrem Hfr) as [->| ->]; [left|right].
Qed.

Context (Hans : answers kernel).

Lemma do_umount_goes disk part h : mountable nboot h -> exists r h',
  do_umount (gkernel kernel) (gread kread) fuel junk disk part h = Ok (r, h') /\ mountable nboot h' /\
  (let no := disk_number tree nboot (s32 (u32 disk)) (u32 part) in
   r = 0 /\ 0 <= no.1 /\ away (unmade no.2 (hns h)) (hns h') \/
   r < 0 /\ exists m, away m (hns h') /\ (m = hns h \/ half_unmade no.2 (hns h) m)).
Proof.
  intros HI. pose proof (sysfs_numbered fuel junk nboot Hok Hjunk) as Hno. unfold do_umount.
  destruct (sys_goes kernel kread fuel junk _ _ Hno KSync h I HI) as (k & h1 & E & N & HI1).
  rewrite (bindM_ok _ _ _ _ _ E).
  assert (hns h1 = hns h) as <-. { rewrite N. unfold effect. by destruct (s32 _ <? 0). }
  destruct (umount_goes kernel kread fuel junk _ _ Hno (u32 disk) (u32 part) 0 1000 h1 Hans HI1)
    as (r & h2 & E2 & HI2 & H). rewrite (bindM_ok _ _ _ _ _ E2).
  exists (s32 r), h2. split_and!; [done..|]. destruct H as [(-> & H)|[Hr H]]; [by left|right].
  rewrite s32_id by lia. by split; [lia|].
Qed.

(** C20: A mount and the unmount of the same partition cancel out: both return, and
    when both return 0 the file namespace is what it was, away from the directories
    /sysfs, /dev and /mnt, which the library makes when they are missing and does not
    remove. *)
Theorem mount_umount_roundtrip disk part fs ro h : mountable nboot h ->
  fresh_dev (disk_number tree nboot (s32 (u32 disk)) (u32 part)).2 (hns h) ->
  exists r mp h1 r2 h2,
    do_mount (gkernel kernel) (gread kread) fuel junk disk ro fs part h = Ok ((r, mp), h1) /\
    do_umount (gkernel kernel) (gread kread) fuel junk disk part h1 = Ok (r2, h2) /\
    (r = 0 -> r2 = 0 -> away (hns h) (hns h2)).
Proof.
  intros HI Hf. pose proof (sysfs_numbered fuel junk nboot Hok Hjunk) as Hno.
  destruct (mount_goes kernel kread fuel junk _ _ Hno (u32 disk) (u32 part) (copy_fs_type fs)
    (if ro then LKL_MS_RDONLY else 0) None 32 h HI ltac:(lia)) as (r & mp & h1 & E & HI1 & H).
  destruct (do_umount_goes disk part h1 HI1) as (r2 & h2 & E2 & HI2 & H2).
  exists r, mp, h1, r2, h2. split_and!; [exact E|exact E2|]. intros -> ->.
  destruct H as [(_ & _ & _ & A1)|[? _]]; [|lia]. destruct H2 as [(_ & _ & A2)|[? _]]; [|lia].
  etransitivity; [|exact A2]. rewrite <- (unmade_made _ (hns h) Hf). by apply away_unmade.
Qed.

(** When /mnt can be neither used nor made, lkl_mount_dev returns the error
    after it made the device node and leaves the node behind (fs.c returns without
    the unlink that the later error paths do). *)
Theorem mount_leaves_device_node disk part fs flags data len h e : mountable nboot h -> 14 <= len ->
  let dev := (disk_number tree nboot (s32 disk) part).2 in
  0 <= (disk_number tree nboot (s32 disk) part).1 ->
  (forall k, (kernel (KAccess (chars "/dev") LKL_S_IRWXO) k).1 = 0) ->
  (forall k, (kernel (KMknod (dev_str dev) (Z.lor LKL_S_IFBLK 384) dev) k).1 = 0) ->
  - 4096 < e < 0 -> e <> - ENOENT -> (forall k, (kernel (KAccess (chars "/mnt") LKL_S_IRWXO) k).1 = e) ->
  exists h',
    lkl_mount_dev (gkernel kernel) (gread kread) fuel junk disk part fs flags data len h = Ok ((e, mnt_str dev), h') /\
    ns_nodes (hns h') !! dev_str dev = Some (NBlk dev).
Proof.
  intros HI Hl dev Herr Hdev Hmk He Hne Hmnt. pose proof (sysfs_numbered fuel junk nboot Hok Hjunk) as Hno.
  unfold lkl_mount_dev. destruct (Z.ltb_spec len 14) as [|_]; [lia|].
  destruct (look_goes kernel kread fuel junk _ _ Hno (s32 disk) part h HI) as (h1 & E1 & _ & HI1).
  rewrite (bindM_ok _ _ _ _ _ E1). subst dev. destruct (disk_number _ _ _ _) as [err dev]. cbn [fst snd] in *.
  destruct (Z.ltb_spec err 0) as [|_]; [lia|].
  destruct (sys_goes kernel kread fuel junk _ _ Hno (KAccess (chars "/dev") LKL_S_IRWXO) h1) as (k2 & h2 & E2 & _ & HI2);
    [done..|]. rewrite Hdev in E2.
  unfold ensure_dir at 1. rewrite bindM_assoc, (bindM_ok _ _ _ _ _ E2).
  change (s32 0 <? 0) with false. cbv iota. rewrite (bindM_ok (retM None) _ h2 None h2 eq_refl).
  destruct (sys_goes kernel kread fuel junk _ _ Hno (KMknod (dev_str dev) (Z.lor LKL_S_IFBLK 384) dev) h2)
    as (k3 & h3 & E3 & N3 & HI3); [done..|]. rewrite Hmk in E3, N3. rewrite (bindM_ok _ _ _ _ _ E3).
  destruct (sys_goes kernel kread fuel junk _ _ Hno (KAccess (chars "/mnt") LKL_S_IRWXO) h3)
    as (k4 & h4 & E4 & N4 & HI4); [done..|]. rewrite Hmnt in E4, N4.
  change (s32 0 <? 0) with false. unfold ensure_dir.
  rewrite bindM_assoc, (bindM_ok _ _ _ _ _ E4), s32_id by lia.
  destruct (Z.ltb_spec e 0) as [_|]; [|lia]. destruct (Z.eqb_spec e (- ENOENT)) as [|_]; [done|].
  exists h4. split.
  - unfold bindM, retM. by destruct (Z.ltb_spec e 0); [|lia].
  - rewrite N4, effect_neg, N3 by (rewrite s32_id; lia). apply lookup_insert_eq.
Qed.

(** ** The table of lkl.js *)

(** The calls a program makes; an exception that nobody catches ends it. *)
Inductive jop := JMount (diskId : Z) (readOnly : bool) (filesystem : list Z) (partition : Z) | JUmount (mountpoint : list Z).

Definition run_op (op : jop) : M (jstate (D := D) (K := K * ns)) outcome :=
  match op with
  | JMount d ro fs p => mount (gkernel kernel) (gread kread) fuel junk d ro fs p
  | JUmount mp => umount (gkernel kernel) (gread kread) fuel junk mp
  end.

Fixpoint run_ops (ops : list jop) : M (jstate (D := D) (K := K * ns)) (list outcome) :=
  match ops with
  | [] => retM []
  | op :: ops =>
      let* o := run_op op in
      if o is ThrowsTypeError then retM [o] else let* os := run_ops ops in retM (o :: os)
  end.

(** The table lists every mount of the kernel, each entry with a partition it is
    of; the entries of [stale] may be of mounts that are gone. *)
Record table_ok (stale : gset (list Z)) (s : jstate (D := D) (K := K * ns)) : Prop := {
  tb_host : mountable nboot (js_host s);
  tb_listed mp : mp ∉ base -> mp ∈ ns_mounts (hns (js_host s)) -> is_Some (js_mounts s !! mp);
  tb_mounted mp : mp ∉ base -> is_Some (js_mounts s !! mp) ->
    mp ∈ ns_mounts (hns (js_host s)) \/ mp ∈ stale;
  tb_part mp d p : js_mounts s !! mp = Some (d, p) ->
    mp = mnt_str (disk_number tree nboot (s32 (u32 d)) (u32 p)).2 }.

Lemma mount_table stale d ro fs p s : table_ok stale s -> exists o s',
  mount (gkernel kernel) (gread kread) fuel junk d ro fs p s = Ok (o, s') /\ o <> ThrowsTypeError /\
  table_ok stale s'.
Proof.
  intros [HI Hlist Hdom Hpart]. pose proof (sysfs_numbered fuel junk nboot Hok Hjunk) as Hno.
  destruct (mount_goes kernel kread fuel junk _ _ Hno (u32 d) (u32 p) (copy_fs_type fs)
    (if ro then LKL_MS_RDONLY else 0) None 32 (js_host s) HI ltac:(lia)) as (r & mp & h1 & E & HI1 & H).
  set (dev := (disk_number tree nboot (s32 (u32 d)) (u32 p)).2) in *.
  assert (native (do_mount (gkernel kernel) (gread kread) fuel junk d ro fs p) s =
    Ok ((r, mp), JState h1 (js_mounts s))) as En by (unfold native, do_mount; by rewrite E).
  unfold mount. rewrite (bindM_ok _ _ _ _ _ En).
  destruct H as [(-> & -> & _ & [_ A])|[Hr (m & [_ A] & (Hm & _) & _)]].
  - eexists _, _. split; [done|]. split; [done|]. split; cbn; [done| | |].
    + intros q Hq. rewrite (A q Hq), lookup_insert. unfold made. cbn [ns_mounts].
      rewrite elem_of_union, elem_of_singleton. case_decide; [by eauto|]. intros [->|]; [done|by apply Hlist].
    + intros q Hq. rewrite (A q Hq), lookup_insert. unfold made. cbn [ns_mounts].
      rewrite elem_of_union, elem_of_singleton. case_decide; [by auto|].
      intros Hs. destruct (Hdom q Hq Hs); auto.
    + intros q d' p'. rewrite lookup_insert. case_decide; [|by apply Hpart]. intros [= <- <-]. by subst.
  - destruct (Z.ltb_spec r 0); [|lia]. eexists _, _. split; [done|]. split; [done|]. split; cbn; [done| | |done].
    + intros q Hq. rewrite (A q Hq), Hm. by apply Hlist.
    + intros q Hq. rewrite (A q Hq), Hm. by apply Hdom.
Qed.

(** The mountpoint an unmount is about. *)
Definition umount_target (mp : list Z) (s : jstate (D := D) (K := K * ns)) : list Z :=
  match js_mounts s !! mp with
  | Some _ => mp
  | None => mnt_str (disk_number tree nboot 0 0).2
  end.

Lemma info_target stale mp s d p : table_ok stale s -> mount_info (js_mounts s) mp = Some (d, p) ->
  umount_target mp s = mnt_str (disk_number tree nboot (s32 (u32 d)) (u32 p)).2.
Proof.
  intros Hs. unfold mount_info, umount_target. destruct (js_mounts s !! mp) as [[d' p']|] eqn:E.
  - intros [= -> ->]. by eapply tb_part.
  - destruct (inherited mp); [|done]. by intros [= <- <-].
Qed.

(** An unmount makes at most the entry of its mountpoint stale. *)
Lemma umount_table stale mp s : table_ok stale s -> exists o s',
  umount (gkernel kernel) (gread kread) fuel junk mp s = Ok (o, s') /\
  match o with
  | ThrowsTypeError => s' = s
  | CallbackErr _ => table_ok ({[umount_target mp s]} ∪ stale) s'
  | CallbackOk _ => table_ok (if js_mounts s !! mp then stale else {[umount_target mp s]} ∪ stale) s'
  end.
Proof.
  intros Hs. pose proof Hs as [HI Hlist Hdom Hpart]. unfold umount. rewrite (bindM_ok getM _ s s s eq_refl).
  destruct (mount_info (js_mounts s) mp) as [[d p]|] eqn:Emp; [|by eexists _, _].
  rewrite (info_target _ _ _ _ _ Hs Emp).
  destruct (do_umount_goes d p (js_host s) HI) as (r & h1 & E & HI1 & H).
  assert (native (do_umount (gkernel kernel) (gread kread) fuel junk d p) s =
    Ok (r, JState h1 (js_mounts s))) as En by (unfold native; by rewrite E).
  rewrite (bindM_ok _ _ _ _ _ En). pose proof (info_target _ _ _ _ _ Hs Emp) as Htgt.
  set (tgt := mnt_str _) in *. destruct H as [(-> & _ & [_ A])|[Hr (m & [_ A] & Hm)]].
  - eexists _, _. split; [done|]. cbv iota beta. unfold umount_target in Htgt.
    assert (forall q, q ∉ base -> (q ∈ ns_mounts (hns h1) <-> q ∈ ns_mounts (hns (js_host s)) /\ q <> tgt)) as A'.
    { intros q Hq. rewrite (A q Hq). unfold unmade. cbn [ns_mounts]. fold tgt. set_solver. }
    split; cbn [js_host js_mounts]; [done| | |].
    + intros q Hq [Hq1 Hq2]%A'; [|done]. rewrite lookup_delete_ne; [by apply Hlist|].
      intros ->. destruct (Hlist _ Hq Hq1) as [x Hx]. rewrite Hx in Htgt. congruence.
    + intros q Hq. rewrite lookup_delete, (A' q Hq). case_decide as Hne; [by intros []|]. intros Hin.
      destruct (js_mounts s !! mp) eqn:Eo.
      * destruct (Hdom q Hq Hin) as [?|?]; [left; split; congruence|by right].
      * destruct (decide (q = tgt)) as [->|]; [set_solver|]. destruct (Hdom q Hq Hin); set_solver.
    + intros q d' p'. rewrite lookup_delete. case_decide; [done|]. apply Hpart.
  - destruct (Z.ltb_spec r 0); [|lia]. eexists _, _. split; [done|]. cbv iota beta.
    assert (forall q, q ∉ base -> q <> tgt -> (q ∈ ns_mounts (hns h1) <-> q ∈ ns_mounts (hns (js_host s)))) as A'.
    { intros q Hq Hne. rewrite (A q Hq). destruct Hm as [->|[-> _]]; [done|]. fold tgt. set_solver. }
    assert (forall q, q ∉ base -> q ∈ ns_mounts (hns h1) -> q ∈ ns_mounts (hns (js_host s))) as A2.
    { intros q Hq. rewrite (A q Hq). destruct Hm as [->|[-> _]]; [done|]. set_solver. }
    split; cbn [js_host js_mounts]; [done| | |done].
    + intros q Hq Hq1. by apply Hlist, A2.
    + intros q Hq Hin. destruct (decide (q = tgt)) as [->|Hne]; [set_solver|].
      destruct (Hdom q Hq Hin) as [?|?]; [left; by apply A'|set_solver].
Qed.

(** Unmounts after which the entry of [mp] may be stale: of [mp] itself, answered
    with an error, or of a key of Object.prototype, which unmounts partition 0 of
    disk 0 and leaves its entry. *)
Definition may_leave (mp : list Z) (op : jop) (o : outcome) : Prop :=
  exists q, op = JUmount q /\
    (q = mp /\ (exists e, o = CallbackErr e) \/
     inherited q = true /\ mp = mnt_str (disk_number tree nboot 0 0).2).

Lemma may_leave_target mp q s o :
  (exists e, o = CallbackErr e) \/ js_mounts s !! q = None -> o <> ThrowsTypeError ->
  is_Some (mount_info (js_mounts s) q) -> mp = umount_target q s -> may_leave mp (JUmount q) o.
Proof.
  intros Ho Hn [x Hx] ->. exists q. split; [done|]. unfold umount_target, mount_info in *.
  destruct (js_mounts s !! q) eqn:E; [left; split; [done|]; by destruct Ho|].
  right. by destruct (inherited q).
Qed.

Lemma run_op_table stale op s : table_ok stale s -> exists o s' stale',
  run_op op s = Ok (o, s') /\ table_ok stale' s' /\
  forall mp, mp ∈ stale' -> mp ∈ stale \/ may_leave mp op o.
Proof.
  intros Hs. destruct op as [d ro fs p|q].
  { destruct (mount_table stale d ro fs p s Hs) as (o & s' & E & _ & Hs'). exists o, s', stale. auto. }
  destruct (umount_table stale q s Hs) as (o & s' & E & H). cbn [run_op].
  assert (o <> ThrowsTypeError -> is_Some (mount_info (js_mounts s) q)) as Hinfo.
  { revert E. unfold umount. rewrite (bindM_ok getM _ s s s eq_refl).
    destruct (mount_info (js_mounts s) q); [by eauto|]. by intros [= <- _]. }
  destruct o as [e|v|].
  - exists (CallbackErr e), s', ({[umount_target q s]} ∪ stale). split_and!; [done..|].
    intros mp [->%elem_of_singleton|?]%elem_of_union; [right|by left].
    by eapply may_leave_target; eauto.
  - exists (CallbackOk v), s'. eexists. split_and!; [done|exact H|]. intros mp Hmp.
    destruct (js_mounts s !! q) eqn:Eq; [by left|].
    apply elem_of_union in Hmp as [->%elem_of_singleton|?]; [right|by left].
    by eapply may_leave_target; eauto.
  - subst s'. exists ThrowsTypeError, s, stale. auto.
Qed.

Lemma run_ops_table ops stale s : table_ok stale s -> exists os s' stale',
  run_ops ops s = Ok (os, s') /\ table_ok stale' s' /\
  (length os = length ops \/ (exists os', os = os' ++ [ThrowsTypeError])) /\
  forall mp, mp ∈ stale' -> mp ∈ stale \/
    exists i op o, ops !! i = Some op /\ os !! i = Some o /\ may_leave mp op o.
Proof.
  revert stale s. induction ops as [|op ops IH]; intros stale s Hs.
  { exists [], s, stale. split_and!; auto. }
  destruct (run_op_table stale op s Hs) as (o & s1 & st1 & E & Hs1 & Hst1).
  cbn [run_ops]. rewrite (bindM_ok _ _ _ _ _ E).
  assert (forall mp os, mp ∈ st1 -> mp ∈ stale \/
    exists i op' o', (op :: ops) !! i = Some op' /\ (o :: os) !! i = Some o' /\ may_leave mp op' o') as Hfirst.
  { intros mp os [?|?]%Hst1; [by left|]. right. by exists 0%nat, op, o. }
  assert (o = ThrowsTypeError \/ o <> ThrowsTypeError) as [->|Ho] by (by destruct o; auto).
  { exists [ThrowsTypeError], s1, st1. split_and!; [done..|right; by exists []|]. intros mp. apply Hfirst. }
  destruct (IH st1 s1 Hs1) as (os & s2 & st2 & E2 & Hs2 & Hl & Hst2).
  exists (o :: os), s2, st2. split; [destruct o; [..|done]; by rewrite (bindM_ok _ _ _ _ _ E2)|].
  split_and!; [done| |].
  - destruct Hl as [Hl|(os' & ->)]; [left; simpl; lia|right]. by exists (o :: os').
  - intros mp [?|(i & op' & o' & H1 & H2 & H3)]%Hst2; [by apply Hfirst|]. right. by exists (S i), op', o'.
Qed.

(** C8: Whatever sequence of mounts and unmounts a program asks for, on whatever
    disks, partitions and mountpoints, every call ends with its callback, up to the
    first unmount of an unknown mountpoint, whose TypeError ends the sequence.  Then,
    away from the library's own directories /sysfs, /dev and /mnt, every mountpoint
    that is mounted in the kernel is in the table of lkl.js; and every mountpoint of
    the table is mounted, unless an unmount of it was answered with an error (when
    the unmount itself succeeded and a removal after it did not), or it is the one of
    partition 0 of disk 0 and a key of Object.prototype was unmounted. *)
Theorem mounts_table_exact ops s : table_ok ∅ s -> exists os s',
  run_ops ops s = Ok (os, s') /\ (length os = length ops \/ (exists os', os = os' ++ [ThrowsTypeError])) /\
  forall mp, mp ∉ base ->
    (mp ∈ ns_mounts (hns (js_host s')) -> is_Some (js_mounts s' !! mp)) /\
    (is_Some (js_mounts s' !! mp) -> mp ∈ ns_mounts (hns (js_host s')) \/
       exists i op o, ops !! i = Some op /\ os !! i = Some o /\ may_leave mp op o).
Proof.
  intros Hs. destruct (run_ops_table ops ∅ s Hs) as (os & s' & stale & E & Hs' & Hl & Hst).
  exists os, s'. split_and!; [done..|]. intros mp Hmp. split; [by apply Hs'|]. intros Hin.
  destruct (tb_mounted _ _ Hs' mp Hmp Hin) as [?|Hm]; [by left|right].
  destruct (Hst mp Hm) as [[]%not_elem_of_empty|?]; done.
Qed.

End OverSysfs.

(** ** Waiting for a busy mountpoint *)

Section Wait.
Context {D K : Type} (kernel : kcall -> K -> Z * K) (path : list Z) (flags : Z).
Abbreviation hostD := (host (D := D) (K := K)).
Implicit Types h : hostD.

Definition try_umount (k : K) : Z * K := kernel (KUmount path flags) k.

(** The kernel after [j] rounds: a umount and a sleep of 10 ms each. *)
Fixpoint rounds (j : nat) (k : K) : K :=
  match j with
  | O => k
  | S j' => rounds j' (kernel (KNanosleep 0 10000000) (try_umount k).2).2
  end.

Lemma umount_loop_eq n t h : umount_loop kernel (S n) path flags t h =
  let '(r, k1) := try_umount (hs_kernel h) in
  let '(_, k2) := kernel (KNanosleep 0 10000000) k1 in
  if r =? - EBUSY then
    if 0 <? t - 10 then umount_loop kernel n path flags (t - 10) (upd_kernel k2 h)
    else Ok (r, upd_kernel k2 h)
  else Ok (r, upd_kernel k1 h).
Proof.
  cbn [umount_loop]. unfold bindM at 1, sys at 1. fold (try_umount (hs_kernel h)).
  destruct (try_umount (hs_kernel h)) as [r k1].
  destruct (kernel (KNanosleep 0 10000000) k1) as [r2 k2] eqn:E. destruct (r =? - EBUSY); [|done].
  unfold bindM, sys. cbn [hs_kernel upd_kernel]. rewrite E. by destruct (0 <? t - 10).
Qed.

(** The loop with enough fuel for the time left. *)
Lemma umount_loop_rounds n t h : t < Z.of_nat n -> (0 < n)%nat -> exists j,
  (forall i, (i < j)%nat -> (try_umount (rounds i (hs_kernel h))).1 = - EBUSY) /\
  ((try_umount (rounds j (hs_kernel h))).1 <> - EBUSY /\ (j = 0%nat \/ 10 * Z.of_nat j < t) /\
     umount_loop kernel n path flags t h =
       Ok ((try_umount (rounds j (hs_kernel h))).1, upd_kernel (try_umount (rounds j (hs_kernel h))).2 h)
   \/ t <= 10 * Z.of_nat j /\ (j = 1%nat \/ (0 < j)%nat /\ 10 * Z.of_nat j < t + 10) /\
     umount_loop kernel n path flags t h = Ok (- EBUSY, upd_kernel (rounds j (hs_kernel h)) h)).
Proof.
  revert t h. induction n as [|n IH]; intros t h Ht Hn; [lia|]. rewrite umount_loop_eq.
  destruct (try_umount (hs_kernel h)) as [r k1] eqn:E1.
  destruct (kernel (KNanosleep 0 10000000) k1) as [r2 k2] eqn:E2. destruct (Z.eqb_spec r (- EBUSY)) as [->|Hr].
  - assert (forall i, rounds (S i) (hs_kernel h) = rounds i k2) as HS.
    { intros i. cbn [rounds]. rewrite E1. cbn [snd]. by rewrite E2. }
    destruct (Z.ltb_spec 0 (t - 10)).
    + destruct (IH (t - 10) (upd_kernel k2 h)) as (j & Hb & Hj); [lia|lia|]. cbn [hs_kernel upd_kernel] in *.
      exists (S j). rewrite HS. split; [intros [|i] Hi; [by cbn; rewrite E1|rewrite HS; apply Hb; lia]|].
      destruct Hj as [(H1 & H2 & H3)|(H1 & H2 & H3)]; [left|right]; split_and!; try done; lia.
    + exists 1%nat. rewrite HS. split; [intros [|i] Hi; [by cbn; rewrite E1|lia]|]. right.
      split_and!; [lia|by left|done].
  - exists 0%nat. split; [lia|]. left. cbn [rounds]. rewrite E1. by split_and!; [|left|].
Qed.

(** C21: lkl_umount_timeout always ends: after at most timeout/10 rounds, rounded up, of
    a umount and a sleep it returns the first answer that is not EBUSY, or EBUSY
    when the time is over and every answer was; a timeout of zero or less still
    means one attempt. *)
Theorem umount_timeout_ends t h : exists j,
  (forall i, (i < j)%nat -> (try_umount (rounds i (hs_kernel h))).1 = - EBUSY) /\
  ((try_umount (rounds j (hs_kernel h))).1 <> - EBUSY /\ (j = 0%nat \/ 10 * Z.of_nat j < t) /\
     lkl_umount_timeout kernel path flags t h =
       Ok ((try_umount (rounds j (hs_kernel h))).1, upd_kernel (try_umount (rounds j (hs_kernel h))).2 h)
   \/ t <= 10 * Z.of_nat j /\ (j = 1%nat \/ (0 < j)%nat /\ 10 * Z.of_nat j < t + 10) /\
     lkl_umount_timeout kernel path flags t h = Ok (- EBUSY, upd_kernel (rounds j (hs_kernel h)) h)).
Proof. apply umount_loop_rounds; lia. Qed.

End Wait.

(** ** A kernel with two disks *)

Module MountDemo.
Import SysfsDemo.

(** A kernel whose unlink, rmdir and umount2 succeed. *)
Lemma demo_answers : answers kernel.
Proof. split; intros; cbn; lia. Qed.

Definition ghost0 : host (D := unit) (K := kst * ns) :=
  Host irq_init [] ∅ 1 [] [] 0 1 true (Kst false None, Ns ∅ ∅) ∅.

Lemma demo_mountable : mountable kernel kread tree 1 ghost0.
Proof. split; [split|]; [done..| | |done]; [intros p _; apply lookup_empty|done]. Qed.

Lemma demo_fresh dev : fresh_dev dev (hns ghost0).
Proof. split_and!; [apply lookup_empty..|apply not_elem_of_empty]. Qed.

Lemma mount_dev_effect_witness :
  let '(err, dev) := disk_number tree 1 (s32 0) 1 in
  exists r mp h',
    lkl_mount_dev (gkernel kernel) (gread kread) 10 junk 0 1 (chars "ext4") 0 None 32 ghost0 = Ok ((r, mp), h') /\
    mountable kernel kread tree 1 h' /\
    (r = 0 /\ mp = mnt_str dev /\ 0 <= err /\ away (made dev (hns ghost0)) (hns h') \/
     r < 0 /\ (exists m, litter dev (hns ghost0) m /\ away m (hns h')) /\
       (removes kernel -> fresh_dev dev (hns ghost0) ->
          away (hns ghost0) (hns h') \/ away (with_node dev (hns ghost0)) (hns h'))).
Proof.
  apply (mount_dev_effect kernel kread tree 10 junk 1 demo_tree_ok eq_refl 0 1 (chars "ext4") 0 None 32 ghost0);
    [apply demo_mountable|lia].
Defined.

Lemma mount_umount_roundtrip_witness : exists r mp h1 r2 h2,
    do_mount (gkernel kernel) (gread kread) 10 junk 0 true (chars "ext4") 1 ghost0 = Ok ((r, mp), h1) /\
    do_umount (gkernel kernel) (gread kread) 10 junk 0 1 h1 = Ok (r2, h2) /\
    (r = 0 -> r2 = 0 -> away (hns ghost0) (hns h2)).
Proof.
  apply (mount_umount_roundtrip kernel kread tree 10 junk 1 demo_tree_ok eq_refl demo_answers);
    [apply demo_mountable|apply demo_fresh].
Defined.

Definition js0 : jstate (D := unit) (K := kst * ns) := JState ghost0 ∅.

Lemma mounts_table_exact_witness : exists os s',
  let ops := [JMount 0 false (chars "ext4") 1; JMount 1 false (chars "btrfs") 0; JUmount (mnt_str 0xfe01)] in
  run_ops kernel kread 10 junk ops js0 = Ok (os, s') /\
  (length os = 3%nat \/ (exists os', os = os' ++ [ThrowsTypeError])) /\
  forall mp, mp ∉ base ->
    (mp ∈ ns_mounts (hns (js_host s')) -> is_Some (js_mounts s' !! mp)) /\
    (is_Some (js_mounts s' !! mp) -> mp ∈ ns_mounts (hns (js_host s')) \/
       exists i op o, ops !! i = Some op /\ os !! i = Some o /\ may_leave tree 1 mp op o).
Proof.
  apply (mounts_table_exact kernel kread tree 10 junk 1 demo_tree_ok eq_refl demo_answers). split.
  - apply demo_mountable.
  - intros mp _. cbn. by intros ?%not_elem_of_empty.
  - intros mp _. cbn. rewrite lookup_empty. by intros [].
  - intros mp d p. cbn. by rewrite lookup_empty.
Defined.

(** The same kernel with a /mnt that cannot be used. *)
Definition no_mnt (c : kcall) (k : kst) : Z * kst :=
  match c with
  | KAccess p _ => (if decide (p = chars "/mnt") then - 13 else 0, k)
  | _ => kernel c k
  end.

#[local] Instance no_mnt_sysfs : Sysfs no_mnt kread tree.
Proof.
  refine {| sf_fds := sf_fds (kernel := kernel) (kread := kread) (tree := tree);
            sf_mounted := sf_mounted (kernel := kernel) (kread := kread) (tree := tree);
            sf_room := sf_room (kernel := kernel) (kread := kread) (tree := tree) |}.
  - intros c k Hc. destruct c; try done; apply (sf_other kernel kread tree _ k Hc).
  - apply (sf_mkdir kernel kread tree).
  - apply (sf_mount kernel kread tree).
  - apply (sf_open_error kernel kread tree).
  - apply (sf_open kernel kread tree).
  - apply (sf_close kernel kread tree).
  - apply (sf_getdents kernel kread tree).
  - apply (sf_read kernel kread tree).
  - apply (sf_read_dir kernel kread tree).
Defined.

Lemma mount_leaves_device_node_witness : exists h',
  lkl_mount_dev (gkernel no_mnt) (gread kread) 10 junk 0 1 (chars "ext4") 0 None 32 ghost0 =
    Ok ((- 13, mnt_str 0xfe01), h') /\
  ns_nodes (hns h') !! dev_str 0xfe01 = Some (NBlk 0xfe01).
Proof.
  apply (mount_leaves_device_node no_mnt kread tree 10 junk 1 demo_tree_ok eq_refl 0 1 (chars "ext4") 0 None 32 ghost0 (- 13));
    [|lia|vm_compute; discriminate|intros k; reflexivity|intros k; reflexivity|lia|discriminate|intros k; reflexivity].
  split; [split|]; [done..| | |done]; [intros p _; apply lookup_empty|done].
Defined.

End MountDemo.
