(* ===== verification/Addon.v ===== *)
(** * Addon

    How an operation of the addon travels between threads: lib/queue.js hands
    one operation at a time to the worker thread (src/worker.cc), which runs
    it and calls back on the main loop (src/async.cc); meanwhile the worker
    and the threads of the kernel ask JavaScript disks for data (src/disk.cc).
    Each atomic action is a function of the state, and the threads interleave.

    libuv is not part of the sources. What is used of it is its documentation:
    an async handle coalesces sends, calling back once after the last one; a
    semaphore counts; a mutex has one holder. async.queue, with concurrency 1,
    starts tasks in the order they were pushed, one at a time, the next one when
    the callback of the task is called: a task whose method or whose user callback
    throws never calls it.  Which operations throw, which requests a disk
    answers and which threads of the kernel an operation waits for are parameters. *)

From S2P Require Import Prelude.

(** An operation, by the number it was pushed with. *)
Local Notation op := nat.

(** A request to a disk, by its number. *)
Local Notation req := nat.

(** What a thread asks the main loop to run. *)
Inductive call :=
  | CReq (r : req)   (* get_capacity, request *)
  | CDone (o : op).  (* syscall_callback, disk_add_callback, ... *)

(** Where a thread is. [PLock] to [PUnlock] are the lines of
    run_on_default_loop; [PJs] waits for the answer of JavaScript. *)
Inductive pc :=
  | PIdle            (* in uv_run; the worker only *)
  | PDo              (* in its own code *)
  | PLock (c : call)
  | PSet (c : call)
  | PSend (c : call)
  | PWait (c : call)
  | PUnlock (c : call)
  | PJs (r : req).

(** [t_sem] is the semaphore of its call_info, [t_js] that of its request
    state; [t_cb]: JavaScript holds a callback for it that was not called. *)
Record thread := Thread {
  t_pc : pc;
  t_op : option op;
  t_sem : bool;
  t_js : bool;
  t_cb : bool
}.

(** Thread 0 is the worker, the others are threads of the kernel. [s_data]
    is async->data, the frame of a thread; [s_main] is the frame whose function
    the main loop has called and whose semaphore it has not posted yet. [s_stuck]:
    a user callback threw and the queue was never told that its task ended. *)
Record state := State {
  s_threads : nat -> thread;
  s_lock : option nat;
  s_data : option nat;
  s_async : bool;
  s_main : option nat;
  s_slot : option op;
  s_wasync : bool;
  s_running : option op;
  s_queue : list op;
  s_pushed : list op;
  s_log : list op;
  s_fault : bool;
  s_stuck : bool
}.

Definition set_thread (i : nat) (t : thread) (s : state) : state :=
  State (fun j => if decide (j = i) then t else s_threads s j) (s_lock s) (s_data s) (s_async s)
    (s_main s) (s_slot s) (s_wasync s) (s_running s) (s_queue s) (s_pushed s) (s_log s) (s_fault s) (s_stuck s).
Definition set_lock v s := State (s_threads s) v (s_data s) (s_async s) (s_main s) (s_slot s)
  (s_wasync s) (s_running s) (s_queue s) (s_pushed s) (s_log s) (s_fault s) (s_stuck s).
Definition set_async data b s := State (s_threads s) (s_lock s) data b (s_main s) (s_slot s)
  (s_wasync s) (s_running s) (s_queue s) (s_pushed s) (s_log s) (s_fault s) (s_stuck s).
Definition set_main v s := State (s_threads s) (s_lock s) (s_data s) (s_async s) v (s_slot s)
  (s_wasync s) (s_running s) (s_queue s) (s_pushed s) (s_log s) (s_fault s) (s_stuck s).
Definition set_worker slot b s := State (s_threads s) (s_lock s) (s_data s) (s_async s) (s_main s)
  slot b (s_running s) (s_queue s) (s_pushed s) (s_log s) (s_fault s) (s_stuck s).
Definition set_queue running queue pushed log s := State (s_threads s) (s_lock s) (s_data s)
  (s_async s) (s_main s) (s_slot s) (s_wasync s) running queue pushed log (s_fault s) (s_stuck s).
Definition set_fault s := State (s_threads s) (s_lock s) (s_data s) (s_async s) (s_main s)
  (s_slot s) (s_wasync s) (s_running s) (s_queue s) (s_pushed s) (s_log s) true (s_stuck s).

Definition set_stuck v s := State (s_threads s) (s_lock s) (s_data s) (s_async s) (s_main s)
  (s_slot s) (s_wasync s) (s_running s) (s_queue s) (s_pushed s) (s_log s) (s_fault s) v.

Definition with_pc (p : pc) (t : thread) : thread := Thread p (t_op t) (t_sem t) (t_js t) (t_cb t).

(** The method of an operation throws when the queue starts it; its user's
    callback throws; JavaScript answers a request; the threads of the kernel whose
    requests an operation waits for. *)
Section Parameters.
Context (throws cb_throws : op -> bool) (answered : req -> bool) (waits_for : op -> list nat).

(** *** Threads *)

(** run_on_default_loop, one action at a time. The call_info lives from
    [PSet] to [PUnlock]; the worker returns to its loop after the callback of
    the operation. *)
Definition run_on_default_loop (i : nat) (s : state) : option state :=
  let t := s_threads s i in
  match t_pc t with
  | PLock c =>
      match s_lock s with
      | None => Some (set_lock (Some i) (set_thread i (with_pc (PSet c) t) s))
      | Some _ => None
      end
  | PSet c =>
      Some (set_async (Some i) (s_async s)
        (set_thread i (Thread (PSend c) (t_op t) false (t_js t) (t_cb t)) s))
  | PSend c => Some (set_async (s_data s) true (set_thread i (with_pc (PWait c) t) s))
  | PWait c =>
      if t_sem t
      then Some (set_thread i (Thread (PUnlock c) (t_op t) false (t_js t) (t_cb t)) s)
      else None
  | PUnlock (CReq r) => Some (set_lock None (set_thread i (with_pc (PJs r) t) s))
  | PUnlock (CDone _) =>
      Some (set_lock None (set_thread i (Thread PIdle None (t_sem t) (t_js t) (t_cb t)) s))
  | _ => None
  end.

(** js_get_capacity_entry and js_request_entry: a fresh semaphore, the call,
    and the wait for the answer. *)
Definition js_entry (i : nat) (r : req) (s : state) : option state :=
  let t := s_threads s i in
  match t_pc t with
  | PDo => Some (set_thread i (Thread (PLock (CReq r)) (t_op t) (t_sem t) false false) s)
  | _ => None
  end.

Definition js_return (i : nat) (s : state) : option state :=
  let t := s_threads s i in
  match t_pc t with
  | PJs _ => if t_js t then Some (set_thread i (Thread PDo (t_op t) (t_sem t) false (t_cb t)) s)
             else None
  | _ => None
  end.

(** worker_loop_entry: the function in worker_info is called. *)
Definition worker_loop_entry (s : state) : option state :=
  let t := s_threads s 0%nat in
  match t_pc t, s_wasync s with
  | PIdle, true =>
      Some (set_worker (s_slot s) false
        (set_thread 0 (Thread PDo (s_slot s) (t_sem t) (t_js t) (t_cb t)) s))
  | _, _ => None
  end.

(** The thread is in the middle of a request. *)
Definition requesting (t : thread) : bool :=
  match t_pc t with PIdle | PDo => false | _ => true end.

(** The end of do_syscall, do_disk_add, ...: the callback is due, once the
    threads the operation waits for are done. *)
Definition do_finish (s : state) : option state :=
  let t := s_threads s 0%nat in
  match t_pc t, t_op t with
  | PDo, Some o =>
      if existsb (fun i => requesting (s_threads s i)) (waits_for o) then None
      else Some (set_thread 0 (with_pc (PLock (CDone o)) t) s)
  | _, _ => None
  end.

(** *** The main loop *)

(** The frame [async->data] points to, if it is live and filled in. *)
Definition frame (s : state) : option (nat * call) :=
  match s_data s with
  | Some i => match t_pc (s_threads s i) with
              | PSend c | PWait c => Some (i, c)
              | _ => None
              end
  | None => None
  end.

(** The function of a call: a request gives JavaScript a callback; the end of
    an operation calls the user's callback and then, unless that threw, that of
    the queue. *)
Definition run_call (i : nat) (c : call) (s : state) : state :=
  let t := s_threads s i in
  match c with
  | CReq _ => set_thread i (Thread (t_pc t) (t_op t) (t_sem t) (t_js t) true) s
  | CDone o => set_stuck (cb_throws o) (set_queue None (s_queue s) (s_pushed s) (s_log s ++ [o]) s)
  end.

(** default_loop_entry up to the call of [fn]. *)
Definition default_loop_entry (s : state) : option state :=
  match s_main s, s_async s with
  | None, true =>
      match frame s with
      | Some (i, c) => Some (set_main (Some i) (run_call i c (set_async (s_data s) false s)))
      | None => Some (set_fault s)
      end
  | _, _ => None
  end.

(** Its last line, uv_sem_post. *)
Definition default_loop_post (s : state) : option state :=
  match s_main s with
  | Some i =>
      let t := s_threads s i in
      match t_pc t with
      | PWait _ => Some (set_main None (set_thread i
                     (Thread (t_pc t) (t_op t) true (t_js t) (t_cb t)) s))
      | _ => Some (set_fault s)
      end
  | None => None
  end.

(** The request a thread is making. *)
Definition request_of (p : pc) : option req :=
  match p with
  | PLock (CReq r) | PSet (CReq r) | PSend (CReq r) | PWait (CReq r) | PUnlock (CReq r) | PJs r => Some r
  | _ => None
  end.

(** callback_wrapper and get_capacity_done or request_done: if JavaScript
    answers the request it may call at any time, the first call counts. *)
Definition request_done (i : nat) (s : state) : option state :=
  let t := s_threads s i in
  if t_cb t && match request_of (t_pc t) with Some r => answered r | None => false end then
    Some (set_thread i (Thread (t_pc t) (t_op t) (t_sem t) true false) s)
  else None.

(** queue.push, and the start of the next task. A method that throws does not
    get to run_on_worker_loop. *)
Definition addOperation (o : op) (s : state) : option state :=
  Some (set_queue (s_running s) (s_queue s ++ [o]) (s_pushed s ++ [o]) (s_log s) s).

Definition run_on_worker_loop (s : state) : option state :=
  match s_running s, s_queue s, s_stuck s with
  | None, o :: q, false =>
      let s' := set_queue (Some o) q (s_pushed s) (s_log s) s in
      Some (if throws o then s' else set_worker (Some o) true s')
  | _, _, _ => None
  end.

(** One atomic action of some thread. *)
Inductive step (s s' : state) : Prop :=
  | step_default i : run_on_default_loop i s = Some s' -> step s s'
  | step_js_entry i r : js_entry i r s = Some s' -> step s s'
  | step_js_return i : js_return i s = Some s' -> step s s'
  | step_worker : worker_loop_entry s = Some s' -> step s s'
  | step_finish : do_finish s = Some s' -> step s s'
  | step_entry : default_loop_entry s = Some s' -> step s s'
  | step_post : default_loop_post s = Some s' -> step s s'
  | step_done i : request_done i s = Some s' -> step s s'
  | step_push o : addOperation o s = Some s' -> step s s'
  | step_start : run_on_worker_loop s = Some s' -> step s s'.

(** init_async and init_worker have run; no operation yet. *)
Definition init : state :=
  State (fun i => Thread (if decide (i = 0%nat) then PIdle else PDo) None false false false)
    None None false None None false None [] [] [] false false.

(** ** Invariant *)

Definition critical (p : pc) : Prop :=
  match p with PSet _ | PSend _ | PWait _ | PUnlock _ => True | _ => False end.

(** The worker has nothing left to report: idle, or on its way back. *)
Definition finishing (p : pc) (async : bool) : Prop :=
  match p with
  | PIdle | PUnlock (CDone _) => True
  | PWait (CDone _) => async = false
  | _ => False
  end.

(** The worker runs operation [o] and has not reported it. *)
Definition busy (o : op) (p : pc) (async : bool) : Prop :=
  match p with
  | PIdle => False
  | PLock (CDone o') | PSet (CDone o') | PSend (CDone o') => o' = o
  | PWait (CDone o') => o' = o /\ async = true
  | PUnlock (CDone _) => False
  | _ => True
  end.

(** The request of a thread has reached JavaScript. *)
Definition asked (p : pc) (async : bool) : bool :=
  match p with
  | PJs _ | PUnlock (CReq _) => true
  | PWait (CReq _) => negb async
  | _ => false
  end.

Definition kernel_pc (p : pc) : Prop :=
  match p with
  | PDo | PJs _ | PLock (CReq _) | PSet (CReq _) | PSend (CReq _) | PWait (CReq _) | PUnlock (CReq _) => True
  | _ => False
  end.

(** A waiting thread: its call is sent, being run, or done. *)
Definition waiting (i : nat) (s : state) : Prop :=
  s_data s = Some i /\
  ((s_async s = true /\ s_main s = None /\ t_sem (s_threads s i) = false) \/
   (s_async s = false /\ s_main s = Some i /\ t_sem (s_threads s i) = false) \/
   (s_async s = false /\ s_main s = None /\ t_sem (s_threads s i) = true)).

Definition working (s : state) : Prop :=
  let p := t_pc (s_threads s 0%nat) in
  match s_running s with
  | None => s_wasync s = false /\ finishing p (s_async s)
  | Some o =>
      throws o = false /\
        (s_wasync s = true /\ s_slot s = Some o /\ finishing p (s_async s) \/
         s_wasync s = false /\ t_op (s_threads s 0%nat) = Some o /\ busy o p (s_async s)) \/
      throws o = true /\ s_wasync s = false /\ finishing p (s_async s)
  end.

Definition thread_inv (i : nat) (s : state) : Prop :=
  let t := s_threads s i in
  (s_lock s = Some i <-> critical (t_pc t)) /\
  (forall c, t_pc t = PWait c -> waiting i s) /\
  (forall c, t_pc t = PSend c -> s_data s = Some i) /\
  (t_sem t = true -> exists c, t_pc t = PWait c) /\
  (if asked (t_pc t) (s_async s) then t_cb t = negb (t_js t)
   else t_cb t = false /\ t_js t = false) /\
  (i <> 0%nat -> kernel_pc (t_pc t)).

(** What has thrown so far: no method of an operation that was called back, and
    a user callback only at the very end. *)
Definition calls_ok (s : state) : Prop :=
  Forall (fun o => throws o = false) (s_log s) /\
  if s_stuck s then
    s_running s = None /\ exists l o, s_log s = l ++ [o] /\ cb_throws o = true /\
      Forall (fun o => cb_throws o = false) l
  else Forall (fun o => cb_throws o = false) (s_log s).

Record inv (s : state) : Prop := {
  i_fault : s_fault s = false;
  i_thread : forall i, thread_inv i s;
  i_main : s_async s = true \/ s_main s <> None -> exists i c, t_pc (s_threads s i) = PWait c;
  i_work : working s;
  i_order : s_log s ++ option_list (s_running s) ++ s_queue s = s_pushed s;
  i_calls : calls_ok s
}.

Lemma inv_init : inv init.
Proof.
  split; [done| |by intros []|by split|done|split; constructor].
  intros i. unfold thread_inv, waiting. simpl. case_decide; simpl; naive_solver.
Qed.

Lemma critical_unique s i j :
  inv s -> critical (t_pc (s_threads s i)) -> critical (t_pc (s_threads s j)) -> i = j.
Proof.
  intros [_ Ht _ _ _ _] Hi Hj. destruct (Ht i) as [Hi' _], (Ht j) as [Hj' _].
  apply Hi' in Hi. apply Hj' in Hj. congruence.
Qed.

(** A thread outside the critical section does not see the shared handle. *)
Lemma thread_inv_other j s s' :
  s_threads s' j = s_threads s j -> ~ critical (t_pc (s_threads s j)) -> s_lock s' <> Some j ->
  thread_inv j s -> thread_inv j s'.
Proof.
  unfold thread_inv, waiting. intros -> Hc Hl (_ & _ & _ & Hsem & Ha & Hk).
  destruct (t_pc (s_threads s j)) as [| |c|c|c|c|c|]; simpl in *; naive_solver.
Qed.

(** Nothing a thread depends on has changed. *)
Lemma thread_inv_same j s s' :
  s_threads s' j = s_threads s j -> s_lock s' = s_lock s -> s_data s' = s_data s ->
  s_async s' = s_async s -> s_main s' = s_main s -> thread_inv j s -> thread_inv j s'.
Proof. unfold thread_inv, waiting. by intros -> -> -> -> ->. Qed.

Lemma set_thread_eq i t s : s_threads (set_thread i t s) i = t.
Proof. simpl. by case_decide. Qed.

Lemma set_thread_ne i j t s : j <> i -> s_threads (set_thread i t s) j = s_threads s j.
Proof. simpl. by case_decide. Qed.

(** One thread at a time holds the lock. *)
Lemma lock_other s i j :
  inv s -> critical (t_pc (s_threads s i)) -> j <> i ->
  ~ critical (t_pc (s_threads s j)) /\ s_lock s <> Some j.
Proof.
  intros Hinv Hi Hne. assert (~ critical (t_pc (s_threads s j))) as Hj.
  { intros Hj. by apply Hne, (critical_unique s). }
  split; [done|]. by rewrite (proj1 (i_thread _ Hinv j)).
Qed.

Lemma working_other s s' :
  s_threads s' 0%nat = s_threads s 0%nat -> s_running s' = s_running s ->
  s_slot s' = s_slot s -> s_wasync s' = s_wasync s ->
  s_async s' = s_async s \/ ~ critical (t_pc (s_threads s 0%nat)) ->
  working s -> working s'.
Proof.
  unfold working. intros -> -> -> -> [->|Hc]; [done|].
  destruct (t_pc (s_threads s 0%nat)); simpl in *; tauto.
Qed.

(** No call is in progress while the lock is free or its holder has not
    sent one. *)
Lemma no_call s : inv s -> (forall i c, t_pc (s_threads s i) <> PWait c) ->
  s_async s = false /\ s_main s = None.
Proof.
  intros Hinv Hno. pose proof (i_main _ Hinv) as Hm.
  destruct (s_async s), (s_main s) as [i|]; try done;
    (destruct Hm as (j & c & Hj); [auto|by destruct (Hno j c)]).
Qed.

(** A step of thread [i] that leaves the queue and the worker's slot alone. *)
Lemma inv_thread_step i s s' :
  inv s -> s_fault s' = s_fault s ->
  (forall j, j <> i -> s_threads s' j = s_threads s j) ->
  s_running s' = s_running s -> s_queue s' = s_queue s -> s_pushed s' = s_pushed s ->
  s_log s' = s_log s -> s_slot s' = s_slot s -> s_wasync s' = s_wasync s -> s_stuck s' = s_stuck s ->
  (forall j, j <> i -> thread_inv j s') -> thread_inv i s' ->
  (s_async s' = true \/ s_main s' <> None -> exists i c, t_pc (s_threads s' i) = PWait c) ->
  s_async s' = s_async s \/ (forall j, j <> i -> ~ critical (t_pc (s_threads s j))) ->
  (i = 0%nat -> working s') -> inv s'.
Proof.
  intros [Hf _ _ Hw Ho Hcl] Hf' Hts Hr Hq Hp Hlog Hs Hwa Hst Hother Hi Hm Ha Hw0. split.
  - congruence.
  - intros j. destruct (decide (j = i)) as [->|]; auto.
  - done.
  - destruct (decide (i = 0%nat)) as [|Hne]; [auto|]. eapply working_other; [..|exact Hw]; auto.
    destruct Ha as [|Ha]; [by left|right; auto].
  - by rewrite Hlog, Hr, Hq, Hp.
  - unfold calls_ok. by rewrite Hlog, Hst, Hr.
Qed.

Lemma inv_lock i c s :
  inv s -> t_pc (s_threads s i) = PLock c -> s_lock s = None ->
  inv (set_lock (Some i) (set_thread i (with_pc (PSet c) (s_threads s i)) s)).
Proof.
  intros Hinv Hpc Hlock. pose proof (i_thread _ Hinv) as Ht.
  assert (forall j, ~ critical (t_pc (s_threads s j))) as Hfree.
  { intros j Hj%(proj1 (Ht j)). congruence. }
  destruct (no_call s Hinv) as [Ha Hmn].
  { intros j c' Hj. destruct (Hfree j). by rewrite Hj. }
  apply (inv_thread_step i s); try done.
  - intros j Hj. by apply set_thread_ne.
  - intros j Hj. eapply thread_inv_other; [by apply set_thread_ne|done|cbn; congruence|done].
  - destruct (Ht i) as (_ & _ & _ & Hsem & Hask & Hk). unfold thread_inv, waiting. cbn [s_threads set_lock].
    rewrite set_thread_eq, Hpc in *. cbn in *. split_and!; try naive_solver.
  - cbn. rewrite Ha, Hmn. by intros [].
  - by left.
  - intros ->. pose proof (i_work _ Hinv) as Hw. unfold working in *. cbn [s_threads set_lock].
    rewrite set_thread_eq. rewrite Hpc in Hw. cbn in *. by destruct (s_running s), c.
Qed.

Lemma holder_no_call s i :
  inv s -> critical (t_pc (s_threads s i)) -> (forall c, t_pc (s_threads s i) <> PWait c) ->
  s_async s = false /\ s_main s = None.
Proof.
  intros Hinv Hc Hno. apply no_call; [done|]. intros j c Hj.
  assert (i = j) as <- by (eapply critical_unique; [done|done|by rewrite Hj]). by destruct (Hno c).
Qed.

(** The holder of the lock moves on; the other threads do not notice. *)
Lemma inv_holder_step i s s' :
  inv s -> critical (t_pc (s_threads s i)) -> s_fault s' = s_fault s ->
  (forall j, j <> i -> s_threads s' j = s_threads s j) ->
  s_running s' = s_running s -> s_queue s' = s_queue s -> s_pushed s' = s_pushed s ->
  s_log s' = s_log s -> s_slot s' = s_slot s -> s_wasync s' = s_wasync s -> s_stuck s' = s_stuck s ->
  s_lock s' = Some i \/ s_lock s' = None -> thread_inv i s' ->
  (s_async s' = true \/ s_main s' <> None -> exists c, t_pc (s_threads s' i) = PWait c) ->
  (i = 0%nat -> working s') -> inv s'.
Proof.
  intros Hinv Hc Hf Hts Hr Hq Hp Hlog Hs Hwa Hst Hl Hi Hm Hw.
  apply (inv_thread_step i s); auto.
  - intros j Hj. destruct (lock_other s i j Hinv Hc Hj) as [Hn _].
    eapply thread_inv_other; [by apply Hts|done| |apply Hinv]. destruct Hl; congruence.
  - intros H. destruct (Hm H) as [c ?]. by exists i, c.
  - right. intros j Hj. by eapply lock_other.
Qed.

Ltac holder i Hinv Hpc :=
  apply (inv_holder_step i _ _ Hinv); try done;
  [by rewrite Hpc|by intros; cbn; case_decide|..].

(** The worker's part of a step of its own. *)
Ltac worker_step Hinv Hpc :=
  intros ->; pose proof (i_work _ Hinv) as Hw; unfold working in *;
  cbn [s_threads set_lock set_async set_main] in *; rewrite set_thread_eq; rewrite Hpc in Hw;
  cbn in *.

Ltac own_step Hpc Hti :=
  unfold thread_inv, waiting; cbn [s_threads set_lock set_async set_main];
  rewrite set_thread_eq; unfold thread_inv, waiting in Hti; rewrite Hpc in Hti; cbn in *.

Lemma inv_default_loop i s s' : inv s -> run_on_default_loop i s = Some s' -> inv s'.
Proof.
  intros Hinv. pose proof (i_thread _ Hinv i) as Hti. unfold run_on_default_loop.
  destruct (t_pc (s_threads s i)) as [| |c|c|c|c|c|] eqn:Hpc; try done.
  - destruct (s_lock s) eqn:Hlock; [done|]. intros [= <-]. by apply inv_lock.
  - intros [= <-].
    assert (s_lock s = Some i) as Hl by by apply (proj1 Hti); rewrite Hpc.
    destruct (holder_no_call s i Hinv) as [Ha Hmn]; [by rewrite Hpc|by rewrite Hpc|].
    holder i Hinv Hpc.
    + by left.
    + own_step Hpc Hti. naive_solver.
    + cbn. rewrite Ha, Hmn. by intros [].
    + worker_step Hinv Hpc. by destruct (s_running s), c.
  - intros [= <-].
    assert (s_lock s = Some i) as Hl by by apply (proj1 Hti); rewrite Hpc.
    destruct (holder_no_call s i Hinv) as [Ha Hmn]; [by rewrite Hpc|by rewrite Hpc|].
    holder i Hinv Hpc.
    + by left.
    + own_step Hpc Hti. rewrite Hmn in *. destruct (t_sem (s_threads s i)), c; naive_solver.
    + intros _. exists c. cbn. by case_decide.
    + worker_step Hinv Hpc. destruct (s_running s), c; naive_solver.
  - destruct (t_sem (s_threads s i)) eqn:Hsem; [|done]. intros [= <-].
    assert (s_lock s = Some i) as Hl by by apply (proj1 Hti); rewrite Hpc.
    assert (waiting i s) as [_ Hws] by by eapply Hti.
    assert (s_async s = false /\ s_main s = None) as [Ha Hmn] by naive_solver congruence.
    holder i Hinv Hpc.
    + by left.
    + own_step Hpc Hti. rewrite Ha in *. destruct c; naive_solver.
    + cbn. rewrite Ha, Hmn. by intros [].
    + worker_step Hinv Hpc. rewrite Ha in *. destruct (s_running s), c; naive_solver.
  - assert (s_lock s = Some i) as Hl by by apply (proj1 Hti); rewrite Hpc.
    destruct (holder_no_call s i Hinv) as [Ha Hmn]; [by rewrite Hpc|by rewrite Hpc|].
    destruct c as [|o]; intros [= <-]; holder i Hinv Hpc.
    + by right.
    + own_step Hpc Hti. naive_solver.
    + cbn. rewrite Ha, Hmn. by intros [].
    + worker_step Hinv Hpc. destruct (s_running s); naive_solver.
    + by right.
    + own_step Hpc Hti. naive_solver.
    + cbn. rewrite Ha, Hmn. by intros [].
    + worker_step Hinv Hpc. destruct (s_running s); naive_solver.
Qed.

(** A thread outside the critical section moves to a place outside it. *)
Lemma inv_outside_step i t s :
  inv s -> ~ critical (t_pc (s_threads s i)) -> ~ critical (t_pc t) ->
  t_sem t = t_sem (s_threads s i) ->
  (if asked (t_pc t) false then t_cb t = negb (t_js t) else t_cb t = false /\ t_js t = false) ->
  (i <> 0%nat -> kernel_pc (t_pc t)) ->
  (i = 0%nat -> working (set_thread i t s)) -> inv (set_thread i t s).
Proof.
  intros Hinv Hc Hc' Hsem Hask Hk Hw. apply (inv_thread_step i s); try done.
  - intros. by apply set_thread_ne.
  - intros. eapply thread_inv_same; [by apply set_thread_ne|done..|apply Hinv].
  - pose proof (i_thread _ Hinv i) as (Hl & _ & _ & Hs & _). unfold thread_inv, waiting.
    rewrite set_thread_eq. rewrite Hsem.
    split_and!; [cbn; tauto| | | | |done].
    + intros c Hp. rewrite Hp in Hc'. by destruct Hc'.
    + intros c Hp. rewrite Hp in Hc'. by destruct Hc'.
    + intros [c Hp]%Hs. rewrite Hp in Hc. by destruct Hc.
    + destruct (t_pc t) as [| |c|c|c|c|c|]; cbn in *; tauto.
  - intros H. destruct (i_main _ Hinv H) as (j & c & Hj). exists j, c.
    rewrite set_thread_ne; [done|]. intros ->. rewrite Hj in Hc. by destruct Hc.
  - by left.
Qed.

Lemma inv_js_entry i r s s' : inv s -> js_entry i r s = Some s' -> inv s'.
Proof.
  intros Hinv. unfold js_entry. destruct (t_pc (s_threads s i)) eqn:Hpc; try done. intros [= <-].
  apply inv_outside_step; try done; [by rewrite Hpc; intros []|by intros []|].
  worker_step Hinv Hpc. destruct (s_running s); naive_solver.
Qed.

Lemma inv_js_return i s s' : inv s -> js_return i s = Some s' -> inv s'.
Proof.
  intros Hinv. unfold js_return. destruct (t_pc (s_threads s i)) eqn:Hpc; try done.
  destruct (t_js (s_threads s i)) eqn:Hjs; [|done]. intros [= <-].
  pose proof (i_thread _ Hinv i) as (_ & _ & _ & _ & Ha & _). rewrite Hpc, Hjs in Ha. cbn in Ha.
  apply inv_outside_step; try done; [by rewrite Hpc; intros []|by intros []|].
  worker_step Hinv Hpc. destruct (s_running s); naive_solver.
Qed.

Lemma inv_finish s s' : inv s -> do_finish s = Some s' -> inv s'.
Proof.
  intros Hinv. unfold do_finish. destruct (t_pc (s_threads s 0%nat)) eqn:Hpc; try done.
  destruct (t_op (s_threads s 0%nat)) as [o|] eqn:Hop; [|done].
  destruct (existsb _ _); [done|]. intros [= <-].
  pose proof (i_thread _ Hinv 0%nat) as (_ & _ & _ & _ & Ha & _). rewrite Hpc in Ha. cbn in Ha.
  apply inv_outside_step; try done; [by rewrite Hpc; intros []|by intros []|].
  intros _. pose proof (i_work _ Hinv) as Hw. unfold working in *. rewrite set_thread_eq.
  rewrite Hpc, Hop in Hw. cbn in *. rewrite Hop. destruct (s_running s); naive_solver.
Qed.

Lemma inv_worker s s' : inv s -> worker_loop_entry s = Some s' -> inv s'.
Proof.
  intros Hinv. unfold worker_loop_entry. destruct (t_pc (s_threads s 0%nat)) eqn:Hpc; try done.
  destruct (s_wasync s) eqn:Hwa; [|done]. intros [= <-].
  pose proof Hinv as [Hf Ht Hm Hw Ho Hcl].
  pose proof (Ht 0%nat) as (Hl & _ & _ & Hsem & Hask & _).
  rewrite Hpc in Hl, Hsem, Hask. cbn in *. split; cbn; try done.
  - intros j. destruct (decide (j = 0%nat)) as [->|Hne].
    + unfold thread_inv, waiting. cbn. naive_solver.
    + eapply thread_inv_same; [cbn; by case_decide|done..].
  - intros H. destruct (Hm H) as (j & c & Hj). exists j, c. case_decide; [|done]. subst. congruence.
  - unfold working in *. rewrite Hpc, Hwa in Hw. cbn in *.
    destruct (s_running s); naive_solver.
Qed.

Lemma inv_push o s s' : inv s -> addOperation o s = Some s' -> inv s'.
Proof.
  intros [Hf Ht Hm Hw Ho Hcl] [= <-]. split; try done. cbn. by rewrite <- Ho, <- !(assoc_L (++)).
Qed.

Lemma inv_start s s' : inv s -> run_on_worker_loop s = Some s' -> inv s'.
Proof.
  intros [Hf Ht Hm Hw Ho Hcl]. unfold run_on_worker_loop, working in *.
  destruct (s_running s) eqn:Hr, (s_queue s) as [|o q] eqn:Hq, (s_stuck s) eqn:Hst; try done.
  unfold calls_ok in Hcl. rewrite Hst in Hcl. intros [= <-]. destruct (throws o) eqn:Hth.
  - split; try done; [|unfold calls_ok; cbn; by rewrite Hst]. unfold working. cbn. naive_solver.
  - split; try done; [|unfold calls_ok; cbn; by rewrite Hst]. unfold working. cbn. naive_solver.
Qed.

Lemma inv_done i s s' : inv s -> request_done i s = Some s' -> inv s'.
Proof.
  intros Hinv. unfold request_done. destruct (t_cb (s_threads s i)) eqn:Hcb; [|done].
  destruct (match request_of _ with Some _ => _ | _ => _ end); [|done]. intros [= <-].
  pose proof (i_thread _ Hinv i) as (Hl & Hwt & Hs & Hsem & Ha & Hk).
  apply (inv_thread_step i s); try done.
  - intros. by apply set_thread_ne.
  - intros. eapply thread_inv_same; [by apply set_thread_ne|done..|apply Hinv].
  - unfold thread_inv, waiting in *. rewrite set_thread_eq. rewrite Hcb in Ha. cbn in *.
    destruct (asked _ _); naive_solver.
  - intros H. destruct (i_main _ Hinv H) as (j & c & Hj). exists j, c. cbn. case_decide; by subst.
  - by left.
  - intros ->. pose proof (i_work _ Hinv) as Hw. unfold working in *. by rewrite set_thread_eq.
Qed.

(** The call the main loop finds is that of the one waiting thread. *)
Lemma frame_waiting s :
  inv s -> s_async s = true -> exists i c, t_pc (s_threads s i) = PWait c /\ waiting i s /\
    frame s = Some (i, c).
Proof.
  intros Hinv Ha. destruct (i_main _ Hinv) as (i & c & Hpc); [by left|].
  pose proof (i_thread _ Hinv i) as (_ & Hw & _). pose proof (Hw _ Hpc) as [Hd ?].
  exists i, c. split_and!; [done|by split|]. unfold frame. by rewrite Hd, Hpc.
Qed.

Lemma inv_entry_req i r s :
  inv s -> s_async s = true -> t_pc (s_threads s i) = PWait (CReq r) -> waiting i s ->
  inv (set_main (Some i) (run_call i (CReq r) (set_async (s_data s) false s))).
Proof.
  intros Hinv Ha Hpc [Hd Hws]. pose proof (i_thread _ Hinv i) as Hti.
  assert (s_lock s = Some i) as Hl by by apply (proj1 Hti); rewrite Hpc.
  holder i Hinv Hpc.
  - by left.
  - destruct Hti as (Hlk & _ & _ & Hsem & Hask & Hk). rewrite Hpc, Ha in *. cbn in Hask.
    destruct Hask as [_ Hjs]. unfold thread_inv, waiting. cbn. rewrite decide_True by done. cbn.
    rewrite Hpc, Hjs. cbn. split_and!; try done.
    intros _ _. split; [done|]. right. left. naive_solver.
  - intros _. exists (CReq r). cbn. by case_decide.
  - intros ->. pose proof (i_work _ Hinv) as Hw. unfold working in *. cbn in *. rewrite Hpc in *.
    cbn in *. destruct (s_running s); naive_solver.
Qed.

Lemma inv_entry_done i o s :
  inv s -> s_async s = true -> t_pc (s_threads s i) = PWait (CDone o) -> waiting i s ->
  inv (set_main (Some i) (run_call i (CDone o) (set_async (s_data s) false s))).
Proof.
  intros Hinv Ha Hpc [Hd Hws]. pose proof Hinv as [Hf Ht Hm Hw Ho Hcl].
  assert (critical (t_pc (s_threads s i))) as Hcrit by by rewrite Hpc.
  assert (i = 0%nat) as ->.
  { destruct (decide (i = 0%nat)) as [|Hne]; [done|].
    destruct (Ht i) as (_ & _ & _ & _ & _ & Hk). apply Hk in Hne. by rewrite Hpc in Hne. }
  unfold working in Hw. rewrite Hpc, Ha in Hw. cbn in Hw.
  destruct (s_running s) as [o'|] eqn:Hr; [|naive_solver].
  destruct Hw as [(Hth & [(_ & _ & ?)|(Hwa & Hop & <- & _)])|(_ & _ & ?)]; [done| |done].
  split; cbn; try done.
  - intros j. destruct (decide (j = 0%nat)) as [->|Hne].
    + pose proof (Ht 0%nat) as Hti. unfold thread_inv, waiting in *. cbn. rewrite Hpc, Ha in *.
      cbn in *. naive_solver.
    + destruct (lock_other s 0 j Hinv Hcrit Hne) as [Hc Hl].
      by apply (thread_inv_other j s).
  - intros _. by exists 0%nat, (CDone o).
  - unfold working. cbn. rewrite Hpc. done.
  - rewrite <- Ho. by rewrite <- (assoc_L (++)).
  - destruct Hcl as [Hc1 Hc2]. rewrite Hr in Hc2. unfold calls_ok. cbn.
    assert (Forall (fun o => cb_throws o = false) (s_log s)) as Hc3 by (destruct (s_stuck s); [by destruct Hc2|done]).
    split; [apply Forall_app; split; [done|by constructor]|].
    destruct (cb_throws o) eqn:Hcb; [split; [done|]; by exists (s_log s), o|].
    apply Forall_app. split; [done|by constructor].
Qed.

Lemma inv_entry s s' : inv s -> default_loop_entry s = Some s' -> inv s'.
Proof.
  intros Hinv. unfold default_loop_entry. destruct (s_main s) eqn:Hm; [done|].
  destruct (s_async s) eqn:Ha; [|done].
  destruct (frame_waiting s Hinv Ha) as (i & c & Hpc & Hw & ->). intros [= <-].
  destruct c as [r|o]; [by apply (inv_entry_req _ r)|by apply inv_entry_done].
Qed.

Lemma inv_post s s' : inv s -> default_loop_post s = Some s' -> inv s'.
Proof.
  intros Hinv. unfold default_loop_post. destruct (s_main s) as [i|] eqn:Hmn; [|done].
  destruct (i_main _ Hinv) as (j & c & Hpc); [by right; rewrite Hmn|].
  pose proof (i_thread _ Hinv j) as Hti. assert (waiting j s) as [Hd Hws] by by eapply Hti.
  assert (j = i /\ s_async s = false) as [-> Ha] by (rewrite Hmn in Hws; naive_solver).
  rewrite Hpc. intros [= <-].
  assert (s_lock s = Some i) as Hl by by apply (proj1 Hti); rewrite Hpc.
  holder i Hinv Hpc.
  - by left.
  - own_step Hpc Hti. rewrite Ha in *. cbn in *. naive_solver.
  - intros _. exists c. cbn. by case_decide.
  - worker_step Hinv Hpc. done.
Qed.

Lemma inv_step s s' : inv s -> step s s' -> inv s'.
Proof.
  intros Hinv [i H|i r H|i H|H|H|H|H|i H|o H|H].
  - by eapply inv_default_loop.
  - by eapply inv_js_entry.
  - by eapply inv_js_return.
  - by eapply inv_worker.
  - by eapply inv_finish.
  - by eapply inv_entry.
  - by eapply inv_post.
  - by eapply inv_done.
  - by eapply inv_push.
  - by eapply inv_start.
Qed.

Lemma addon_inv_reachable s : rtc step init s -> inv s.
Proof.
  intros H. remember init as s0 eqn:E. assert (inv s0) as H0 by (subst; apply inv_init).
  clear E. induction H; eauto using inv_step.
Qed.

(** ** Progress *)

Definition holder_rank (s : state) : nat :=
  match s_lock s with
  | None => 0
  | Some i =>
      match t_pc (s_threads s i) with
      | PSet _ => 6
      | PSend _ => 5
      | PWait _ => if s_async s then 4 else match s_main s with Some _ => 3 | None => 2 end
      | _ => 1
      end
  end.

(** How far the worker is from the callback of the next operation. *)
Definition worker_rank (s : state) : nat :=
  let t := s_threads s 0%nat in
  let back := match s_running s with None => 9%nat | Some _ => 8%nat end in
  match t_pc t with
  | PIdle | PUnlock (CDone _) => back
  | PWait (CDone _) => if s_async s then 1 else back
  | PLock (CReq _) => 7
  | PSet (CReq _) | PSend (CReq _) | PWait (CReq _) | PUnlock (CReq _) => 6
  | PJs _ => if t_js t then 4 else 5
  | PDo => 3
  | PLock (CDone _) => 2
  | PSet (CDone _) | PSend (CDone _) => 1
  end.

(** How far a thread is from the end of its request, and how far the threads are
    that the operation at hand waits for. *)
Definition request_rank (t : thread) : nat :=
  match t_pc t with
  | PIdle | PDo => 0
  | PJs _ => if t_js t then 1 else 2
  | PLock _ => 4
  | _ => 3
  end.

Definition settle_rank (s : state) : nat :=
  match t_pc (s_threads s 0%nat), t_op (s_threads s 0%nat) with
  | PDo, Some o => list_sum (map (fun i => request_rank (s_threads s i)) (waits_for o))
  | _, _ => 0
  end.

Definition lower (s s' : state) : Prop :=
  (worker_rank s' < worker_rank s \/
   worker_rank s' = worker_rank s /\
     (settle_rank s' < settle_rank s \/
      settle_rank s' = settle_rank s /\ holder_rank s' < holder_rank s))%nat.

(** An operation was reported, or the system is closer to it; no new operation,
    no new request. *)
Definition closer (s s' : state) : Prop :=
  s_pushed s' = s_pushed s /\
  (forall i r, request_of (t_pc (s_threads s' i)) = Some r -> request_of (t_pc (s_threads s i)) = Some r) /\
  ((length (s_log s) < length (s_log s'))%nat \/ s_log s' = s_log s /\ lower s s').

(** Nothing pushed throws, and the disks answer the requests under way. *)
Definition healthy (s : state) : Prop :=
  Forall (fun o => throws o = false /\ cb_throws o = false) (s_pushed s) /\
  forall i r, request_of (t_pc (s_threads s i)) = Some r -> answered r = true.

Lemma closer_healthy s s' : closer s s' -> healthy s -> healthy s'.
Proof. intros (Hp & Hr & _) [H1 H2]. split; [by rewrite Hp|]. intros i r Hi. by apply (H2 i), Hr. Qed.

Lemma healthy_running s : inv s -> healthy s -> s_stuck s = false /\
  match s_running s with Some o => throws o = false | None => True end.
Proof.
  intros [_ _ _ _ Ho [_ Hc]] [Hh _]. rewrite <- Ho in Hh. apply Forall_app in Hh as [H1 H2].
  apply Forall_app in H2 as [H2 _]. split.
  - destruct (s_stuck s); [|done]. destruct Hc as (_ & l & o & E & Hcb & _). rewrite E in H1.
    apply Forall_app in H1 as [_ H1]. inversion_clear H1. naive_solver congruence.
  - destruct (s_running s); [|done]. inversion_clear H2. naive_solver.
Qed.

Lemma worker_rank_other s s' :
  s_threads s' 0%nat = s_threads s 0%nat -> s_running s' = s_running s ->
  ~ critical (t_pc (s_threads s 0%nat)) -> worker_rank s' = worker_rank s.
Proof.
  unfold worker_rank. intros -> -> Hc.
  destruct (t_pc (s_threads s 0%nat)) as [| |c|c|c|c|c|]; cbn in *; tauto.
Qed.

Lemma sum_le (f g : nat -> nat) l : (forall i, f i <= g i)%nat -> (list_sum (map f l) <= list_sum (map g l))%nat.
Proof. intros H. induction l as [|i l IH]; simpl; [lia|]. specialize (H i). lia. Qed.

Lemma sum_lt (f g : nat -> nat) l i :
  (forall i, f i <= g i)%nat -> i ∈ l -> (f i < g i)%nat -> (list_sum (map f l) < list_sum (map g l))%nat.
Proof.
  intros H Hi Hlt. induction l as [|j l IH]; [by apply elem_of_nil in Hi|]. simpl.
  pose proof (sum_le f g l H). pose proof (H j). apply elem_of_cons in Hi as [->|Hi]; [lia|].
  specialize (IH Hi). lia.
Qed.

Lemma settle_le s s' :
  (forall j, request_rank (s_threads s' j) <= request_rank (s_threads s j))%nat ->
  (t_pc (s_threads s' 0%nat) = PDo ->
     t_pc (s_threads s 0%nat) = PDo /\ t_op (s_threads s' 0%nat) = t_op (s_threads s 0%nat)) ->
  (settle_rank s' <= settle_rank s)%nat.
Proof.
  intros Hr Hd. unfold settle_rank. destruct (t_pc (s_threads s' 0%nat)) eqn:Hpc; try lia.
  destruct (Hd eq_refl) as [-> ->]. destruct (t_op (s_threads s 0%nat)); [by apply sum_le|done].
Qed.

(** A step that keeps the log: the ranks decide. *)
Lemma closer_rank s s' :
  s_pushed s' = s_pushed s -> s_log s' = s_log s ->
  (forall i r, request_of (t_pc (s_threads s' i)) = Some r -> request_of (t_pc (s_threads s i)) = Some r) ->
  (worker_rank s' <= worker_rank s)%nat -> (settle_rank s' <= settle_rank s)%nat ->
  (holder_rank s' < holder_rank s)%nat -> closer s s'.
Proof. intros ??? Hw Hs Hh. split_and!; [done|done|]. right. split; [done|]. unfold lower. lia. Qed.

(** A step of the holder [i], seen from the worker. *)
Lemma holder_worker_rank s s' i :
  inv s -> critical (t_pc (s_threads s i)) ->
  (forall j, j <> i -> s_threads s' j = s_threads s j) -> s_running s' = s_running s ->
  (i = 0%nat -> (worker_rank s' <= worker_rank s)%nat) ->
  (worker_rank s' <= worker_rank s)%nat.
Proof.
  intros Hinv Hc Hts Hr Hi. destruct (decide (i = 0%nat)) as [|Hne]; [auto|].
  rewrite (worker_rank_other s s'); auto.
  by destruct (lock_other s i 0 Hinv Hc) as [? _]; auto.
Qed.

(** A step of thread [i] in the middle of a request. *)
Lemma holder_requests s s' i :
  (forall j, j <> i -> s_threads s' j = s_threads s j) ->
  (forall r, request_of (t_pc (s_threads s' i)) = Some r -> request_of (t_pc (s_threads s i)) = Some r) ->
  forall j r, request_of (t_pc (s_threads s' j)) = Some r -> request_of (t_pc (s_threads s j)) = Some r.
Proof. intros Hts Hi j r. destruct (decide (j = i)) as [->|]; [auto|by rewrite Hts]. Qed.

Lemma holder_settle s s' i :
  (forall j, j <> i -> s_threads s' j = s_threads s j) ->
  (request_rank (s_threads s' i) <= request_rank (s_threads s i))%nat ->
  t_pc (s_threads s' i) <> PDo -> (settle_rank s' <= settle_rank s)%nat.
Proof.
  intros Hts Hi Hd. apply settle_le.
  - intros j. destruct (decide (j = i)) as [->|]; [done|]. by rewrite Hts.
  - intros H. destruct (decide (i = 0%nat)) as [->|Hne]; [done|]. rewrite Hts in * by done. done.
Qed.

Ltac moves Hinv Hpc Hl i :=
  apply closer_rank; [done|done|
    apply (holder_requests _ _ i); [by intros; cbn; case_decide|
      intros ?; cbn; rewrite ?decide_True by done; rewrite ?Hpc; by try case_match]|
    eapply holder_worker_rank; [exact Hinv|by rewrite Hpc|by intros; cbn; case_decide|done|
      intros ->; unfold worker_rank; cbn; rewrite Hpc; cbn]|
    apply (holder_settle _ _ i); [by intros; cbn; case_decide|
      unfold request_rank; cbn; rewrite ?decide_True by done; cbn; rewrite ?Hpc; cbn; try case_match; lia|
      cbn; rewrite ?decide_True by done; cbn; by rewrite ?Hpc]|
    unfold holder_rank; cbn; rewrite ?Hl, ?Hpc; cbn; rewrite ?decide_True by done; cbn].

(** The holder of the lock can always move, or the main loop moves for it. *)
Lemma holder_moves s i :
  inv s -> s_lock s = Some i -> exists s', step s s' /\ closer s s'.
Proof.
  intros Hinv Hl. pose proof (i_thread _ Hinv i) as Hti.
  assert (critical (t_pc (s_threads s i))) as Hc by by apply (proj1 Hti).
  destruct (t_pc (s_threads s i)) as [| |c|c|c|c|c|] eqn:Hpc; try done.
  - eexists. split; [apply (step_default _ _ i); unfold run_on_default_loop; by rewrite Hpc|].
    moves Hinv Hpc Hl i; [by destruct c|lia].
  - eexists. split; [apply (step_default _ _ i); unfold run_on_default_loop; by rewrite Hpc|].
    moves Hinv Hpc Hl i; [by destruct c|lia].
  - assert (waiting i s) as [Hd [(Ha & Hm & Hs)|[(Ha & Hm & Hs)|(Ha & Hm & Hs)]]]
      by by eapply Hti.
    + destruct c as [r|o]; (eexists; split;
        [apply step_entry; unfold default_loop_entry, frame; by rewrite Hm, Ha, Hd, Hpc|]).
      * moves Hinv Hpc Hl i; [done|]. rewrite ?Ha, ?Hpc; cbn; lia.
      * split_and!; [done|done|left]. cbn. rewrite length_app. cbn. lia.
    + eexists. split; [apply step_post; unfold default_loop_post; by rewrite Hm, Hpc|].
      moves Hinv Hpc Hl i; [by destruct c|]. rewrite Ha, Hm. lia.
    + eexists. split; [apply (step_default _ _ i); unfold run_on_default_loop; by rewrite Hpc, Hs|].
      moves Hinv Hpc Hl i; [rewrite Ha; by destruct c|]. rewrite Ha, Hm. lia.
  - destruct c as [r|o]; (eexists; split;
      [apply (step_default _ _ i); unfold run_on_default_loop; by rewrite Hpc|]);
      (moves Hinv Hpc Hl i; [|lia]).
    + rewrite decide_True by done. cbn. case_match; lia.
    + rewrite decide_True by done. done.
Qed.

Ltac ranks :=
  unfold worker_rank; cbn; rewrite ?decide_True by done; cbn.

(** A thread that is waiting for the lock or for JavaScript can move, and its
    request comes nearer to its end. *)
Lemma requester_moves s i :
  inv s -> healthy s -> s_lock s = None -> i <> 0%nat -> requesting (s_threads s i) = true ->
  exists s', step s s' /\ s_pushed s' = s_pushed s /\ s_log s' = s_log s /\ s_running s' = s_running s /\
    (forall j, j <> i -> s_threads s' j = s_threads s j) /\
    (forall r, request_of (t_pc (s_threads s' i)) = Some r -> request_of (t_pc (s_threads s i)) = Some r) /\
    (request_rank (s_threads s' i) < request_rank (s_threads s i))%nat.
Proof.
  intros Hinv [_ Hans] Hl Hne Hr. pose proof (i_thread _ Hinv i) as (Hl0 & _ & _ & _ & Ha & Hk).
  specialize (Hk Hne). unfold requesting in Hr. rewrite Hl in Hl0.
  destruct (t_pc (s_threads s i)) as [| |c|c|c|c|c|r] eqn:Hpc; cbn in Ha, Hk; try done;
    try (pose proof (proj2 Hl0 I); congruence).
  - eexists. split; [apply (step_default _ _ i); unfold run_on_default_loop; by rewrite Hpc, Hl|].
    unfold request_rank. cbn. rewrite ?decide_True by done. rewrite Hpc. cbn.
    split_and!; [done..|by intros; case_decide|done|lia].
  - destruct (t_js (s_threads s i)) eqn:Hjs.
    + eexists. split; [apply (step_js_return _ _ i); unfold js_return; rewrite Hpc; cbn; by rewrite Hjs|].
      unfold request_rank. cbn. rewrite ?decide_True by done. rewrite Hpc. cbn. rewrite ?Hjs. cbn.
      split_and!; [done..|by intros; case_decide|done|lia].
    + eexists. split; [apply (step_done _ _ i); unfold request_done; rewrite Ha, Hpc; cbn|].
      { by rewrite (Hans i r) by (by rewrite Hpc). }
      unfold request_rank. cbn. rewrite ?decide_True by done. cbn. rewrite Hpc. cbn. rewrite ?Hjs. cbn.
      split_and!; [done..|by intros; case_decide|done|lia].
Qed.

(** With the lock free it is the turn of the worker, of the queue, or of a thread
    that the worker waits for. *)
Lemma worker_moves s :
  inv s -> healthy s -> s_lock s = None -> s_log s <> s_pushed s -> exists s', step s s' /\ closer s s'.
Proof.
  intros Hinv Hh Hl Hne. pose proof Hinv as [_ Ht _ Hw Ho _]. pose proof (Ht 0%nat) as (Hl0 & _ & _ & _ & Ha & _).
  destruct (healthy_running s Hinv Hh) as [Hst Hrun].
  assert (forall s' : state, s_pushed s' = s_pushed s -> s_log s' = s_log s ->
    (forall j, j <> 0%nat -> s_threads s' j = s_threads s j) ->
    (forall r, request_of (t_pc (s_threads s' 0%nat)) = Some r -> request_of (t_pc (s_threads s 0%nat)) = Some r) ->
    (worker_rank s' < worker_rank s)%nat -> closer s s') as Hcl.
  { intros s' ?? Hts Hr Hw'. split_and!; [done|by eapply holder_requests|]. right. split; [done|]. by left. }
  unfold working in Hw. unfold worker_rank at 2 in Hcl. rewrite Hl in Hl0.
  destruct (t_pc (s_threads s 0%nat)) as [| |c|c|c|c|c|r] eqn:Hpc; cbn in Ha, Hw;
    try (pose proof (proj2 Hl0 I); congruence).
  - destruct (s_running s) as [o|] eqn:Hr.
    + destruct Hw as [(_ & [(Hwa & _)|(_ & _ & [])])|(? & _)]; [|congruence]. eexists.
      split; [apply step_worker; unfold worker_loop_entry; by rewrite Hpc, Hwa|].
      apply Hcl; [done..|by intros; cbn; case_decide|done|]. ranks. lia.
    + destruct (s_queue s) as [|o q] eqn:Hq; [cbn in Ho; rewrite app_nil_r in Ho; congruence|].
      assert (throws o = false) as Hth.
      { destruct Hh as [Hh _]. rewrite <- Ho in Hh. apply Forall_app in Hh as [_ Hh]. cbn in Hh.
        inversion_clear Hh. naive_solver. }
      eexists. split; [apply step_start; unfold run_on_worker_loop; by rewrite Hr, Hq, Hst, Hth|].
      apply Hcl; [done..|cbn; by rewrite Hpc|]. ranks. rewrite ?Hpc. cbn. lia.
  - destruct (s_running s) as [o|] eqn:Hr; [|naive_solver].
    destruct Hw as [(_ & [(_ & _ & [])|(_ & Hop & _)])|(? & _)]; [|congruence].
    destruct (existsb (fun i => requesting (s_threads s i)) (waits_for o)) eqn:Hex.
    + apply existsb_exists in Hex as (i & Hi%list_elem_of_In & Hreq).
      assert (i <> 0%nat) as Hi0 by (intros ->; unfold requesting in Hreq; by rewrite Hpc in Hreq).
      destruct (requester_moves s i Hinv Hh Hl Hi0 Hreq) as (s' & Hs & Hp & Hlog & Hr' & Hts & Hrq & Hrk).
      exists s'. split; [done|]. split_and!; [done|by eapply holder_requests|]. right. split; [done|]. right.
      assert (s_threads s' 0%nat = s_threads s 0%nat) as E0 by (apply Hts; done).
      split; [unfold worker_rank; by rewrite E0, Hpc|]. left. unfold settle_rank. rewrite E0, Hpc, Hop.
      apply (sum_lt _ _ _ i); [|done|done].
      intros j. destruct (decide (j = i)) as [->|]; [lia|by rewrite Hts].
    + eexists. split; [apply step_finish; unfold do_finish; by rewrite Hpc, Hop, Hex|].
      apply Hcl; [done..|by intros; cbn; case_decide|done|]. ranks. lia.
  - eexists. split; [apply (step_default _ _ 0%nat); unfold run_on_default_loop; by rewrite Hpc, Hl|].
    apply Hcl; [done..|by intros; cbn; case_decide|done|]. ranks. destruct c; lia.
  - destruct (t_js (s_threads s 0%nat)) eqn:Hjs.
    + eexists. split; [apply (step_js_return _ _ 0%nat); unfold js_return; rewrite Hpc; cbn; by rewrite Hjs|].
      apply Hcl; [done..|by intros; cbn; case_decide|done|]. ranks. lia.
    + eexists. split; [apply (step_done _ _ 0%nat); unfold request_done; rewrite Ha, Hpc; cbn|].
      { by rewrite (proj2 Hh 0%nat r) by (by rewrite Hpc). }
      apply Hcl; [done..|by intros; cbn; case_decide|cbn; rewrite ?decide_True by done; cbn; by rewrite ?Hpc|]. ranks. rewrite ?Hpc. cbn. lia.
Qed.

Lemma progress s :
  inv s -> healthy s -> s_log s <> s_pushed s -> exists s', step s s' /\ closer s s'.
Proof.
  intros Hinv Hh Hne. destruct (s_lock s) as [i|] eqn:Hl; [by eapply holder_moves|by apply worker_moves].
Qed.

Lemma log_prefix s : inv s -> (length (s_log s) <= length (s_pushed s))%nat.
Proof. intros [_ _ _ _ Ho _]. rewrite <- Ho, length_app. lia. Qed.

(** The steps towards the callbacks cannot go on for ever. *)
Lemma closer_wf : well_founded (fun s' s => inv s' /\ closer s s').
Proof.
  intros s. remember (length (s_pushed s) - length (s_log s))%nat as n eqn:Hn. revert s Hn.
  induction n as [n IHn] using lt_wf_ind.
  intros s. remember (worker_rank s) as a eqn:Ha. revert s Ha. induction a as [a IHa] using lt_wf_ind.
  intros s. remember (settle_rank s) as b eqn:Hb. revert s Hb. induction b as [b IHb] using lt_wf_ind.
  intros s. remember (holder_rank s) as h eqn:Hh. revert s Hh. induction h as [h IHh] using lt_wf_ind.
  intros s -> -> -> ->. constructor. intros s' (Hinv & Hp & _ & Hc).
  pose proof (log_prefix s' Hinv) as Hle. rewrite Hp in Hle.
  destruct Hc as [Hlt|[Hlog [Hlt|[E [Hlt|[E2 Hlt]]]]]].
  - eapply IHn; [|reflexivity]. rewrite Hp. lia.
  - eapply IHa; [exact Hlt|done|by rewrite Hp, Hlog].
  - eapply IHb; [exact Hlt|done|done|by rewrite Hp, Hlog].
  - eapply IHh; [exact Hlt|done|done|done|by rewrite Hp, Hlog].
Qed.

Lemma drains s :
  inv s -> healthy s -> exists s', rtc step s s' /\ s_pushed s' = s_pushed s /\ s_log s' = s_pushed s.
Proof.
  induction (closer_wf s) as [s _ IH]. intros Hinv Hh.
  destruct (decide (s_log s = s_pushed s)) as [E|Hne]; [by exists s|].
  destruct (progress s Hinv Hh Hne) as (s1 & Hstep & Hc).
  pose proof (inv_step _ _ Hinv Hstep) as Hinv1.
  destruct (IH s1) as (s' & Hs & Hp' & Hl'); [by split|done|by eapply closer_healthy|].
  destruct Hc as [Hp _]. exists s'. split_and!; [by eapply rtc_l|congruence|congruence].
Qed.

(** After an operation that throws the queue is stuck. *)
Lemma log_stops s l1 o l2 :
  inv s -> s_pushed s = l1 ++ o :: l2 ->
  (throws o = true -> s_log s `prefix_of` l1) /\
  (cb_throws o = true -> s_log s `prefix_of` l1 ++ [o]).
Proof.
  intros [_ _ _ _ Ho [Hc1 Hc2]] Hp. rewrite Hp in Ho.
  assert (s_log s `prefix_of` l1 \/ exists k, s_log s = l1 ++ o :: k) as [H|[k Hk]].
  { generalize dependent (option_list (s_running s) ++ s_queue s). intros m Ho.
    apply app_eq_app in Ho as (k & [[-> E]|[E1 E2]]); [|by left; exists k].
    destruct k as [|x k]; simplify_eq/=; [left; exists []; by rewrite !app_nil_r|right; eauto]. }
  - split; [done|]. intros _. by apply prefix_app_r.
  - rewrite Hk in Hc1. apply Forall_app in Hc1 as [_ Hc1]. inversion_clear Hc1.
    split; [congruence|]. intros Hcb. destruct (s_stuck s).
    + destruct Hc2 as (_ & l & o' & E & _ & Hl). rewrite Hk in E. destruct k as [|x k] using rev_ind; [by rewrite Hk|].
      exfalso. rewrite app_comm_cons, (assoc_L (++)) in E. apply app_inj_tail in E as [<- _].
      apply Forall_app in Hl as [_ Hl]. inversion_clear Hl. congruence.
    + rewrite Hk in Hc2. apply Forall_app in Hc2 as [_ Hc2]. inversion_clear Hc2. congruence.
Qed.

(** ** Properties *)

(** C10: However the threads interleave, the main loop never touches a
    call_info whose frame is gone; the callbacks called so far, the operation
    being run and the waiting ones are, in this order, the operations pushed, so
    that none is lost, repeated or overtaken; an operation is put in the
    worker's slot only after the previous one has been taken from it; and a call
    is sent to the main loop only when no other is under way, so that sends
    never coalesce. *)
Theorem addon_one_at_a_time s :
  rtc step init s ->
  s_fault s = false /\
  s_log s ++ option_list (s_running s) ++ s_queue s = s_pushed s /\
  (forall s', run_on_worker_loop s = Some s' -> s_wasync s = false) /\
  (forall i c, t_pc (s_threads s i) = PSend c -> s_async s = false /\ s_main s = None).
Proof.
  intros Hinv%addon_inv_reachable. split_and!; [apply Hinv|apply Hinv| |].
  - intros s'. pose proof (i_work _ Hinv) as Hw. unfold run_on_worker_loop, working in *.
    by destruct (s_running s); [|destruct Hw].
  - intros i c Hpc. apply (holder_no_call s i Hinv); by rewrite Hpc.
Qed.

(** C11: From every reachable state in which no pushed operation throws and the
    disks answer the requests under way, the threads can go on, without any new
    operation or request, until the callback of every operation pushed has been
    called, in the order of the pushes: nothing deadlocks, whatever requests the
    worker and the kernel's threads are in the middle of and whichever of these
    threads an operation waits for.  When the method of an operation throws,
    neither its callback nor that of a later operation is ever called; when its
    callback throws, no later one is. *)
Theorem addon_callbacks_arrive s :
  rtc step init s ->
  (healthy s ->
   exists s', rtc step s s' /\ s_pushed s' = s_pushed s /\ s_log s' = s_pushed s) /\
  (forall l1 o l2, s_pushed s = l1 ++ o :: l2 ->
     (throws o = true -> s_log s `prefix_of` l1) /\
     (cb_throws o = true -> s_log s `prefix_of` l1 ++ [o])).
Proof.
  intros Hinv%addon_inv_reachable. split; [by apply drains|]. intros l1 o l2. by apply log_stops.
Qed.

End Parameters.

(** *** Witnesses *)

(** Nothing throws, every request is answered, every operation waits for
    threads 1 and 2. *)
Abbreviation demo_step := (step (fun _ => false) (fun _ => false) (fun _ => true) (fun _ => [1%nat; 2%nat])).

Fixpoint follow (l : list (state -> option state)) (s : state) : state :=
  match l with
  | [] => s
  | f :: l => match f s with Some s' => follow l s' | None => s end
  end.

Lemma follow_reachable l s :
  Forall (fun f => forall s s', f s = Some s' -> demo_step s s') l -> rtc demo_step s (follow l s).
Proof.
  intros Hl. revert s. induction Hl as [|f l Hf _ IH]; intros s; simpl; [done|].
  destruct (f s) as [s'|] eqn:E; [|done]. eapply rtc_l; [by apply Hf|done].
Qed.

(** Operation 7 has been pushed, started and taken by the worker, and thread
    1 of the kernel is about to send a request. *)
Definition script : list (state -> option state) :=
  [addOperation 7; run_on_worker_loop (fun _ => false); worker_loop_entry; js_entry 1 3;
   run_on_default_loop 1; run_on_default_loop 1].

Definition demo_state : state := follow script init.

Lemma demo_reachable : rtc demo_step init demo_state.
Proof.
  apply follow_reachable. unfold script.
  repeat (apply list.Forall_cons; split; [intros s s' H; eauto using step|]). by apply list.Forall_nil.
Qed.

(** The parts of the state the witnesses look at. *)
Lemma demo_running : s_running demo_state = Some 7%nat /\ s_pushed demo_state = [7%nat].
Proof. split; vm_compute; reflexivity. Qed.

Lemma demo_sending : t_pc (s_threads demo_state 1%nat) = PSend (CReq 3).
Proof. vm_compute. reflexivity. Qed.

Lemma addon_one_at_a_time_witness :
  s_running demo_state = Some 7%nat /\ s_fault demo_state = false /\ s_async demo_state = false.
Proof.
  destruct (addon_one_at_a_time _ _ _ _ demo_state demo_reachable) as (Hf & _ & _ & Hs).
  split; [exact (proj1 demo_running)|]. split; [exact Hf|].
  exact (proj1 (Hs 1%nat (CReq 3) demo_sending)).
Defined.

Lemma addon_callbacks_arrive_witness :
  exists s', rtc demo_step demo_state s' /\ s_log s' = [7%nat].
Proof.
  destruct (addon_callbacks_arrive _ _ _ _ demo_state demo_reachable) as [H _].
  destruct H as (s' & Hs & _ & Hl); [split; [|reflexivity]|].
  { rewrite (proj2 demo_running). constructor; [split; reflexivity|constructor]. }
  exists s'. split; [exact Hs|]. rewrite Hl. exact (proj2 demo_running).
Defined.
