(* ===== verification/Cmdline.v ===== *)
(** * Cmdline

    The kernel's side of the devices on the command line: the integer parsers
    (lib/kstrtox.c, lib/vsprintf.c, lib/cmdline.c), vsscanf, the splitting of
    the command line into parameters (kernel/params.c) and vm_cmdline_set
    (drivers/virtio/virtio_mmio.c). A C string is the list of its bytes before
    the NUL, and a pointer into it is a suffix. *)

From Stdlib Require Import Strings.String.
From S2P Require Import Prelude Irq Iomem Virtio DiskDev.

(** ** Characters (include/linux/ctype.h, lib/ctype.c) *)

(** The byte at a pointer; NUL at the end. *)
Definition chr (s : list Z) : Z := hd 0 s.

Definition isspace (c : Z) : bool := ((9 <=? c) && (c <=? 13)) || (c =? 32) || (c =? 160).

Definition isdigit (c : Z) : bool := (48 <=? c) && (c <=? 57).

Definition isxdigit (c : Z) : bool :=
  isdigit c || ((65 <=? c) && (c <=? 70)) || ((97 <=? c) && (c <=? 102)).

(** [_tolower]. *)
Definition tolower (c : Z) : Z := Z.lor c 32.

Fixpoint skip_spaces (s : list Z) : list Z :=
  match s with
  | c :: s' => if isspace c then skip_spaces s' else s
  | [] => []
  end.

(** ** Integers *)

(** [_parse_integer_fixup_radix]. *)
Definition parse_integer_fixup_radix (s : list Z) (base : Z) : list Z * Z :=
  let base :=
    if base =? 0 then
      if chr s =? 48 then
        if (tolower (chr (tail s)) =? 120) && isxdigit (chr (tail (tail s))) then 16 else 8
      else 10
    else base in
  if (base =? 16) && (chr s =? 48) && (tolower (chr (tail s)) =? 120)
  then (tail (tail s), base) else (s, base).

(** The value of a digit character, for bases up to 16. *)
Definition digit_val (c : Z) : option Z :=
  if isdigit c then Some (c - 48)
  else if (97 <=? tolower c) && (tolower c <=? 102) then Some (tolower c - 97 + 10)
  else None.

(** [_parse_integer]: the value, the number of characters, the overflow bit. *)
Fixpoint parse_integer_loop (s : list Z) (base res rv : Z) (overflow : bool) : Z * Z * bool :=
  match s with
  | [] => (res, rv, overflow)
  | c :: s' =>
      match digit_val c with
      | None => (res, rv, overflow)
      | Some val =>
          if base <=? val then (res, rv, overflow)
          else
            let overflow := overflow ||
              (negb (Z.shiftr res 60 =? 0) && ((2 ^ 64 - 1 - val) / base <? res)) in
            parse_integer_loop s' base (u64 (res * base + val)) (rv + 1) overflow
      end
  end.

Definition parse_integer (s : list Z) (base : Z) : Z * Z * bool :=
  parse_integer_loop s base 0 0 false.

(** The value and the rest of the string. *)
Definition simple_strtoull (cp : list Z) (base : Z) : Z * list Z :=
  let (cp, base) := parse_integer_fixup_radix cp base in
  let '(result, rv, _) := parse_integer cp base in
  (result, drop (Z.to_nat rv) cp).

(** unsigned long has 64 bits. *)
Definition simple_strtoul (cp : list Z) (base : Z) : Z * list Z := simple_strtoull cp base.

Definition simple_strtoll (cp : list Z) (base : Z) : Z * list Z :=
  if chr cp =? 45 then
    let (r, rest) := simple_strtoull (tail cp) base in (s64 (- r), rest)
  else let (r, rest) := simple_strtoull cp base in (s64 r, rest).

Definition simple_strtol (cp : list Z) (base : Z) : Z * list Z := simple_strtoll cp base.

(** memparse: the shifts fall through to that of K. *)
Definition suffix_shift (c : Z) : option Z :=
  let c := tolower c in
  if c =? 101 then Some 60 else if c =? 112 then Some 50 else if c =? 116 then Some 40
  else if c =? 103 then Some 30 else if c =? 109 then Some 20 else if c =? 107 then Some 10
  else None.

Definition memparse (ptr : list Z) : Z * list Z :=
  let (ret, endptr) := simple_strtoull ptr 0 in
  match suffix_shift (chr endptr) with
  | Some n => (u64 (Z.shiftl ret n), tail endptr)
  | None => (ret, endptr)
  end.

(** ** vsscanf (lib/vsprintf.c) *)

(** What a conversion stores: bytes, an integer cut to its type, or the
    number of characters read so far. *)
Inductive stored := StBytes (l : list Z) | StInt (v : Z) | StCount (n : Z).

Definition s8 (z : Z) : Z := let r := u8 z in if r <? 128 then r else r - 256.
Definition s16 (z : Z) : Z := let r := u16 z in if r <? 32768 then r else r - 65536.

(** skip_atoi: at least one character is read. *)
Fixpoint skip_atoi_loop (i : Z) (s : list Z) : Z * list Z :=
  match s with
  | c :: s' => if isdigit c then skip_atoi_loop (i * 10 + c - 48) s' else (i, s)
  | [] => (i, [])
  end.

(** The qualifier, 255 for none: h, l, z (or in upper case L, Z), H for hh and
    L for ll. *)
Definition get_qualifier (fmt : list Z) : Z * list Z :=
  let c := chr fmt in
  if (c =? 104) || (tolower c =? 108) || (tolower c =? 122) then
    let fmt := tail fmt in
    if c =? chr fmt then
      if c =? 104 then (72, tail fmt) else if c =? 108 then (76, tail fmt) else (c, fmt)
    else (c, fmt)
  else (255, fmt).

(** The rest of a suppressed conversion; [None] is an invalid format. *)
Fixpoint skip_conversion (fmt : list Z) : option (list Z) :=
  match fmt with
  | [] => Some []
  | c :: fmt' =>
      if isspace c || (c =? 37) then Some fmt
      else if c =? 91 then None else skip_conversion fmt'
  end.

Fixpoint skip_word (str : list Z) : list Z :=
  match str with
  | c :: str' => if isspace c then str else skip_word str'
  | [] => []
  end.

(** Copying while a test holds and the width allows. *)
Fixpoint copy_while (ok : Z -> bool) (width : nat) (str : list Z) : list Z * list Z :=
  match width, str with
  | S w, c :: str' =>
      if ok c then let (l, rest) := copy_while ok w str' in (c :: l, rest) else ([], str)
  | _, _ => ([], str)
  end.

Definition SHRT_MAX : Z := 32767.

(** The characters of a set up to the closing bracket. *)
Fixpoint read_set (fmt : list Z) : list Z * option (list Z) :=
  match fmt with
  | [] => ([], None)
  | c :: fmt' => if c =? 93 then ([], Some fmt') else
      let (set, rest) := read_set fmt' in (c :: set, rest)
  end.

(** The '[' conversion; [None] returns the count so far. *)
Definition scan_set (width : Z) (str fmt : list Z) : option (list Z * list Z * list Z) :=
  let negate := chr fmt =? 94 in
  if width =? -1 then None
  else
    let fmt := if negate then tail fmt else fmt in
    let (set, rest) := read_set fmt in
    match set, rest with
    | [], _ | _, None => None
    | _, Some fmt' =>
        let in_set c := if negate then negb (bool_decide (c ∈ set)) && negb (c =? 0)
                        else bool_decide (c ∈ set) in
        if in_set (chr str) then
          let (l, str') := copy_while in_set (Z.to_nat width) str in Some (l, str', fmt')
        else None
    end.

(** The value as it is stored through the argument's type. *)
Definition store_int (qualifier : Z) (is_sign : bool) (v : Z) : Z :=
  if qualifier =? 72 then if is_sign then s8 v else u8 v
  else if qualifier =? 104 then if is_sign then s16 v else u16 v
  else if (qualifier =? 108) || (qualifier =? 76) then if is_sign then s64 v else u64 v
  else if (qualifier =? 90) || (qualifier =? 122) then u64 v
  else if is_sign then s32 v else u32 v.

Fixpoint iter_div (n : nat) (base v : Z) : Z :=
  match n with O => v | S n' => iter_div n' base (Z.quot v base) end.

(** An integer conversion; [None] ends the scan. *)
Definition scan_int (qualifier width base : Z) (is_sign : bool) (str : list Z)
  : option (Z * list Z) :=
  let str := skip_spaces str in
  let digit := if is_sign && (chr str =? 45) then chr (tail str) else chr str in
  if (digit =? 0) || ((base =? 16) && negb (isxdigit digit))
     || ((base =? 10) && negb (isdigit digit))
     || ((base =? 8) && (negb (isdigit digit) || (55 <? digit)))
     || ((base =? 0) && negb (isdigit digit)) then None
  else
    let (val, next) := if is_sign then simple_strtoll str base else simple_strtoull str base in
    let len := Z.of_nat (length str) - Z.of_nat (length next) in
    let (val, next) :=
      if (0 <? width) && (width <? len) then
        let base := if base =? 0 then snd (parse_integer_fixup_radix str base) else base in
        (iter_div (Z.to_nat (len - width)) base val, drop (Z.to_nat width) str)
      else (val, next) in
    Some (store_int qualifier is_sign val, next).

(** Base and signedness of an integer conversion. *)
Definition int_conversion (c : Z) : option (Z * bool) :=
  if c =? 111 then Some (8, false)
  else if (c =? 120) || (c =? 88) then Some (16, false)
  else if c =? 105 then Some (0, true)
  else if c =? 100 then Some (10, true)
  else if c =? 117 then Some (10, false)
  else None.

(** What follows a conversion: the scan goes on or returns. *)
Inductive scan := Go (str fmt : list Z) (num : Z) (out : list stored) | Stop (num : Z) (out : list stored).

(** The conversion specifier, after the field width ([-1] for none). [len] is
    the length of the whole buffer. *)
Definition scan_spec (len width : Z) (str fmt : list Z) (num : Z) (out : list stored) : scan :=
  let (qualifier, fmt) := get_qualifier fmt in
  match fmt with
  | [] => Stop num out
  | c :: fmt =>
      if c =? 110 then Go str fmt num (out ++ [StCount (len - Z.of_nat (length str))])
      else match str with
      | [] => Stop num out
      | _ =>
          if c =? 99 then
            let n := Z.to_nat (if width =? -1 then 1 else width) in
            Go (drop n str) fmt (num + 1) (out ++ [StBytes (take n str)])
          else if c =? 115 then
            let n := Z.to_nat (if width =? -1 then SHRT_MAX else width) in
            let (l, rest) := copy_while (fun c => negb (isspace c)) n (skip_spaces str) in
            Go rest fmt (num + 1) (out ++ [StBytes l])
          else if c =? 91 then
            match scan_set width str fmt with
            | Some (l, rest, fmt) => Go rest fmt (num + 1) (out ++ [StBytes l])
            | None => Stop num out
            end
          else if c =? 37 then
            if chr str =? 37 then Go (tail str) fmt num out else Stop num out
          else match int_conversion c with
          | None => Stop num out
          | Some (base, is_sign) =>
              match scan_int qualifier width base is_sign str with
              | None => Stop num out
              | Some (v, next) => Go next fmt (num + 1) (out ++ [StInt v])
              end
          end
      end
  end.

(** One conversion; [fmt] is after the percent sign. *)
Definition scan_conversion (len : Z) (str fmt : list Z) (num : Z) (out : list stored) : scan :=
  if chr fmt =? 42 then
    match str with
    | [] => Stop num out
    | _ => match skip_conversion fmt with
           | None => Stop num out
           | Some fmt' => Go (skip_word str) fmt' num out
           end
    end
  else if isdigit (chr fmt) then
    let (i, fmt) := skip_atoi_loop 0 fmt in
    let width := s16 (s32 i) in
    if width <=? 0 then Stop num out else scan_spec len width str fmt num out
  else scan_spec len (-1) str fmt num out.

(** One turn of the loop of vsscanf, [fmt] not empty. *)
Definition scan_turn (len : Z) (str fmt : list Z) (num : Z) (out : list stored) : scan :=
  let sp := isspace (chr fmt) in
  let str := if sp then skip_spaces str else str in
  let fmt := if sp then skip_spaces (tail fmt) else fmt in
  match fmt with
  | [] => Stop num out
  | c :: fmt =>
      if c =? 37 then scan_conversion len str fmt num out
      else if c =? chr str then Go (tail str) fmt num out else Stop num out
  end.

(** The number of conversions and what they stored; [None] is out of fuel. *)
Fixpoint vsscanf_loop (fuel : nat) (len : Z) (str fmt : list Z) (num : Z) (out : list stored)
  : option (Z * list stored) :=
  match fmt with
  | [] => Some (num, out)
  | _ =>
      match fuel with
      | O => None
      | S fuel =>
          match scan_turn len str fmt num out with
          | Go str fmt num out => vsscanf_loop fuel len str fmt num out
          | Stop num out => Some (num, out)
          end
      end
  end.

(** Every turn takes at least one character of the format. *)
Definition vsscanf (buf fmt : list Z) : option (Z * list stored) :=
  vsscanf_loop (length fmt) (Z.of_nat (length buf)) buf fmt 0 [].

(** ** Parameters (kernel/params.c) *)

Definition dash2underscore (c : Z) : Z := if c =? 45 then 95 else c.

Definition parameq (a b : list Z) : bool :=
  bool_decide (map dash2underscore a = map dash2underscore b).

(** struct kernel_param, with the operation that sets it; [kp_noarg] is its
    flag KERNEL_PARAM_OPS_FL_NOARG. *)
Record kernel_param (St : Type) := KernelParam {
  kp_name : list Z;
  kp_level : Z;
  kp_noarg : bool;
  kp_set : option (list Z) -> St -> Z * St
}.
Arguments KernelParam {St} _ _ _ _.
Arguments kp_name {St} _.
Arguments kp_level {St} _.
Arguments kp_noarg {St} _.
Arguments kp_set {St} _ _ _.

(** The loop of next_arg: length of the argument, and position of its first
    equals sign, 0 for none. *)
Fixpoint arg_length (i equals : nat) (in_quote : bool) (s : list Z) : nat * nat :=
  match s with
  | [] => (i, equals)
  | c :: s' =>
      if isspace c && negb in_quote then (i, equals)
      else
        let equals := if (equals =? 0)%nat && (c =? 61) then i else equals in
        arg_length (S i) equals (xorb in_quote (c =? 34)) s'
  end.

(** A closing quote overwritten by NUL. *)
Definition chop_quote (l : list Z) : list Z :=
  match list.last l with
  | Some c => if c =? 34 then removelast l else l
  | None => l
  end.

(** next_arg: name, value and the rest of the arguments. *)
Definition next_arg (args : list Z) : list Z * option (list Z) * list Z :=
  let quoted := chr args =? 34 in
  let args := if quoted then tail args else args in
  let (i, equals) := arg_length 0 0 quoted args in
  let word := take i args in
  let rest := skip_spaces (tail (drop i args)) in
  if (equals =? 0)%nat then (if quoted then chop_quote word else word, None, rest)
  else
    let val := drop (S equals) word in
    let val := if chr val =? 34 then chop_quote (tail val)
               else if quoted then chop_quote val else val in
    (take equals word, Some val, rest).

Section Params.
Context {St : Type} (params : list (kernel_param St)) (min_level max_level : Z)
  (handle_unknown : list Z -> option (list Z) -> St -> Z * St).

Fixpoint parse_one (ps : list (kernel_param St)) (param : list Z) (val : option (list Z)) (st : St)
  : Z * St :=
  match ps with
  | [] => handle_unknown param val st
  | p :: ps =>
      if parameq param (kp_name p) then
        if (kp_level p <? min_level) || (max_level <? kp_level p) then (0, st)
        else match val with
             | None => if kp_noarg p then kp_set p val st else (- EINVAL, st)
             | Some _ => kp_set p val st
             end
      else parse_one ps param val st
  end.

(** parse_args: an error or 0, or the arguments after two dashes; [None] is
    out of fuel. *)
Fixpoint parse_args_loop (fuel : nat) (args : list Z) (err : Z) (st : St)
  : option ((Z + list Z) * St) :=
  match args with
  | [] => Some (inl err, st)
  | _ =>
      match fuel with
      | O => None
      | S fuel =>
          let '(param, val, args) := next_arg args in
          if bool_decide (val = None) && bool_decide (param = [45; 45]) then
            Some (if err =? 0 then inr args else inl err, st)
          else
            let (ret, st) := parse_one params param val st in
            parse_args_loop fuel args (if ret =? 0 then err else ret) st
      end
  end.

Definition parse_args (args : list Z) (st : St) : option ((Z + list Z) * St) :=
  let args := skip_spaces args in parse_args_loop (length args) args 0 st.

End Params.

(** ** Devices on the command line (drivers/virtio/virtio_mmio.c) *)

(** A platform device: identifier, memory and interrupt resources. *)
Record platform_device := PlatformDevice {
  pd_id : Z;
  pd_start : Z;
  pd_end : Z;
  pd_irq : Z
}.

(** vm_cmdline_parent_registered, vm_cmdline_id and the devices registered. *)
Record vm_state := VmState {
  vs_parent : bool;
  vs_id : Z;
  vs_devices : list platform_device
}.

Definition vm_init : vm_state := VmState false 0 [].

(** The stores of the scan: base, irq, the identifier if there is one, and the
    last count. *)
Definition scan_base (out : list stored) : Z :=
  match out with StInt v :: _ => v | _ => 0 end.
Definition scan_irq (out : list stored) : Z :=
  match out with _ :: StInt v :: _ => v | _ => 0 end.
Definition scan_id (out : list stored) (id : Z) : Z :=
  match out with _ :: _ :: _ :: StInt v :: _ => v | _ => id end.
Definition scan_consumed (out : list stored) : Z :=
  match list.last out with Some (StCount n) => n
  | _ => match out with _ :: _ :: StCount n :: _ => n | _ => 0 end
  end.

Section VmCmdline.
(** [device_register] and [platform_register] are the answers of the driver
    core: 0 or a negative error. *)
Context (device_register : Z) (platform_register : platform_device -> Z).

Definition vm_cmdline_set (device : option (list Z)) (st : vm_state) : Z * vm_state :=
  let (m, str) := memparse (default [] device) in
  let size := s64 m in
  (* the scan always ends: vsscanf_total *)
  let (processed, out) := default (0, []) (vsscanf str (chars "@%lli:%u%n:%d%n")) in
  let st := VmState (vs_parent st) (scan_id out (vs_id st)) (vs_devices st) in
  if (processed <? 2) || negb (chr (drop (Z.to_nat (scan_consumed out)) str) =? 0)
  then (- EINVAL, st)
  else
    let start := u64 (scan_base out) in
    let pdev := PlatformDevice (vs_id st) start (u64 (scan_base out + size - 1)) (scan_irq out) in
    if negb (vs_parent st) && negb (device_register =? 0) then (device_register, st)
    else
      let ret := platform_register pdev in
      let id := s32 (vs_id st + 1) in
      if ret <? 0 then (ret, VmState true id (vs_devices st))
      else (0, VmState true id (vs_devices st ++ [pdev])).

(** [device_param_cb]: the parameter of level [level]. *)
Definition vm_cmdline_param (level : Z) : kernel_param vm_state :=
  KernelParam (chars "virtio_mmio.device") level false vm_cmdline_set.

End VmCmdline.

(** ** The command line (arch/lkl/kernel/setup.c) *)

Definition COMMAND_LINE_SIZE : Z := 4096.

(** The caller's options, then the devices. [strncpy] cuts what does not fit. *)
Definition boot_command_line (opts virtio_devices : list Z) : list Z :=
  opts ++ take (Z.to_nat (COMMAND_LINE_SIZE - Z.of_nat (length opts))) virtio_devices.

(** ** Termination *)

Lemma skip_spaces_length s : (length (skip_spaces s) <= length s)%nat.
Proof. induction s as [|c s IH]; simpl; [done|]. case_match; simpl; lia. Qed.

Lemma skip_conversion_length fmt fmt' :
  skip_conversion fmt = Some fmt' -> (length fmt' <= length fmt)%nat.
Proof.
  revert fmt'. induction fmt as [|c fmt IH]; simpl; intros fmt'; [by intros [= <-]|].
  repeat case_match; intros; simplify_eq; simpl; [done|]. by etrans; [apply IH|lia].
Qed.

Lemma skip_atoi_length i fmt : (length (snd (skip_atoi_loop i fmt)) <= length fmt)%nat.
Proof.
  revert i. induction fmt as [|c fmt IH]; intros i; simpl; [done|].
  case_match; simpl; [|done]. etrans; [apply IH|lia].
Qed.

Lemma tail_length {A} (l : list A) : (length (tail l) <= length l)%nat.
Proof. destruct l; simpl; lia. Qed.

Lemma get_qualifier_length fmt : (length (snd (get_qualifier fmt)) <= length fmt)%nat.
Proof.
  unfold get_qualifier. pose proof (tail_length fmt). pose proof (tail_length (tail fmt)).
  repeat case_match; simpl; lia.
Qed.

Lemma read_set_length fmt fmt' :
  snd (read_set fmt) = Some fmt' -> (length fmt' < length fmt)%nat.
Proof.
  induction fmt as [|c fmt IH]; simpl; [done|]. case_match; simpl; [intros [= <-]; lia|].
  destruct (read_set fmt) as [set rest]. simpl in *. intros Hr%IH. lia.
Qed.

(** The format left after one step is no longer than before it. *)
Definition shorter (n : nat) (r : scan) : Prop :=
  match r with Go _ fmt _ _ => (length fmt <= n)%nat | Stop _ _ => True end.

Lemma scan_set_length width str fmt l rest fmt' :
  scan_set width str fmt = Some (l, rest, fmt') -> (length fmt' <= length fmt)%nat.
Proof.
  unfold scan_set. case_match; [done|]. pose proof (tail_length fmt).
  set (f := if chr fmt =? 94 then tail fmt else fmt).
  assert (length f <= length fmt)%nat by (unfold f; case_match; lia).
  pose proof (read_set_length f) as Hr. destruct (read_set f) as [[|c set] [fmt1|]]; try done.
  case_match; [|done]. destruct (copy_while _ _ _). intros [= <- <- <-].
  specialize (Hr _ eq_refl). lia.
Qed.

Lemma scan_spec_shorter len width str fmt num out :
  shorter (length fmt) (scan_spec len width str fmt num out).
Proof.
  unfold scan_spec. pose proof (get_qualifier_length fmt).
  destruct (get_qualifier fmt) as [q [|c fmt1]]; [done|]. cbn [snd length] in *.
  destruct (c =? 110); [cbn [shorter]; lia|]. destruct str as [|d str]; [done|].
  destruct (c =? 99); [cbn [shorter]; lia|].
  destruct (c =? 115); [destruct (copy_while _ _ _); cbn [shorter]; lia|].
  destruct (c =? 91).
  { destruct (scan_set width (d :: str) fmt1) as [[[l rest] fmt2]|] eqn:E; [|done].
    apply scan_set_length in E. cbn [shorter]. lia. }
  destruct (c =? 37); [destruct (chr (d :: str) =? 37); [cbn [shorter]; lia|done]|].
  destruct (int_conversion c) as [[base is_sign]|]; [|done].
  destruct (scan_int _ _ _ _ _) as [[v next]|]; [cbn [shorter]; lia|done].
Qed.

Lemma scan_conversion_shorter len str fmt num out :
  shorter (length fmt) (scan_conversion len str fmt num out).
Proof.
  unfold scan_conversion. case_match.
  { destruct str; [done|]. destruct (skip_conversion fmt) eqn:E; [|done].
    by apply skip_conversion_length in E. }
  case_match; [|apply scan_spec_shorter].
  pose proof (skip_atoi_length 0 fmt). destruct (skip_atoi_loop 0 fmt) as [i fmt1]. simpl in *.
  case_match; [done|]. pose proof (scan_spec_shorter len (s16 (s32 i)) str fmt1 num out) as Hs.
  unfold shorter in *. case_match; [lia|done].
Qed.

Lemma scan_turn_shorter len str c fmt num out :
  shorter (length fmt) (scan_turn len str (c :: fmt) num out).
Proof.
  unfold scan_turn. cbn [chr hd tail]. destruct (isspace c).
  - pose proof (skip_spaces_length fmt). destruct (skip_spaces fmt) as [|d fmt1]; [done|].
    case_match; [|case_match; simpl in *; lia || done].
    pose proof (scan_conversion_shorter len (skip_spaces str) fmt1 num out).
    unfold shorter in *. case_match; [simpl in *; lia|done].
  - case_match; [apply scan_conversion_shorter|]. case_match; simpl; lia || done.
Qed.

Lemma vsscanf_loop_total fuel len str fmt num out :
  (length fmt <= fuel)%nat -> is_Some (vsscanf_loop fuel len str fmt num out).
Proof.
  revert str fmt num out. induction fuel as [|fuel IH]; intros str [|c fmt] num out Hf; simpl in *;
    [by eauto|lia|by eauto|].
  pose proof (scan_turn_shorter len str c fmt num out) as Hs.
  destruct (scan_turn len str (c :: fmt) num out); [|by eauto]. apply IH. simpl in Hs. lia.
Qed.

Lemma vsscanf_total buf fmt : is_Some (vsscanf buf fmt).
Proof. by apply vsscanf_loop_total. Qed.

(** *** parse_args *)

Lemma arg_length_ge i e q s : (i <= fst (arg_length i e q s))%nat.
Proof.
  revert i e q. induction s as [|c s IH]; intros i e q; simpl; [done|].
  case_match; simpl; [done|]. etrans; [|apply IH]. lia.
Qed.

(** An argument that does not start with a space is taken away. *)
Lemma next_arg_shorter c args :
  isspace c = false -> (length (snd (next_arg (c :: args))) <= length args)%nat.
Proof.
  intros Hc. unfold next_arg. cbn [chr hd tail].
  assert (forall i l, (length (skip_spaces (tail (drop i l))) <= length l)%nat) as Hd.
  { intros i l. etrans; [apply skip_spaces_length|]. etrans; [apply tail_length|].
    rewrite length_drop. lia. }
  destruct (c =? 34).
  - specialize (fun i => Hd i args). destruct (arg_length 0 0 true args) as [i e].
    destruct (e =? 0)%nat; apply Hd.
  - assert (1 <= fst (arg_length 0 0 false (c :: args)))%nat as Hi.
    { cbn [arg_length]. rewrite Hc. cbn [andb]. apply arg_length_ge. }
    destruct (arg_length 0 0 false (c :: args)) as [[|i] e]; simpl in Hi; [lia|].
    destruct (e =? 0)%nat; apply (Hd i args).
Qed.

Definition no_space (s : list Z) : Prop := isspace (chr s) = false.

Lemma skip_spaces_no_space s : no_space (skip_spaces s).
Proof. induction s as [|c s IH]; simpl; [done|]. destruct (isspace c) eqn:E; [done|]. exact E. Qed.

Lemma next_arg_no_space args : no_space (snd (next_arg args)).
Proof.
  unfold next_arg. destruct (arg_length _ _ _ _) as [i e].
  destruct (e =? 0)%nat; apply skip_spaces_no_space.
Qed.

Lemma parse_args_loop_total {St} (ps : list (kernel_param St)) lo hi unk fuel args err st :
  (length args <= fuel)%nat -> no_space args ->
  is_Some (parse_args_loop ps lo hi unk fuel args err st).
Proof.
  revert args err st. induction fuel as [|fuel IH]; intros [|c args] err st Hf Hs; simpl in Hf;
    cbn [parse_args_loop]; [by eauto|lia|by eauto|].
  pose proof (next_arg_shorter c args Hs). pose proof (next_arg_no_space (c :: args)) as Hn.
  destruct (next_arg (c :: args)) as [[param val] rest]. simpl in *.
  case_match; [by eauto|]. destruct (parse_one _ _ _ _ _ _ _) as [ret st']. apply IH; [lia|done].
Qed.

(** ** Printed numbers *)

Section Digits.
Context (b : Z) (Hb : b = 10 \/ b = 16).

Lemma digit_char_val d : 0 <= d < b -> digit_val (digit_char d) = Some d.
Proof.
  intros Hd. assert (Hall : forallb (fun d => bool_decide (digit_val (digit_char d) = Some d))
    (map Z.of_nat (seq 0 16)) = true) by reflexivity.
  rewrite forallb_forall in Hall. specialize (Hall d).
  rewrite bool_decide_eq_true in Hall. apply Hall.
  apply in_map_iff. exists (Z.to_nat d). split; [lia|]. apply in_seq. lia.
Qed.

Lemma parse_step d s res rv :
  0 <= d < b -> 0 <= res -> res * b + d < 2 ^ 64 ->
  parse_integer_loop (digit_char d :: s) b res rv false =
  parse_integer_loop s b (res * b + d) (rv + 1) false.
Proof.
  intros Hd Hres Hlt. cbn [parse_integer_loop]. rewrite digit_char_val by done.
  rewrite (proj2 (Z.leb_gt b d)) by lia. rewrite u64_id by lia.
  assert ((2 ^ 64 - 1 - d) / b <? res = false) as ->.
  { apply Z.ltb_ge. apply Z.div_le_lower_bound; lia. }
  by rewrite andb_false_r.
Qed.

(** Parsing printed digits gives the number back and stops after them. *)
Lemma parse_digits fuel n acc rest :
  0 <= n < b ^ Z.of_nat fuel -> n < 2 ^ 64 -> (0 < fuel)%nat ->
  exists k, Z.of_nat (length (digits fuel b n acc)) = k + Z.of_nat (length acc) /\ 0 < k /\
    parse_integer_loop (digits fuel b n acc ++ rest) b 0 0 false =
    parse_integer_loop (acc ++ rest) b n k false.
Proof.
  revert n acc. induction fuel as [|fuel IH]; intros n acc Hn Hmax Hf; [lia|].
  cbn [digits]. destruct (Z.ltb_spec n b).
  - exists 1. split; [simpl; lia|]. split; [lia|]. rewrite <- app_comm_cons.
    rewrite Z.mod_small by lia. rewrite parse_step by lia. f_equal; lia.
  - assert (0 <= n / b < b ^ Z.of_nat fuel) as Hq.
    { split; [apply Z.div_pos; lia|]. apply Z.div_lt_upper_bound; [lia|].
      rewrite Nat2Z.inj_succ, Z.pow_succ_r in Hn by lia. lia. }
    assert (0 < fuel)%nat as Hf'.
    { destruct fuel; [|lia]. simpl in Hq. assert (n / b = 0) by lia.
      assert (1 <= n / b) by (apply Z.div_le_lower_bound; lia). lia. }
    assert (n / b <= n) by (apply Z.div_le_upper_bound; nia).
    destruct (IH (n / b) (digit_char (n mod b) :: acc)) as (k & Hk & Hkp & E); [done|lia|done|].
    exists (k + 1). split; [simpl in Hk; lia|]. split; [lia|].
    rewrite E, <- app_comm_cons. pose proof (Z.mod_pos_bound n b ltac:(lia)).
    pose proof (Z.div_mod n b ltac:(lia)). rewrite parse_step by lia. f_equal; lia.
Qed.

(** The first digit of a positive number is not zero. *)
Lemma digits_head fuel n acc :
  0 < n < b ^ Z.of_nat fuel -> exists d s, digits fuel b n acc = digit_char d :: s /\ 0 < d < b.
Proof.
  revert n acc. induction fuel as [|fuel IH]; intros n acc Hn; [simpl in Hn; lia|].
  cbn [digits]. destruct (Z.ltb_spec n b).
  - exists n, acc. rewrite Z.mod_small by lia. split; [done|lia].
  - apply IH. split; [apply Z.div_str_pos; lia|]. apply Z.div_lt_upper_bound; [lia|].
    rewrite Nat2Z.inj_succ, Z.pow_succ_r in Hn by lia. lia.
Qed.

(** A character that ends a number. *)
Definition ends_number (s : list Z) : Prop :=
  match s with [] => True | c :: _ => digit_val c = None end.

Lemma parse_integer_digits n rest :
  0 <= n < 2 ^ 64 -> ends_number rest ->
  parse_integer (digits 20 b n [] ++ rest) b =
  (n, Z.of_nat (length (digits 20 b n [])), false).
Proof.
  intros Hn Hr. assert (n < b ^ Z.of_nat 20) as Hb20.
  { change (Z.of_nat 20) with 20. destruct Hb as [->| ->]; lia. }
  destruct (parse_digits 20 n [] rest) as (k & Hk & _ & E); [lia|lia|lia|].
  unfold parse_integer. rewrite E, Hk. cbn [length app]. rewrite Z.add_0_r.
  destruct rest as [|c rest]; [done|]. cbn [parse_integer_loop]. by rewrite Hr.
Qed.

End Digits.

(** ** One device of the command line *)

Lemma digit_char_range d : 0 <= d < 16 ->
  isspace (digit_char d) = false /\ digit_char d <> 34 /\ digit_char d <> 0 /\
  digit_char d <> 45 /\ isxdigit (digit_char d) = true.
Proof.
  intros Hd. unfold isspace, isxdigit, isdigit, digit_char. destruct (Z.ltb_spec d 10);
    (split; [lia|]); split_and!; lia.
Qed.

Lemma digits_chars fuel b n acc (P : Z -> Prop) :
  1 < b -> 0 <= n -> (forall d, 0 <= d < b -> P (digit_char d)) ->
  Forall P acc -> Forall P (digits fuel b n acc).
Proof.
  intros Hb Hn HP. revert n acc Hn. induction fuel as [|f IH]; intros n acc Hn Ha; [done|].
  cbn [digits]. assert (Forall P (digit_char (n mod b) :: acc)) as Ha'.
  { apply list.Forall_cons. split; [|done]. apply HP, Z.mod_pos_bound. lia. }
  destruct (n <? b); [done|]. apply IH; [apply Z.div_pos; lia|done].
Qed.

Lemma digits_nonempty fuel b n acc : (0 < fuel)%nat -> digits fuel b n acc <> [].
Proof.
  revert n acc. induction fuel as [|[|f] IH]; intros n acc Hf; [lia|by cbn [digits]; case_match|].
  cbn [digits]. case_match; [done|]. apply IH. lia.
Qed.

(** The first character of a printed number. *)
Lemma digits_first b n : b = 10 \/ b = 16 -> 0 <= n ->
  exists d s, digits 20 b n [] = digit_char d :: s /\ 0 <= d < b.
Proof.
  intros Hb Hn. destruct (digits 20 b n []) as [|c s] eqn:E; [by apply digits_nonempty in E; [|lia]|].
  assert (Forall (fun c => exists d, c = digit_char d /\ 0 <= d < b) (digits 20 b n [])) as HF.
  { apply digits_chars; [lia|done| |done]. intros d Hd. by exists d. }
  rewrite E in HF. apply list.Forall_cons in HF as [(d & -> & Hd) _]. by exists d, s.
Qed.

(** memparse of a printed size. *)
Lemma memparse_dec n rest :
  0 < n < 2 ^ 64 -> ends_number rest -> suffix_shift (chr rest) = None ->
  memparse (print_dec n ++ rest) = (n, rest).
Proof.
  intros Hn Hr Hs. unfold memparse, simple_strtoull, print_dec.
  destruct (digits_head 10 ltac:(auto) 20 n []) as (d & s & Hd & Hd0).
  { change (10 ^ Z.of_nat 20) with 100000000000000000000. lia. }
  assert (parse_integer_fixup_radix (digits 20 10 n [] ++ rest) 0 = (digits 20 10 n [] ++ rest, 10)) as ->.
  { unfold parse_integer_fixup_radix. rewrite Hd. cbn [app chr hd Z.eqb].
    assert (digit_char d =? 48 = false) as ->; [|done].
    unfold digit_char. case_match; lia. }
  rewrite parse_integer_digits by auto with lia. rewrite Nat2Z.id, drop_app_length. by rewrite Hs.
Qed.

(** %lli of an address printed in hexadecimal. *)
Lemma scan_hex n rest :
  0 <= n < 2 ^ 64 -> ends_number rest ->
  scan_int 76 (-1) 0 true (chars "0x" ++ print_hex n ++ rest) = Some (s64 n, rest).
Proof.
  intros Hn Hr. unfold scan_int, print_hex. destruct (digits_first 16 n) as (d & s & Hd & Hd0); [auto|lia|].
  assert (simple_strtoll (chars "0x" ++ digits 20 16 n [] ++ rest) 0 = (s64 n, rest)) as Hst.
  { unfold simple_strtoll, simple_strtoull.
    assert (parse_integer_fixup_radix (chars "0x" ++ digits 20 16 n [] ++ rest) 0 =
      (digits 20 16 n [] ++ rest, 16)) as ->.
    { unfold parse_integer_fixup_radix. rewrite Hd.
      cbn -[isxdigit digit_char Z.lor]. change (Z.lor 120 32 =? 120) with true.
      rewrite (proj2 (proj2 (proj2 (proj2 (digit_char_range d ltac:(lia)))))). done. }
    rewrite parse_integer_digits by auto with lia. rewrite Nat2Z.id, drop_app_length. done. }
  change (skip_spaces (chars "0x" ++ digits 20 16 n [] ++ rest))
    with (chars "0x" ++ digits 20 16 n [] ++ rest). cbv zeta.
  rewrite Hst. cbn. unfold store_int. cbn. rewrite s64_id; [done|].
  unfold s64, u64. case_match; lia.
Qed.

(** %u of a printed number at the end of the string. *)
Lemma scan_dec n :
  0 <= n < 2 ^ 32 -> scan_int 255 (-1) 10 false (print_dec n) = Some (n, []).
Proof.
  intros Hn. unfold scan_int, print_dec. destruct (digits_first 10 n) as (d & s & Hd & Hd0); [auto|lia|].
  assert (isspace (digit_char d) = false /\ isdigit (digit_char d) = true /\
    digit_char d <> 0) as (Hsp & Hdg & H0).
  { unfold isspace, isdigit, digit_char. rewrite (proj2 (Z.ltb_lt d 10)) by lia. lia. }
  assert (skip_spaces (digits 20 10 n []) = digits 20 10 n []) as ->.
  { rewrite Hd. simpl. by rewrite Hsp. }
  assert (chr (digits 20 10 n []) = digit_char d) as Hc by by rewrite Hd.
  assert (simple_strtoull (digits 20 10 n []) 10 = (n, [])) as Hst.
  { unfold simple_strtoull, parse_integer_fixup_radix. cbn [Z.eqb Pos.eqb andb].
    pose proof (parse_integer_digits 10 ltac:(auto) n [] ltac:(lia) I) as Hp.
    rewrite app_nil_r in Hp. rewrite Hp. by rewrite Nat2Z.id, drop_all. }
  cbv zeta. rewrite Hst, Hc. cbn [andb]. rewrite Hdg.
  rewrite (proj2 (Z.eqb_neq (digit_char d) 0)) by done. cbn.
  unfold store_int. cbn. by rewrite u32_id by lia.
Qed.

(** The value of the parameter for one device. *)
Definition device_value (size base irq : Z) : list Z :=
  print_dec size ++ chars "@0x" ++ print_hex base ++ chars ":" ++ print_dec irq.

Lemma device_param_value size base irq :
  device_param size base irq = chars " virtio_mmio.device=" ++ device_value size base irq.
Proof. done. Qed.

(** Turns of the scan. *)
Lemma scan_go fuel len str fmt num out str' fmt' num' out' :
  fmt <> [] -> scan_turn len str fmt num out = Go str' fmt' num' out' ->
  vsscanf_loop (S fuel) len str fmt num out = vsscanf_loop fuel len str' fmt' num' out'.
Proof. intros Hf H. destruct fmt; [done|]. cbn [vsscanf_loop]. by rewrite H. Qed.

Lemma scan_stop fuel len str fmt num out num' out' :
  fmt <> [] -> scan_turn len str fmt num out = Stop num' out' ->
  vsscanf_loop (S fuel) len str fmt num out = Some (num', out').
Proof. intros Hf H. destruct fmt; [done|]. cbn [vsscanf_loop]. by rewrite H. Qed.

Lemma turn_lli len c str fmt num out v next :
  scan_int 76 (-1) 0 true (c :: str) = Some (v, next) ->
  scan_turn len (c :: str) (chars "%lli" ++ fmt) num out = Go next fmt (num + 1) (out ++ [StInt v]).
Proof.
  intros H. change (chars "%lli" ++ fmt) with (37 :: 108 :: 108 :: 105 :: fmt).
  unfold scan_turn, scan_conversion, scan_spec. cbn -[scan_int].
  change (get_qualifier (108 :: 108 :: 105 :: fmt)) with (76, 105 :: fmt). cbn -[scan_int].
  by rewrite H.
Qed.

Lemma turn_u len c str fmt num out v next :
  scan_int 255 (-1) 10 false (c :: str) = Some (v, next) ->
  scan_turn len (c :: str) (chars "%u" ++ fmt) num out = Go next fmt (num + 1) (out ++ [StInt v]).
Proof.
  intros H. change (chars "%u" ++ fmt) with (37 :: 117 :: fmt).
  unfold scan_turn, scan_conversion, scan_spec. cbn -[scan_int].
  change (get_qualifier (117 :: fmt)) with (255, 117 :: fmt). cbn -[scan_int]. by rewrite H.
Qed.

Lemma vsscanf_device base irq :
  0 <= base < 2 ^ 64 -> 0 <= irq < 2 ^ 32 ->
  let str := chars "@0x" ++ print_hex base ++ chars ":" ++ print_dec irq in
  vsscanf str (chars "@%lli:%u%n:%d%n") =
  Some (2, [StInt (s64 base); StInt irq; StCount (Z.of_nat (length str))]).
Proof.
  intros Hb Hi str. unfold vsscanf. set (len := Z.of_nat (length str)).
  unfold str. clearbody len. clear str.
  change (length (chars "@%lli:%u%n:%d%n")) with 15%nat.
  change (chars "@%lli:%u%n:%d%n") with (64 :: chars "%lli" ++ 58 :: chars "%u" ++ chars "%n:%d%n").
  change (chars "@0x" ++ print_hex base ++ chars ":" ++ print_dec irq)
    with (64 :: chars "0x" ++ print_hex base ++ 58 :: print_dec irq).
  assert (exists c s, print_dec irq = c :: s) as (c & s & Hc).
  { destruct (print_dec irq) as [|c s] eqn:E; [|by eauto].
    by apply digits_nonempty in E; [|lia]. }
  erewrite scan_go; [|done|reflexivity].
  erewrite scan_go; [|done|apply turn_lli, (scan_hex base (58 :: print_dec irq)); [done|reflexivity]].
  erewrite scan_go; [|done|reflexivity].
  pose proof (scan_dec irq Hi) as Hdec. rewrite Hc in *.
  erewrite scan_go; [|done|by apply turn_u].
  erewrite scan_go; [|done|reflexivity]. erewrite scan_stop; [|done|reflexivity].
  by rewrite Z.sub_0_r.
Qed.

(** vm_cmdline_set of a printed device registers it under the next number. *)
Lemma vm_cmdline_set_device dr pr size base irq st :
  0 < size < 2 ^ 63 -> 0 <= base < 2 ^ 64 -> 0 <= irq < 2 ^ 32 ->
  dr = 0 -> (forall d, 0 <= pr d) ->
  vm_cmdline_set dr pr (Some (device_value size base irq)) st =
  (0, VmState true (s32 (vs_id st + 1)) (vs_devices st ++
        [PlatformDevice (vs_id st) base (u64 (base + size - 1)) irq])).
Proof.
  intros Hs Hb Hi -> Hpr. unfold vm_cmdline_set, device_value. cbn [from_option id].
  rewrite memparse_dec by (done || lia).
  rewrite vsscanf_device by done. cbn [from_option id].
  set (str := chars "@0x" ++ _).
  assert (scan_consumed [StInt (s64 base); StInt irq; StCount (Z.of_nat (length str))]
    = Z.of_nat (length str)) as -> by done.
  rewrite Nat2Z.id, drop_all. cbn [chr hd Z.ltb Z.compare Z.eqb negb orb scan_base scan_irq scan_id vs_id
    vs_parent vs_devices Pos.compare Pos.compare_cont]. rewrite andb_false_r.
  rewrite (proj2 (Z.ltb_ge _ 0)) by apply Hpr.
  rewrite (s64_id size) by lia.
  assert (u64 (s64 base) = base) as -> by (unfold s64, u64; case_match; lia).
  assert (u64 (s64 base + size - 1) = u64 (base + size - 1)) as ->; [|done].
  unfold s64, u64. rewrite (Z.mod_small base) by lia. case_match; [done|].
  replace (base - 18446744073709551616 + size - 1)
    with (base + size - 1 + (-1) * 18446744073709551616) by lia. apply Z.mod_add. lia.
Qed.

(** ** The whole command line *)

Lemma arg_length_value i e w rest :
  e <> 0%nat -> Forall (fun c => isspace c = false /\ c <> 34) w ->
  rest = [] \/ isspace (chr rest) = true ->
  arg_length i e false (w ++ rest) = ((i + length w)%nat, e).
Proof.
  intros He Hw Hr. revert i. induction Hw as [|c w [Hsp Hq] _ IH]; intros i; simpl.
  - rewrite Nat.add_0_r. destruct rest as [|c rest]; [done|]. destruct Hr as [|Hr]; [done|].
    simpl in *. by rewrite Hr.
  - rewrite Hsp. cbn [andb]. rewrite (proj2 (Nat.eqb_neq e 0)) by done. cbn [andb].
    rewrite (proj2 (Z.eqb_neq c 34)) by done. cbn [xorb]. rewrite IH. f_equal. lia.
Qed.

Lemma device_value_chars size base irq :
  0 <= size -> 0 <= base -> 0 <= irq ->
  Forall (fun c => isspace c = false /\ c <> 34) (device_value size base irq).
Proof.
  intros. assert (forall d, 0 <= d < 16 -> isspace (digit_char d) = false /\ digit_char d <> 34) as Hd.
  { intros d Hd. destruct (digit_char_range d Hd) as (? & ? & _). done. }
  unfold device_value. rewrite !list.Forall_app. split_and!;
    try (apply digits_chars; [lia|done| |done]; intros; apply Hd; lia);
    repeat (apply list.Forall_cons; split; [done|]); apply list.Forall_nil; done.
Qed.

Lemma next_arg_device size base irq rest :
  0 <= size -> 0 <= base -> 0 <= irq -> rest = [] \/ isspace (chr rest) = true ->
  next_arg (chars "virtio_mmio.device=" ++ device_value size base irq ++ rest) =
  (chars "virtio_mmio.device", Some (device_value size base irq), skip_spaces (tail rest)).
Proof.
  intros Hs Hb Hi Hr. pose proof (device_value_chars size base irq Hs Hb Hi) as Hc.
  set (v := device_value size base irq) in *.
  assert (chr v <> 34) as Hv34. { destruct v as [|c v']; [done|]. by apply list.Forall_cons in Hc as [[_ ?] _]. }
  clearbody v. unfold next_arg.
  change (chr (chars "virtio_mmio.device=" ++ v ++ rest) =? 34) with false. cbv iota zeta.
  assert (arg_length 0 0 false (chars "virtio_mmio.device=" ++ v ++ rest) =
    ((19 + length v)%nat, 18%nat)) as ->.
  { change (arg_length 0 0 false (chars "virtio_mmio.device=" ++ v ++ rest))
      with (arg_length 19 18 false (v ++ rest)). by apply arg_length_value. }
  change (18 =? 0)%nat with false. cbv iota.
  assert (take (19 + length v) (chars "virtio_mmio.device=" ++ v ++ rest) =
    chars "virtio_mmio.device=" ++ v) as ->.
  { rewrite (assoc_L (++)), take_app_length'; [done|]. rewrite length_app. done. }
  assert (drop (19 + length v) (chars "virtio_mmio.device=" ++ v ++ rest) = rest) as ->.
  { rewrite (assoc_L (++)), drop_app_length'; [done|]. rewrite length_app. done. }
  change (drop 19 (chars "virtio_mmio.device=" ++ v)) with v.
  rewrite (proj2 (Z.eqb_neq _ 34)) by done. done.
Qed.

(** A device: size, base and interrupt. *)
Notation dev3 := (Z * Z * Z)%type.

Definition devices_text (l : list dev3) : list Z :=
  concat (map (fun '(size, base, irq) => device_param size base irq) l).

Definition dev3_ok (d : dev3) : Prop :=
  let '(size, base, irq) := d in 0 < size < 2 ^ 63 /\ 0 <= base < 2 ^ 64 /\ 0 <= irq < 2 ^ 32.

(** The devices registered from the number [id] on. *)
Fixpoint platform_devices (id : Z) (l : list dev3) : list platform_device :=
  match l with
  | [] => []
  | (size, base, irq) :: l =>
      PlatformDevice id base (u64 (base + size - 1)) irq :: platform_devices (id + 1) l
  end.

Lemma parse_one_device {St} (ps1 ps2 : list (kernel_param St)) p lo hi unk v st :
  Forall (fun q => parameq (kp_name p) (kp_name q) = false) ps1 ->
  lo <= kp_level p <= hi ->
  parse_one lo hi unk (ps1 ++ p :: ps2) (kp_name p) (Some v) st = kp_set p (Some v) st.
Proof.
  intros H1 Hl. induction H1 as [|q ps1 Hq _ IH]; simpl.
  - unfold parameq. rewrite bool_decide_eq_true_2 by done.
    rewrite (proj2 (Z.ltb_ge _ _)), (proj2 (Z.ltb_ge _ _)) by lia. done.
  - by rewrite Hq.
Qed.

Section Devices.
Context (dr : Z) (pr : platform_device -> Z) (level : Z) (ps1 ps2 : list (kernel_param vm_state))
  (unk : list Z -> option (list Z) -> vm_state -> Z * vm_state).
Hypotheses (Hdr : dr = 0) (Hpr : forall d, 0 <= pr d)
  (Hps : Forall (fun q => parameq (chars "virtio_mmio.device") (kp_name q) = false) ps1).

Let params := ps1 ++ vm_cmdline_param dr pr level :: ps2.

Lemma parse_devices fuel l st err :
  Forall dev3_ok l -> 0 <= vs_id st -> vs_id st + Z.of_nat (length l) < 2 ^ 31 ->
  (length (skip_spaces (devices_text l)) <= fuel)%nat ->
  parse_args_loop params level level unk fuel (skip_spaces (devices_text l)) err st =
  Some (inl err, match l with [] => st | _ => VmState true (vs_id st + Z.of_nat (length l))
    (vs_devices st ++ platform_devices (vs_id st) l) end).
Proof.
  intros Hl. revert fuel st. induction Hl as [|[[size base] irq] l (Hs & Hb & Hi) Hl IH];
    intros fuel st Hid Hmax Hf; [by destruct fuel|].
  assert (skip_spaces (devices_text ((size, base, irq) :: l)) =
    chars "virtio_mmio.device=" ++ device_value size base irq ++ devices_text l) as Htext.
  { unfold devices_text at 1. cbn [map concat]. rewrite device_param_value.
    rewrite <- !(assoc_L (++)). reflexivity. }
  rewrite Htext in *.
  destruct fuel as [|fuel]; [by rewrite length_app in Hf; simpl in Hf; lia|].
  assert (devices_text l = [] \/ isspace (chr (devices_text l)) = true) as Hr.
  { destruct l as [|[[s b] i] l']; [by left|by right]. }
  pose proof (next_arg_device size base irq (devices_text l) ltac:(lia) ltac:(lia) ltac:(lia) Hr) as Hn.
  assert (skip_spaces (tail (devices_text l)) = skip_spaces (devices_text l)) as Hsk.
  { destruct l as [|[[s b] i] l']; [done|]. reflexivity. }
  pose proof (next_arg_shorter 118 (chars "irtio_mmio.device=" ++ device_value size base irq ++
    devices_text l) eq_refl) as Hlen.
  change (118 :: chars "irtio_mmio.device=" ++ device_value size base irq ++ devices_text l)
    with (chars "virtio_mmio.device=" ++ device_value size base irq ++ devices_text l) in Hlen.
  rewrite Hn, Hsk in Hlen. cbn [snd] in Hlen.
  assert (forall s st', parse_args_loop params level level unk (S fuel)
      (chars "virtio_mmio.device=" ++ s) err st' =
    let '(param, val, args) := next_arg (chars "virtio_mmio.device=" ++ s) in
    if bool_decide (val = None) && bool_decide (param = [45; 45]) then
      Some (if err =? 0 then inr args else inl err, st')
    else let (ret, st) := parse_one level level unk params param val st' in
      parse_args_loop params level level unk fuel args (if ret =? 0 then err else ret) st) as Hunf
    by done.
  rewrite Hunf, Hn. clear Hunf. rewrite bool_decide_eq_false_2 by done. cbn [andb].
  unfold params at 1. change (chars "virtio_mmio.device") with (kp_name (vm_cmdline_param dr pr level)).
  rewrite parse_one_device by (done || (simpl; lia)). cbn [kp_set vm_cmdline_param].
  rewrite vm_cmdline_set_device by (done || lia). cbn [Z.eqb].
  rewrite length_app in Hf. simpl in Hf, Hmax.
  rewrite s32_id by lia. rewrite Hsk. rewrite IH; cbn [vs_id]; [|lia|lia|].
  - cbn [vs_devices]. destruct l as [|d l]; [|rewrite <- (assoc_L (++))]; simpl length; cbn [platform_devices].
    + do 3 f_equal.
    + do 3 f_equal. lia.
  - etrans; [exact Hlen|]. simpl in *. rewrite !length_app in *. lia.
Qed.

(** The command line made of the devices registers them in order. *)
Lemma parse_args_devices l :
  Forall dev3_ok l -> Z.of_nat (length l) < 2 ^ 31 ->
  exists st, parse_args params level level unk (devices_text l) vm_init = Some (inl 0, st) /\
    vs_devices st = platform_devices 0 l.
Proof.
  intros Hl Hn. unfold parse_args. rewrite parse_devices by (done || simpl; lia).
  eexists. split; [done|]. by destruct l.
Qed.

End Devices.

(** ** Property *)

(** C29: Parsing a command line always ends: vsscanf makes at most one turn per
    character of its format, and parse_args at most one per character of the
    arguments, whatever the strings, the parameters and their operations. *)
Theorem cmdline_parsing_terminates :
  (forall buf fmt, is_Some (vsscanf buf fmt)) /\
  (forall St (params : list (kernel_param St)) lo hi unknown args st,
     is_Some (parse_args params lo hi unknown args st)).
Proof.
  split; [exact vsscanf_total|]. intros. unfold parse_args.
  apply parse_args_loop_total; [done|apply skip_spaces_no_space].
Qed.
