(* ===== verification/Boot.v ===== *)
(** * Boot

    Disks added before the kernel is started: the command line virtio_dev_setup
    builds, and what the kernel makes of it. Host and kernel must agree on the
    address, the interrupt and the number of every device. *)

From Stdlib Require Import Strings.String.
From S2P Require Import Prelude Irq Iomem Virtio DiskDev Cmdline.

Section Boot.
Context {D K : Type} (virtio_ops : lkl_iomem_ops D) (kernel : kcall -> K -> Z * K).

Abbreviation host := (@host D K).

(** ** The part of the host that describes the command line *)

Definition boot_part (h : host) : list Z * Z * Z * bool :=
  (hs_devs h, hs_devs_pos h, hs_nboot h, hs_running h).

Definition keeps_boot {A} (c : M host A) : Prop :=
  forall h a h', c h = Ok (a, h') -> boot_part h' = boot_part h.

Lemma keeps_bind {A B} (c : M host A) (k : A -> M host B) :
  keeps_boot c -> (forall a, keeps_boot (k a)) -> keeps_boot (bindM c k).
Proof.
  intros Hc Hk h b h' H. apply bindM_inv in H as (a & h1 & H1 & H2).
  by rewrite (Hk _ _ _ _ H2), (Hc _ _ _ H1).
Qed.

Lemma keeps_ret {A} (a : A) : keeps_boot (retM a : M host A).
Proof. by intros h b h' [= _ <-]. Qed.

Lemma keeps_mod_dev p f : keeps_boot (mod_dev (D := D) (K := K) p f).
Proof. intros h a h'. unfold mod_dev. by repeat case_match; intros [= _ <-]. Qed.

Lemma keeps_get_dev p : keeps_boot (get_dev (D := D) (K := K) p).
Proof. intros h a h'. unfold get_dev. by repeat case_match; intros [= _ <-]. Qed.

Lemma keeps_free p : keeps_boot (mem_free (D := D) (K := K) p).
Proof. intros h a h'. unfold mem_free. by repeat case_match; intros [= _ <-]. Qed.

Lemma keeps_alloc b : keeps_boot (mem_alloc (D := D) (K := K) b).
Proof. intros h a h'. unfold mem_alloc. by repeat case_match; intros [= _ <-]. Qed.

Lemma keeps_get_free_irq u : keeps_boot (get_free_irq (D := D) (K := K) u).
Proof. intros h a h'. unfold get_free_irq. by case_match; intros [= _ <-]. Qed.

Lemma keeps_register data size : keeps_boot (do_register_iomem (K := K) virtio_ops data size).
Proof. intros h a h'. unfold do_register_iomem. by case_match; intros [= _ <-]. Qed.

(** Both of two facts about the same run. *)
Lemma runs_keeps {A} (c : M host A) h P :
  keeps_boot c -> runs_to c h P -> runs_to c h (fun a h' => P a h' /\ boot_part h' = boot_part h).
Proof.
  unfold runs_to. intros Hc. destruct (c h) as [[a h']|] eqn:E; [|done]. intros ?. split; [done|eauto].
Qed.

(** ** Set-up before boot *)

(** The command line is the text of the devices [l], and there are as many
    boot devices. *)
Record booting (l : list dev3) (h : host) : Prop := {
  bt_devs : hs_devs h = devices_text l;
  bt_pos : hs_devs_pos h = Z.of_nat (length (devices_text l));
  bt_nboot : hs_nboot h = Z.of_nat (length l);
  bt_running : hs_running h = false
}.

Lemma booting_part l h h' : boot_part h' = boot_part h -> booting l h -> booting l h'.
Proof. intros [= ????] []. split; congruence. Qed.

(** Room for another device on the command line, and numbers for it. *)
Definition roomy (l : list dev3) : Prop :=
  Z.of_nat (length (devices_text l)) + 84 < LKL_VIRTIO_DEVS_SIZE.

Lemma devices_text_snoc l d :
  devices_text (l ++ [d]) = devices_text l ++ (let '(size, base, irq) := d in device_param size base irq).
Proof.
  unfold devices_text. rewrite map_app, concat_app. cbn. destruct d as [[??]?]. by rewrite app_nil_r.
Qed.

(** The text of a device has at least 20 characters, so that there are never
    too many. *)
Lemma devices_text_length l : (20 * length l <= length (devices_text l))%nat.
Proof.
  induction l as [|[[s b] i] l IH]; [done|].
  assert (20 <= length (device_param s b i))%nat.
  { unfold device_param. rewrite length_app, chars_length. cbn [String.length]. lia. }
  unfold devices_text in *. cbn [map concat length]. rewrite length_app. lia.
Qed.

Lemma cmdline_boot l p q v h0 h size base :
  midway h0 p q v h -> q <> 0 -> booting l h -> roomy l ->
  runs_to (setup_cmdline p q size base (d_irq (b_dev v))) h (fun ret h' => ret = 0 /\
    booting (l ++ [(size, base, d_irq (b_dev v))]) h' /\
    midway h0 p q (on_dev (with_virtio_mmio_id (Z.of_nat (length l))) v) h').
Proof.
  intros Hm Hq [Hdevs Hpos Hnb Hrun] Hroom. unfold setup_cmdline, roomy, LKL_VIRTIO_DEVS_SIZE in *.
  pose proof (device_param_length size base (d_irq (b_dev v))) as Hlen.
  pose proof (devices_text_length l) as Hmax.
  destruct (gr_wf _ _ _ (proj1 Hm)).
  set (text := device_param _ _ _) in *.
  apply runs_bind. cbn [runs_to getM]. apply runs_bind. cbn [runs_to modifyM].
  rewrite (proj2 (Z.leb_gt _ _)) by lia. apply runs_bind. cbn [runs_to modifyM]. apply runs_bind.
  rewrite Hdevs, Hpos, Hnb, Nat2Z.id, take_ge by lia. rewrite (take_ge text) by lia.
  eapply runs_mono; [eapply runs_keeps; [apply keeps_mod_dev|eapply (mid_mod_dev h0 p q v)]|].
  - eapply mid_tables; [exact Hm| |done..]. split; try done. cbn [hs_devs_pos upd_boot upd_devs].
    unfold LKL_VIRTIO_DEVS_SIZE. lia.
  - intros [] h' [[Hm' _] Hb]. apply runs_ret. split; [done|]. split; [|done].
    eapply booting_part; [exact Hb|].
    split; cbn [hs_devs hs_devs_pos hs_nboot hs_running upd_boot upd_devs].
    + by rewrite devices_text_snoc.
    + rewrite devices_text_snoc, length_app. fold text. lia.
    + rewrite length_app. cbn [length]. rewrite u32_id by lia. lia.
    + done.
Qed.

Lemma register_base_range {S} data size (ops : lkl_iomem_ops S) rs :
  0 <= fst (register_iomem data size ops rs) < 2 ^ 64.
Proof.
  unfold register_iomem. case_match; [done|]. case_match; [done|]. simpl.
  unfold IOMEM_INDEX_TO_ADDR. apply u64_range.
Qed.

Lemma register_runs data size h :
  runs_to (K := K) (do_register_iomem virtio_ops data size) h (fun base _ => 0 <= base < 2 ^ 64).
Proof.
  unfold runs_to, do_register_iomem.
  pose proof (register_base_range data size virtio_ops (hs_iomem h)). by destruct (register_iomem _ _ _ _).
Qed.

Lemma runs_and {A} (c : M host A) h P Q :
  runs_to c h P -> runs_to c h Q -> runs_to c h (fun a h' => P a h' /\ Q a h').
Proof. unfold runs_to. by destruct (c h) as [[a h']|]. Qed.

(** A device whose description is on the command line. *)
Definition listed (l : list dev3) (id : nat) (v : virtio_blk_dev) : Prop :=
  d_virtio_mmio_id (b_dev v) = Z.of_nat id /\
  l !! id = Some (MMIO_SIZE, d_base (b_dev v), d_irq (b_dev v)).

(** Steps of set-up and of lkl_disk_add that change only the device. *)
Ltac boot_mod :=
  apply runs_bind; eapply runs_mono;
  [eapply runs_keeps; [apply keeps_mod_dev|by eapply mid_mod_dev]|].

Lemma setup_boot l h0 p v :
  host_wf h0 -> hs_heap h0 !! p = Some (BDev v) -> d_config_len (b_dev v) = BLK_CONFIG_LEN ->
  booting l h0 -> roomy l ->
  runs_to (virtio_dev_setup virtio_ops kernel p 1 32) h0 (fun ret h' =>
    ret <> 0 /\ booting l h' \/
    ret = 0 /\ exists d v', dev3_ok d /\ booting (l ++ [d]) h' /\
      hs_heap h' !! p = Some (BDev v') /\ listed (l ++ [d]) (length l) v').
Proof.
  intros Hwf Hp Hlen Hb Hroom. assert (midway h0 p 0 v h0) as Hm.
  { split_and!; [by split| |done|by left]. apply (hw_heap _ Hwf) in Hp. lia. }
  assert (forall h, boot_part h = boot_part h0 -> booting l h) as Hkeep.
  { intros h E. by eapply booting_part. }
  unfold virtio_dev_setup. apply runs_bind.
  eapply runs_mono; [apply runs_keeps; [apply keeps_get_free_irq|by apply mid_get_free_irq]|].
  intros irq h1 [[Hm1 Hirq] E1]; cbn beta in *.
  boot_mod.
  intros [] h2 [[Hm2 _] E2]; cbn beta in *.
  destruct (Z.ltb_spec irq 0); [apply runs_ret; left; split; [lia|apply Hkeep; congruence]|].
  destruct Hirq as [?|Hirq]; [lia|].
  boot_mod.
  intros [] h3 [[Hm3 _] E3]; cbn beta in *.
  apply runs_bind. eapply runs_mono; [eapply runs_keeps; [apply keeps_alloc|by eapply mid_alloc]|].
  intros q h4 [Hm4 E4]; cbn beta in *.
  boot_mod.
  intros [] h5 [[Hm5 _] E5]; cbn beta in *.
  destruct (Z.eqb_spec q 0) as [|Hq]; [apply runs_ret; left; split; [done|apply Hkeep; congruence]|].
  boot_mod.
  intros [] h6 [[Hm6 _] E6]; cbn beta in *.
  apply runs_bind. unfold get_dev, runs_to at 1. rewrite (proj1 (proj2 (proj2 Hm6))).
  apply runs_bind. eapply runs_mono.
  { apply runs_keeps; [apply keeps_register|]. apply runs_and; [by apply mid_register|apply register_runs]. }
  intros base h7 [[Hm7 Hbase] E7]; cbn beta in *.
  boot_mod.
  intros [] h8 [[Hm8 _] E8]; cbn beta in *.
  destruct (base =? 0).
  { apply runs_bind. eapply runs_mono; [eapply runs_keeps; [apply keeps_free|by eapply mid_free]|].
    intros [] h9 [_ E9]. apply runs_ret. left. split; [done|]. apply Hkeep. congruence. }
  assert (booting l h8) as Hb8 by (apply Hkeep; congruence).
  apply runs_bind. cbn [runs_to getM]. rewrite (bt_running _ _ Hb8). cbn [negb].
  eapply runs_mono; [by eapply (cmdline_boot l p q _ h0 h8 _ _ Hm8)|].
  intros ret h9 (-> & Hb9 & Hm9). right. split; [done|].
  eexists _, _. split; [|split; [exact Hb9|split; [exact (proj1 (proj2 (proj2 Hm9)))|]]].
  - cbn. rewrite Hlen. split_and!; [done|done|lia|lia|lia|]. unfold NR_IRQS, IRQ_STATUS_BITS in Hirq. lia.
  - split; [done|]. rewrite lookup_app_r, Nat.sub_diag by done. cbn. by rewrite Hlen.
Qed.

Lemma disk_add_boot l junk cap disk h :
  host_wf h -> booting l h -> roomy l ->
  runs_to (lkl_disk_add virtio_ops kernel junk cap disk) h (fun r h' =>
    - 2 ^ 31 <= fst r < 0 /\ booting l h' \/
    exists d v, dev3_ok d /\ fst r = Z.of_nat (length l) /\ booting (l ++ [d]) h' /\
      hs_heap h' !! dk_dev (snd r) = Some (BDev v) /\ listed (l ++ [d]) (length l) v).
Proof.
  intros Hwf Hb Hroom. unfold lkl_disk_add. apply runs_bind.
  eapply runs_mono; [apply runs_keeps; [apply keeps_alloc|by apply alloc_cases]|].
  intros p h1 [(Hwf1 & Hd1 & Hp) E1]; cbn beta in *.
  assert (forall g, boot_part g = boot_part h -> booting l g) as Hkeep.
  { intros g E. by eapply booting_part. }
  pose proof (hw_next _ Hwf) as Hpos.
  destruct Hp as [(-> & _ & _)|(Hp & Hh1 & Hn1)]; [apply runs_ret; left; split; [done|auto]|].
  rewrite (proj2 (Z.eqb_neq p 0)) by lia.
  assert (midway h1 p 0 junk h1) as Hm1.
  { split_and!; [by split|lia|rewrite Hh1; by simplify_map_eq|by left]. }
  boot_mod. intros [] h2 [[Hm2 _] E2]; cbn beta in *.
  assert (forall g q v r, midway h1 p q v g -> booting l g -> - 2 ^ 31 <= r < 0 ->
    runs_to (mem_free p ;;; retM (r, LklDisk p (dk_handle disk))) g (fun r h' =>
      - 2 ^ 31 <= fst r < 0 /\ booting l h')) as Hfail.
  { intros g q v r Hg Hbg Hr. apply runs_bind. unfold runs_to at 1, mem_free.
    rewrite (proj1 (proj2 (proj2 Hg))). apply runs_ret. split; [done|]. by apply (booting_part l g). }
  destruct (cap _) as [ret capacity]. destruct (ret =? 0); cbn [negb].
  2: { eapply runs_mono; [eapply Hfail; [exact Hm2|apply Hkeep; congruence|done]|]. by left. }
  boot_mod. intros [] h3 [[Hm3 _] E3]; cbn beta in *.
  pose proof Hm3 as ([Hwf3 Hn3 _ Hd3] & _ & Hp3 & _).
  apply runs_bind. eapply runs_mono.
  { apply runs_and; [by eapply setup_safe|].
    eapply setup_boot; [done|exact Hp3|done|apply Hkeep; congruence|done]. }
  intros r h4 [(q & v & Hm4 & Hr) Hboot]; cbn beta in *.
  destruct (Z.eqb_spec r 0) as [->|Hne]; cbn [negb].
  - destruct Hboot as [[? _]|(_ & d & v' & Hd & Hb4 & Hv' & Hl)]; [done|].
    apply runs_bind. unfold runs_to at 1, get_dev. rewrite Hv'. apply runs_ret. right.
    exists d, v'. split_and!; try done. cbn [fst]. rewrite (proj1 Hl).
    pose proof (devices_text_length l). unfold roomy, LKL_VIRTIO_DEVS_SIZE in Hroom. apply s32_id. lia.
  - destruct Hboot as [[_ Hb4]|[-> _]]; [|done].
    eapply runs_mono; [eapply Hfail; [exact (mid_trans _ _ _ _ _ _ _ _ Hm3 Hm4)|done|destruct Hr; lia]|]. by left.
Qed.

(** ** Host and kernel agree *)

(** Every numbered disk is a live device that the command line describes
    under its number. *)
Record agree (l : list dev3) (h : host) : Prop := {
  ag_disks : disks_ok h;
  ag_boot : booting l h;
  ag_ok : Forall dev3_ok l;
  ag_listed : forall id dk v, disk_id id -> hs_disks h !! id = Some dk -> dev_at (dk_dev dk) v h ->
    listed l (Z.to_nat id) v
}.

Lemma listed_app l d id v : listed l id v -> listed (l ++ [d]) id v.
Proof. intros [? Hl]. split; [done|]. by apply lookup_app_l_Some. Qed.

(** The entries of the table that were there stay listed. *)
Lemma listed_old l l' h h' id dk v :
  agree l h -> keeps h h' -> (forall i v, listed l i v -> listed l' i v) ->
  disk_id id -> hs_disks h !! id = Some dk -> dev_at (dk_dev dk) v h' -> listed l' (Z.to_nat id) v.
Proof.
  intros [[Hwf Hlive _] _ _ Hl] (_ & _ & Hh) Hsub Hid Hdk Hv.
  destruct (Hlive _ _ Hid Hdk) as [v0 Hv0]. pose proof Hv0 as (Hp & Hq & _).
  apply (hw_heap _ Hwf) in Hp, Hq.
  assert (dev_at (dk_dev dk) v0 h') as Hv0' by (eapply dev_at_mono; [done|apply Hh; lia..]).
  rewrite (dev_at_fun _ _ _ _ Hv Hv0'). by eapply Hsub, Hl.
Qed.

Lemma agree_add l junk cap disk h :
  agree l h -> roomy l ->
  runs_to (do_disk_add virtio_ops kernel junk cap disk) h (fun _ h' =>
    agree l h' \/ exists d, agree (l ++ [d]) h').
Proof.
  intros Hag Hroom. pose proof Hag as [Hok Hb Hl3 Hl]. pose proof (do_wf _ Hok) as Hwf.
  eapply runs_mono; [apply runs_and; [by apply disks_ok_add|]|].
  { unfold do_disk_add. apply runs_bind.
    eapply runs_mono; [apply runs_and; [by apply disk_add_safe|by apply (disk_add_boot l)]|].
    intros r h1 [[Hk Hsafe] Hboot]; cbn beta. apply runs_bind. cbn [runs_to]. apply runs_ret.
    instantiate (1 := fun _ h' => exists l', booting l' h' /\ Forall dev3_ok l' /\
      (l' = l \/ exists d, l' = l ++ [d]) /\
      forall id dk v, disk_id id -> hs_disks h' !! id = Some dk -> dev_at (dk_dev dk) v h' ->
        listed l' (Z.to_nat id) v).
    cbn beta. pose proof Hk as (_ & Hd1 & _).
    destruct Hboot as [[Hneg Hb1]|(d & v1 & Hd & Hr & Hb1 & Hv1 & Hls)].
    - exists l. split_and!; [by apply (booting_part l h1)|done|by left|].
      intros id dk v Hid. cbn [hs_disks upd_disks]. rewrite Hd1, lookup_insert_Some.
      intros [[<- _]|[_ Hdk]] Hv; [unfold disk_id, u32 in Hid; lia|]. by eapply listed_old.
    - exists (l ++ [d]). split_and!; [by apply (booting_part (l ++ [d]) h1)| |by right; exists d|].
      { apply list.Forall_app. split; [done|]. by apply list.Forall_cons. }
      intros id dk v Hid. cbn [hs_disks upd_disks]. rewrite Hd1, lookup_insert_Some.
      intros [[<- <-]|[_ Hdk]] Hv.
      + rewrite Hr in *. pose proof (devices_text_length l). unfold roomy, LKL_VIRTIO_DEVS_SIZE in Hroom.
        rewrite u32_id, Nat2Z.id by lia. destruct Hv as [Hv _]. cbn in Hv.
        assert (v = v1) as -> by congruence. done.
      + eapply listed_old; [exact Hag|exact Hk|apply listed_app|done|done|done]. }
  intros r h' [Hok' (l' & Hb' & Hl3' & Hl' & Hls)].
  destruct Hl' as [->|[d ->]]; [left|right; exists d]; by split.
Qed.

(** A list of additions. *)
Definition is_add (o : disk_op) : Prop := match o with DAdd _ _ _ => True | DRemove _ => False end.

Lemma devices_text_max l : (length (devices_text l) <= 84 * length l)%nat.
Proof.
  induction l as [|[[s b] i] l IH]; [done|]. pose proof (device_param_length s b i).
  unfold devices_text in *. cbn [map concat length]. rewrite length_app. lia.
Qed.

Lemma agree_adds ops l h :
  agree l h -> Forall is_add ops -> (length l + length ops <= 48)%nat ->
  runs_to (run_ops virtio_ops kernel ops) h (fun _ h' => exists l', agree l' h' /\ (length l' <= 48)%nat).
Proof.
  intros Hag Hops. revert l h Hag. induction Hops as [|o ops Ho _ IH]; intros l h Hag Hn; simpl in Hn.
  { apply runs_ret. exists l. split; [done|lia]. }
  destruct o as [junk cap disk|]; [|done]. apply runs_bind. cbn [run_op]. apply runs_bind.
  eapply runs_mono.
  { apply agree_add; [exact Hag|]. unfold roomy, LKL_VIRTIO_DEVS_SIZE. pose proof (devices_text_max l). lia. }
  intros r h1 [Hag1|[d Hag1]]; apply runs_ret; eapply IH; [done|lia|done|].
  rewrite length_app. simpl. lia.
Qed.

Lemma platform_devices_lookup id l (i : nat) size base irq :
  l !! i = Some (size, base, irq) ->
  platform_devices id l !! i =
    Some (PlatformDevice (id + Z.of_nat i) base (u64 (base + size - 1)) irq).
Proof.
  revert id i. induction l as [|[[s b] q] l IH]; intros id [|i]; [done..| |]; simpl.
  - intros [= -> -> ->]. by rewrite Z.add_0_r.
  - intros ->%(IH (id + 1)). do 2 f_equal. lia.
Qed.

Lemma platform_devices_length id l : length (platform_devices id l) = length l.
Proof. revert id. induction l as [|[[s b] q] l IH]; intros id; simpl; [done|]. by rewrite IH. Qed.

(** ** The property *)

Context (register_answer : platform_device -> Z) (level : Z)
  (before after : list (kernel_param vm_state))
  (unknown : list Z -> option (list Z) -> vm_state -> Z * vm_state).

(** The parameters of the kernel, that of virtio_mmio among them. *)
Definition boot_params : list (kernel_param vm_state) :=
  before ++ vm_cmdline_param 0 register_answer level :: after.

(** C18: Host and kernel agree on the disks added before the kernel is started.
    Whatever up to 48 additions do (allocations, capacity operations and tables
    may fail), parsing the command line they leave registers as many platform
    devices as there are boot devices, without an error; and the device of every
    disk number is the platform device with this number, with the base address
    and the interrupt the host recorded, spanning the registers and the
    configuration. *)
Theorem boot_devices_agree ops h :
  disks_ok h -> hs_disks h = ∅ -> booting [] h -> Forall is_add ops -> (length ops <= 48)%nat ->
  (forall d, 0 <= register_answer d) ->
  Forall (fun q => parameq (chars "virtio_mmio.device") (kp_name q) = false) before ->
  exists h' st,
    run_ops virtio_ops kernel ops h = Ok (tt, h') /\
    parse_args boot_params level level unknown (boot_command_line [] (hs_devs h')) vm_init =
      Some (inl 0, st) /\
    Z.of_nat (length (vs_devices st)) = hs_nboot h' /\
    forall id dk, disk_id id -> hs_disks h' !! id = Some dk ->
      exists v, dev_at (dk_dev dk) v h' /\ d_virtio_mmio_id (b_dev v) = id /\
        vs_devices st !! Z.to_nat id = Some (PlatformDevice id (d_base (b_dev v))
          (u64 (d_base (b_dev v) + MMIO_SIZE - 1)) (d_irq (b_dev v))).
Proof.
  intros Hok Hemp Hb Hops Hn Hreg Hps.
  assert (agree [] h) as Hag.
  { split; [done|done|done|]. intros id dk v _. by rewrite Hemp, lookup_empty. }
  pose proof (agree_adds ops [] h Hag Hops Hn) as Hr. unfold runs_to in Hr.
  destruct (run_ops virtio_ops kernel ops h) as [[[] h']|] eqn:E; [|done].
  destruct Hr as (l & [[_ Hlive _] [Hdevs Hpos Hnb _] H3 Hl] & Hlen).
  destruct (parse_args_devices 0 register_answer level before after unknown eq_refl Hreg Hps l)
    as (st & Hst & Hds); [done|lia|].
  exists h', st. split; [done|]. split.
  { unfold boot_command_line. cbn [app length]. rewrite take_ge; [by rewrite Hdevs|].
    rewrite Hdevs. pose proof (devices_text_max l). unfold COMMAND_LINE_SIZE. lia. }
  split; [by rewrite Hds, platform_devices_length, Hnb|].
  intros id dk Hid Hdk. destruct (Hlive _ _ Hid Hdk) as [v Hv].
  destruct (Hl _ _ _ Hid Hdk Hv) as [Hvid Hlk]. unfold disk_id in Hid.
  exists v. split; [done|]. split; [lia|]. rewrite Hds. rewrite (platform_devices_lookup 0 _ _ _ _ _ Hlk).
  do 2 f_equal. lia.
Qed.

End Boot.

(** *** Witness *)

Lemma start_booting : booting [] (DiskDemo.start false).
Proof. by split. Qed.

Lemma boot_devices_agree_witness :
  exists h' st,
    run_ops reg_ops (DiskDemo.kernel 0)
      [DAdd DiskDemo.junk DiskDemo.cap (LklDisk 5 9); DAdd DiskDemo.junk DiskDemo.cap (LklDisk 5 8)]
      (DiskDemo.start false) = Ok (tt, h') /\
    parse_args (boot_params (fun _ => 0) 6 [] []) 6 6 (fun _ _ st => (0, st))
      (boot_command_line [] (hs_devs h')) vm_init = Some (inl 0, st).
Proof.
  destruct (boot_devices_agree reg_ops (DiskDemo.kernel 0) (fun _ => 0) 6 [] [] (fun _ _ st => (0, st))
    [DAdd DiskDemo.junk DiskDemo.cap (LklDisk 5 9); DAdd DiskDemo.junk DiskDemo.cap (LklDisk 5 8)]
    (DiskDemo.start false)) as (h' & st & Hr & Hp & _);
    [apply DiskDemo.start_disks|reflexivity|exact start_booting|repeat constructor|simpl; lia|done
    |constructor|]. exists h', st. split; [exact Hr|exact Hp].
Defined.
